(** * u3vdb: the host side of a USB3-Vision terminal, embedded in Rocq

    The development follows [src/main.cpp]:

    - the U3VCP transport of [U3VDevice] ([readMemory], [writeMemory] and the
      register helpers) at the level of the bytes that cross the bulk
      endpoints;
    - the session layer of [TerminalClient] ([initialize], [ensureAuth],
      [ensureSession], [reset], [lock], [sendCommand], [drainOutput]);
    - the file-transfer engine ([prepareFilePath], [performFileDownload],
      [performFileUpload]) and the runners ([runOnce], the two interactive
      loops, the tail of [main]).

    The program is effectful: it talks to a USB device, sleeps, reads a clock,
    the keyboard and local files.  All of that is made explicit in a [State]
    that holds the two C++ objects together with a [World]: the answers the
    environment will give (results of the coming bulk transfers, keyboard
    input, local files) and a trace of what the program has done so far. *)

From Stdlib Require Import String.
From Stdlib Require Import ZArith List Bool Lia ZifyBool.
From Stdlib Require Import Strings.Byte.
Import ListNotations.
Local Open Scope Z_scope.

(** ** Bytes and little-endian integers *)

(** [std::string] and [std::vector<uint8_t>] are both sequences of bytes. *)
Definition bstring := list byte.

Definition Z_of_byte (b : byte) : Z := Z.of_N (Byte.to_N b).

Definition byte_of_Z (z : Z) : byte :=
  match Byte.of_N (Z.to_N (z mod 256)) with
  | Some b => b
  | None => x00
  end.

(** A C++ string or character literal, as its bytes. *)
Definition B (s : string) : bstring := list_byte_of_string s.

(** [le n v]: the [n] low bytes of [v], least significant first (what
    [memcpy] of an [n]-byte unsigned integer yields on the little-endian
    hosts the tool runs on). *)
Fixpoint le (n : nat) (v : Z) : bstring :=
  match n with
  | O => []
  | S n' => byte_of_Z v :: le n' (v / 256)
  end.

Fixpoint unle (l : bstring) : Z :=
  match l with
  | [] => 0
  | b :: r => Z_of_byte b + 256 * unle r
  end.

Definition bytes_eqb (a b : bstring) : bool :=
  if list_eq_dec Byte.byte_eq_dec a b then true else false.

Definition uint16 (v : Z) : Z := v mod 65536.

(** ** Constants of the protocol *)

Definition TY_UVCP_MAX_MSG_LEN : Z := 65536.

Module UVCPConstants.
Definition MAGIC : Z := 0x43563355.
Definition FLAGS_REQUEST_ACK : Z := Z.shiftl 1 14.
Definition COMMAND_READ_MEMORY_CMD : Z := 0x0800.
Definition COMMAND_READ_MEMORY_ACK : Z := 0x0801.
Definition COMMAND_WRITE_MEMORY_CMD : Z := 0x0802.
Definition COMMAND_WRITE_MEMORY_ACK : Z := 0x0803.
Definition COMMAND_PENDING_ACK : Z := 0x0805.
Definition COMMAND_EVENT_CMD : Z := 0x0c00.
Definition COMMAND_EVENT_ACK : Z := 0x0c01.
End UVCPConstants.
Import UVCPConstants.

(** Offsets of the packed wire structures ([#pragma pack(push, 1)]):
    [UVCPHeader] is magic:4, flags:2, command:2, size:2, id:2. *)
Definition off_magic : nat := 0.
Definition off_flags : nat := 4.
Definition off_command : nat := 6.
Definition off_size : nat := 8.
Definition off_id : nat := 10.
Definition sizeof_UVCPHeader : nat := 12.
(** [UVCPPendingAck.timeout_ms] and [UVCPWriteMemoryAck.bytes_written] both
    follow the header and one 16-bit field. *)
Definition off_timeout_ms : nat := 14.
Definition off_bytes_written : nat := 14.

Definition kTerminalMagic : Z := 0x5445524D.
Definition kTerminalBaseAddr : Z := 0x30000.
Definition kTerminalVersionAddr : Z := kTerminalBaseAddr + 0x4.
Definition kTerminalStatusAddr : Z := kTerminalBaseAddr + 0x8.
Definition kTerminalAvailAddr : Z := kTerminalBaseAddr + 0xC.
Definition kTerminalChunkHintAddr : Z := kTerminalBaseAddr + 0x10.
Definition kTerminalAuthStatusAddr : Z := kTerminalBaseAddr + 0x14.
Definition kTerminalAuthCmdAddr : Z := kTerminalBaseAddr + 0x18.
Definition kTerminalAuthBufAddr : Z := kTerminalBaseAddr + 0x1C.
Definition kTerminalDataAddr : Z := kTerminalBaseAddr + 0x100.

Definition kTerminalFileCmdAddr : Z := kTerminalBaseAddr + 0x40.
Definition kTerminalFileStatusAddr : Z := kTerminalBaseAddr + 0x44.
Definition kTerminalFileResultAddr : Z := kTerminalBaseAddr + 0x48.
Definition kTerminalFileSizeLowAddr : Z := kTerminalBaseAddr + 0x4C.
Definition kTerminalFileSizeHighAddr : Z := kTerminalBaseAddr + 0x50.
Definition kTerminalFileCursorLowAddr : Z := kTerminalBaseAddr + 0x54.
Definition kTerminalFileCursorHighAddr : Z := kTerminalBaseAddr + 0x58.
Definition kTerminalFileDataAvailAddr : Z := kTerminalBaseAddr + 0x5C.
Definition kTerminalFilePathAddr : Z := kTerminalBaseAddr + 0x60.
Definition kTerminalFilePathCapacity : Z := 0x60.
Definition kTerminalFileDataAddr : Z := kTerminalBaseAddr + 0xC0.
Definition kTerminalFileDataWindow : Z := 0x40.

Definition kStatusReady : Z := Z.shiftl 1 0.
Definition kStatusChildAlive : Z := Z.shiftl 1 1.
Definition kStatusOutputPending : Z := Z.shiftl 1 2.
Definition kStatusOverflow : Z := Z.shiftl 1 3.
Definition kStatusError : Z := Z.shiftl 1 4.

Definition kCtrlStart : Z := Z.shiftl 1 0.
Definition kCtrlReset : Z := Z.shiftl 1 1.
Definition kCtrlSigInt : Z := Z.shiftl 1 2.
Definition kCtrlSigTerm : Z := Z.shiftl 1 3.
Definition kCtrlClearFlags : Z := Z.shiftl 1 4.
Definition kCtrlEchoEnable : Z := Z.shiftl 1 5.
Definition kCtrlEchoDisable : Z := Z.shiftl 1 6.

Definition kFileCmdNone : Z := 0.
Definition kFileCmdOpenRead : Z := 1.
Definition kFileCmdOpenWrite : Z := 2.
Definition kFileCmdClose : Z := 3.
Definition kFileCmdReset : Z := 4.

Definition kFileStatusBusy : Z := Z.shiftl 1 0.
Definition kFileStatusError : Z := Z.shiftl 1 1.
Definition kFileStatusEof : Z := Z.shiftl 1 2.
Definition kFileStatusReading : Z := Z.shiftl 1 3.
Definition kFileStatusWriting : Z := Z.shiftl 1 4.
Definition kFileStatusOpen : Z := Z.shiftl 1 5.
Definition kFileStatusPathReady : Z := Z.shiftl 1 6.

(** [status & bit] used as a C++ condition. *)
Definition has_bit (v bit : Z) : bool := negb (Z.land v bit =? 0).

(** ** What the program prints *)

(** One constructor per [std::cerr] line of the modelled code.  The names
    follow the error taxonomy of the specification where it has one. *)
Inductive Diag : Type :=
| NotClaimed                          (* "Interface not claimed" *)
| BulkOutFailed                       (* "Bulk OUT failed: ..." *)
| BulkInFailed                        (* "Bulk IN failed: ..." *)
| BulkInEmpty                         (* "Bulk IN returned n bytes" *)
| BadMagic                            (* "Invalid ACK magic" *)
| IdMismatch (got want : Z)           (* "ACK id mismatch: got .., expected .." *)
| TooManyPending                      (* "Too many PENDING_ACK responses" *)
| UnexpectedCommand (got : Z)         (* "Unexpected ACK command: 0x.." *)
| SizeMismatch (got want : Z)         (* "Read size mismatch: got .., expected .." *)
| WriteSizeMismatch (got want : Z)    (* "Write bytes mismatch: got .., expected .." *)
| TerminalHeaderFailed                (* "Failed to read terminal header" *)
| BadTerminalMagic (got : Z)          (* "Unexpected terminal magic 0x.." *)
| SessionTimeout                      (* "Timed out waiting for terminal session" *)
| AuthRequired                        (* "Terminal locked: provide password via --password" *)
| AuthFailed                          (* "Authentication failed" *)
| OverflowWarning                     (* "Warning: terminal output overflowed, ..." *)
| TerminalErrorBit                    (* "Terminal reported error bit" *)
| UsageGet                            (* "Usage: u3vget <remote-path> <local-path>" *)
| UsagePut                            (* "Usage: u3vput <local-path> <remote-path>" *)
| PathRequired                        (* "Remote path must not be empty" *)
| PathTooLong                         (* "Remote path exceeds 95 bytes limit" *)
| FileOpenTimeout                     (* "Timed out waiting for file channel" *)
| FileError (context : bstring) (errno : Z) (* "<context> failed[: errno=.. (..)]" *)
| LocalOpenWriteFailed (path : bstring) (* "Unable to open local file '..' for writing" *)
| LocalWriteFailed (path : bstring)     (* "Failed writing to local file '..'" *)
| LocalOpenReadFailed (path : bstring)  (* "Unable to open local file '..'" *)
| TtyFailed                           (* perror("tcgetattr") / perror("tcsetattr") *)
| FallbackToV1 (version : Z).         (* "kTerminal version 0x.. is below ..." *)

(** What goes to [std::cout] (or to file descriptor 1). *)
Inductive Output : Type :=
| Raw (data : bstring)                              (* device output, a newline *)
| ShellReady (version : Z)                        (* "Interactive shell ready ..." *)
| DownloadProgress (received total : Z)           (* "\rDownloading: ..." *)
| Downloaded (remote local : bstring) (size : Z)    (* "Downloaded '..' -> '..'" *)
| UploadProgress (sent total : Z)                 (* "\rUploading:   ..." *)
| Uploaded (local remote : bstring) (size : Z).     (* "Uploaded '..' -> '..'" *)

(** The trace of a run, oldest event first. *)
Inductive Event : Type :=
| BulkOut (frame : bstring)      (* a bulk OUT transfer was submitted with this buffer *)
| Sleep (ms : Z)               (* std::this_thread::sleep_for *)
| Cerr (d : Diag)
| Cout (o : Output)
| TtyRaw                       (* the local terminal was switched to raw mode *)
| TtyRestore                   (* ... and restored by the guard *)
| Shutdown.                    (* U3VDevice::shutdown released the device *)

(** ** The state of a run *)

(** Result of one bulk IN transfer: [InError] is [rc != LIBUSB_SUCCESS],
    [InData d] is a successful transfer that delivered [d]
    ([transferred = length d]). *)
Inductive InOutcome : Type :=
| InError
| InData (d : bstring).

Record World : Type := mkWorld {
  w_open_ok : bool;                 (* U3VDevice::open finds and opens the device *)
  w_find_ok : bool;                 (* findU3VControlInterface finds the endpoints *)
  w_claim_ok : bool;                (* claimInterface succeeds *)
  w_out : list bool;                (* coming bulk OUT transfers: rc == SUCCESS && transferred == length *)
  w_in : list InOutcome;            (* coming bulk IN transfers *)
  w_latency : Z;                    (* duration of one bulk transfer, ms *)
  w_now : Z;                        (* std::chrono::steady_clock, ms *)
  w_stdin_lines : list bstring;       (* std::cin as std::getline sees it *)
  w_stdin_polls : list (option bstring); (* stdin as select + read see it *)
  w_tty_ok : bool;                  (* tcgetattr and tcsetattr succeed *)
  w_files : list (bstring * bstring);   (* local files: path, content *)
  w_readonly : list bstring;          (* local paths that cannot be opened for writing *)
  w_disk_free : Z;                  (* bytes that can still be written locally *)
  w_trace : list Event
}.

(** The fields of [class U3VDevice] that the protocol code reads; the libusb
    handles are part of the world. *)
Record U3VDevice : Type := mkDevice {
  handle_ : bool;                   (* handle_ != nullptr *)
  claimed_ : bool;
  requestId_ : Z
}.

Record TerminalClient : Type := mkClient {
  initialized_ : bool;
  version_ : Z;
  chunkHint_ : Z;
  password_ : bstring;
  echoEnabled_ : bool
}.

Record State : Type := mkState {
  device_ : U3VDevice;
  terminal : TerminalClient;
  world : World
}.

Definition U3VDevice_new : U3VDevice :=
  {| handle_ := false; claimed_ := false; requestId_ := 0 |}.

Definition TerminalClient_new : TerminalClient :=
  {| initialized_ := false; version_ := 0; chunkHint_ := 4096;
     password_ := []; echoEnabled_ := true |}.

Definition set_world (w : World) (s : State) : State :=
  {| device_ := device_ s; terminal := terminal s; world := w |}.
Definition set_device (d : U3VDevice) (s : State) : State :=
  {| device_ := d; terminal := terminal s; world := world s |}.
Definition set_terminal (t : TerminalClient) (s : State) : State :=
  {| device_ := device_ s; terminal := t; world := world s |}.

Definition trace (s : State) : list Event := w_trace (world s).

Definition with_trace (t : list Event) (w : World) : World :=
  mkWorld (w_open_ok w) (w_find_ok w) (w_claim_ok w) (w_out w) (w_in w) (w_latency w) (w_now w)
    (w_stdin_lines w) (w_stdin_polls w) (w_tty_ok w) (w_files w)
    (w_readonly w) (w_disk_free w) t.
Definition with_now (t : Z) (w : World) : World :=
  mkWorld (w_open_ok w) (w_find_ok w) (w_claim_ok w) (w_out w) (w_in w) (w_latency w) t
    (w_stdin_lines w) (w_stdin_polls w) (w_tty_ok w) (w_files w)
    (w_readonly w) (w_disk_free w) (w_trace w).
Definition with_out (o : list bool) (w : World) : World :=
  mkWorld (w_open_ok w) (w_find_ok w) (w_claim_ok w) o (w_in w) (w_latency w) (w_now w)
    (w_stdin_lines w) (w_stdin_polls w) (w_tty_ok w) (w_files w)
    (w_readonly w) (w_disk_free w) (w_trace w).
Definition with_in (i : list InOutcome) (w : World) : World :=
  mkWorld (w_open_ok w) (w_find_ok w) (w_claim_ok w) (w_out w) i (w_latency w) (w_now w)
    (w_stdin_lines w) (w_stdin_polls w) (w_tty_ok w) (w_files w)
    (w_readonly w) (w_disk_free w) (w_trace w).
Definition with_stdin_lines (l : list bstring) (w : World) : World :=
  mkWorld (w_open_ok w) (w_find_ok w) (w_claim_ok w) (w_out w) (w_in w) (w_latency w) (w_now w)
    l (w_stdin_polls w) (w_tty_ok w) (w_files w)
    (w_readonly w) (w_disk_free w) (w_trace w).
Definition with_stdin_polls (p : list (option bstring)) (w : World) : World :=
  mkWorld (w_open_ok w) (w_find_ok w) (w_claim_ok w) (w_out w) (w_in w) (w_latency w) (w_now w)
    (w_stdin_lines w) p (w_tty_ok w) (w_files w)
    (w_readonly w) (w_disk_free w) (w_trace w).
Definition with_files (f : list (bstring * bstring)) (free : Z) (w : World) : World :=
  mkWorld (w_open_ok w) (w_find_ok w) (w_claim_ok w) (w_out w) (w_in w) (w_latency w) (w_now w)
    (w_stdin_lines w) (w_stdin_polls w) (w_tty_ok w) f
    (w_readonly w) free (w_trace w).

(** ** The monad of the model *)

(** A computation runs from a state to one of three outcomes: it returns, it
    runs into undefined behaviour of the C++ (an access outside an array), or
    the model ran out of the fuel that bounds its open-ended loops. *)
Inductive Res (A : Type) : Type :=
| Done (a : A) (s : State)
| Undefined (s : State)
| OutOfFuel (s : State).
Arguments Done {A} a s.
Arguments Undefined {A} s.
Arguments OutOfFuel {A} s.

Definition M (A : Type) : Type := State -> Res A.

Definition ret {A} (a : A) : M A := fun s => Done a s.

Definition bind {A B} (m : M A) (k : A -> M B) : M B :=
  fun s =>
    match m s with
    | Done a s' => k a s'
    | Undefined s' => Undefined s'
    | OutOfFuel s' => OutOfFuel s'
    end.

Declare Scope m_scope.
Delimit Scope m_scope with m.
Notation "x <- m ;; k" := (bind m (fun x => k))
  (at level 61, m at next level, right associativity) : m_scope.
Notation "m ;; k" := (bind m (fun _ => k))
  (at level 61, right associativity) : m_scope.
Local Open Scope m_scope.

Definition undefined {A} : M A := fun s => Undefined s.
Definition out_of_fuel {A} : M A := fun s => OutOfFuel s.

Definition state_of {A} (r : Res A) : State :=
  match r with
  | Done _ s => s
  | Undefined s => s
  | OutOfFuel s => s
  end.

Definition get {A} (f : State -> A) : M A := fun s => Done (f s) s.

Definition emit (e : Event) : M unit :=
  fun s => Done tt (set_world (with_trace (trace s ++ [e]) (world s)) s).

Definition cerr (d : Diag) : M unit := emit (Cerr d).
Definition cout (o : Output) : M unit := emit (Cout o).

Definition now : M Z := get (fun s => w_now (world s)).

Definition elapse (ms : Z) : M unit :=
  fun s => Done tt (set_world (with_now (w_now (world s) + ms) (world s)) s).

Definition sleep_for (ms : Z) : M unit :=
  emit (Sleep ms) ;; elapse ms.

(** ** class U3VDevice: the U3VCP transport *)

(** The receive buffer is a [std::array<uint8_t, TY_UVCP_MAX_MSG_LEN>] that
    starts zeroed.  It is kept as the bytes stored in it so far; every
    position beyond them still reads as zero. *)
Definition peek (buffer : bstring) (off n : nat) : Z :=
  unle (map (fun i => nth i buffer x00) (seq off n)).

(** A transfer of [d] into the buffer replaces its first [length d] bytes
    and leaves what an earlier, longer transfer stored behind them. *)
Definition overwrite (buffer d : bstring) : bstring :=
  d ++ skipn (length d) buffer.

Definition UVCPHeader (command size id : Z) : bstring :=
  le 4 MAGIC ++ le 2 FLAGS_REQUEST_ACK ++ le 2 command ++ le 2 size ++ le 2 id.

(** [UVCPReadMemoryCmd]: header, address:8, unknown:2, size:2. *)
Definition UVCPReadMemoryCmd (id address bytes : Z) : bstring :=
  UVCPHeader COMMAND_READ_MEMORY_CMD (8 + 2 + 2) id
    ++ le 8 address ++ le 2 0 ++ le 2 bytes.

(** [UVCPWriteMemoryCmd]: header, address:8, then the data;
    [header.size = sizeof(address) + bytes], stored in 16 bits. *)
Definition UVCPWriteMemoryCmd (id startAddress : Z) (data : bstring) (bytes : Z)
  : bstring :=
  UVCPHeader COMMAND_WRITE_MEMORY_CMD (uint16 (8 + bytes)) id
    ++ le 8 startAddress ++ firstn (Z.to_nat bytes) data.

Definition kMaxPendingLoops : nat := 5.

Definition set_requestId (id : Z) (s : State) : State :=
  set_device {| handle_ := handle_ (device_ s); claimed_ := claimed_ (device_ s);
                requestId_ := id |} s.

(** [uint16_t nextRequestId() { return ++requestId_; }] *)
Definition nextRequestId : M Z :=
  fun s =>
    let id := uint16 (requestId_ (device_ s) + 1) in
    Done id (set_requestId id s).

(** The next answer of the OUT endpoint; a device that has stopped answering
    fails the transfer. *)
Definition take_out : M bool :=
  fun s => Done (hd false (w_out (world s)))
                (set_world (with_out (tl (w_out (world s))) (world s)) s).

Definition take_in : M InOutcome :=
  fun s => Done (hd InError (w_in (world s)))
                (set_world (with_in (tl (w_in (world s))) (world s)) s).

Definition transfer_time : M unit :=
  lat <- get (fun s => w_latency (world s)) ;; elapse lat.

Definition bulkSend (data : bstring) : M bool :=
  emit (BulkOut data) ;;
  ok <- take_out ;;
  transfer_time ;;
  if negb ok then cerr BulkOutFailed ;; ret false
  else ret true.

(** Returns the buffer after the transfer, or [None] where the C++ returns
    [false].  libusb never delivers more than the [length] it was given: a
    longer answer is [LIBUSB_ERROR_OVERFLOW]. *)
Definition bulkReceive (buffer : bstring) : M (option bstring) :=
  r <- take_in ;;
  transfer_time ;;
  match r with
  | InError => cerr BulkInFailed ;; ret None
  | InData d =>
      if Z.of_nat (length d) >? TY_UVCP_MAX_MSG_LEN then
        cerr BulkInFailed ;; ret None
      else if Z.of_nat (length d) <=? 0 then
        cerr BulkInEmpty ;; ret None
      else ret (Some (overwrite buffer d))
  end.

(** [outBytes.assign(ack->data, ack->data + bytes)]: [bytes] bytes of the
    buffer from the end of the header on. *)
Definition ack_data (buffer : bstring) (bytes : Z) : bstring :=
  map (fun i => nth i buffer x00) (seq sizeof_UVCPHeader (Z.to_nat bytes)).

(** The [while (true)] of [readMemory].  [left] is how many more PENDING_ACK
    frames are tolerated, [kMaxPendingLoops - pendingLoops]: the test
    [++pendingLoops > kMaxPendingLoops] fails the transaction exactly when
    none is left. *)
Fixpoint readMemory_loop (left : nat) (id bytes : Z) (buffer : bstring)
  : M (option bstring) :=
  r <- bulkReceive buffer ;;
  match r with
  | None => ret None
  | Some buffer =>
      if negb (peek buffer off_magic 4 =? MAGIC) then
        cerr BadMagic ;; ret None
      else if negb (peek buffer off_id 2 =? id) then
        cerr (IdMismatch (peek buffer off_id 2) id) ;; ret None
      else if peek buffer off_command 2 =? COMMAND_PENDING_ACK then
        let waitMs := peek buffer off_timeout_ms 2 in
        match left with
        | O => cerr TooManyPending ;; ret None
        | S left' =>
            sleep_for (if waitMs =? 0 then 1 else waitMs) ;;
            readMemory_loop left' id bytes buffer
        end
      else if negb (peek buffer off_command 2 =? COMMAND_READ_MEMORY_ACK) then
        cerr (UnexpectedCommand (peek buffer off_command 2)) ;; ret None
      else if negb (peek buffer off_size 2 =? bytes) then
        cerr (SizeMismatch (peek buffer off_size 2) bytes) ;; ret None
      else if Z.of_nat sizeof_UVCPHeader + bytes >? TY_UVCP_MAX_MSG_LEN then
        undefined (* the copy runs past the end of the buffer *)
      else ret (Some (ack_data buffer bytes))
  end.

(** [bool readMemory(uint32_t address, uint16_t bytes, std::vector<uint8_t>& outBytes)]:
    [Some out] is [true] with [outBytes = out], [None] is [false]. *)
Definition readMemory (address bytes : Z) : M (option bstring) :=
  claimed <- get (fun s => claimed_ (device_ s)) ;;
  if negb claimed then cerr NotClaimed ;; ret None
  else if bytes =? 0 then ret (Some [])
  else
    id <- nextRequestId ;;
    ok <- bulkSend (UVCPReadMemoryCmd id address bytes) ;;
    if negb ok then ret None
    else readMemory_loop kMaxPendingLoops id bytes [].

Fixpoint writeMemory_loop (left : nat) (id bytes : Z) (buffer : bstring)
  : M bool :=
  r <- bulkReceive buffer ;;
  match r with
  | None => ret false
  | Some buffer =>
      if negb (peek buffer off_magic 4 =? MAGIC) then
        cerr BadMagic ;; ret false
      else if negb (peek buffer off_id 2 =? id) then
        cerr (IdMismatch (peek buffer off_id 2) id) ;; ret false
      else if peek buffer off_command 2 =? COMMAND_PENDING_ACK then
        let waitMs := peek buffer off_timeout_ms 2 in
        match left with
        | O => cerr TooManyPending ;; ret false
        | S left' =>
            sleep_for (if waitMs =? 0 then 1 else waitMs) ;;
            writeMemory_loop left' id bytes buffer
        end
      else if negb (peek buffer off_command 2 =? COMMAND_WRITE_MEMORY_ACK) then
        cerr (UnexpectedCommand (peek buffer off_command 2)) ;; ret false
      else if negb (peek buffer off_bytes_written 2 =? bytes) then
        cerr (WriteSizeMismatch (peek buffer off_bytes_written 2) bytes) ;;
        ret false
      else ret true
  end.

(** [bool writeMemory(uint32_t startAddress, const uint8_t* data, uint16_t bytes)].
    [data] is the array the pointer points into; copying [bytes] bytes out
    of a shorter one is undefined. *)
Definition writeMemory (startAddress : Z) (data : bstring) (bytes : Z) : M bool :=
  claimed <- get (fun s => claimed_ (device_ s)) ;;
  if negb claimed then cerr NotClaimed ;; ret false
  else if bytes =? 0 then ret true
  else
    id <- nextRequestId ;;
    if Z.of_nat (length data) <? bytes then undefined
    else
      ok <- bulkSend (UVCPWriteMemoryCmd id startAddress data bytes) ;;
      if negb ok then ret false
      else writeMemory_loop kMaxPendingLoops id bytes [].

(** [registerCount] 32-bit values out of [raw]. *)
Definition words_of (raw : bstring) (registerCount : Z) : list Z :=
  map (fun i => unle (firstn 4 (skipn (i * 4) raw)))
      (seq 0 (Z.to_nat registerCount)).

Definition readRegisters (address registerCount : Z) : M (option (list Z)) :=
  if registerCount =? 0 then ret (Some [])
  else
    let bytesToRead := uint16 (registerCount * 4) in
    r <- readMemory address bytesToRead ;;
    match r with
    | None => ret None
    | Some raw =>
        if Z.of_nat (length raw) <? registerCount * 4 then undefined
        else ret (Some (words_of raw registerCount))
    end.

Definition writeRegisters (startAddress : Z) (values : list Z) : M bool :=
  match values with
  | [] => ret true
  | _ =>
      let bytes := concat (map (le 4) values) in
      writeMemory startAddress bytes (uint16 (Z.of_nat (length bytes)))
  end.

Definition U3VDevice_writeRegister (address value : Z) : M bool :=
  writeRegisters address [value].

(** [shutdown] releases the interface and closes the handle; a second call
    finds nothing to do. *)
Definition shutdown : M unit :=
  h <- get (fun s => handle_ (device_ s)) ;;
  if h then
    emit Shutdown ;;
    fun s => Done tt (set_device {| handle_ := false; claimed_ := false;
                                    requestId_ := requestId_ (device_ s) |} s)
  else ret tt.

(** USB enumeration, endpoint discovery and the claim belong to libusb and
    the bus; the world says how they end. *)
Definition open : M bool :=
  ok <- get (fun s => w_open_ok (world s)) ;;
  if ok then
    fun s => Done true (set_device {| handle_ := true; claimed_ := claimed_ (device_ s);
                                      requestId_ := requestId_ (device_ s) |} s)
  else ret false.

Definition findU3VControlInterface : M bool :=
  h <- get (fun s => handle_ (device_ s)) ;;
  if negb h then ret false
  else get (fun s => w_find_ok (world s)).

Definition claimInterface : M bool :=
  h <- get (fun s => handle_ (device_ s)) ;;
  if negb h then ret false
  else
    ok <- get (fun s => w_claim_ok (world s)) ;;
    if ok then
      fun s => Done true (set_device {| handle_ := handle_ (device_ s); claimed_ := true;
                                        requestId_ := requestId_ (device_ s) |} s)
    else ret false.

(** ** class TerminalClient: the session *)

Definition set_version (v : Z) : M unit :=
  fun s => Done tt (set_terminal
    {| initialized_ := initialized_ (terminal s); version_ := v;
       chunkHint_ := chunkHint_ (terminal s); password_ := password_ (terminal s);
       echoEnabled_ := echoEnabled_ (terminal s) |} s).
Definition set_chunkHint (v : Z) : M unit :=
  fun s => Done tt (set_terminal
    {| initialized_ := initialized_ (terminal s); version_ := version_ (terminal s);
       chunkHint_ := v; password_ := password_ (terminal s);
       echoEnabled_ := echoEnabled_ (terminal s) |} s).
Definition set_initialized (b : bool) : M unit :=
  fun s => Done tt (set_terminal
    {| initialized_ := b; version_ := version_ (terminal s);
       chunkHint_ := chunkHint_ (terminal s); password_ := password_ (terminal s);
       echoEnabled_ := echoEnabled_ (terminal s) |} s).
Definition setPassword (pass : bstring) : M unit :=
  fun s => Done tt (set_terminal
    {| initialized_ := initialized_ (terminal s); version_ := version_ (terminal s);
       chunkHint_ := chunkHint_ (terminal s); password_ := pass;
       echoEnabled_ := echoEnabled_ (terminal s) |} s).
Definition setEchoEnabled (enable : bool) : M unit :=
  fun s => Done tt (set_terminal
    {| initialized_ := initialized_ (terminal s); version_ := version_ (terminal s);
       chunkHint_ := chunkHint_ (terminal s); password_ := password_ (terminal s);
       echoEnabled_ := enable |} s).

Definition getVersion : M Z := get (fun s => version_ (terminal s)).

Definition readRegister (addr : Z) : M (option Z) :=
  r <- readRegisters addr 1 ;;
  match r with
  | None => ret None
  | Some vals => ret (Some (nth 0 vals 0))
  end.

Definition readRegisterOr (addr fallback : Z) : M Z :=
  r <- readRegister addr ;;
  match r with
  | Some value => ret value
  | None => ret fallback
  end.

Definition writeRegister (addr value : Z) : M bool :=
  U3VDevice_writeRegister addr value.

Definition initialize : M bool :=
  init <- get (fun s => initialized_ (terminal s)) ;;
  if init then ret true
  else
    r <- readRegisters kTerminalBaseAddr 2 ;;
    match r with
    | None => cerr TerminalHeaderFailed ;; ret false
    | Some regs =>
        if negb (nth 0 regs 0 =? kTerminalMagic) then
          cerr (BadTerminalMagic (nth 0 regs 0)) ;; ret false
        else
          set_version (nth 1 regs 0) ;;
          r2 <- readRegisters kTerminalVersionAddr 1 ;;
          match r2 with
          | Some regs2 =>
              let verReg := nth 0 regs2 0 in
              if negb (verReg =? 0) then set_version verReg else ret tt
          | None => ret tt
          end ;;
          fallback <- get (fun s => chunkHint_ (terminal s)) ;;
          hint <- readRegisterOr kTerminalChunkHintAddr fallback ;;
          set_chunkHint hint ;;
          (if hint =? 0 then set_chunkHint 512 else ret tt) ;;
          set_initialized true ;;
          ret true
    end.

Definition ensureAuth : M bool :=
  r <- readRegister kTerminalAuthStatusAddr ;;
  match r with
  | None => ret false
  | Some authed =>
      if negb (authed =? 0) then ret true
      else
        pw <- get (fun s => password_ (terminal s)) ;;
        match pw with
        | [] => cerr AuthRequired ;; ret false
        | _ =>
            ok <- writeMemory kTerminalAuthBufAddr pw (uint16 (Z.of_nat (length pw))) ;;
            if negb ok then ret false
            else
              ok <- U3VDevice_writeRegister kTerminalAuthCmdAddr 1 ;;
              if negb ok then ret false
              else
                r <- readRegister kTerminalAuthStatusAddr ;;
                match r with
                | None => ret false
                | Some authed =>
                    if authed =? 0 then cerr AuthFailed ;; ret false
                    else ret true
                end
        end
  end.

(** The echo bit both [ensureSession] and [reset] add to their control word. *)
Definition echo_bit (echoEnabled : bool) : Z :=
  if echoEnabled then kCtrlEchoEnable else kCtrlEchoDisable.

(** [while (steady_clock::now() < deadline)] of [ensureSession]. *)
Fixpoint ensureSession_poll (fuel : nat) (deadline : Z) : M bool :=
  t <- now ;;
  if negb (t <? deadline) then cerr SessionTimeout ;; ret false
  else
    match fuel with
    | O => out_of_fuel
    | S fuel' =>
        r <- readRegister kTerminalStatusAddr ;;
        match r with
        | None => ret false
        | Some status =>
            if has_bit status kStatusReady then ret true
            else sleep_for 50 ;; ensureSession_poll fuel' deadline
        end
    end.

Definition ensureSession (fuel : nat) : M bool :=
  init <- get (fun s => initialized_ (terminal s)) ;;
  ok <- (if negb init then initialize else ret true) ;;
  if negb ok then ret false
  else
    ok <- ensureAuth ;;
    if negb ok then ret false
    else
      r <- readRegister kTerminalStatusAddr ;;
      match r with
      | None => ret false
      | Some status =>
          if has_bit status kStatusReady then ret true
          else
            echo <- get (fun s => echoEnabled_ (terminal s)) ;;
            let ctrl := Z.lor (Z.lor kCtrlStart kCtrlClearFlags) (echo_bit echo) in
            ok <- writeRegister kTerminalStatusAddr ctrl ;;
            if negb ok then ret false
            else
              t <- now ;;
              ensureSession_poll fuel (t + 2000)
      end.

Definition reset (fuel : nat) : M bool :=
  ok <- initialize ;;
  if negb ok then ret false
  else
    (* do not clear auth *)
    echo <- get (fun s => echoEnabled_ (terminal s)) ;;
    let ctrl := Z.lor (Z.lor kCtrlReset kCtrlClearFlags) (echo_bit echo) in
    ok <- writeRegister kTerminalStatusAddr ctrl ;;
    if negb ok then ret false
    else sleep_for 200 ;; ensureSession fuel.

Definition lock : M bool :=
  ok <- U3VDevice_writeRegister kTerminalAuthCmdAddr 0 ;;
  if negb ok then ret false else ret true.

Definition newline : byte := x0a.

(** [payload.empty() || payload.back() != '\n'] *)
Definition needs_newline (payload : bstring) : bool :=
  match rev payload with
  | [] => true
  | c :: _ => negb (Byte.eqb c newline)
  end.

Fixpoint sendCommand_loop (fuel : nat) (payload : bstring) (offset : Z) : M bool :=
  if negb (offset <? Z.of_nat (length payload)) then ret true
  else
    match fuel with
    | O => out_of_fuel
    | S fuel' =>
        hint <- get (fun s => chunkHint_ (terminal s)) ;;
        let chunk := Z.min hint (Z.of_nat (length payload) - offset) in
        ok <- writeMemory kTerminalDataAddr (skipn (Z.to_nat offset) payload)
                          (uint16 chunk) ;;
        if negb ok then ret false
        else sendCommand_loop fuel' payload (offset + chunk)
    end.

Definition sendCommand (fuel : nat) (command : bstring) : M bool :=
  ok <- ensureSession fuel ;;
  if negb ok then ret false
  else
    let payload := if needs_newline command then command ++ [newline] else command in
    sendCommand_loop fuel payload 0.

(** [drainOutput] appends to its [out] parameter also when it fails, so the
    model returns the flag together with the string. *)
Fixpoint drainOutput_loop (fuel : nat) (out : bstring)
    (lastData deadline idleTimeout : Z) (warnedOverflow : bool)
  : M (bool * bstring) :=
  t <- now ;;
  if negb (t <? deadline) then ret (true, out)
  else
    match fuel with
    | O => out_of_fuel
    | S fuel' =>
        r <- readRegister kTerminalStatusAddr ;;
        match r with
        | None => ret (false, out)
        | Some status =>
            warnedOverflow <-
              (if has_bit status kStatusOverflow && negb warnedOverflow
               then cerr OverflowWarning ;; ret true
               else ret warnedOverflow) ;;
            (if has_bit status kStatusError then cerr TerminalErrorBit else ret tt) ;;
            r <- readRegister kTerminalAvailAddr ;;
            match r with
            | None => ret (false, out)
            | Some available =>
                if available =? 0 then
                  t <- now ;;
                  if t - lastData >? idleTimeout then ret (true, out)
                  else
                    sleep_for 50 ;;
                    drainOutput_loop fuel' out lastData deadline idleTimeout
                                     warnedOverflow
                else
                  hint <- get (fun s => chunkHint_ (terminal s)) ;;
                  let toRead := Z.min available hint in
                  r <- readMemory kTerminalDataAddr (uint16 toRead) ;;
                  match r with
                  | None => ret (false, out)
                  | Some buffer =>
                      t <- now ;;
                      drainOutput_loop fuel' (out ++ buffer) t deadline
                                       idleTimeout warnedOverflow
                  end
            end
        end
    end.

Definition drainOutput (fuel : nat) (out : bstring) (idleTimeout maxWait : Z)
  : M (bool * bstring) :=
  ok <- ensureSession fuel ;;
  if negb ok then ret (false, out)
  else
    lastData <- now ;;
    t <- now ;;
    drainOutput_loop fuel out lastData (t + maxWait) idleTimeout false.

Definition default_idleTimeout : Z := 200.
Definition default_maxWait : Z := 5000.

(** [std::cout << output] when [output] is not empty. *)
Definition print_output (output : bstring) : M unit :=
  match output with
  | [] => ret tt
  | _ => cout (Raw output)
  end.

(** ** Local files *)

Fixpoint file_lookup (path : bstring) (fs : list (bstring * bstring))
  : option bstring :=
  match fs with
  | [] => None
  | (p, content) :: rest =>
      if bytes_eqb p path then Some content else file_lookup path rest
  end.

Fixpoint file_store (path content : bstring) (fs : list (bstring * bstring))
  : list (bstring * bstring) :=
  match fs with
  | [] => [(path, content)]
  | (p, c) :: rest =>
      if bytes_eqb p path then (p, content) :: rest
      else (p, c) :: file_store path content rest
  end.

(** [std::ifstream ifs(localPath, std::ios::binary)]: the content, or [None]
    when the stream is not good. *)
Definition ifstream_open (localPath : bstring) : M (option bstring) :=
  get (fun s => file_lookup localPath (w_files (world s))).

(** [std::ofstream ofs(localPath, binary | trunc)] *)
Definition ofstream_open (localPath : bstring) : M bool :=
  fun s =>
    let w := world s in
    if existsb (bytes_eqb localPath) (w_readonly w) then Done false s
    else Done true (set_world (with_files (file_store localPath [] (w_files w))
                                          (w_disk_free w) w) s).

(** [ofs.write(data, n)] followed by the test of the stream.  Whether the
    stream is still good is up to the world, which here lets a write fail
    when its bytes exceed [w_disk_free].  The buffer of [std::ofstream],
    which can put a failure off to a later write or to the close, is not
    modelled. *)
Definition ofstream_write (localPath data : bstring) : M bool :=
  fun s =>
    let w := world s in
    let n := Z.of_nat (length data) in
    if n >? w_disk_free w then Done false s
    else
      let old := match file_lookup localPath (w_files w) with
                 | Some c => c
                 | None => []
                 end in
      Done true (set_world (with_files (file_store localPath (old ++ data) (w_files w))
                                       (w_disk_free w - n) w) s).

(** ** The file-transfer engine *)

Definition sendFileCommand (cmd : Z) : M bool :=
  writeRegister kTerminalFileCmdAddr cmd.

Definition readFileStatus : M (option Z) :=
  readRegister kTerminalFileStatusAddr.

(** [result = static_cast<int>(value)] *)
Definition int_of_uint32 (value : Z) : Z :=
  if value <? 2147483648 then value else value - 4294967296.

Definition readFileResult : M (option Z) :=
  r <- readRegister kTerminalFileResultAddr ;;
  match r with
  | None => ret None
  | Some value => ret (Some (int_of_uint32 value))
  end.

Definition readFileDataAvail : M (option Z) :=
  readRegister kTerminalFileDataAvailAddr.

Definition readFileSize : M (option Z) :=
  r <- readRegister kTerminalFileSizeLowAddr ;;
  match r with
  | None => ret None
  | Some low =>
      r <- readRegister kTerminalFileSizeHighAddr ;;
      match r with
      | None => ret None
      | Some high => ret (Some (Z.lor (Z.shiftl high 32) low))
      end
  end.

Definition checkFileError (context : bstring) : M bool :=
  r <- readFileStatus ;;
  match r with
  | None => ret false
  | Some status =>
      if Z.land status kFileStatusError =? 0 then ret true
      else
        r <- readFileResult ;;
        match r with
        | None => ret false
        | Some err => cerr (FileError context err) ;; ret false
        end
  end.

Definition closeFileChannel : M bool :=
  ok <- sendFileCommand kFileCmdClose ;;
  if negb ok then ret false
  else sleep_for 5 ;; checkFileError (B "file transfer").

Definition prepareFilePath (remotePath : bstring) : M bool :=
  match remotePath with
  | [] => cerr PathRequired ;; ret false
  | _ =>
      ok <- sendFileCommand kFileCmdReset ;;
      if negb ok then ret false
      else if Z.of_nat (length remotePath) >=? kTerminalFilePathCapacity then
        cerr PathTooLong ;; ret false
      else
        (* std::array<uint8_t, kTerminalFilePathCapacity> buffer{} with the
           path copied to its front *)
        let buffer :=
          remotePath ++ repeat x00 (Z.to_nat kTerminalFilePathCapacity
                                     - length remotePath) in
        writeMemory kTerminalFilePathAddr buffer (uint16 (Z.of_nat (length buffer)))
  end.

Fixpoint waitForFileOpen_loop (fuel : nat) (modeBit deadline : Z) : M bool :=
  t <- now ;;
  if negb (t <? deadline) then cerr FileOpenTimeout ;; ret false
  else
    match fuel with
    | O => out_of_fuel
    | S fuel' =>
        r <- readFileStatus ;;
        match r with
        | None => ret false
        | Some status =>
            if has_bit status modeBit then ret true
            else if has_bit status kFileStatusError then
              checkFileError (B "open file")
            else sleep_for 10 ;; waitForFileOpen_loop fuel' modeBit deadline
        end
    end.

Definition waitForFileOpen (fuel : nat) (modeBit timeout : Z) : M bool :=
  t <- now ;;
  waitForFileOpen_loop fuel modeBit (t + timeout).

(** The [while (success)] of [performFileDownload]; returns [success] and
    [progressPrinted]. *)
Fixpoint download_loop (fuel : nat) (localPath : bstring)
    (remoteSize bytesReceived : Z) (progressPrinted : bool) : M (bool * bool) :=
  match fuel with
  | O => out_of_fuel
  | S fuel' =>
      r <- readFileDataAvail ;;
      match r with
      | None => ret (false, progressPrinted)
      | Some avail =>
          if avail =? 0 then
            r <- readFileStatus ;;
            match r with
            | None => ret (false, progressPrinted)
            | Some status =>
                if has_bit status kFileStatusError then
                  ok <- checkFileError (B "u3vget") ;; ret (ok, progressPrinted)
                else if has_bit status kFileStatusEof then
                  ret (true, progressPrinted)
                else
                  sleep_for 10 ;;
                  download_loop fuel' localPath remoteSize bytesReceived
                                progressPrinted
            end
          else
            r <- readMemory kTerminalFileDataAddr (uint16 avail) ;;
            match r with
            | None => ret (false, progressPrinted)
            | Some buffer =>
                (* ofs.write(buffer.data(), avail) *)
                if Z.of_nat (length buffer) <? avail then undefined
                else
                  ok <- ofstream_write localPath (firstn (Z.to_nat avail) buffer) ;;
                  if negb ok then
                    cerr (LocalWriteFailed localPath) ;; ret (false, progressPrinted)
                  else
                    let bytesReceived := bytesReceived + avail in
                    cout (DownloadProgress bytesReceived remoteSize) ;;
                    download_loop fuel' localPath remoteSize bytesReceived true
            end
      end
  end.

Definition performFileDownload (fuel : nat) (remotePath localPath : bstring)
  : M bool :=
  ok <- ensureSession fuel ;;
  if negb ok then ret false
  else
    ok <- prepareFilePath remotePath ;;
    if negb ok then ret false
    else
      ok <- sendFileCommand kFileCmdOpenRead ;;
      if negb ok then ret false
      else
        ok <- waitForFileOpen fuel kFileStatusReading 500 ;;
        if negb ok then closeFileChannel ;; ret false
        else
          r <- readFileSize ;;
          let remoteSize := match r with Some size => size | None => 0 end in
          ok <- ofstream_open localPath ;;
          if negb ok then
            cerr (LocalOpenWriteFailed localPath) ;; closeFileChannel ;; ret false
          else
            r <- download_loop fuel localPath remoteSize 0 false ;;
            let '(success, progressPrinted) := r in
            closed <- closeFileChannel ;;
            let success := success && closed in
            (if progressPrinted then cout (Raw [newline]) else ret tt) ;;
            (if success then cout (Downloaded remotePath localPath remoteSize)
             else ret tt) ;;
            ret success.

(** The [while (ifs && success)] of [performFileUpload].  [rest] is what the
    stream has not delivered yet, [buffer] the 0x40-byte array the slices
    are read into. *)
Fixpoint upload_loop (fuel : nat) (rest buffer : bstring)
    (totalBytes bytesSent : Z) (progressPrinted : bool) : M (bool * bool) :=
  match fuel with
  | O => out_of_fuel
  | S fuel' =>
      let slice := firstn (Z.to_nat kTerminalFileDataWindow) rest in
      let got := Z.of_nat (length slice) in
      if got <=? 0 then ret (true, progressPrinted)
      else
        let buffer := overwrite buffer slice in
        ok <- writeMemory kTerminalFileDataAddr buffer (uint16 got) ;;
        if negb ok then ret (false, progressPrinted)
        else
          r <- readFileStatus ;;
          match r with
          | None => ret (false, progressPrinted)
          | Some status =>
              if has_bit status kFileStatusError then
                ok <- checkFileError (B "u3vput") ;; ret (ok, progressPrinted)
              else
                let bytesSent := bytesSent + got in
                cout (UploadProgress bytesSent totalBytes) ;;
                if got <? kTerminalFileDataWindow then
                  ret (true, true) (* the short read has set eofbit: !ifs *)
                else
                  upload_loop fuel' (skipn (Z.to_nat kTerminalFileDataWindow) rest)
                              buffer totalBytes bytesSent true
          end
  end.

Definition performFileUpload (fuel : nat) (localPath remotePath : bstring)
  : M bool :=
  r <- ifstream_open localPath ;;
  match r with
  | None => cerr (LocalOpenReadFailed localPath) ;; ret false
  | Some content =>
      let totalBytes := Z.of_nat (length content) in
      ok <- ensureSession fuel ;;
      if negb ok then ret false
      else
        ok <- prepareFilePath remotePath ;;
        if negb ok then ret false
        else
          ok <- sendFileCommand kFileCmdOpenWrite ;;
          if negb ok then ret false
          else
            ok <- waitForFileOpen fuel kFileStatusWriting 500 ;;
            if negb ok then closeFileChannel ;; ret false
            else
              r <- upload_loop fuel content
                     (repeat x00 (Z.to_nat kTerminalFileDataWindow))
                     totalBytes 0 false ;;
              let '(success, progressPrinted) := r in
              closed <- closeFileChannel ;;
              let success := success && closed in
              (if progressPrinted then cout (Raw [newline]) else ret tt) ;;
              (if success then cout (Uploaded localPath remotePath totalBytes)
               else ret tt) ;;
              ret success
  end.

(** ** Meta-commands *)

(** [std::isspace] in the "C" locale, which [operator>>] skips. *)
Definition isspace (c : byte) : bool :=
  let n := Z_of_byte c in (n =? 32) || ((9 <=? n) && (n <=? 13)).

(** [while (iss >> token) tokens.push_back(token)]; [token] is the word
    being read. *)
Fixpoint splitTokens_from (token line : bstring) : list bstring :=
  match line with
  | [] => match token with [] => [] | _ => [token] end
  | c :: rest =>
      if isspace c then
        match token with
        | [] => splitTokens_from [] rest
        | _ => token :: splitTokens_from [] rest
        end
      else splitTokens_from (token ++ [c]) rest
  end.

Definition splitTokens (line : bstring) : list bstring :=
  splitTokens_from [] line.

Definition tryHandleFileTransferCommand (line : bstring) : bool :=
  match splitTokens line with
  | [] => false
  | op :: _ =>
      if negb (bytes_eqb op (B "u3vget")) && negb (bytes_eqb op (B "u3vput"))
      then false else true
  end.

(** Returns the result together with the [handled] out-parameter. *)
Definition handleFileTransferCommand (fuel : nat) (line : bstring)
  : M (bool * bool) :=
  let tokens := splitTokens line in
  match tokens with
  | [] => ret (true, false)
  | op :: _ =>
      if negb (bytes_eqb op (B "u3vget")) && negb (bytes_eqb op (B "u3vput"))
      then ret (true, false)
      else if bytes_eqb op (B "u3vget") then
        if negb (length tokens =? 3)%nat then cerr UsageGet ;; ret (true, true)
        else
          ok <- performFileDownload fuel (nth 1 tokens []) (nth 2 tokens []) ;;
          ret (ok, true)
      else
        if negb (length tokens =? 3)%nat then cerr UsagePut ;; ret (true, true)
        else
          ok <- performFileUpload fuel (nth 1 tokens []) (nth 2 tokens []) ;;
          ret (ok, true)
  end.

(** ** The one-shot runner *)

Definition runOnce (fuel : nat) (command : bstring) : M bool :=
  r <- handleFileTransferCommand fuel command ;;
  let '(ok, handled) := r in
  if negb ok then ret false
  else if handled then ret true
  else
    ok <- sendCommand fuel command ;;
    if negb ok then ret false
    else
      r <- drainOutput fuel [] default_idleTimeout default_maxWait ;;
      let '(ok, output) := r in
      if negb ok then ret false
      else print_output output ;; ret true.

(** ** The interactive shells *)

(** [std::getline(std::cin, line)]: [None] at end of input. *)
Definition getline : M (option bstring) :=
  fun s =>
    match w_stdin_lines (world s) with
    | [] => Done None s
    | line :: rest =>
        Done (Some line) (set_world (with_stdin_lines rest (world s)) s)
    end.

(** The body of [while (true)] in [interactiveLoopV1] is run [fuel] times at
    most; [budget] is the fuel handed to the operations it calls. *)
Fixpoint interactiveLoopV1_loop (budget fuel : nat) : M bool :=
  match fuel with
  | O => out_of_fuel
  | S fuel' =>
      l <- getline ;;
      match l with
      | None => cout (Raw [newline]) ;; ret true
      | Some line =>
          if bytes_eqb line (B "exit") || bytes_eqb line (B "quit") then ret true
          else
            r <- handleFileTransferCommand budget line ;;
            let '(_, handled) := r in
            if handled then
              ok <- sendCommand budget (B " ") ;;
              if negb ok then ret false
              else
                r <- drainOutput budget [] default_idleTimeout default_maxWait ;;
                let '(ok, output) := r in
                if negb ok then ret false
                else print_output output ;; interactiveLoopV1_loop budget fuel'
            else
              ok <- sendCommand budget line ;;
              if negb ok then ret false
              else
                r <- drainOutput budget [] default_idleTimeout default_maxWait ;;
                let '(ok, output) := r in
                if negb ok then ret false
                else print_output output ;; interactiveLoopV1_loop budget fuel'
      end
  end.

(** What both interactive loops do before they read the keyboard. *)
Definition interactive_prologue (fuel : nat) : M bool :=
  ok <- ensureSession fuel ;;
  if negb ok then ret false
  else
    version <- getVersion ;;
    cout (ShellReady version) ;;
    r <- drainOutput fuel [] 50 500 ;;
    let '(_, warmup) := r in
    print_output warmup ;;
    ok <- sendCommand fuel (B "cd /root") ;;
    if negb ok then ret false
    else
      r <- drainOutput fuel [] default_idleTimeout default_maxWait ;;
      let '(ok, output) := r in
      if negb ok then ret false
      else print_output output ;; ret true.

Definition interactiveLoopV1 (fuel : nat) : M bool :=
  ok <- interactive_prologue fuel ;;
  if negb ok then ret false
  else interactiveLoopV1_loop fuel fuel.

Definition setStdinRaw : M bool :=
  ok <- get (fun s => w_tty_ok (world s)) ;;
  if ok then emit TtyRaw ;; ret true
  else cerr TtyFailed ;; ret false.

Definition restoreStdin : M unit := emit TtyRestore.

(** [select] on stdin with a 20 ms timeout, then [read] into the 256-byte
    [inBuf]: the bytes read ([n] of them), none when [select] timed out or
    [read] returned nothing. *)
Definition select_read : M bstring :=
  fun s =>
    let w := world s in
    match w_stdin_polls w with
    | [] => Done [] (set_world (with_now (w_now w + 20) w) s)
    | None :: rest =>
        Done [] (set_world (with_now (w_now w + 20) (with_stdin_polls rest w)) s)
    | Some d :: rest =>
        let later := match skipn 256 d with
                     | [] => rest
                     | more => Some more :: rest
                     end in
        Done (firstn 256 d) (set_world (with_stdin_polls later w) s)
    end.

(** The locals of the V2 loop that its per-byte code updates. *)
Record LineState : Type := mkLine {
  currentLine : bstring;
  toSend : bstring;
  exitRequested : bool
}.

Definition kExitKey : byte := x1d. (* Ctrl+] *)
Definition backspace : byte := x08.
Definition carriage_return : byte := x0d.
Definition delete_key : byte := x7f.

(** [std::isprint] in the "C" locale. *)
Definition isprint (ch : byte) : bool :=
  let n := Z_of_byte ch in (32 <=? n) && (n <=? 126).

(** One turn of [for (ssize_t i = 0; i < n; ++i)] in [interactiveLoopV2]. *)
Definition interactiveLoopV2_byte (fuel : nat) (ch : byte) (st : LineState)
  : M LineState :=
  if Byte.eqb ch kExitKey then
    ret (mkLine (currentLine st) (toSend st) true)
  else if Byte.eqb ch carriage_return || Byte.eqb ch newline then
    if bytes_eqb (currentLine st) (B "exit") then
      (* Do not send this line to remote, just exit locally. *)
      let out := toSend st ++ [backspace; backspace; backspace; backspace] in
      writeMemory kTerminalDataAddr out (uint16 (Z.of_nat (length out))) ;;
      ret (mkLine [] [] true)
    else if tryHandleFileTransferCommand (currentLine st) then
      let out := toSend st ++ repeat backspace (length (currentLine st))
                           ++ [newline] in
      writeMemory kTerminalDataAddr out (uint16 (Z.of_nat (length out))) ;;
      cout (Raw [newline]) ;;
      handleFileTransferCommand fuel (currentLine st) ;;
      ret (mkLine [] [] (exitRequested st))
    else
      ret (mkLine [] (toSend st ++ [ch]) (exitRequested st))
  else if Byte.eqb ch delete_key || Byte.eqb ch backspace then
    ret (mkLine (removelast (currentLine st)) (toSend st ++ [ch]) (exitRequested st))
  else if isprint ch then
    ret (mkLine (currentLine st ++ [ch]) (toSend st ++ [ch]) (exitRequested st))
  else
    ret (mkLine (currentLine st) (toSend st ++ [ch]) (exitRequested st)).

Fixpoint interactiveLoopV2_bytes (fuel : nat) (inBuf : bstring) (st : LineState)
  : M LineState :=
  match inBuf with
  | [] => ret st
  | ch :: rest =>
      st' <- interactiveLoopV2_byte fuel ch st ;;
      interactiveLoopV2_bytes fuel rest st'
  end.

(** The [if (n > 0) { ... }] block of the loop.  [Some b]: the function
    leaves the loop and returns [b]; [None]: it goes on to poll the device.
    [line] is [currentLine] on entry, the second component [currentLine]
    afterwards. *)
Definition interactiveLoopV2_input (fuel : nat) (inBuf line : bstring)
  : M (option bool * bstring) :=
  match inBuf with
  | [] => ret (None, line)
  | _ =>
      st <- interactiveLoopV2_bytes fuel inBuf (mkLine line [] false) ;;
      sent <- match toSend st with
              | [] => ret true
              | out => writeMemory kTerminalDataAddr out
                                   (uint16 (Z.of_nat (length out)))
              end ;;
      if negb sent then ret (Some false, currentLine st)
      else if exitRequested st then ret (Some true, currentLine st)
      else ret (None, currentLine st)
  end.

Fixpoint interactiveLoopV2_loop (budget fuel : nat) (lastPoll : Z)
    (line : bstring) : M bool :=
  match fuel with
  | O => out_of_fuel
  | S fuel' =>
      inBuf <- select_read ;;
      r <- interactiveLoopV2_input budget inBuf line ;;
      let '(leave, line) := r in
      match leave with
      | Some result => ret result
      | None =>
          t <- now ;;
          if t - lastPoll >=? 10 then
            r <- drainOutput budget [] 10 10 ;;
            let '(ok, out) := r in
            if negb ok then ret false
            else
              print_output out ;;
              interactiveLoopV2_loop budget fuel' t line
          else interactiveLoopV2_loop budget fuel' lastPoll line
      end
  end.

Definition interactiveLoopV2 (fuel : nat) : M bool :=
  ok <- interactive_prologue fuel ;;
  if negb ok then ret false
  else
    ok <- setStdinRaw ;;
    if negb ok then ret false
    else
      lastPoll <- now ;;
      result <- interactiveLoopV2_loop fuel fuel lastPoll [] ;;
      restoreStdin ;; (* the Guard *)
      ret result.

(** ** main *)

(** The locals of [main] that its argument loop sets and the rest of it
    reads.  ([serialFilter], [vendorId] and [productId] only select the USB
    device.) *)
Record Options : Type := mkOptions {
  interactive : bool;
  interactiveMode : Z;
  resetSession : bool;
  singleCommand : bstring;
  password : bstring
}.

(** [main] without arguments. *)
Definition default_options : Options :=
  {| interactive := true; interactiveMode := 2; resetSession := false;
     singleCommand := []; password := [] |}.

Definition EXIT_SUCCESS : Z := 0.
Definition EXIT_FAILURE : Z := 1.
Definition kMinV2Version : Z := 0x00010002.

(** [main] from [U3VDevice device;] to its last [return]. *)
Definition main_body (fuel : nat) (o : Options) : M Z :=
  ok <- open ;;
  if negb ok then ret EXIT_FAILURE
  else
    ok <- findU3VControlInterface ;;
    if negb ok then ret EXIT_FAILURE
    else
      ok <- claimInterface ;;
      if negb ok then ret EXIT_FAILURE
      else
        ok <- initialize ;;
        if negb ok then ret EXIT_FAILURE
        else
          match password o with
          | [] => ret tt
          | pw => setPassword pw
          end ;;
          kVersion <- getVersion ;;
          mode <-
            (if (interactiveMode o >=? 2) && (kVersion <? kMinV2Version)
             then cerr (FallbackToV1 kVersion) ;; ret 1
             else ret (interactiveMode o)) ;;
          setEchoEnabled (if interactive o then mode =? 2 else false) ;;
          ok <- (if resetSession o then reset fuel else ret true) ;;
          if negb ok then ret EXIT_FAILURE
          else
            ok <- (if interactive o then
                     if mode =? 1 then interactiveLoopV1 fuel
                     else interactiveLoopV2 fuel
                   else runOnce fuel (singleCommand o)) ;;
            locked <- lock ;;
            if negb locked then ret EXIT_FAILURE
            else
              shutdown ;;
              ret (if ok then EXIT_SUCCESS else EXIT_FAILURE).

(** ... and the destructor of [device], which runs on every return. *)
Definition main (fuel : nat) (o : Options) : M Z :=
  code <- main_body fuel o ;;
  shutdown ;;
  ret code.

(** The state [main] starts in. *)
Definition initial_state (w : World) : State :=
  {| device_ := U3VDevice_new; terminal := TerminalClient_new; world := w |}.

(** ** Frames a device sends *)

(** The answers of the device are arbitrary bytes as far as the host is
    concerned.  These are the well-formed ones, laid out like the packed
    structures the host reads them through; they serve to script devices. *)
Definition ack_header (command size id : Z) : bstring :=
  le 4 MAGIC ++ le 2 0 ++ le 2 command ++ le 2 size ++ le 2 id.

Definition UVCPReadMemoryAck (id : Z) (data : bstring) : bstring :=
  ack_header COMMAND_READ_MEMORY_ACK (Z.of_nat (length data)) id ++ data.

Definition UVCPWriteMemoryAck (id bytes_written : Z) : bstring :=
  ack_header COMMAND_WRITE_MEMORY_ACK 4 id ++ le 2 0 ++ le 2 bytes_written.

Definition UVCPPendingAck (id timeout_ms : Z) : bstring :=
  ack_header COMMAND_PENDING_ACK 4 id ++ le 2 0 ++ le 2 timeout_ms.

(** A register read answered with [value]. *)
Definition register_ack (id value : Z) : InOutcome :=
  InData (UVCPReadMemoryAck id (le 4 value)).

(** A world in which the bus works, [n] bulk OUT transfers succeed and the
    device answers with [answers]; no keyboard input, no local files. *)
Definition scripted_world (n : nat) (answers : list InOutcome) : World :=
  {| w_open_ok := true; w_find_ok := true; w_claim_ok := true;
     w_out := repeat true n; w_in := answers; w_latency := 0; w_now := 0;
     w_stdin_lines := []; w_stdin_polls := []; w_tty_ok := true;
     w_files := []; w_readonly := []; w_disk_free := 0; w_trace := [] |}.

(** The state after [claimInterface], before any transaction. *)
Definition claimed_state (w : World) : State :=
  {| device_ := {| handle_ := true; claimed_ := true; requestId_ := 0 |};
     terminal := TerminalClient_new; world := w |}.

(** ** Vocabulary of the statements *)

(** A received frame with a complete header that the host accepts for the
    request [id] and reads as [command]. *)
Definition header_ok (id command : Z) (f : bstring) : Prop :=
  (sizeof_UVCPHeader <= length f)%nat /\
  Z.of_nat (length f) <= TY_UVCP_MAX_MSG_LEN /\
  peek f off_magic 4 = MAGIC /\
  peek f off_id 2 = id /\
  peek f off_command 2 = command.

Definition is_pending (id : Z) (f : bstring) : Prop :=
  header_ok id COMMAND_PENDING_ACK f /\ (16 <= length f)%nat.

Definition pending_sleep (f : bstring) : Event :=
  Sleep (Z.max (peek f off_timeout_ms 2) 1).

(** Acknowledgements that complete a read of [bytes] bytes, or a write of
    [bytes] bytes. *)
Definition is_read_ack (id bytes : Z) (f : bstring) : Prop :=
  header_ok id COMMAND_READ_MEMORY_ACK f /\ peek f off_size 2 = bytes.

Definition is_write_ack (id bytes : Z) (f : bstring) : Prop :=
  header_ok id COMMAND_WRITE_MEMORY_ACK f /\ (16 <= length f)%nat /\
  peek f off_bytes_written 2 = bytes.

Arguments peek : simpl never.
Arguments overwrite : simpl never.
Arguments ack_data : simpl never.
Arguments uint16 : simpl never.

(** [before_chunk_hint s s2]: [initialize], started in [s], reads the
    ChunkHint register in [s2]: the header has been read with the right
    magic, [version_] has been set from it, and the Version register has
    been read and, when it delivered a value other than 0, stored. *)
Definition before_chunk_hint (s s2 : State) : Prop :=
  exists (regs : list Z) (s1 : State) (r2 : option (list Z)) (s2' : State),
    readRegisters kTerminalBaseAddr 2 s = Done (Some regs) s1 /\
    nth 0 regs 0 = kTerminalMagic /\
    readRegisters kTerminalVersionAddr 1
        (state_of (set_version (nth 1 regs 0) s1)) = Done r2 s2' /\
    s2 = state_of
           (match r2 with
            | Some regs2 =>
                if negb (nth 0 regs2 0 =? 0) then set_version (nth 0 regs2 0)
                else ret tt
            | None => ret tt
            end s2').

(** ** Example runs *)

Definition five_pending : list bstring :=
  map (UVCPPendingAck 1) [0; 3; 0; 7; 1].

(** Five PENDING_ACK frames, then the acknowledgement of a 4-byte read. *)
Definition slow_read_state : State :=
  claimed_state (scripted_world 1
    (map InData five_pending ++ [InData (UVCPReadMemoryAck 1 (B "abcd"))])).

(** Six PENDING_ACK frames in answer to a write. *)
Definition stuck_write_state : State :=
  claimed_state (scripted_world 1
    (map InData five_pending ++ [InData (UVCPPendingAck 1 9)])).

(** ** What a run sends *)

(** [extends G s s']: the trace of [s'] is the trace of [s] followed by
    events that all satisfy [G]. *)
Definition extends (G : Event -> Prop) (s s' : State) : Prop :=
  exists evs, trace s' = trace s ++ evs /\ Forall G evs.

(** [sends I G m]: whatever state [m] runs from and however it ends (it
    returns, hits undefined behaviour, or runs out of fuel), it only adds
    events that satisfy [G] to the trace, and it keeps the property [I] of
    the [TerminalClient] object. *)
Definition sends {A} (I : TerminalClient -> Prop) (G : Event -> Prop) (m : M A)
  : Prop :=
  forall s, I (terminal s) ->
    I (terminal (state_of (m s))) /\ extends G s (state_of (m s)).

(** Events whose bulk OUT frames all satisfy [R]. *)
Definition frames (R : bstring -> Prop) (e : Event) : Prop :=
  match e with
  | BulkOut f => R f
  | _ => True
  end.

(** A property of the [TerminalClient] that only depends on the password
    and the echo mode. *)
Definition settings_only (I : TerminalClient -> Prop) : Prop :=
  forall t init v c,
    I t ->
    I {| initialized_ := init; version_ := v; chunkHint_ := c;
         password_ := password_ t; echoEnabled_ := echoEnabled_ t |}.

(** The frames of the two requests the host can make: any read, and the
    writes of [data] to [address] that [W] admits. *)
Definition requests (W : Z -> bstring -> Prop) (f : bstring) : Prop :=
  (exists id address bytes, f = UVCPReadMemoryCmd id address bytes) \/
  (exists id address data bytes,
      f = UVCPWriteMemoryCmd id address data bytes /\
      W address (firstn (Z.to_nat bytes) data)).

(** The control words of [ensureSession] and of [reset]. *)
Definition start_word (echo : bool) : Z :=
  Z.lor (Z.lor kCtrlStart kCtrlClearFlags) (echo_bit echo).
Definition reset_word (echo : bool) : Z :=
  Z.lor (Z.lor kCtrlReset kCtrlClearFlags) (echo_bit echo).

(** The writes of the session layer for a client whose password is [pw]:
    a start or reset word to Status/Control and, with a password, the
    password to AuthBuf and 1 to AuthCmd. *)
Definition session_writes (pw : bstring) (address : Z) (data : bstring) : Prop :=
  (address = kTerminalStatusAddr /\
   exists echo, data = le 4 (start_word echo) \/ data = le 4 (reset_word echo)) \/
  (pw <> [] /\ address = kTerminalAuthBufAddr) \/
  (pw <> [] /\ address = kTerminalAuthCmdAddr /\ data = le 4 1).

Definition has_password (pw : bstring) (t : TerminalClient) : Prop :=
  password_ t = pw.

(** The session layer only makes the requests of [session_writes]. *)
Definition session_frames (pw : bstring) : Event -> Prop :=
  frames (requests (session_writes pw)).

(** ** Reading a request off the wire *)

(** The fields of a frame, as the device finds them: the command of the
    header, and for the memory commands the 64-bit address that follows the
    header and, in a write, the bytes after it. *)
Definition frame_command (f : bstring) : Z := peek f off_command 2.
Definition frame_address (f : bstring) : Z := peek f sizeof_UVCPHeader 8.
Definition frame_payload (f : bstring) : bstring := skipn 20 f.
(** The size field of a read request. *)
Definition frame_read_size (f : bstring) : Z := peek f 22 2.

Definition is_write_to (address : Z) (f : bstring) : bool :=
  (frame_command f =? COMMAND_WRITE_MEMORY_CMD) && (frame_address f =? address).

Definition is_read_of (address : Z) (f : bstring) : bool :=
  (frame_command f =? COMMAND_READ_MEMORY_CMD) && (frame_address f =? address).

(** The frames among some events, and those a computation adds to the
    trace when run from [s]. *)
Definition sent_frames (evs : list Event) : list bstring :=
  flat_map (fun e => match e with BulkOut f => [f] | _ => [] end) evs.

Definition events_of {A} (m : M A) (s : State) : list Event :=
  skipn (length (trace s)) (trace (state_of (m s))).

Definition sent_by {A} (m : M A) (s : State) : list bstring :=
  sent_frames (events_of m s).

(** A control word with exactly one of the two echo bits. *)
Definition echo_exclusive (ctrl : Z) : Prop :=
  has_bit ctrl kCtrlEchoEnable = negb (has_bit ctrl kCtrlEchoDisable).

(** A claimed device whose terminal is locked and accepts the password:
    header, version and chunk hint, the write of a control word, AuthStatus
    0, two accepted writes, AuthStatus 1 and a status with READY. *)
Definition locked_device_answers : list InOutcome :=
  [ InData (UVCPReadMemoryAck 1 (le 4 kTerminalMagic ++ le 4 kMinV2Version));
    register_ack 2 kMinV2Version;
    register_ack 3 256;
    InData (UVCPWriteMemoryAck 4 4);
    register_ack 5 0;
    InData (UVCPWriteMemoryAck 6 2);
    InData (UVCPWriteMemoryAck 7 4);
    register_ack 8 1;
    register_ack 9 kStatusReady ].

Definition with_password (pw : bstring) (s : State) : State :=
  set_terminal {| initialized_ := initialized_ (terminal s);
                  version_ := version_ (terminal s);
                  chunkHint_ := chunkHint_ (terminal s);
                  password_ := pw;
                  echoEnabled_ := echoEnabled_ (terminal s) |} s.

Definition locked_device_state : State :=
  with_password (B "pw") (claimed_state (scripted_world 9 locked_device_answers)).

(** A device that answers the header and the version but fails the read of
    the ChunkHint register (the bulk IN transfer times out). *)
Definition no_chunk_hint_state : State :=
  claimed_state (scripted_world 3
    [ InData (UVCPReadMemoryAck 1 (le 4 kTerminalMagic ++ le 4 kMinV2Version));
      register_ack 2 kMinV2Version;
      InError ]).

(** An authenticated device whose session has to be started. *)
Definition idle_device_state : State :=
  claimed_state (scripted_world 7
    [ InData (UVCPReadMemoryAck 1 (le 4 kTerminalMagic ++ le 4 kMinV2Version));
      register_ack 2 kMinV2Version;
      register_ack 3 0;
      register_ack 4 1;
      register_ack 5 0;
      InData (UVCPWriteMemoryAck 6 4);
      register_ack 7 kStatusReady ]).

(** The content of the 0x60-byte [buffer] of [prepareFilePath]: the path,
    then zeros. *)
Definition staged_path (remotePath : bstring) : bstring :=
  remotePath ++ repeat x00 (Z.to_nat kTerminalFilePathCapacity - length remotePath).

(** A device that accepts the Reset file command and the staged path. *)
Definition path_device_state : State :=
  claimed_state (scripted_world 2
    [ InData (UVCPWriteMemoryAck 1 4); InData (UVCPWriteMemoryAck 2 0x60) ]).

Definition path_0x5F : bstring := repeat "a"%byte 0x5F.
Definition path_0x60 : bstring := repeat "a"%byte 0x60.

(** "Sends the command and drains output once", in the words of the
    specification of the one-shot runner: the result is success when both
    steps succeed, and the output, if any, is printed. *)
Definition send_then_drain_once (fuel : nat) (command : bstring) : M bool :=
  sent <- sendCommand fuel command ;;
  if sent then
    r <- drainOutput fuel [] default_idleTimeout default_maxWait ;;
    if fst r then print_output (snd r) ;; ret true
    else ret false
  else ret false.

Definition is_transfer_word (op : bstring) : Prop :=
  op = B "u3vget" \/ op = B "u3vput".

(** The user types [e], [x], [i], [t] and Return, one key per poll; the
    device acknowledges every write. *)
Definition typing_exit_state : State :=
  set_world
    (with_stdin_polls
       [Some (B "e"); Some (B "x"); Some (B "i"); Some (B "t");
        Some [carriage_return]]
       (scripted_world 5
          [ InData (UVCPWriteMemoryAck 1 1); InData (UVCPWriteMemoryAck 2 1);
            InData (UVCPWriteMemoryAck 3 1); InData (UVCPWriteMemoryAck 4 1);
            InData (UVCPWriteMemoryAck 5 4) ]))
    (claimed_state (scripted_world 0 [])).

(** The same word pasted: it arrives with its Return in one [read]. *)
Definition pasted_exit_state : State :=
  set_world
    (with_stdin_polls [Some (B "exit" ++ [carriage_return])]
       (scripted_world 1 [ InData (UVCPWriteMemoryAck 1 8) ]))
    (claimed_state (scripted_world 0 [])).

(** What a run wrote to the TTY Data register, write by write. *)
Definition tty_writes (evs : list Event) : list bstring :=
  map frame_payload (filter (is_write_to kTerminalDataAddr) (sent_frames evs)).

Definition four_backspaces : bstring :=
  [backspace; backspace; backspace; backspace].

(** The writes of a file transfer: those of the session, the file command,
    the staged path, and slices of at most [kTerminalFileDataWindow] bytes
    to the FileData window. *)
Definition transfer_writes (pw : bstring) (address : Z) (data : bstring) : Prop :=
  session_writes pw address data \/
  address = kTerminalFileCmdAddr \/
  address = kTerminalFilePathAddr \/
  (address = kTerminalFileDataAddr /\
   Z.of_nat (length data) <= kTerminalFileDataWindow).

Definition transfer_frames (pw : bstring) : Event -> Prop :=
  frames (requests (transfer_writes pw)).

(** The answers of an authenticated, ready device up to the end of
    [ensureSession]: header, version, chunk hint, AuthStatus, Status. *)
Definition ready_device_answers : list InOutcome :=
  [ InData (UVCPReadMemoryAck 1 (le 4 kTerminalMagic ++ le 4 kMinV2Version));
    register_ack 2 kMinV2Version;
    register_ack 3 0;
    register_ack 4 1;
    register_ack 5 kStatusReady ].

(** A download of a 0x80-byte file from a device that offers all of it at
    once: FileDataAvail reads 0x80. *)
Definition wide_download_state : State :=
  claimed_state
    (with_files [] 4096
       (scripted_world 17
          (ready_device_answers ++
           [ InData (UVCPWriteMemoryAck 6 4);        (* FileCmd := Reset *)
             InData (UVCPWriteMemoryAck 7 0x60);     (* FilePath *)
             InData (UVCPWriteMemoryAck 8 4);        (* FileCmd := OpenRead *)
             register_ack 9 kFileStatusReading;
             register_ack 10 0x80;                   (* FileSizeLow *)
             register_ack 11 0;                      (* FileSizeHigh *)
             register_ack 12 0x80;                   (* FileDataAvail *)
             InData (UVCPReadMemoryAck 13 (repeat "z"%byte 0x80));
             register_ack 14 0;                      (* FileDataAvail *)
             register_ack 15 kFileStatusEof;
             InData (UVCPWriteMemoryAck 16 4);       (* FileCmd := Close *)
             register_ack 17 0 ]))).

(** An upload of a 100-byte local file. *)
Definition upload_state : State :=
  claimed_state
    (with_files [(B "./b.bin", repeat "y"%byte 100)] 0
       (scripted_world 15
          (ready_device_answers ++
           [ InData (UVCPWriteMemoryAck 6 4);        (* FileCmd := Reset *)
             InData (UVCPWriteMemoryAck 7 0x60);     (* FilePath *)
             InData (UVCPWriteMemoryAck 8 4);        (* FileCmd := OpenWrite *)
             register_ack 9 kFileStatusWriting;
             InData (UVCPWriteMemoryAck 10 64);      (* FileData, 64 bytes *)
             register_ack 11 kFileStatusWriting;
             InData (UVCPWriteMemoryAck 12 36);      (* FileData, 36 bytes *)
             register_ack 13 kFileStatusWriting;
             InData (UVCPWriteMemoryAck 14 4);       (* FileCmd := Close *)
             register_ack 15 0 ]))).

(** ** A device that never becomes ready *)

(** Answers given in order to the requests 1, 2, 3, ...: each element takes
    the id of the request it answers. *)
Definition numbered (answers : list (Z -> InOutcome)) : list InOutcome :=
  map (fun p => fst p (Z.of_nat (snd p)))
      (combine answers (seq 1 (length answers))).

Definition reads (value : Z) : Z -> InOutcome := fun id => register_ack id value.
Definition accepts (bytes : Z) : Z -> InOutcome :=
  fun id => InData (UVCPWriteMemoryAck id bytes).

(** The device is locked, accepts the two-byte password, takes every control
    word and keeps reporting a status without READY.  [preamble] are its
    answers to what the host does before [ensureSession]; the last answer
    is there for a write that may follow the time-out. *)
Definition never_ready_answers (preamble : list (Z -> InOutcome))
  : list InOutcome :=
  numbered
    ([ fun id => InData (UVCPReadMemoryAck id
                           (le 4 kTerminalMagic ++ le 4 kMinV2Version));
       reads kMinV2Version;              (* Version *)
       reads 0 ]                         (* ChunkHint *)
     ++ preamble ++
     [ reads 0;                          (* AuthStatus: locked *)
       accepts 2;                        (* AuthBuf := password *)
       accepts 4;                        (* AuthCmd := 1 *)
       reads 1;                          (* AuthStatus: authenticated *)
       reads 0;                          (* Status: not ready *)
       accepts 4 ]                       (* Status/Control := START ... *)
     ++ repeat (reads 0) 40              (* Status, polled for 2 s *)
     ++ [ accepts 4 ]).

Definition never_ready_world (preamble : list (Z -> InOutcome)) : World :=
  scripted_world 60 (never_ready_answers preamble).

(** [u3vdb -r -p pw] and [u3vdb -p pw]. *)
Definition reset_options : Options :=
  {| interactive := true; interactiveMode := 2; resetSession := true;
     singleCommand := []; password := B "pw" |}.

Definition plain_options : Options :=
  {| interactive := true; interactiveMode := 2; resetSession := false;
     singleCommand := []; password := B "pw" |}.

(** A write of [value] to the register at [address]. *)
Definition writes_register (address value : Z) (f : bstring) : bool :=
  is_write_to address f && bytes_eqb (frame_payload f) (le 4 value).

(** The frames of a whole run of [main]. *)
Definition frames_of_run (fuel : nat) (o : Options) (w : World) : list bstring :=
  sent_frames (trace (state_of (main fuel o (initial_state w)))).
(** ** More vocabulary: frames, transactions and runs *)

Definition frame_magic (f : bstring) : Z := peek f off_magic 4.
Definition frame_flags (f : bstring) : Z := peek f off_flags 2.
Definition frame_size (f : bstring) : Z := peek f off_size 2.
Definition frame_id (f : bstring) : Z := peek f off_id 2.

Definition sleeps (evs : list Event) : list Z :=
  flat_map (fun e => match e with Sleep ms => [ms] | _ => [] end) evs.

Definition total (l : list Z) : Z := fold_right Z.add 0 l.

(** [s'] is [s] after the acknowledgement loop has run with [left] more
    PENDING_ACK frames to tolerate: [ins] bulk IN transfers, nothing sent. *)
Definition receive_steps (left : nat) (s s' : State) : Prop :=
  exists (ins : nat) (evs : list Event),
    (1 <= ins <= left + 1)%nat /\
    w_in (world s') = skipn ins (w_in (world s)) /\
    w_out (world s') = w_out (world s) /\
    trace s' = trace s ++ evs /\
    sent_frames evs = [] /\
    (length (sleeps evs) <= left)%nat /\
    (length (sleeps evs) < ins)%nat /\
    Forall (fun ms => 1 <= ms) (sleeps evs) /\
    w_latency (world s') = w_latency (world s) /\
    w_now (world s') = w_now (world s) + Z.of_nat ins * w_latency (world s)
                       + total (sleeps evs) /\
    terminal s' = terminal s /\ device_ s' = device_ s.

(** [s'] is [s] after at most one transaction: at most one bulk OUT
    transfer and, only after it, at most [kMaxPendingLoops + 1] bulk IN
    transfers, taken in order; fewer sleeps than bulk IN transfers, each of
    a millisecond at least; the time of the transfers and of the sleeps has
    passed; the frame carries the new request id; the objects are otherwise
    the same. *)
Definition one_transaction (s s' : State) : Prop :=
  exists (outs ins : nat) (evs : list Event),
    (outs <= 1)%nat /\ (ins <= kMaxPendingLoops + 1)%nat /\
    (outs = 0%nat -> ins = 0%nat) /\
    w_out (world s') = skipn outs (w_out (world s)) /\
    w_in (world s') = skipn ins (w_in (world s)) /\
    trace s' = trace s ++ evs /\
    length (sent_frames evs) = outs /\
    (length (sleeps evs) < Nat.max ins 1)%nat /\
    Forall (fun ms => 1 <= ms) (sleeps evs) /\
    Forall (fun f => frame_id f = requestId_ (device_ s')) (sent_frames evs) /\
    w_latency (world s') = w_latency (world s) /\
    w_now (world s') = w_now (world s)
                       + Z.of_nat (outs + ins) * w_latency (world s)
                       + total (sleeps evs) /\
    terminal s' = terminal s /\
    claimed_ (device_ s') = claimed_ (device_ s) /\
    handle_ (device_ s') = handle_ (device_ s) /\
    requestId_ (device_ s') =
      (if (outs =? 0)%nat then requestId_ (device_ s)
       else uint16 (requestId_ (device_ s) + 1)).

(** The request ids of [n] transactions that follow [requestId]. *)
Definition request_ids (requestId : Z) (n : nat) : list Z :=
  map (fun i => uint16 (requestId + 1 + Z.of_nat i)) (seq 0 n).

(** What the types of the C++ fields guarantee: [requestId_] is a
    [uint16_t], [chunkHint_] a [uint32_t]. *)
Definition well_typed (s : State) : Prop :=
  0 <= requestId_ (device_ s) < 65536 /\ 0 <= chunkHint_ (terminal s).

(** [s'] is [s] after any number of transactions: the frames sent carry
    consecutive request ids, each has used up one answer of the OUT endpoint
    and at most [kMaxPendingLoops + 1] answers of the IN endpoint, in
    order; the clock has not gone back. *)
Definition transacts (s s' : State) : Prop :=
  exists (ins : nat) (evs : list Event),
    trace s' = trace s ++ evs /\
    w_out (world s') = skipn (length (sent_frames evs)) (w_out (world s)) /\
    w_in (world s') = skipn ins (w_in (world s)) /\
    (ins <= (kMaxPendingLoops + 1) * length (sent_frames evs))%nat /\
    map frame_id (sent_frames evs)
      = request_ids (requestId_ (device_ s)) (length (sent_frames evs)) /\
    requestId_ (device_ s')
      = uint16 (requestId_ (device_ s) + Z.of_nat (length (sent_frames evs))) /\
    w_latency (world s') = w_latency (world s) /\
    (0 <= w_latency (world s) -> w_now (world s) <= w_now (world s')).

(** [runs P m]: from a well-typed state, [m] ends (however it ends) in a
    well-typed state reached by transactions, and what it returns
    satisfies [P]. *)
Definition runs {A} (P : A -> Prop) (m : M A) : Prop :=
  forall s, well_typed s ->
    well_typed (state_of (m s)) /\ transacts s (state_of (m s)) /\
    forall a s', m s = Done a s' -> P a.

(** [keeps P m]: moreover [m] neither claims nor releases the interface. *)
Definition keeps {A} (P : A -> Prop) (m : M A) : Prop :=
  forall s, well_typed s ->
    (well_typed (state_of (m s)) /\ transacts s (state_of (m s)) /\
     forall a s', m s = Done a s' -> P a) /\
    claimed_ (device_ (state_of (m s))) = claimed_ (device_ s).

Definition any {A} (a : A) : Prop := True.

(** A value read from a register, when there is one. *)
Definition register_value (r : option Z) : Prop :=
  forall v, r = Some v -> 0 <= v.

Definition register_values (r : option (list Z)) : Prop :=
  forall vals i, r = Some vals -> 0 <= nth i vals 0.

(** ** More example runs *)

(** Five PENDING_ACK frames, then the acknowledgement of a 2-byte write. *)
Definition slow_write_state : State :=
  claimed_state (scripted_world 1
    (map InData five_pending ++ [InData (UVCPWriteMemoryAck 1 2)])).

(** A PENDING_ACK, then its first byte alone, then the acknowledgement of a
    4-byte read. *)
Definition truncated_answer_state : State :=
  claimed_state (scripted_world 1
    [ InData (UVCPPendingAck 1 7);
      InData (firstn 1 (UVCPPendingAck 1 7));
      InData (UVCPReadMemoryAck 1 (B "abcd")) ]).

(** A device that answers the first read with two registers. *)
Definition two_registers_state : State :=
  claimed_state (scripted_world 1
    [ InData (UVCPReadMemoryAck 1 (le 4 kTerminalMagic ++ le 4 kMinV2Version)) ]).

(** [u3vdb -get /tmp/a.bin] is not a thing; [u3vdb -c "u3vget /tmp/a.bin"]
    is: a one-shot command that only prints its usage line. *)
Definition usage_options : Options :=
  {| interactive := false; interactiveMode := 2; resetSession := false;
     singleCommand := B "u3vget /tmp/a.bin"; password := [] |}.

(** A device that answers [initialize] and accepts one write. *)
Definition quiet_device_world : World :=
  scripted_world 4
    (numbered
       [ fun id => InData (UVCPReadMemoryAck id
                             (le 4 kTerminalMagic ++ le 4 kMinV2Version));
         reads kMinV2Version; reads 256; accepts 4 ]).

(** A ready device that takes a three-byte command. *)
Definition ready_shell_state : State :=
  claimed_state (scripted_world 6
    (ready_device_answers ++ [InData (UVCPWriteMemoryAck 6 3)])).

(** A device that answers every register read with 0: a session that never
    becomes READY, a file that is never open. *)
Definition polling_state : State :=
  claimed_state (scripted_world 60 (numbered (repeat (reads 0) 60))).

(** ** The command line *)

Definition space : byte := x20.

(** The loop of [joinArguments]; [first] is [i == startIndex]. *)
Fixpoint joinArguments_loop (first : bool) (args : list bstring) : bstring :=
  match args with
  | [] => []
  | arg :: rest =>
      (if first then [] else [space]) ++ arg ++ joinArguments_loop false rest
  end.

(** [std::string joinArguments(int argc, char** argv, int startIndex)] *)
Definition joinArguments (argv : list bstring) (startIndex : nat) : bstring :=
  joinArguments_loop true (skipn startIndex argv).

(** A word: what [operator>>] reads as one token. *)
Definition is_word (t : bstring) : Prop :=
  t <> [] /\ forallb (fun c => negb (isspace c)) t = true.

(** What [main] has in its locals when its argument loop is over. *)
Record Arguments_ : Type := mkArguments {
  arg_interactive : bool;
  arg_interactiveMode : Z;
  arg_resetSession : bool;
  arg_singleCommand : bstring;
  arg_password : bstring;
  arg_serialFilter : bstring;
  arg_vendorId : Z;
  arg_productId : Z
}.

Definition kVendorId : Z := 0x04b4.
Definition kProductId : Z := 0x1003.

(** The initial values of the locals. *)
Definition no_arguments : Arguments_ :=
  {| arg_interactive := true; arg_interactiveMode := 2;
     arg_resetSession := false; arg_singleCommand := []; arg_password := [];
     arg_serialFilter := []; arg_vendorId := kVendorId;
     arg_productId := kProductId |}.

(** The messages of the argument loop, as it prints them. *)
Inductive ArgumentError : Type :=
| CommandRequiresArgument      (* "--command requires an argument" *)
| InvalidInteractiveMode       (* "Invalid interactive mode value" *)
| GetRequiresArguments         (* "-get requires 2 arguments" *)
| PutRequiresArguments         (* "-put requires 2 arguments" *)
| PasswordRequiresArgument     (* "--password requires an argument" *)
| IdRequiresArgument           (* "--id requires an argument" *)
| VidRequiresArgument          (* "--vid requires an argument" *)
| InvalidVendorId              (* "Invalid vendor ID value" *)
| PidRequiresArgument          (* "--pid requires an argument" *)
| InvalidProductId.            (* "Invalid product ID value" *)

(** How the argument loop ends: [printUsage] and [EXIT_SUCCESS], a message
    and [EXIT_FAILURE], or the locals the rest of [main] goes on with. *)
Inductive Parsed : Type :=
| ShowUsage
| BadArguments (e : ArgumentError)
| Proceed (a : Arguments_).

Section Argument_loop.

(** [std::stoul(s, nullptr, 0)]: the number read, or [None] where it
    throws. *)
Variable stoul : bstring -> option Z.

(** The lambda [parseU16]. *)
Definition parseU16 (s : bstring) : option Z :=
  match stoul s with
  | None => None
  | Some v => if v >? 0xFFFF then None else Some (uint16 v)
  end.

Definition is_arg (arg : bstring) (short long : String.string) : bool :=
  bytes_eqb arg (B short) || bytes_eqb arg (B long).

(** [for (int i = 1; i < argc; ++i)]: [args] is [argv] from [i] on. *)
Fixpoint parse_arguments (a : Arguments_) (args : list bstring) : Parsed :=
  match args with
  | [] => Proceed a
  | arg :: rest =>
      if is_arg arg "-h" "--help" then ShowUsage
      else if is_arg arg "-i" "--interactive" then
        match rest with
        | [] => BadArguments CommandRequiresArgument
        | value :: rest' =>
            match parseU16 value with
            | None => BadArguments InvalidInteractiveMode
            | Some v =>
                parse_arguments
                  (mkArguments true v (arg_resetSession a) []
                     (arg_password a) (arg_serialFilter a) (arg_vendorId a)
                     (arg_productId a)) rest'
            end
        end
      else if is_arg arg "-r" "--reset" then
        parse_arguments
          (mkArguments (arg_interactive a) (arg_interactiveMode a) true
             (arg_singleCommand a) (arg_password a) (arg_serialFilter a)
             (arg_vendorId a) (arg_productId a)) rest
      else if is_arg arg "-c" "--command" then
        match rest with
        | [] => BadArguments CommandRequiresArgument
        | value :: rest' =>
            parse_arguments
              (mkArguments false (arg_interactiveMode a) (arg_resetSession a)
                 value (arg_password a) (arg_serialFilter a) (arg_vendorId a)
                 (arg_productId a)) rest'
        end
      else if bytes_eqb arg (B "-get") then
        match rest with
        | remote :: local :: rest' =>
            parse_arguments
              (mkArguments false (arg_interactiveMode a) (arg_resetSession a)
                 (B "u3vget " ++ remote ++ B " " ++ local)
                 (arg_password a) (arg_serialFilter a) (arg_vendorId a)
                 (arg_productId a)) rest'
        | _ => BadArguments GetRequiresArguments
        end
      else if bytes_eqb arg (B "-put") then
        match rest with
        | local :: remote :: rest' =>
            parse_arguments
              (mkArguments false (arg_interactiveMode a) (arg_resetSession a)
                 (B "u3vput " ++ local ++ B " " ++ remote)
                 (arg_password a) (arg_serialFilter a) (arg_vendorId a)
                 (arg_productId a)) rest'
        | _ => BadArguments PutRequiresArguments
        end
      else if is_arg arg "-p" "--password" then
        match rest with
        | [] => BadArguments PasswordRequiresArgument
        | value :: rest' =>
            parse_arguments
              (mkArguments (arg_interactive a) (arg_interactiveMode a)
                 (arg_resetSession a) (arg_singleCommand a) value
                 (arg_serialFilter a) (arg_vendorId a) (arg_productId a)) rest'
        end
      else if is_arg arg "-id" "--id" then
        match rest with
        | [] => BadArguments IdRequiresArgument
        | value :: rest' =>
            parse_arguments
              (mkArguments (arg_interactive a) (arg_interactiveMode a)
                 (arg_resetSession a) (arg_singleCommand a) (arg_password a)
                 value (arg_vendorId a) (arg_productId a)) rest'
        end
      else if bytes_eqb arg (B "--vid") then
        match rest with
        | [] => BadArguments VidRequiresArgument
        | value :: rest' =>
            match parseU16 value with
            | None => BadArguments InvalidVendorId
            | Some v =>
                parse_arguments
                  (mkArguments (arg_interactive a) (arg_interactiveMode a)
                     (arg_resetSession a) (arg_singleCommand a) (arg_password a)
                     (arg_serialFilter a) v (arg_productId a)) rest'
            end
        end
      else if bytes_eqb arg (B "--pid") then
        match rest with
        | [] => BadArguments PidRequiresArgument
        | value :: rest' =>
            match parseU16 value with
            | None => BadArguments InvalidProductId
            | Some v =>
                parse_arguments
                  (mkArguments (arg_interactive a) (arg_interactiveMode a)
                     (arg_resetSession a) (arg_singleCommand a) (arg_password a)
                     (arg_serialFilter a) (arg_vendorId a) v) rest'
            end
        end
      else
        Proceed
          (mkArguments false (arg_interactiveMode a) (arg_resetSession a)
             (joinArguments_loop true (arg :: rest))
             (arg_password a) (arg_serialFilter a) (arg_vendorId a)
             (arg_productId a))
  end.

End Argument_loop.

(** The locals that the rest of [main] reads. *)
Definition options_of (a : Arguments_) : Options :=
  {| interactive := arg_interactive a;
     interactiveMode := arg_interactiveMode a;
     resetSession := arg_resetSession a;
     singleCommand := arg_singleCommand a;
     password := arg_password a |}.

(** The arguments that the loop reads as options. *)
Definition is_option (arg : bstring) : bool :=
  existsb (bytes_eqb arg)
    (map B ["-h"; "--help"; "-i"; "--interactive"; "-r"; "--reset"; "-c";
            "--command"; "-get"; "-put"; "-p"; "--password"; "-id"; "--id";
            "--vid"; "--pid"]%string).

(** ** The descriptors [findU3VControlInterface] searches *)

(** The oracle [findU3VControlInterface] above says how the search ends; this
    is the search itself, over the configuration descriptor libusb returns.
    The arrays of the libusb structures are lists, their counts
    ([bNumInterfaces], [num_altsetting], [bNumEndpoints]) the lengths. *)
Module Descriptors.

Record libusb_endpoint_descriptor : Type := {
  bmAttributes : Z;
  bEndpointAddress : Z
}.

Record libusb_interface_descriptor : Type := {
  bInterfaceNumber : Z;
  bInterfaceClass : Z;
  bInterfaceSubClass : Z;
  bInterfaceProtocol : Z;
  endpoint : list libusb_endpoint_descriptor
}.

Record libusb_interface : Type := {
  altsetting : list libusb_interface_descriptor
}.

Record libusb_config_descriptor : Type := {
  interface : list libusb_interface
}.

Definition LIBUSB_TRANSFER_TYPE_BULK : Z := 2.

(** One turn of the loop over the endpoints; the pair is [(epIn, epOut)]. *)
Definition scan_endpoint (eps : Z * Z) (ep : libusb_endpoint_descriptor)
  : Z * Z :=
  let type := Z.land (bmAttributes ep) 0x3 in
  if type =? LIBUSB_TRANSFER_TYPE_BULK then
    if negb (Z.land (bEndpointAddress ep) 0x80 =? 0) then
      (bEndpointAddress ep, snd eps)
    else (fst eps, bEndpointAddress ep)
  else eps.

(** The body of the loops for one alternate setting: the interface number
    and the endpoints OUT and IN when it is the control interface. *)
Definition control_interface (idesc : libusb_interface_descriptor)
  : option (Z * Z * Z) :=
  if (bInterfaceClass idesc =? 0xEF) && (bInterfaceSubClass idesc =? 0x05)
     && (bInterfaceProtocol idesc =? 0x00) then
    let eps := fold_left scan_endpoint (endpoint idesc) (0, 0) in
    if negb (fst eps =? 0) && negb (snd eps =? 0) then
      Some (bInterfaceNumber idesc, snd eps, fst eps)
    else None
  else None.

(** [for (a = 0; a < intf.num_altsetting && !found; ++a)] *)
Fixpoint search_altsettings (alts : list libusb_interface_descriptor)
  : option (Z * Z * Z) :=
  match alts with
  | [] => None
  | idesc :: rest =>
      match control_interface idesc with
      | Some found => Some found
      | None => search_altsettings rest
      end
  end.

(** [for (i = 0; i < cfg->bNumInterfaces && !found; ++i)] *)
Fixpoint search_interfaces (intfs : list libusb_interface)
  : option (Z * Z * Z) :=
  match intfs with
  | [] => None
  | intf :: rest =>
      match search_altsettings (altsetting intf) with
      | Some found => Some found
      | None => search_interfaces rest
      end
  end.

(** [Some (outInterface, outEpOut, outEpIn)] where the C++ returns [true]. *)
Definition findU3VControlInterface (cfg : libusb_config_descriptor)
  : option (Z * Z * Z) :=
  search_interfaces (interface cfg).

(** The alternate settings in the order the loops visit them. *)
Definition settings (cfg : libusb_config_descriptor)
  : list libusb_interface_descriptor :=
  flat_map altsetting (interface cfg).

Definition is_bulk (ep : libusb_endpoint_descriptor) : Prop :=
  Z.land (bmAttributes ep) 0x3 = LIBUSB_TRANSFER_TYPE_BULK.

(** The two kinds of endpoint the loop over the endpoints keeps: bulk
    endpoints with the direction bit 0x80 (IN) and without it (OUT). *)
Definition bulk_in (ep : libusb_endpoint_descriptor) : bool :=
  (Z.land (bmAttributes ep) 0x3 =? LIBUSB_TRANSFER_TYPE_BULK)
  && negb (Z.land (bEndpointAddress ep) 0x80 =? 0).

Definition bulk_out (ep : libusb_endpoint_descriptor) : bool :=
  (Z.land (bmAttributes ep) 0x3 =? LIBUSB_TRANSFER_TYPE_BULK)
  && (Z.land (bEndpointAddress ep) 0x80 =? 0).

(** The last endpoint of the kind [p] in the order of the descriptor; the
    loop overwrites [epIn] and [epOut] each time it meets one. *)
Definition last_endpoint (p : libusb_endpoint_descriptor -> bool)
    (eps : list libusb_endpoint_descriptor) : option libusb_endpoint_descriptor :=
  find p (rev eps).

(** An alternate setting that the search accepts: class 0xEF, subclass
    0x05, protocol 0, a bulk IN endpoint, and a last bulk OUT endpoint whose
    address is not 0. *)
Definition qualifies (idesc : libusb_interface_descriptor) : bool :=
  (bInterfaceClass idesc =? 0xEF) && (bInterfaceSubClass idesc =? 0x05)
  && (bInterfaceProtocol idesc =? 0x00)
  && match last_endpoint bulk_in (endpoint idesc),
           last_endpoint bulk_out (endpoint idesc) with
     | Some _, Some epOut => negb (bEndpointAddress epOut =? 0)
     | _, _ => false
     end.

Definition bulk (address : Z) : libusb_endpoint_descriptor :=
  {| bmAttributes := 2; bEndpointAddress := address |}.
Definition interrupt (address : Z) : libusb_endpoint_descriptor :=
  {| bmAttributes := 3; bEndpointAddress := address |}.

(** A camera with three interfaces: a vision interface without bulk OUT
    endpoint, one whose first alternate setting has another protocol and
    whose second is the control interface, and one more that would do. *)
Definition camera_config : libusb_config_descriptor :=
  {| interface :=
       [ {| altsetting :=
              [ {| bInterfaceNumber := 0; bInterfaceClass := 0xEF;
                   bInterfaceSubClass := 0x05; bInterfaceProtocol := 0x00;
                   endpoint := [bulk 0x81] |} ] |};
         {| altsetting :=
              [ {| bInterfaceNumber := 1; bInterfaceClass := 0xEF;
                   bInterfaceSubClass := 0x05; bInterfaceProtocol := 0x01;
                   endpoint := [bulk 0x82; bulk 0x02] |};
                {| bInterfaceNumber := 1; bInterfaceClass := 0xEF;
                   bInterfaceSubClass := 0x05; bInterfaceProtocol := 0x00;
                   endpoint := [interrupt 0x83; bulk 0x01; bulk 0x84;
                                bulk 0x04] |} ] |};
         {| altsetting :=
              [ {| bInterfaceNumber := 2; bInterfaceClass := 0xEF;
                   bInterfaceSubClass := 0x05; bInterfaceProtocol := 0x00;
                   endpoint := [bulk 0x85; bulk 0x05] |} ] |} ] |}.

End Descriptors.

(** ** Plain typing in the V2 shell *)

(** What a key does to the line buffer of the V2 loop when the key is
    forwarded. *)
Definition edit_key (line : bstring) (ch : byte) : bstring :=
  if Byte.eqb ch carriage_return || Byte.eqb ch newline then []
  else if Byte.eqb ch delete_key || Byte.eqb ch backspace then removelast line
  else if isprint ch then line ++ [ch]
  else line.

(** A key the host does not act upon: not Ctrl+], and not the end of a line
    that reads [exit] or starts with a file-transfer command. *)
Definition plain_key (line : bstring) (ch : byte) : bool :=
  negb (Byte.eqb ch kExitKey) &&
  (if Byte.eqb ch carriage_return || Byte.eqb ch newline then
     negb (bytes_eqb line (B "exit")) && negb (tryHandleFileTransferCommand line)
   else true).

Fixpoint plain_typing (line chunk : bstring) : bool :=
  match chunk with
  | [] => true
  | ch :: rest => plain_key line ch && plain_typing (edit_key line ch) rest
  end.

(** The user types [ls] and Return in one go; the device takes the bytes. *)
Definition typing_ls_state : State :=
  claimed_state (scripted_world 1 [InData (UVCPWriteMemoryAck 1 3)]).

(** ** What an upload writes *)

(** What a run wrote to the FileData window, write by write. *)
Definition file_data_writes (evs : list Event) : list bstring :=
  map frame_payload (filter (is_write_to kTerminalFileDataAddr) (sent_frames evs)).

(** The writes of a file transfer that do not go to the FileData window. *)
Definition channel_writes (pw : bstring) (address : Z) (data : bstring) : Prop :=
  session_writes pw address data \/
  address = kTerminalFileCmdAddr \/
  address = kTerminalFilePathAddr.

Definition channel_frames (pw : bstring) : Event -> Prop :=
  frames (requests (channel_writes pw)).

(** [uploads pw content m]: what [m] writes to the FileData window is, put
    end to end, the beginning of [content]. *)
Definition uploads (pw content : bstring) {A} (m : M A) : Prop :=
  forall s, has_password pw (terminal s) ->
    has_password pw (terminal (state_of (m s))) /\
    exists evs k,
      trace (state_of (m s)) = trace s ++ evs /\
      concat (file_data_writes evs) = firstn k content.

(** A device that announces 65600 bytes in the FileData window and answers
    the read of 65600 mod 65536 = 64 bytes that the host then makes. *)
Definition overrun_state : State :=
  claimed_state
    (scripted_world 2
       [ register_ack 1 65600;
         InData (UVCPReadMemoryAck 2 (repeat x00 64)) ]).

(** A slow bus, 500 ms a transfer, and a terminal that has one more byte of
    output whenever it is asked. *)
Definition chatty_state : State :=
  claimed_state
    {| w_open_ok := true; w_find_ok := true; w_claim_ok := true;
       w_out := repeat true 6;
       w_in := [ register_ack 1 0; register_ack 2 1;
                 InData (UVCPReadMemoryAck 3 (B "a"));
                 register_ack 4 0; register_ack 5 1;
                 InData (UVCPReadMemoryAck 6 (B "b")) ];
       w_latency := 500; w_now := 0;
       w_stdin_lines := []; w_stdin_polls := []; w_tty_ok := true;
       w_files := []; w_readonly := []; w_disk_free := 0; w_trace := [] |}.

(** * Properties *)

(** ** Little-endian encoding *)

Lemma Z_of_byte_range (b : byte) : 0 <= Z_of_byte b < 256.
Proof.
  unfold Z_of_byte. pose proof (Byte.to_N_bounded b). lia.
Qed.

Lemma Z_of_byte_of_Z (z : Z) : Z_of_byte (byte_of_Z z) = z mod 256.
Proof.
  unfold Z_of_byte, byte_of_Z.
  assert (H : 0 <= z mod 256 < 256) by (apply Z.mod_pos_bound; lia).
  destruct (Byte.of_N (Z.to_N (z mod 256))) eqn:E.
  - apply Byte.to_of_N in E. rewrite E. lia.
  - apply Byte.of_N_None_iff in E. lia.
Qed.

Lemma length_le (n : nat) (v : Z) : length (le n v) = n.
Proof. revert v; induction n; intros; simpl; auto. Qed.

Lemma unle_le (n : nat) (v : Z) : unle (le n v) = v mod 256 ^ Z.of_nat n.
Proof.
  revert v; induction n; intros v.
  - simpl. rewrite Z.mod_1_r. reflexivity.
  - cbn [le unle]. rewrite Z_of_byte_of_Z, IHn.
    rewrite Nat2Z.inj_succ, Z.pow_succ_r by lia.
    rewrite Z.rem_mul_r by lia. reflexivity.
Qed.

Lemma unle_nonneg l : 0 <= unle l.
Proof.
  induction l; cbn [unle]; [lia|]. pose proof (Z_of_byte_range a). lia.
Qed.

Lemma peek_nonneg buffer off n : 0 <= peek buffer off n.
Proof. apply unle_nonneg. Qed.

Lemma peek_overwrite buffer d off n :
  (off + n <= length d)%nat -> peek (overwrite buffer d) off n = peek d off n.
Proof.
  intros H. unfold peek, overwrite. f_equal.
  apply map_ext_in. intros i Hi. apply in_seq in Hi.
  apply app_nth1. lia.
Qed.

(** ** The acknowledgement loops of the transport *)

Lemma bind_Done {A B} (m : M A) (k : A -> M B) s a s1 :
  m s = Done a s1 -> bind m k s = k a s1.
Proof. unfold bind. intros ->. reflexivity. Qed.

Lemma bulkReceive_data buffer d rest s :
  w_in (world s) = InData d :: rest ->
  (0 < length d)%nat -> Z.of_nat (length d) <= TY_UVCP_MAX_MSG_LEN ->
  exists s1, bulkReceive buffer s = Done (Some (overwrite buffer d)) s1 /\
    trace s1 = trace s /\ w_in (world s1) = rest /\
    w_out (world s1) = w_out (world s) /\
    device_ s1 = device_ s /\ terminal s1 = terminal s.
Proof.
  intros Hin Hpos Hmax.
  unfold bulkReceive, bind, take_in, transfer_time, bind, get, elapse.
  unfold TY_UVCP_MAX_MSG_LEN in *.
  rewrite Hin. cbn [hd tl].
  destruct (Z.of_nat (length d) >? 65536) eqn:E1; [lia|].
  destruct (Z.of_nat (length d) <=? 0) eqn:E2; [lia|].
  eexists; split; [reflexivity|]. cbn. auto.
Qed.

Ltac offsets :=
  unfold off_magic, off_flags, off_command, off_size, off_id, off_timeout_ms,
    off_bytes_written, sizeof_UVCPHeader in *.

Lemma sleep_for_run ms s :
  exists s1, sleep_for ms s = Done tt s1 /\
    trace s1 = trace s ++ [Sleep ms] /\ w_in (world s1) = w_in (world s) /\
    w_out (world s1) = w_out (world s) /\
    device_ s1 = device_ s /\ terminal s1 = terminal s.
Proof. eexists; split; [reflexivity|]. cbn. auto. Qed.

Lemma wait_is_max ms : 0 <= ms -> (if ms =? 0 then 1 else ms) = Z.max ms 1.
Proof. intros. destruct (ms =? 0) eqn:E; lia. Qed.

Lemma header_peeks id command buffer f :
  header_ok id command f ->
  peek (overwrite buffer f) off_magic 4 = MAGIC /\
  peek (overwrite buffer f) off_id 2 = id /\
  peek (overwrite buffer f) off_command 2 = command /\
  peek (overwrite buffer f) off_size 2 = peek f off_size 2.
Proof.
  intros (Hlen & _ & Hm & Hi & Hc). offsets.
  rewrite !peek_overwrite by lia. auto.
Qed.

Lemma readMemory_loop_pending left id bytes buffer f rest s :
  w_in (world s) = InData f :: rest -> is_pending id f ->
  exists s1,
    readMemory_loop (S left) id bytes buffer s
      = readMemory_loop left id bytes (overwrite buffer f) s1 /\
    trace s1 = trace s ++ [pending_sleep f] /\ w_in (world s1) = rest /\
    w_out (world s1) = w_out (world s) /\
    device_ s1 = device_ s /\ terminal s1 = terminal s.
Proof.
  intros Hin (Hh & H16).
  destruct (header_peeks id _ buffer f Hh) as (Pm & Pi & Pc & _).
  destruct Hh as (Hlen & Hmax & _).
  destruct (bulkReceive_data buffer f rest s Hin) as (s1 & E & T1 & I1 & O1 & D1 & C1);
    [offsets; lia | exact Hmax |].
  destruct (sleep_for_run (Z.max (peek f off_timeout_ms 2) 1) s1)
    as (s2 & E2 & T2 & I2 & O2 & D2 & C2).
  exists s2. split.
  - cbn [readMemory_loop]. rewrite (bind_Done _ _ _ _ _ E).
    rewrite Pm, Pi, Pc, !Z.eqb_refl. cbn [negb].
    rewrite wait_is_max by apply peek_nonneg.
    rewrite (peek_overwrite buffer f off_timeout_ms 2) by (offsets; lia).
    rewrite (bind_Done _ _ _ _ _ E2). reflexivity.
  - unfold pending_sleep. rewrite T2, T1, I2, I1, O2, O1, D2, D1, C2, C1.
    repeat split; auto.
Qed.

Lemma readMemory_loop_pendings pend : forall left id bytes buffer rest s,
  Forall (is_pending id) pend -> (length pend <= left)%nat ->
  w_in (world s) = map InData pend ++ rest ->
  exists s1 buffer1,
    readMemory_loop left id bytes buffer s
      = readMemory_loop (left - length pend) id bytes buffer1 s1 /\
    trace s1 = trace s ++ map pending_sleep pend /\ w_in (world s1) = rest /\
    w_out (world s1) = w_out (world s) /\
    device_ s1 = device_ s /\ terminal s1 = terminal s.
Proof.
  induction pend as [|f pend IH]; intros left id bytes buffer rest s HF Hlen Hin.
  - exists s, buffer. cbn [length map]. rewrite Nat.sub_0_r, app_nil_r. cbn in Hin. repeat split; auto.
  - inversion HF as [|? ? Hf HF']; subst.
    destruct left as [|left]; [cbn in Hlen; lia|].
    destruct (readMemory_loop_pending left id bytes buffer f (map InData pend ++ rest) s Hin Hf)
      as (s1 & E & T1 & I1 & O1 & D1 & C1).
    destruct (IH left id bytes (overwrite buffer f) rest s1 HF' ltac:(cbn in Hlen; lia) I1)
      as (s2 & buffer2 & E2 & T2 & I2 & O2 & D2 & C2).
    exists s2, buffer2. rewrite E, E2, T2, T1, O2, O1, D2, D1, C2, C1.
    cbn [length map Nat.sub]. rewrite <- app_assoc. repeat split; auto.
Qed.

Lemma cerr_run d s :
  exists s1, cerr d s = Done tt s1 /\
    trace s1 = trace s ++ [Cerr d] /\ w_in (world s1) = w_in (world s) /\
    w_out (world s1) = w_out (world s) /\
    device_ s1 = device_ s /\ terminal s1 = terminal s.
Proof. eexists; split; [reflexivity|]. cbn. auto. Qed.

Lemma readMemory_loop_too_many id bytes buffer f rest s :
  w_in (world s) = InData f :: rest -> is_pending id f ->
  exists s1,
    readMemory_loop 0 id bytes buffer s = Done None s1 /\
    trace s1 = trace s ++ [Cerr TooManyPending] /\ w_in (world s1) = rest.
Proof.
  intros Hin (Hh & H16).
  destruct (header_peeks id _ buffer f Hh) as (Pm & Pi & Pc & _).
  destruct Hh as (Hlen & Hmax & _).
  destruct (bulkReceive_data buffer f rest s Hin) as (s1 & E & T1 & I1 & O1 & D1 & C1);
    [offsets; lia | exact Hmax |].
  destruct (cerr_run TooManyPending s1) as (s2 & E2 & T2 & I2 & _).
  exists s2. split.
  - cbn [readMemory_loop]. rewrite (bind_Done _ _ _ _ _ E).
    rewrite Pm, Pi, Pc, !Z.eqb_refl. cbn [negb].
    rewrite (bind_Done _ _ _ _ _ E2). reflexivity.
  - rewrite T2, T1, I2, I1. auto.
Qed.

Lemma ack_data_length buffer bytes : 0 <= bytes ->
  Z.of_nat (length (ack_data buffer bytes)) = bytes.
Proof.
  intros. unfold ack_data. rewrite length_map, length_seq. lia.
Qed.

Lemma ack_data_overwrite buffer f bytes :
  (sizeof_UVCPHeader + Z.to_nat bytes <= length f)%nat ->
  ack_data (overwrite buffer f) bytes
    = firstn (Z.to_nat bytes) (skipn sizeof_UVCPHeader f).
Proof.
  intros H. unfold ack_data, overwrite.
  set (n := Z.to_nat bytes) in *. set (h := sizeof_UVCPHeader) in *.
  clearbody n h. clear bytes.
  transitivity (map (fun i => nth i f x00) (seq h n)).
  { apply map_ext_in. intros i Hi. apply in_seq in Hi. apply app_nth1. lia. }
  revert h f H. induction n; intros h f H; [reflexivity|].
  cbn [seq map].
  destruct (skipn h f) as [|b r] eqn:E.
  { apply (f_equal (@length _)) in E. rewrite length_skipn in E. cbn in E. lia. }
  cbn [firstn]. f_equal.
  - rewrite <- (firstn_skipn h f) at 1. rewrite app_nth2; rewrite length_firstn.
    + rewrite E. replace (h - Nat.min h (length f))%nat with 0%nat by lia. reflexivity.
    + lia.
  - rewrite IHn by lia. f_equal.
    replace (S h) with (1 + h)%nat by lia. rewrite <- skipn_skipn, E. reflexivity.
Qed.

Lemma readMemory_loop_ack left id bytes buffer f rest s :
  w_in (world s) = InData f :: rest -> is_read_ack id bytes f ->
  Z.of_nat sizeof_UVCPHeader + bytes <= TY_UVCP_MAX_MSG_LEN ->
  exists s1,
    readMemory_loop left id bytes buffer s
      = Done (Some (ack_data (overwrite buffer f) bytes)) s1 /\
    trace s1 = trace s /\ w_in (world s1) = rest /\
    w_out (world s1) = w_out (world s) /\
    device_ s1 = device_ s /\ terminal s1 = terminal s.
Proof.
  intros Hin (Hh & Hsz) Hfit.
  destruct (header_peeks id _ buffer f Hh) as (Pm & Pi & Pc & Ps).
  destruct Hh as (Hlen & Hmax & _).
  destruct (bulkReceive_data buffer f rest s Hin) as (s1 & E & T1 & I1 & O1 & D1 & C1);
    [offsets; lia | exact Hmax |].
  exists s1. split; [|repeat split; auto].
  destruct left; cbn [readMemory_loop]; rewrite (bind_Done _ _ _ _ _ E);
    rewrite Pm, Pi, Pc, Ps, Hsz, !Z.eqb_refl; cbn [negb];
    change (COMMAND_READ_MEMORY_ACK =? COMMAND_PENDING_ACK) with false; cbv iota;
    (destruct (Z.of_nat sizeof_UVCPHeader + bytes >? TY_UVCP_MAX_MSG_LEN) eqn:G; [lia|]);
    reflexivity.
Qed.

Lemma bulkSend_ok data s :
  hd false (w_out (world s)) = true ->
  exists s1, bulkSend data s = Done true s1 /\
    trace s1 = trace s ++ [BulkOut data] /\ w_in (world s1) = w_in (world s) /\
    w_out (world s1) = tl (w_out (world s)) /\
    device_ s1 = device_ s /\ terminal s1 = terminal s.
Proof.
  intros H. unfold bulkSend, bind, emit, take_out, transfer_time, bind, get, elapse.
  cbn. rewrite H. cbn. eexists; split; [reflexivity|]. cbn. repeat split; auto.
Qed.

Lemma readMemory_start address bytes s :
  claimed_ (device_ s) = true -> bytes <> 0 ->
  hd false (w_out (world s)) = true ->
  let id := uint16 (requestId_ (device_ s) + 1) in
  exists s1,
    readMemory address bytes s = readMemory_loop kMaxPendingLoops id bytes [] s1 /\
    trace s1 = trace s ++ [BulkOut (UVCPReadMemoryCmd id address bytes)] /\
    w_in (world s1) = w_in (world s) /\
    w_out (world s1) = tl (w_out (world s)) /\
    requestId_ (device_ s1) = id /\ claimed_ (device_ s1) = true /\
    terminal s1 = terminal s.
Proof.
  intros Hc Hb Ho id.
  destruct (bulkSend_ok (UVCPReadMemoryCmd id address bytes) (set_requestId id s))
    as (s1 & E & T & I & O & D & C); [exact Ho|].
  exists s1. split.
  - unfold readMemory. unfold bind at 1. unfold get. rewrite Hc. cbn [negb].
    destruct (bytes =? 0) eqn:Eb; [lia|].
    unfold bind at 1. unfold nextRequestId. fold id.
    rewrite (bind_Done _ _ _ _ _ E). reflexivity.
  - rewrite T, I, O, D, C. cbn. repeat split; auto.
Qed.

Ltac run_in H :=
  unfold bind, cerr, cout, emit, ret, undefined, out_of_fuel in H;
  cbv beta iota in H.

Lemma bulkReceive_inv buffer s :
  exists r s1, bulkReceive buffer s = Done r s1 /\
    (r = None \/
     exists d, r = Some (overwrite buffer d) /\
       w_in (world s) = InData d :: w_in (world s1)).
Proof.
  unfold bulkReceive, bind, take_in, transfer_time, bind, get, elapse.
  destruct (w_in (world s)) as [|[|d] rest] eqn:E; cbn [hd tl].
  - do 2 eexists; split; [reflexivity|]. left; reflexivity.
  - do 2 eexists; split; [reflexivity|]. left; reflexivity.
  - destruct (Z.of_nat (length d) >? TY_UVCP_MAX_MSG_LEN).
    { do 2 eexists; split; [reflexivity|]. left; reflexivity. }
    destruct (Z.of_nat (length d) <=? 0).
    { do 2 eexists; split; [reflexivity|]. left; reflexivity. }
    do 2 eexists; split; [reflexivity|]. right. exists d. split; [reflexivity|].
    cbn. reflexivity.
Qed.

Lemma readMemory_loop_success left : forall id bytes buffer s out s',
  0 <= bytes ->
  readMemory_loop left id bytes buffer s = Done (Some out) s' ->
  exists received f stale,
    w_in (world s) = received ++ InData f :: w_in (world s') /\
    (length received <= left)%nat /\
    let final := overwrite stale f in
    peek final off_magic 4 = MAGIC /\
    peek final off_id 2 = id /\
    peek final off_command 2 = COMMAND_READ_MEMORY_ACK /\
    peek final off_size 2 = bytes /\
    out = ack_data final bytes /\
    Z.of_nat (length out) = bytes.
Proof.
  induction left as [|left IH]; intros id bytes buffer s out s' Hb H;
    cbn [readMemory_loop] in H;
    destruct (bulkReceive_inv buffer s) as (r & s1 & E & [-> | (d & -> & Hin)]);
    rewrite (bind_Done _ _ _ _ _ E) in H; try discriminate;
    destruct (peek (overwrite buffer d) off_magic 4 =? MAGIC) eqn:Em;
      cbn [negb] in H; try (run_in H; discriminate);
    destruct (peek (overwrite buffer d) off_id 2 =? id) eqn:Ei;
      cbn [negb] in H; try (run_in H; discriminate);
    destruct (peek (overwrite buffer d) off_command 2 =? COMMAND_PENDING_ACK) eqn:Ep.
  1: run_in H; discriminate.
  2: { (* one more pending frame *)
    destruct (sleep_for_run
                (if peek (overwrite buffer d) off_timeout_ms 2 =? 0 then 1
                 else peek (overwrite buffer d) off_timeout_ms 2) s1)
      as (s2 & E2 & T2 & I2 & _).
    rewrite (bind_Done _ _ _ _ _ E2) in H.
    destruct (IH _ _ _ _ _ _ Hb H) as (received & f & stale & Hin2 & Hlen & Hfinal).
    exists (InData d :: received), f, stale. split.
    - rewrite Hin, <- I2, Hin2. reflexivity.
    - split; [cbn [length]; lia | exact Hfinal]. }
  all: destruct (peek (overwrite buffer d) off_command 2 =? COMMAND_READ_MEMORY_ACK) eqn:Ec;
      cbn [negb] in H; try (run_in H; discriminate);
    destruct (peek (overwrite buffer d) off_size 2 =? bytes) eqn:Es;
      cbn [negb] in H; try (run_in H; discriminate);
    destruct (Z.of_nat sizeof_UVCPHeader + bytes >? TY_UVCP_MAX_MSG_LEN) eqn:Ef;
      try (run_in H; discriminate);
    unfold ret in H; inversion H; subst;
    exists [], d, buffer; (split; [exact Hin|]); (split; [cbn; lia|]);
    cbv zeta; repeat split; try lia; apply ack_data_length; exact Hb.
Qed.

Lemma readMemory_loop_size_mismatch left id bytes buffer f rest s :
  w_in (world s) = InData f :: rest ->
  header_ok id COMMAND_READ_MEMORY_ACK f -> peek f off_size 2 <> bytes ->
  exists s1,
    readMemory_loop left id bytes buffer s = Done None s1 /\
    trace s1 = trace s ++ [Cerr (SizeMismatch (peek f off_size 2) bytes)] /\
    w_in (world s1) = rest.
Proof.
  intros Hin Hh Hsz.
  destruct (header_peeks id _ buffer f Hh) as (Pm & Pi & Pc & Ps).
  destruct Hh as (Hlen & Hmax & _).
  destruct (bulkReceive_data buffer f rest s Hin) as (s1 & E & T1 & I1 & O1 & D1 & C1);
    [offsets; lia | exact Hmax |].
  destruct (cerr_run (SizeMismatch (peek f off_size 2) bytes) s1)
    as (s2 & E2 & T2 & I2 & _).
  exists s2. split; [|rewrite T2, T1, I2, I1; auto].
  destruct left; cbn [readMemory_loop]; rewrite (bind_Done _ _ _ _ _ E);
    rewrite Pm, Pi, Pc, Ps, !Z.eqb_refl; cbn [negb];
    change (COMMAND_READ_MEMORY_ACK =? COMMAND_PENDING_ACK) with false; cbv iota;
    (destruct (peek f off_size 2 =? bytes) eqn:G; [lia|]); cbn [negb];
    rewrite (bind_Done _ _ _ _ _ E2); reflexivity.
Qed.

(** The same steps for the loop of [writeMemory]. *)

Lemma writeMemory_loop_pending left id bytes buffer f rest s :
  w_in (world s) = InData f :: rest -> is_pending id f ->
  exists s1,
    writeMemory_loop (S left) id bytes buffer s
      = writeMemory_loop left id bytes (overwrite buffer f) s1 /\
    trace s1 = trace s ++ [pending_sleep f] /\ w_in (world s1) = rest /\
    w_out (world s1) = w_out (world s) /\
    device_ s1 = device_ s /\ terminal s1 = terminal s.
Proof.
  intros Hin (Hh & H16).
  destruct (header_peeks id _ buffer f Hh) as (Pm & Pi & Pc & _).
  destruct Hh as (Hlen & Hmax & _).
  destruct (bulkReceive_data buffer f rest s Hin) as (s1 & E & T1 & I1 & O1 & D1 & C1);
    [offsets; lia | exact Hmax |].
  destruct (sleep_for_run (Z.max (peek f off_timeout_ms 2) 1) s1)
    as (s2 & E2 & T2 & I2 & O2 & D2 & C2).
  exists s2. split.
  - cbn [writeMemory_loop]. rewrite (bind_Done _ _ _ _ _ E).
    rewrite Pm, Pi, Pc, !Z.eqb_refl. cbn [negb].
    rewrite wait_is_max by apply peek_nonneg.
    rewrite (peek_overwrite buffer f off_timeout_ms 2) by (offsets; lia).
    rewrite (bind_Done _ _ _ _ _ E2). reflexivity.
  - unfold pending_sleep. rewrite T2, T1, I2, I1, O2, O1, D2, D1, C2, C1.
    repeat split; auto.
Qed.

Lemma writeMemory_loop_pendings pend : forall left id bytes buffer rest s,
  Forall (is_pending id) pend -> (length pend <= left)%nat ->
  w_in (world s) = map InData pend ++ rest ->
  exists s1 buffer1,
    writeMemory_loop left id bytes buffer s
      = writeMemory_loop (left - length pend) id bytes buffer1 s1 /\
    trace s1 = trace s ++ map pending_sleep pend /\ w_in (world s1) = rest /\
    w_out (world s1) = w_out (world s) /\
    device_ s1 = device_ s /\ terminal s1 = terminal s.
Proof.
  induction pend as [|f pend IH]; intros left id bytes buffer rest s HF Hlen Hin.
  - exists s, buffer. cbn [length map]. rewrite Nat.sub_0_r, app_nil_r.
    cbn in Hin. repeat split; auto.
  - inversion HF as [|? ? Hf HF']; subst.
    destruct left as [|left]; [cbn in Hlen; lia|].
    destruct (writeMemory_loop_pending left id bytes buffer f (map InData pend ++ rest) s Hin Hf)
      as (s1 & E & T1 & I1 & O1 & D1 & C1).
    destruct (IH left id bytes (overwrite buffer f) rest s1 HF' ltac:(cbn in Hlen; lia) I1)
      as (s2 & buffer2 & E2 & T2 & I2 & O2 & D2 & C2).
    exists s2, buffer2. rewrite E, E2, T2, T1, O2, O1, D2, D1, C2, C1.
    cbn [length map Nat.sub]. rewrite <- app_assoc. repeat split; auto.
Qed.

Lemma writeMemory_loop_too_many id bytes buffer f rest s :
  w_in (world s) = InData f :: rest -> is_pending id f ->
  exists s1,
    writeMemory_loop 0 id bytes buffer s = Done false s1 /\
    trace s1 = trace s ++ [Cerr TooManyPending] /\ w_in (world s1) = rest.
Proof.
  intros Hin (Hh & H16).
  destruct (header_peeks id _ buffer f Hh) as (Pm & Pi & Pc & _).
  destruct Hh as (Hlen & Hmax & _).
  destruct (bulkReceive_data buffer f rest s Hin) as (s1 & E & T1 & I1 & O1 & D1 & C1);
    [offsets; lia | exact Hmax |].
  destruct (cerr_run TooManyPending s1) as (s2 & E2 & T2 & I2 & _).
  exists s2. split.
  - cbn [writeMemory_loop]. rewrite (bind_Done _ _ _ _ _ E).
    rewrite Pm, Pi, Pc, !Z.eqb_refl. cbn [negb].
    rewrite (bind_Done _ _ _ _ _ E2). reflexivity.
  - rewrite T2, T1, I2, I1. auto.
Qed.

Lemma writeMemory_loop_ack left id bytes buffer f rest s :
  w_in (world s) = InData f :: rest -> is_write_ack id bytes f ->
  exists s1,
    writeMemory_loop left id bytes buffer s = Done true s1 /\
    trace s1 = trace s /\ w_in (world s1) = rest /\
    w_out (world s1) = w_out (world s) /\
    device_ s1 = device_ s /\ terminal s1 = terminal s.
Proof.
  intros Hin (Hh & H16 & Hsz).
  destruct (header_peeks id _ buffer f Hh) as (Pm & Pi & Pc & Ps).
  destruct Hh as (Hlen & Hmax & _).
  destruct (bulkReceive_data buffer f rest s Hin) as (s1 & E & T1 & I1 & O1 & D1 & C1);
    [offsets; lia | exact Hmax |].
  exists s1. split; [|repeat split; auto].
  destruct left; cbn [writeMemory_loop]; rewrite (bind_Done _ _ _ _ _ E);
    rewrite Pm, Pi, Pc, !Z.eqb_refl; cbn [negb];
    change (COMMAND_WRITE_MEMORY_ACK =? COMMAND_PENDING_ACK) with false; cbv iota;
    rewrite (peek_overwrite buffer f off_bytes_written 2) by (offsets; lia);
    rewrite Hsz, Z.eqb_refl; reflexivity.
Qed.

Lemma writeMemory_start startAddress data bytes s :
  claimed_ (device_ s) = true -> bytes <> 0 ->
  bytes <= Z.of_nat (length data) ->
  hd false (w_out (world s)) = true ->
  let id := uint16 (requestId_ (device_ s) + 1) in
  exists s1,
    writeMemory startAddress data bytes s
      = writeMemory_loop kMaxPendingLoops id bytes [] s1 /\
    trace s1 = trace s ++ [BulkOut (UVCPWriteMemoryCmd id startAddress data bytes)] /\
    w_in (world s1) = w_in (world s) /\
    w_out (world s1) = tl (w_out (world s)) /\
    requestId_ (device_ s1) = id /\ claimed_ (device_ s1) = true /\
    terminal s1 = terminal s.
Proof.
  intros Hc Hb Hd Ho id.
  destruct (bulkSend_ok (UVCPWriteMemoryCmd id startAddress data bytes)
                        (set_requestId id s))
    as (s1 & E & T & I & O & D & C); [exact Ho|].
  exists s1. split.
  - unfold writeMemory. unfold bind at 1. unfold get. rewrite Hc. cbn [negb].
    destruct (bytes =? 0) eqn:Eb; [lia|].
    unfold bind at 1. unfold nextRequestId. fold id.
    destruct (Z.of_nat (length data) <? bytes) eqn:El; [lia|].
    rewrite (bind_Done _ _ _ _ _ E). reflexivity.
  - rewrite T, I, O, D, C. cbn. repeat split; auto.
Qed.

Lemma bulkSend_inv data s :
  exists ok s1, bulkSend data s = Done ok s1 /\ w_in (world s1) = w_in (world s).
Proof.
  unfold bulkSend, bind, emit, take_out, transfer_time, bind, get, elapse.
  cbn. destruct (hd false (w_out (world s))); cbn;
    do 2 eexists; (split; [reflexivity|]); reflexivity.
Qed.

(** C1.  In [readMemory] and in [writeMemory] alike, each PENDING_ACK frame
    with the right magic and id makes the host sleep [max(timeout_ms, 1)]
    milliseconds and receive again.  After up to five of them the
    acknowledgement still completes the transaction; a sixth one fails it
    with "Too many PENDING_ACK responses". *)
Theorem pending_ack_limit :
  forall (s : State) (address bytes : Z) (data : bstring)
         (pend : list bstring) (last : bstring) (rest : list InOutcome),
    claimed_ (device_ s) = true ->
    hd false (w_out (world s)) = true ->
    0 < bytes ->
    let id := uint16 (requestId_ (device_ s) + 1) in
    Forall (is_pending id) pend ->
    (length pend <= 5)%nat ->
    w_in (world s) = map InData pend ++ InData last :: rest ->
    (is_read_ack id bytes last -> bytes <= 65524 ->
     exists out s',
       readMemory address bytes s = Done (Some out) s' /\
       trace s' = trace s ++ BulkOut (UVCPReadMemoryCmd id address bytes)
                          :: map pending_sleep pend /\
       w_in (world s') = rest /\
       ((sizeof_UVCPHeader + Z.to_nat bytes <= length last)%nat ->
        out = firstn (Z.to_nat bytes) (skipn sizeof_UVCPHeader last))) /\
    (length pend = 5%nat -> is_pending id last ->
     exists s',
       readMemory address bytes s = Done None s' /\
       trace s' = trace s ++ BulkOut (UVCPReadMemoryCmd id address bytes)
                          :: map pending_sleep pend ++ [Cerr TooManyPending] /\
       w_in (world s') = rest) /\
    (is_write_ack id bytes last -> bytes <= Z.of_nat (length data) ->
     exists s',
       writeMemory address data bytes s = Done true s' /\
       trace s' = trace s ++ BulkOut (UVCPWriteMemoryCmd id address data bytes)
                          :: map pending_sleep pend /\
       w_in (world s') = rest) /\
    (length pend = 5%nat -> is_pending id last ->
     bytes <= Z.of_nat (length data) ->
     exists s',
       writeMemory address data bytes s = Done false s' /\
       trace s' = trace s ++ BulkOut (UVCPWriteMemoryCmd id address data bytes)
                          :: map pending_sleep pend ++ [Cerr TooManyPending] /\
       w_in (world s') = rest).
Proof.
  intros s address bytes data pend last rest Hc Ho Hb id HF Hlen Hin.
  destruct (readMemory_start address bytes s Hc ltac:(lia) Ho)
    as (r0 & Er & Tr & Ir & _).
  fold id in Er, Tr. rewrite Hin in Ir.
  destruct (readMemory_loop_pendings pend kMaxPendingLoops id bytes [] _ r0
              HF Hlen Ir) as (r1 & rb & Er1 & Tr1 & Ir1 & _).
  repeat split.
  - intros Hack Hfit.
    destruct (readMemory_loop_ack (kMaxPendingLoops - length pend) id bytes rb
                last rest r1 Ir1 Hack) as (r2 & Er2 & Tr2 & Ir2 & _).
    { offsets. unfold TY_UVCP_MAX_MSG_LEN. lia. }
    exists (ack_data (overwrite rb last) bytes), r2.
    rewrite Er, Er1, Er2, Tr2, Tr1, Tr, <- app_assoc.
    split; [reflexivity|]. split; [reflexivity|]. split; [exact Ir2|].
    apply ack_data_overwrite.
  - intros H5 Hp.
    destruct (readMemory_loop_too_many id bytes rb last rest r1 Ir1 Hp)
      as (r2 & Er2 & Tr2 & Ir2).
    exists r2. rewrite Er, Er1, H5. change (kMaxPendingLoops - 5)%nat with 0%nat.
    rewrite Er2, Tr2, Tr1, Tr, <- !app_assoc. auto.
  - intros Hack Hd.
    destruct (writeMemory_start address data bytes s Hc ltac:(lia) Hd Ho)
      as (w0 & Ew & Tw & Iw & _).
    fold id in Ew, Tw. rewrite Hin in Iw.
    destruct (writeMemory_loop_pendings pend kMaxPendingLoops id bytes [] _ w0
                HF Hlen Iw) as (w1 & wb & Ew1 & Tw1 & Iw1 & _).
    destruct (writeMemory_loop_ack (kMaxPendingLoops - length pend) id bytes wb
                last rest w1 Iw1 Hack) as (w2 & Ew2 & Tw2 & Iw2 & _).
    exists w2. rewrite Ew, Ew1, Ew2, Tw2, Tw1, Tw, <- app_assoc. auto.
  - intros H5 Hp Hd.
    destruct (writeMemory_start address data bytes s Hc ltac:(lia) Hd Ho)
      as (w0 & Ew & Tw & Iw & _).
    fold id in Ew, Tw. rewrite Hin in Iw.
    destruct (writeMemory_loop_pendings pend kMaxPendingLoops id bytes [] _ w0
                HF Hlen Iw) as (w1 & wb & Ew1 & Tw1 & Iw1 & _).
    destruct (writeMemory_loop_too_many id bytes wb last rest w1 Iw1 Hp)
      as (w2 & Ew2 & Tw2 & Iw2).
    exists w2. rewrite Ew, Ew1, H5. change (kMaxPendingLoops - 5)%nat with 0%nat.
    rewrite Ew2, Tw2, Tw1, Tw, <- !app_assoc. auto.
Qed.

Ltac concrete :=
  first [ reflexivity | vm_compute; reflexivity | lia | vm_compute; lia
        | vm_compute; discriminate ].

Ltac concrete_frames :=
  repeat match goal with
         | |- Forall _ _ => constructor
         | |- is_pending _ _ => split
         | |- is_read_ack _ _ _ => split
         | |- is_write_ack _ _ _ => split
         | |- header_ok _ _ _ => split
         | |- _ /\ _ => split
         end; concrete.

Lemma pending_ack_limit_witness :
  (exists out s',
     readMemory kTerminalBaseAddr 4 slow_read_state = Done (Some out) s' /\
     trace s' = BulkOut (UVCPReadMemoryCmd 1 kTerminalBaseAddr 4)
                  :: [Sleep 1; Sleep 3; Sleep 1; Sleep 7; Sleep 1] /\
     w_in (world s') = [] /\
     ((sizeof_UVCPHeader + Z.to_nat 4
       <= length (UVCPReadMemoryAck 1 (B "abcd")))%nat ->
      out = firstn (Z.to_nat 4)
              (skipn sizeof_UVCPHeader (UVCPReadMemoryAck 1 (B "abcd"))))) /\
  (exists s',
     writeMemory kTerminalDataAddr (B "ls") 2 stuck_write_state = Done false s' /\
     trace s' = BulkOut (UVCPWriteMemoryCmd 1 kTerminalDataAddr (B "ls") 2)
                  :: [Sleep 1; Sleep 3; Sleep 1; Sleep 7; Sleep 1;
                      Cerr TooManyPending] /\
     w_in (world s') = []).
Proof.
  split.
  - destruct (pending_ack_limit slow_read_state kTerminalBaseAddr 4 []
                five_pending (UVCPReadMemoryAck 1 (B "abcd")) [])
      as (R & _); try concrete_frames.
    apply R; concrete_frames.
  - destruct (pending_ack_limit stuck_write_state kTerminalDataAddr 2 (B "ls")
                five_pending (UVCPPendingAck 1 9) [])
      as (_ & _ & _ & W); try concrete_frames.
    apply W; concrete_frames.
Defined.

(** ** The size of a read *)

Lemma readMemory_success address bytes s out s' :
  0 < bytes ->
  readMemory address bytes s = Done (Some out) s' ->
  exists received f stale,
    w_in (world s) = received ++ InData f :: w_in (world s') /\
    (length received <= kMaxPendingLoops)%nat /\
    let final := overwrite stale f in
    peek final off_magic 4 = MAGIC /\
    peek final off_id 2 = uint16 (requestId_ (device_ s) + 1) /\
    peek final off_command 2 = COMMAND_READ_MEMORY_ACK /\
    peek final off_size 2 = bytes /\
    out = ack_data final bytes /\
    Z.of_nat (length out) = bytes.
Proof.
  intros Hb H. unfold readMemory in H. unfold bind at 1 in H. unfold get in H.
  destruct (claimed_ (device_ s)); cbn [negb] in H; [|run_in H; discriminate].
  destruct (bytes =? 0) eqn:Eb; [lia|].
  unfold bind at 1 in H. unfold nextRequestId in H.
  set (id := uint16 (requestId_ (device_ s) + 1)) in *.
  destruct (bulkSend_inv (UVCPReadMemoryCmd id address bytes) (set_requestId id s))
    as (ok & s1 & E & I).
  rewrite (bind_Done _ _ _ _ _ E) in H.
  destruct ok; cbn [negb] in H; [|discriminate].
  apply readMemory_loop_success in H; [|lia].
  rewrite I in H. exact H.
Qed.

(** C2.  A [readMemory] of [bytes > 0] bytes that succeeds has found, in its
    receive buffer, a READ_MEMORY_ACK whose size field is [bytes], and
    delivers exactly [bytes] bytes; a READ_MEMORY_ACK (with the right magic
    and id) whose size field is anything else fails the read with
    "Read size mismatch". *)
Theorem read_size_contract :
  forall (s : State) (address bytes : Z),
    0 < bytes ->
    (forall out s',
       readMemory address bytes s = Done (Some out) s' ->
       Z.of_nat (length out) = bytes /\
       exists received f stale,
         w_in (world s) = received ++ InData f :: w_in (world s') /\
         let final := overwrite stale f in
         peek final off_command 2 = COMMAND_READ_MEMORY_ACK /\
         peek final off_size 2 = bytes /\
         out = ack_data final bytes) /\
    (forall pend last rest,
       claimed_ (device_ s) = true ->
       hd false (w_out (world s)) = true ->
       let id := uint16 (requestId_ (device_ s) + 1) in
       Forall (is_pending id) pend -> (length pend <= 5)%nat ->
       w_in (world s) = map InData pend ++ InData last :: rest ->
       header_ok id COMMAND_READ_MEMORY_ACK last ->
       peek last off_size 2 <> bytes ->
       exists s',
         readMemory address bytes s = Done None s' /\
         trace s' = trace s ++ BulkOut (UVCPReadMemoryCmd id address bytes)
                            :: map pending_sleep pend
                            ++ [Cerr (SizeMismatch (peek last off_size 2) bytes)]).
Proof.
  intros s address bytes Hb. split.
  - intros out s' H.
    destruct (readMemory_success address bytes s out s' Hb H)
      as (received & f & stale & Hin & _ & _ & _ & Hc & Hs & Ho & Hl).
    split; [exact Hl|]. exists received, f, stale. auto.
  - intros pend last rest Hc Ho id HF Hlen Hin Hh Hsz.
    destruct (readMemory_start address bytes s Hc ltac:(lia) Ho)
      as (r0 & Er & Tr & Ir & _).
    fold id in Er, Tr. rewrite Hin in Ir.
    destruct (readMemory_loop_pendings pend kMaxPendingLoops id bytes [] _ r0
                HF Hlen Ir) as (r1 & rb & Er1 & Tr1 & Ir1 & _).
    destruct (readMemory_loop_size_mismatch (kMaxPendingLoops - length pend) id
                bytes rb last rest r1 Ir1 Hh Hsz) as (r2 & Er2 & Tr2 & _).
    exists r2. rewrite Er, Er1, Er2, Tr2, Tr1, Tr, <- !app_assoc. auto.
Qed.

Lemma read_size_contract_witness :
  (exists s',
     readMemory kTerminalBaseAddr 4 slow_read_state = Done (Some (B "abcd")) s' /\
     Z.of_nat (length (B "abcd")) = 4) /\
  (exists s',
     readMemory kTerminalBaseAddr 8 slow_read_state = Done None s' /\
     trace s' = BulkOut (UVCPReadMemoryCmd 1 kTerminalBaseAddr 8)
                  :: [Sleep 1; Sleep 3; Sleep 1; Sleep 7; Sleep 1;
                      Cerr (SizeMismatch 4 8)]).
Proof.
  split.
  - eexists. split; [vm_compute; reflexivity|].
    eapply (read_size_contract slow_read_state kTerminalBaseAddr 4); [lia|].
    vm_compute. reflexivity.
  - destruct (read_size_contract slow_read_state kTerminalBaseAddr 8) as (_ & R);
      [lia|].
    apply (R five_pending (UVCPReadMemoryAck 1 (B "abcd")) []); concrete_frames.
Defined.

(** ** What the operations send *)

Lemma extends_refl G s : extends G s s.
Proof. exists []. rewrite app_nil_r. auto. Qed.

Lemma extends_trans G s1 s2 s3 :
  extends G s1 s2 -> extends G s2 s3 -> extends G s1 s3.
Proof.
  intros (e1 & T1 & F1) (e2 & T2 & F2). exists (e1 ++ e2).
  rewrite T2, T1, app_assoc. split; [reflexivity|]. apply Forall_app; auto.
Qed.

Lemma extends_weaken (G G' : Event -> Prop) s s' :
  (forall e, G e -> G' e) -> extends G s s' -> extends G' s s'.
Proof.
  intros H (evs & T & F). exists evs. split; [exact T|].
  eapply Forall_impl; eauto.
Qed.

Lemma extends_same_trace G s s' : trace s' = trace s -> extends G s s'.
Proof. intros H. exists []. rewrite app_nil_r. auto. Qed.

Create HintDb sends.

Section Sends.
Variable I : TerminalClient -> Prop.
Variable G : Event -> Prop.

Lemma sends_ret {A} (a : A) : sends I G (ret a).
Proof. intros s H. cbn. split; [exact H | apply extends_refl]. Qed.

Lemma sends_bind {A B} (m : M A) (k : A -> M B) :
  sends I G m -> (forall a, sends I G (k a)) -> sends I G (bind m k).
Proof.
  intros Hm Hk s H. destruct (Hm s H) as (I1 & E1). unfold bind.
  destruct (m s) as [a s1|s1|s1]; cbn in *; auto.
  destruct (Hk a s1 I1) as (I2 & E2). split; [exact I2|].
  eapply extends_trans; eauto.
Qed.

Lemma sends_get {A} (f : State -> A) : sends I G (get f).
Proof. intros s H. cbn. split; [exact H | apply extends_refl]. Qed.

Lemma sends_undefined {A} : sends I G (@undefined A).
Proof. intros s H. cbn. split; [exact H | apply extends_refl]. Qed.

Lemma sends_out_of_fuel {A} : sends I G (@out_of_fuel A).
Proof. intros s H. cbn. split; [exact H | apply extends_refl]. Qed.

Lemma sends_emit e : G e -> sends I G (emit e).
Proof.
  intros Ge s H. cbn. split; [exact H|]. exists [e]. split; [reflexivity|].
  constructor; auto.
Qed.

(** Steps that change the world but neither the trace nor the
    [TerminalClient]. *)
Lemma sends_silent {A} (m : M A) :
  (forall s, terminal (state_of (m s)) = terminal s /\
             trace (state_of (m s)) = trace s) ->
  sends I G m.
Proof.
  intros Hm s H. destruct (Hm s) as (Ht & Htr). rewrite Ht. split; [exact H|].
  exists []. rewrite app_nil_r. auto.
Qed.

Lemma sends_elapse ms : sends I G (elapse ms).
Proof. apply sends_silent. intros s. cbn. auto. Qed.

Lemma sends_now : sends I G now.
Proof. apply sends_get. Qed.

Lemma sends_take_out : sends I G take_out.
Proof. apply sends_silent. intros s. cbn. auto. Qed.

Lemma sends_take_in : sends I G take_in.
Proof. apply sends_silent. intros s. cbn. auto. Qed.

Lemma sends_nextRequestId : sends I G nextRequestId.
Proof. apply sends_silent. intros s. cbn. auto. Qed.
End Sends.

#[export] Hint Resolve sends_ret sends_get sends_undefined sends_out_of_fuel
  sends_elapse sends_now sends_take_out sends_take_in sends_nextRequestId
  : sends.


(** ** The session layer *)

Lemma has_password_settings pw : settings_only (has_password pw).
Proof. intros t init v c H. exact H. Qed.

(** Under [has_password pw], reading the password yields [pw]. *)
Lemma sends_bind_password {B} pw G (k : bstring -> M B) :
  sends (has_password pw) G (k pw) ->
  sends (has_password pw) G (bind (get (fun s => password_ (terminal s))) k).
Proof.
  intros H s Hs. unfold bind, get. rewrite Hs. apply H. exact Hs.
Qed.

(** Walks through a computation written with [bind], [if] and [match]. *)
Ltac sends_walk :=
  repeat first
    [ progress cbv zeta
    | apply sends_ret
    | solve [ eauto with sends ]
    | match goal with
      | |- sends (has_password _) _
             (bind (get (fun s => password_ (terminal s))) _) =>
          apply sends_bind_password
      | |- sends _ _ (if ?c then _ else _) => destruct c
      | |- sends _ _ (match ?x with _ => _ end) => destruct x
      | |- sends _ _ (bind _ _) => apply sends_bind; [ | intros ]
      end ].

Section Sends_frames.
Variable I : TerminalClient -> Prop.
Variable R : bstring -> Prop.

Lemma sends_cerr d : sends I (frames R) (cerr d).
Proof. apply sends_emit. exact Logic.I. Qed.

Lemma sends_cout o : sends I (frames R) (cout o).
Proof. apply sends_emit. exact Logic.I. Qed.

Lemma sends_sleep_for ms : sends I (frames R) (sleep_for ms).
Proof.
  unfold sleep_for. apply sends_bind; [apply sends_emit; exact Logic.I|].
  intros _. apply sends_elapse.
Qed.

Hint Resolve sends_cerr sends_cout sends_sleep_for : sends.

Lemma sends_transfer_time : sends I (frames R) transfer_time.
Proof. unfold transfer_time. sends_walk. Qed.

Hint Resolve sends_transfer_time : sends.

Lemma sends_bulkSend data : R data -> sends I (frames R) (bulkSend data).
Proof.
  intros HR. unfold bulkSend.
  apply sends_bind; [apply sends_emit; exact HR|]. intros _. sends_walk.
Qed.

Lemma sends_bulkReceive buffer : sends I (frames R) (bulkReceive buffer).
Proof. unfold bulkReceive. sends_walk. Qed.

Hint Resolve sends_bulkReceive : sends.

Lemma sends_readMemory_loop left : forall id bytes buffer,
  sends I (frames R) (readMemory_loop left id bytes buffer).
Proof.
  induction left; intros; cbn [readMemory_loop]; sends_walk.
Qed.

Lemma sends_writeMemory_loop left : forall id bytes buffer,
  sends I (frames R) (writeMemory_loop left id bytes buffer).
Proof.
  induction left; intros; cbn [writeMemory_loop]; sends_walk.
Qed.

Hint Resolve sends_readMemory_loop sends_writeMemory_loop : sends.

Lemma sends_readMemory address bytes :
  (forall id, R (UVCPReadMemoryCmd id address bytes)) ->
  sends I (frames R) (readMemory address bytes).
Proof.
  intros HR. unfold readMemory. sends_walk. apply sends_bulkSend, HR.
Qed.

Lemma sends_writeMemory startAddress data bytes :
  (forall id, R (UVCPWriteMemoryCmd id startAddress data bytes)) ->
  sends I (frames R) (writeMemory startAddress data bytes).
Proof.
  intros HR. unfold writeMemory. sends_walk. apply sends_bulkSend, HR.
Qed.
End Sends_frames.

#[export] Hint Resolve sends_cerr sends_cout sends_sleep_for sends_bulkReceive
  sends_readMemory_loop sends_writeMemory_loop : sends.

Lemma sends_weaken {A} (I : TerminalClient -> Prop) (R R' : bstring -> Prop)
    (m : M A) :
  (forall f, R f -> R' f) -> sends I (frames R) m -> sends I (frames R') m.
Proof.
  intros H Hm s Hs. destruct (Hm s Hs) as (Hi & He). split; [exact Hi|].
  eapply extends_weaken; [|exact He]. intros [] ; cbn; auto.
Qed.

Lemma requests_mono (W W' : Z -> bstring -> Prop) f :
  (forall a d, W a d -> W' a d) -> requests W f -> requests W' f.
Proof.
  intros H [Hr | (id & a & d & n & E & Hw)]; [left; exact Hr|].
  right. exists id, a, d, n. auto.
Qed.

Section Register_sends.
Variable I : TerminalClient -> Prop.
Variable W : Z -> bstring -> Prop.

Lemma sends_read address bytes :
  sends I (frames (requests W)) (readMemory address bytes).
Proof. apply sends_readMemory. intros id. left. eauto. Qed.

Lemma sends_write startAddress data bytes :
  W startAddress (firstn (Z.to_nat bytes) data) ->
  sends I (frames (requests W)) (writeMemory startAddress data bytes).
Proof.
  intros Hw. apply sends_writeMemory. intros id. right.
  exists id, startAddress, data, bytes. auto.
Qed.

Hint Resolve sends_read : sends.

Lemma sends_readRegisters address registerCount :
  sends I (frames (requests W)) (readRegisters address registerCount).
Proof. unfold readRegisters. sends_walk. Qed.

Hint Resolve sends_readRegisters : sends.

Lemma sends_readRegister addr :
  sends I (frames (requests W)) (readRegister addr).
Proof. unfold readRegister. sends_walk. Qed.

Hint Resolve sends_readRegister : sends.

Lemma sends_readRegisterOr addr fallback :
  sends I (frames (requests W)) (readRegisterOr addr fallback).
Proof. unfold readRegisterOr. sends_walk. Qed.

Lemma sends_writeRegister addr value :
  W addr (le 4 value) ->
  sends I (frames (requests W)) (writeRegister addr value).
Proof.
  intros Hw. unfold writeRegister, U3VDevice_writeRegister, writeRegisters.
  apply sends_write. exact Hw.
Qed.
End Register_sends.

#[export] Hint Resolve sends_read sends_readRegisters sends_readRegister
  sends_readRegisterOr : sends.


Section Settings_sends.
Variable I : TerminalClient -> Prop.
Variable G : Event -> Prop.
Hypothesis I_settings : settings_only I.

Lemma sends_set_version v : sends I G (set_version v).
Proof.
  intros s H. cbn. split; [apply I_settings; exact H | apply extends_same_trace; reflexivity].
Qed.

Lemma sends_set_chunkHint v : sends I G (set_chunkHint v).
Proof.
  intros s H. cbn. split; [apply I_settings; exact H | apply extends_same_trace; reflexivity].
Qed.

Lemma sends_set_initialized b : sends I G (set_initialized b).
Proof.
  intros s H. cbn. split; [apply I_settings; exact H | apply extends_same_trace; reflexivity].
Qed.
End Settings_sends.

#[export] Hint Resolve has_password_settings : sends.
#[export] Hint Resolve sends_set_version sends_set_chunkHint
  sends_set_initialized : sends.

Lemma sends_initialize pw :
  sends (has_password pw) (session_frames pw) initialize.
Proof. unfold initialize, session_frames. sends_walk. Qed.

Lemma sends_ensureAuth pw :
  sends (has_password pw) (session_frames pw) ensureAuth.
Proof.
  unfold ensureAuth, session_frames. sends_walk.
  - apply sends_write. right; left. split; [discriminate | reflexivity].
  - apply sends_writeRegister. right; right. repeat split. discriminate.
Qed.

Lemma sends_ensureSession_poll pw fuel : forall deadline,
  sends (has_password pw) (session_frames pw) (ensureSession_poll fuel deadline).
Proof.
  unfold session_frames.
  induction fuel; intros; cbn [ensureSession_poll]; sends_walk.
Qed.

#[export] Hint Resolve sends_initialize sends_ensureAuth
  sends_ensureSession_poll : sends.

Lemma sends_ensureSession pw fuel :
  sends (has_password pw) (session_frames pw) (ensureSession fuel).
Proof.
  unfold ensureSession. sends_walk.
  apply sends_writeRegister. left. split; [reflexivity|].
  eexists. left. reflexivity.
Qed.

#[export] Hint Resolve sends_ensureSession : sends.

Lemma sends_reset pw fuel :
  sends (has_password pw) (session_frames pw) (reset fuel).
Proof.
  unfold reset. sends_walk.
  apply sends_writeRegister. left. split; [reflexivity|].
  eexists. right. reflexivity.
Qed.

(** ** The fields of the frames the host builds *)

Lemma frame_command_read id address bytes :
  frame_command (UVCPReadMemoryCmd id address bytes) = COMMAND_READ_MEMORY_CMD.
Proof. reflexivity. Qed.

Lemma frame_command_write id address data bytes :
  frame_command (UVCPWriteMemoryCmd id address data bytes)
    = COMMAND_WRITE_MEMORY_CMD.
Proof. reflexivity. Qed.

Lemma frame_address_read id address bytes :
  frame_address (UVCPReadMemoryCmd id address bytes) = address mod 2 ^ 64.
Proof.
  change (frame_address (UVCPReadMemoryCmd id address bytes))
    with (unle (le 8 address)).
  apply unle_le.
Qed.

Lemma frame_address_write id address data bytes :
  frame_address (UVCPWriteMemoryCmd id address data bytes) = address mod 2 ^ 64.
Proof.
  change (frame_address (UVCPWriteMemoryCmd id address data bytes))
    with (unle (le 8 address)).
  apply unle_le.
Qed.

Lemma frame_payload_write id address data bytes :
  frame_payload (UVCPWriteMemoryCmd id address data bytes)
    = firstn (Z.to_nat bytes) data.
Proof. reflexivity. Qed.

Lemma frame_read_size_read id address bytes :
  frame_read_size (UVCPReadMemoryCmd id address bytes) = bytes mod 2 ^ 16.
Proof.
  change (frame_read_size (UVCPReadMemoryCmd id address bytes))
    with (unle (le 2 bytes)).
  apply unle_le.
Qed.

(** ** From the judgement to the frames of a run *)

Lemma sent_frames_Forall R evs f :
  Forall (frames R) evs -> In f (sent_frames evs) -> R f.
Proof.
  intros HF Hin. unfold sent_frames in Hin. apply in_flat_map in Hin.
  destruct Hin as (e & He & Hf). rewrite Forall_forall in HF.
  specialize (HF e He). destruct e; cbn in Hf; try contradiction.
  destruct Hf as [<- | []]. exact HF.
Qed.

Lemma events_of_extends {A} G (m : M A) s :
  extends G s (state_of (m s)) -> Forall G (events_of m s).
Proof.
  intros (evs & T & F). unfold events_of. rewrite T.
  rewrite skipn_app, skipn_all, Nat.sub_diag. exact F.
Qed.

Lemma sent_by_sends {A} I R (m : M A) s f :
  sends I (frames R) m -> I (terminal s) -> In f (sent_by m s) -> R f.
Proof.
  intros Hm Hs Hin. destruct (Hm s Hs) as (_ & He).
  eapply sent_frames_Forall; [|exact Hin]. apply events_of_extends. exact He.
Qed.

(** What a frame of the session layer looks like to the device. *)
Lemma session_frame_fields pw f :
  requests (session_writes pw) f ->
  frame_command f = COMMAND_READ_MEMORY_CMD \/
  (frame_command f = COMMAND_WRITE_MEMORY_CMD /\
   ((frame_address f = kTerminalStatusAddr /\
     exists echo, frame_payload f = le 4 (start_word echo) \/
                  frame_payload f = le 4 (reset_word echo)) \/
    (pw <> [] /\ frame_address f = kTerminalAuthBufAddr) \/
    (pw <> [] /\ frame_address f = kTerminalAuthCmdAddr /\
     frame_payload f = le 4 1))).
Proof.
  intros [(id & a & n & ->) | (id & a & d & n & -> & Hw)].
  - left. apply frame_command_read.
  - right. split; [apply frame_command_write|].
    rewrite frame_address_write, frame_payload_write.
    destruct Hw as [(-> & echo & Hd) | [(Hp & ->) | (Hp & -> & Hd)]].
    + left. split; [reflexivity|]. exists echo. exact Hd.
    + right; left. split; [exact Hp | reflexivity].
    + right; right. repeat split; auto.
Qed.

Lemma start_word_exclusive echo :
  echo_exclusive (unle (le 4 (start_word echo))).
Proof. destruct echo; reflexivity. Qed.

Lemma reset_word_exclusive echo :
  echo_exclusive (unle (le 4 (reset_word echo))).
Proof. destruct echo; reflexivity. Qed.

(** C9.  Every frame that [ensureSession] or [reset] sends and that the
    device reads as a write to the Status/Control register carries a 32-bit
    control word in which exactly one of ECHO_ENABLE and ECHO_DISABLE is
    set. *)
Theorem echo_bits_exclusive :
  forall (fuel : nat) (s : State) (f : bstring),
    In f (sent_by (ensureSession fuel) s) \/ In f (sent_by (reset fuel) s) ->
    is_write_to kTerminalStatusAddr f = true ->
    length (frame_payload f) = 4%nat /\
    echo_exclusive (unle (frame_payload f)).
Proof.
  intros fuel s f Hin Hw.
  assert (HR : requests (session_writes (password_ (terminal s))) f).
  { destruct Hin as [Hin | Hin].
    - eapply sent_by_sends; [apply sends_ensureSession | reflexivity | exact Hin].
    - eapply sent_by_sends; [apply sends_reset | reflexivity | exact Hin]. }
  unfold is_write_to in Hw. apply andb_prop in Hw. destruct Hw as (Hc & Ha).
  apply Z.eqb_eq in Hc, Ha.
  destruct (session_frame_fields _ _ HR) as [Hr | (_ & [(_ & echo & Hd) | [(_ & Hb) | (_ & Hb & _)]])].
  - rewrite Hr in Hc. discriminate.
  - destruct Hd as [-> | ->]; (split; [apply length_le|]).
    + apply start_word_exclusive.
    + apply reset_word_exclusive.
  - rewrite Hb in Ha. discriminate.
  - rewrite Hb in Ha. discriminate.
Qed.

Lemma echo_bits_exclusive_witness :
  (length (frame_payload
     (UVCPWriteMemoryCmd 6 kTerminalStatusAddr (le 4 (start_word true)) 4))
     = 4%nat /\
   echo_exclusive (unle (frame_payload
     (UVCPWriteMemoryCmd 6 kTerminalStatusAddr (le 4 (start_word true)) 4)))) /\
  (length (frame_payload
     (UVCPWriteMemoryCmd 4 kTerminalStatusAddr (le 4 (reset_word true)) 4))
     = 4%nat /\
   echo_exclusive (unle (frame_payload
     (UVCPWriteMemoryCmd 4 kTerminalStatusAddr (le 4 (reset_word true)) 4)))).
Proof.
  split.
  - apply (echo_bits_exclusive 10 idle_device_state).
    + left. vm_compute. repeat (first [left; reflexivity | right]).
    + vm_compute. reflexivity.
  - apply (echo_bits_exclusive 10 locked_device_state).
    + right. vm_compute. repeat (first [left; reflexivity | right]).
    + vm_compute. reflexivity.
Defined.

(** ** [reset] and the authentication registers *)

(** C10, as stated, fails: on a locked device and with a password, [reset]
    goes through [ensureSession] and [ensureAuth] and writes AuthBuf and
    AuthCmd. *)
Lemma reset_writes_auth_registers :
  reset 10 locked_device_state
    = Done true (state_of (reset 10 locked_device_state)) /\
  map (fun f => (frame_address f, frame_payload f))
      (filter (fun f => frame_command f =? COMMAND_WRITE_MEMORY_CMD)
              (sent_by (reset 10) locked_device_state))
    = [ (kTerminalStatusAddr, le 4 (reset_word true));
        (kTerminalAuthBufAddr, B "pw");
        (kTerminalAuthCmdAddr, le 4 1) ].
Proof. split; vm_compute; reflexivity. Qed.

Lemma ensureAuth_authenticated s v s1 :
  readRegister kTerminalAuthStatusAddr s = Done (Some v) s1 -> v <> 0 ->
  ensureAuth s = Done true s1.
Proof.
  intros E Hv. unfold ensureAuth. rewrite (bind_Done _ _ _ _ _ E).
  destruct (v =? 0) eqn:Ev; [lia|]. reflexivity.
Qed.

(** C10, amended.  Every write request that [reset] sends goes to
    Status/Control with its reset word or the start word of
    [ensureSession], or, for a client with a password, carries
    the password to AuthBuf or the value 1 to AuthCmd: [reset] never writes
    the locking 0 to AuthCmd, and without a password it writes to
    Status/Control only.  The authentication writes belong to [ensureAuth],
    which makes none when AuthStatus reads non-zero. *)
Theorem reset_keeps_authentication :
  (forall (fuel : nat) (s : State) (f : bstring),
     In f (sent_by (reset fuel) s) ->
     frame_command f = COMMAND_WRITE_MEMORY_CMD ->
     (frame_address f = kTerminalStatusAddr /\
      exists echo, frame_payload f = le 4 (start_word echo) \/
                   frame_payload f = le 4 (reset_word echo)) \/
     (password_ (terminal s) <> [] /\
      (frame_address f = kTerminalAuthBufAddr \/
       (frame_address f = kTerminalAuthCmdAddr /\ frame_payload f = le 4 1)))) /\
  (forall (s : State) (authed : Z) (s1 : State),
     readRegister kTerminalAuthStatusAddr s = Done (Some authed) s1 ->
     authed <> 0 ->
     ensureAuth s = Done true s1).
Proof.
  split; [|exact ensureAuth_authenticated].
  intros fuel s f Hin Hc.
  assert (HR : requests (session_writes (password_ (terminal s))) f).
  { eapply sent_by_sends; [apply sends_reset | reflexivity | exact Hin]. }
  destruct (session_frame_fields _ _ HR) as [Hr | (_ & [H | [(Hp & Hb) | (Hp & Hb)]])].
  - rewrite Hr in Hc. discriminate.
  - left. exact H.
  - right. split; [exact Hp|]. left. exact Hb.
  - right. split; [exact Hp|]. right. exact Hb.
Qed.

Lemma reset_keeps_authentication_witness :
  ((frame_address (UVCPWriteMemoryCmd 7 kTerminalAuthCmdAddr (le 4 1) 4)
      = kTerminalStatusAddr /\
    exists echo,
      frame_payload (UVCPWriteMemoryCmd 7 kTerminalAuthCmdAddr (le 4 1) 4)
        = le 4 (start_word echo) \/
      frame_payload (UVCPWriteMemoryCmd 7 kTerminalAuthCmdAddr (le 4 1) 4)
        = le 4 (reset_word echo)) \/
   (password_ (terminal locked_device_state) <> [] /\
    (frame_address (UVCPWriteMemoryCmd 7 kTerminalAuthCmdAddr (le 4 1) 4)
       = kTerminalAuthBufAddr \/
     (frame_address (UVCPWriteMemoryCmd 7 kTerminalAuthCmdAddr (le 4 1) 4)
        = kTerminalAuthCmdAddr /\
      frame_payload (UVCPWriteMemoryCmd 7 kTerminalAuthCmdAddr (le 4 1) 4)
        = le 4 1)))) /\
  ensureAuth (claimed_state (scripted_world 1 [register_ack 1 1]))
    = Done true (state_of (readRegister kTerminalAuthStatusAddr
                   (claimed_state (scripted_world 1 [register_ack 1 1])))).
Proof.
  destruct reset_keeps_authentication as (A & P). split.
  - apply (A 10%nat locked_device_state).
    + vm_compute. repeat (first [left; reflexivity | right]).
    + reflexivity.
  - apply (P _ 1); [vm_compute; reflexivity | lia].
Defined.

(** ** [initialize] and the chunk hint *)

Lemma terminal_readRegisters address registerCount s :
  terminal (state_of (readRegisters address registerCount s)) = terminal s.
Proof.
  destruct (sends_readRegisters (fun t => t = terminal s) (fun _ _ => True)
              address registerCount s eq_refl) as (H & _).
  exact H.
Qed.

Lemma terminal_readRegister addr s :
  terminal (state_of (readRegister addr s)) = terminal s.
Proof.
  destruct (sends_readRegister (fun t => t = terminal s) (fun _ _ => True)
              addr s eq_refl) as (H & _).
  exact H.
Qed.

Lemma bind_inv {A B} (m : M A) (k : A -> M B) s b s' :
  bind m k s = Done b s' ->
  exists a s1, m s = Done a s1 /\ k a s1 = Done b s'.
Proof.
  unfold bind. destruct (m s) as [a s1|s1|s1]; intros H; try discriminate.
  eauto.
Qed.

(** C8, amended.  On a client that is not initialized yet, [initialize]
    succeeds exactly when the header is read with the right magic and the
    reads of the Version and ChunkHint registers return, whether they
    deliver a value or fail.  [chunkHint_] is then the value that this read
    of the ChunkHint register delivered if it is not zero, 512 if it is
    zero, and, when the read failed, what it was before (the built-in
    4096), again with 512 in place of zero. *)
Theorem initialize_chunk_hint :
  forall (s : State),
    initialized_ (terminal s) = false ->
    (forall s',
       initialize s = Done true s' ->
       exists (s2 : State) (r : option Z) (s3 : State),
         before_chunk_hint s s2 /\
         readRegister kTerminalChunkHintAddr s2 = Done r s3 /\
         chunkHint_ (terminal s') =
           match r with
           | Some value => if value =? 0 then 512 else value
           | None => if chunkHint_ (terminal s) =? 0 then 512
                     else chunkHint_ (terminal s)
           end /\
         initialized_ (terminal s') = true /\
         world s' = world s3 /\ device_ s' = device_ s3) /\
    (forall (s2 : State) (r : option Z) (s3 : State),
       before_chunk_hint s s2 ->
       readRegister kTerminalChunkHintAddr s2 = Done r s3 ->
       exists s', initialize s = Done true s').
Proof.
  intros s Hfresh. split.
  - intros s' H. unfold initialize in H.
    unfold bind at 1 in H. unfold get in H. rewrite Hfresh in H.
    apply bind_inv in H. destruct H as (r1 & s1 & E1 & H).
    destruct r1 as [regs|]; [|run_in H; discriminate].
    destruct (Z.eqb_spec (nth 0 regs 0) kTerminalMagic) as [Em|Em];
      cbn [negb] in H; [|run_in H; discriminate].
    apply bind_inv in H. destruct H as ([] & s1v & Ev & H).
    apply bind_inv in H. destruct H as (r2 & s2 & E2 & H).
    apply bind_inv in H. destruct H as ([] & s2v & Ev2 & H).
    unfold bind at 1 in H. unfold get in H.
    apply bind_inv in H. destruct H as (hint & s3h & E3 & H).
    unfold readRegisterOr in E3.
    apply bind_inv in E3. destruct E3 as (r & s3 & E3 & Er).
    assert (T1 : terminal s1 = terminal s).
    { rewrite <- (terminal_readRegisters kTerminalBaseAddr 2 s), E1. reflexivity. }
    assert (C1 : chunkHint_ (terminal s1v) = chunkHint_ (terminal s)).
    { unfold set_version in Ev. inversion Ev; subst. cbn. rewrite T1. reflexivity. }
    assert (T2 : terminal s2 = terminal s1v).
    { rewrite <- (terminal_readRegisters kTerminalVersionAddr 1 s1v), E2.
      reflexivity. }
    assert (C2 : chunkHint_ (terminal s2v) = chunkHint_ (terminal s)).
    { rewrite <- C1, <- T2.
      destruct r2 as [regs2|]; [destruct (negb (nth 0 regs2 0 =? 0))|];
        unfold set_version, ret in Ev2; inversion Ev2; subst; cbn; auto. }
    exists s2v, r, s3. split.
    { exists regs, s1, r2, s2. split; [exact E1|]. split; [exact Em|].
      rewrite Ev. cbn [state_of]. split; [exact E2|].
      rewrite Ev2. reflexivity. }
    split; [exact E3|].
    assert (Hhint : hint = match r with
                           | Some value => value
                           | None => chunkHint_ (terminal s)
                           end /\ s3h = s3).
    { rewrite <- C2. destruct r; unfold ret in Er; inversion Er; subst; auto. }
    destruct Hhint as (-> & ->).
    apply bind_inv in H. destruct H as ([] & s4 & E4 & H).
    apply bind_inv in H. destruct H as ([] & s5 & E5 & H).
    apply bind_inv in H. destruct H as ([] & s6 & E6 & H).
    unfold ret in H. inversion H; subst s'. clear H.
    unfold set_chunkHint in E4. inversion E4; subst s4. clear E4.
    unfold set_initialized in E6. inversion E6; subst s6. clear E6.
    destruct r as [value|].
    + destruct (value =? 0); unfold set_chunkHint, ret in E5; inversion E5; subst s5;
        cbn; auto.
    + destruct (chunkHint_ (terminal s) =? 0); unfold set_chunkHint, ret in E5;
        inversion E5; subst s5; cbn; auto.
  - intros s2 r s3 (regs & s1 & r2 & s2' & E1 & Em & E2 & ->) E3.
    unfold initialize.
    rewrite (bind_Done (get _) _ s _ s eq_refl), Hfresh.
    rewrite (bind_Done _ _ _ _ _ E1), Em, Z.eqb_refl. cbn [negb].
    rewrite (bind_Done (set_version _) _ s1 tt _ eq_refl).
    rewrite (bind_Done _ _ _ _ _ E2).
    set (step := match r2 with
                 | Some regs2 =>
                     if negb (nth 0 regs2 0 =? 0) then set_version (nth 0 regs2 0)
                     else ret tt
                 | None => ret tt
                 end) in *.
    assert (Es : step s2' = Done tt (state_of (step s2'))).
    { unfold step. destruct r2 as [regs2|]; [destruct (negb (nth 0 regs2 0 =? 0))|];
        reflexivity. }
    rewrite (bind_Done _ _ _ _ _ Es).
    rewrite (bind_Done (get _) _ _ _ _ eq_refl).
    unfold readRegisterOr at 1.
    unfold bind at 1. unfold bind at 1. rewrite E3.
    destruct r as [value|]; unfold ret at 1; cbv beta iota.
    + destruct (value =? 0); eexists; reflexivity.
    + destruct (chunkHint_ (terminal (state_of (step s2'))) =? 0);
        eexists; reflexivity.
Qed.

Lemma initialize_chunk_hint_witness :
  initialized_ (terminal idle_device_state) = false /\
  initialize idle_device_state = Done true (state_of (initialize idle_device_state)) /\
  exists (s2 : State) (r : option Z) (s3 : State),
    before_chunk_hint idle_device_state s2 /\
    readRegister kTerminalChunkHintAddr s2 = Done r s3 /\
    chunkHint_ (terminal (state_of (initialize idle_device_state))) =
      match r with
      | Some value => if value =? 0 then 512 else value
      | None => if chunkHint_ (terminal idle_device_state) =? 0 then 512
                else chunkHint_ (terminal idle_device_state)
      end /\
    initialized_ (terminal (state_of (initialize idle_device_state))) = true /\
    world (state_of (initialize idle_device_state)) = world s3 /\
    device_ (state_of (initialize idle_device_state)) = device_ s3.
Proof.
  split; [reflexivity|].
  assert (E : initialize idle_device_state
              = Done true (state_of (initialize idle_device_state)))
    by (vm_compute; reflexivity).
  split; [exact E|].
  exact (proj1 (initialize_chunk_hint idle_device_state eq_refl) _ E).
Defined.

(** C8, as stated, fails: the read of the ChunkHint register can fail,
    [initialize] succeeds all the same, and [chunkHint_] is then neither a
    value the device reported nor 512. *)
Lemma chunk_hint_kept_when_read_fails :
  let before :=
    state_of ((readRegisters kTerminalBaseAddr 2 ;;
               readRegisters kTerminalVersionAddr 1) no_chunk_hint_state) in
  let after := state_of (initialize no_chunk_hint_state) in
  initialize no_chunk_hint_state = Done true after /\
  readRegister kTerminalChunkHintAddr before
    = Done None (state_of (readRegister kTerminalChunkHintAddr before)) /\
  world after = world (state_of (readRegister kTerminalChunkHintAddr before)) /\
  chunkHint_ (terminal after) = 4096.
Proof.
  cbv zeta. split; [|split; [|split]]; vm_compute; reflexivity.
Qed.

(** ** Staging the remote path *)

(** C6.  [prepareFilePath] refuses an empty path with "Remote path must not
    be empty" before it touches the device.  Once its Reset command has been
    written, a path of up to 0x5F bytes (0x5F included) is written to the
    FilePath area as 0x60 bytes, the path followed by zeros, and a path of
    0x60 bytes or more is refused with "Remote path exceeds 95 bytes limit"
    and nothing is written to FilePath; such a path never succeeds. *)
Theorem prepareFilePath_lengths :
  forall (remotePath : bstring) (s : State),
    (remotePath = [] ->
     exists s',
       prepareFilePath remotePath s = Done false s' /\
       trace s' = trace s ++ [Cerr PathRequired] /\
       sent_by (prepareFilePath remotePath) s = [] /\
       device_ s' = device_ s /\
       w_out (world s') = w_out (world s) /\ w_in (world s') = w_in (world s)) /\
    (forall s1,
       sendFileCommand kFileCmdReset s = Done true s1 ->
       ((0 < length remotePath <= 0x5F)%nat ->
        length (staged_path remotePath) = 0x60%nat /\
        firstn (length remotePath) (staged_path remotePath) = remotePath /\
        Forall (eq x00) (skipn (length remotePath) (staged_path remotePath)) /\
        prepareFilePath remotePath s
          = writeMemory kTerminalFilePathAddr (staged_path remotePath) 0x60 s1) /\
       ((0x60 <= length remotePath)%nat ->
        exists s',
          prepareFilePath remotePath s = Done false s' /\
          trace s' = trace s1 ++ [Cerr PathTooLong] /\
          device_ s' = device_ s1 /\
          w_out (world s') = w_out (world s1) /\
          w_in (world s') = w_in (world s1))) /\
    ((0x60 <= length remotePath)%nat ->
     forall ok s', prepareFilePath remotePath s = Done ok s' -> ok = false).
Proof.
  intros remotePath s. split; [|split].
  - intros ->. eexists. split; [reflexivity|].
    unfold sent_by, events_of. cbn [prepareFilePath].
    split; [reflexivity|]. split.
    + change (trace (state_of ((cerr PathRequired ;; ret false) s)))
        with (trace s ++ [Cerr PathRequired]).
      rewrite skipn_app, skipn_all, Nat.sub_diag. reflexivity.
    + cbn. auto.
  - intros s1 E. split.
    + intros (Hpos & Hle).
      assert (Hlen : length (staged_path remotePath) = 0x60%nat).
      { unfold staged_path. rewrite length_app, repeat_length.
        change (Z.to_nat kTerminalFilePathCapacity) with 0x60%nat. lia. }
      split; [exact Hlen|]. split.
      { unfold staged_path. rewrite firstn_app, Nat.sub_diag, firstn_all.
        cbn [firstn]. apply app_nil_r. }
      split.
      { unfold staged_path. rewrite skipn_app, skipn_all, Nat.sub_diag.
        cbn [skipn app]. apply Forall_forall. intros b Hb.
        apply repeat_spec in Hb. auto. }
      unfold prepareFilePath. destruct remotePath as [|b l]; [cbn in Hpos; lia|].
      rewrite (bind_Done _ _ _ _ _ E). cbn [negb].
      destruct (Z.of_nat (length (b :: l)) >=? kTerminalFilePathCapacity) eqn:G.
      { unfold kTerminalFilePathCapacity in G. lia. }
      fold (staged_path (b :: l)). rewrite Hlen. reflexivity.
    + intros Hge. unfold prepareFilePath.
      destruct remotePath as [|b l]; [cbn in Hge; lia|].
      rewrite (bind_Done _ _ _ _ _ E). cbn [negb].
      destruct (Z.of_nat (length (b :: l)) >=? kTerminalFilePathCapacity) eqn:G.
      2:{ unfold kTerminalFilePathCapacity in G. lia. }
      eexists. split; [reflexivity|]. cbn. auto.
  - intros Hge ok s' H. unfold prepareFilePath in H.
    destruct remotePath as [|b l]; [cbn in Hge; lia|].
    apply bind_inv in H. destruct H as (ok0 & s1 & E & H).
    destruct ok0; cbn [negb] in H.
    + destruct (Z.of_nat (length (b :: l)) >=? kTerminalFilePathCapacity) eqn:G.
      * run_in H. inversion H. reflexivity.
      * unfold kTerminalFilePathCapacity in G. lia.
    + unfold ret in H. inversion H. reflexivity.
Qed.

Lemma prepareFilePath_lengths_witness :
  (exists s',
     prepareFilePath [] path_device_state = Done false s' /\
     trace s' = trace path_device_state ++ [Cerr PathRequired] /\
     sent_by (prepareFilePath []) path_device_state = [] /\
     device_ s' = device_ path_device_state /\
     w_out (world s') = w_out (world path_device_state) /\
     w_in (world s') = w_in (world path_device_state)) /\
  (length (staged_path path_0x5F) = 0x60%nat /\
   firstn (length path_0x5F) (staged_path path_0x5F) = path_0x5F /\
   Forall (eq x00) (skipn (length path_0x5F) (staged_path path_0x5F)) /\
   prepareFilePath path_0x5F path_device_state
     = writeMemory kTerminalFilePathAddr (staged_path path_0x5F) 0x60
         (state_of (sendFileCommand kFileCmdReset path_device_state))) /\
  (exists s',
     prepareFilePath path_0x60 path_device_state = Done false s' /\
     trace s' = trace (state_of (sendFileCommand kFileCmdReset path_device_state))
                  ++ [Cerr PathTooLong] /\
     device_ s' = device_ (state_of (sendFileCommand kFileCmdReset path_device_state)) /\
     w_out (world s') = w_out (world (state_of (sendFileCommand kFileCmdReset path_device_state))) /\
     w_in (world s') = w_in (world (state_of (sendFileCommand kFileCmdReset path_device_state)))).
Proof.
  split; [|split].
  - destruct (prepareFilePath_lengths [] path_device_state) as (E & _).
    apply E. reflexivity.
  - destruct (prepareFilePath_lengths path_0x5F path_device_state) as (_ & S & _).
    destruct (S (state_of (sendFileCommand kFileCmdReset path_device_state)))
      as (Short & _); [vm_compute; reflexivity|].
    apply Short. vm_compute. lia.
  - destruct (prepareFilePath_lengths path_0x60 path_device_state) as (_ & S & _).
    destruct (S (state_of (sendFileCommand kFileCmdReset path_device_state)))
      as (_ & Long); [vm_compute; reflexivity|].
    apply Long. vm_compute. lia.
Defined.

(** ** The one-shot runner *)

Lemma bytes_eqb_eq a b : bytes_eqb a b = true <-> a = b.
Proof.
  unfold bytes_eqb. destruct (list_eq_dec Byte.byte_eq_dec a b); split;
    intros; auto; discriminate.
Qed.

Lemma runOnce_transfer fuel command s (m : M bool) :
  handleFileTransferCommand fuel command = bind m (fun ok => ret (ok, true)) ->
  runOnce fuel command s = m s.
Proof.
  intros E. unfold runOnce. rewrite E. unfold bind, ret.
  destruct (m s) as [[|] s1|s1|s1]; reflexivity.
Qed.

Lemma runOnce_not_handled fuel command s :
  handleFileTransferCommand fuel command = ret (true, false) ->
  runOnce fuel command s = send_then_drain_once fuel command s.
Proof.
  intros E. unfold runOnce, send_then_drain_once. rewrite E.
  unfold bind, ret. cbn [negb].
  destruct (sendCommand fuel command s) as [[|] s1|s1|s1]; cbn [negb];
    try reflexivity.
  destruct (drainOutput fuel [] default_idleTimeout default_maxWait s1)
    as [[[|] output] s2|s2|s2]; reflexivity.
Qed.

Lemma runOnce_usage fuel command s d :
  handleFileTransferCommand fuel command
    = bind (cerr d) (fun _ => ret (true, true)) ->
  exists s',
    runOnce fuel command s = Done true s' /\
    trace s' = trace s ++ [Cerr d] /\
    sent_by (runOnce fuel command) s = [] /\
    device_ s' = device_ s /\
    w_out (world s') = w_out (world s) /\ w_in (world s') = w_in (world s).
Proof.
  intros E. unfold sent_by, events_of, runOnce. rewrite E.
  eexists. split; [reflexivity|]. split; [reflexivity|]. split.
  - change (trace (state_of _)) with (trace s ++ [Cerr d]).
    rewrite skipn_app, skipn_all, Nat.sub_diag. reflexivity.
  - cbn. auto.
Qed.

Lemma handleFileTransferCommand_tokens fuel command :
  match splitTokens command with
  | [] => handleFileTransferCommand fuel command = ret (true, false)
  | op :: rest =>
      (~ is_transfer_word op ->
       handleFileTransferCommand fuel command = ret (true, false)) /\
      (op = B "u3vget" ->
       (forall a b, rest = [a; b] ->
          handleFileTransferCommand fuel command
            = bind (performFileDownload fuel a b) (fun ok => ret (ok, true))) /\
       (length rest <> 2%nat ->
          handleFileTransferCommand fuel command
            = bind (cerr UsageGet) (fun _ => ret (true, true)))) /\
      (op = B "u3vput" ->
       (forall a b, rest = [a; b] ->
          handleFileTransferCommand fuel command
            = bind (performFileUpload fuel a b) (fun ok => ret (ok, true))) /\
       (length rest <> 2%nat ->
          handleFileTransferCommand fuel command
            = bind (cerr UsagePut) (fun _ => ret (true, true))))
  end.
Proof.
  unfold handleFileTransferCommand.
  destruct (splitTokens command) as [|op rest]; [reflexivity|].
  split; [|split].
  - intros Hn. unfold is_transfer_word in Hn.
    destruct (bytes_eqb op (B "u3vget")) eqn:Eg.
    { apply bytes_eqb_eq in Eg. tauto. }
    destruct (bytes_eqb op (B "u3vput")) eqn:Ep.
    { apply bytes_eqb_eq in Ep. tauto. }
    reflexivity.
  - intros ->. change (bytes_eqb (B "u3vget") (B "u3vget")) with true.
    cbn [negb andb]. split.
    + intros a b ->. reflexivity.
    + intros Hl. destruct (length (B "u3vget" :: rest) =? 3)%nat eqn:E3.
      { apply Nat.eqb_eq in E3. cbn [length] in E3. lia. }
      reflexivity.
  - intros ->. change (bytes_eqb (B "u3vput") (B "u3vput")) with true.
    change (bytes_eqb (B "u3vput") (B "u3vget")) with false.
    cbn [negb andb]. split.
    + intros a b ->. reflexivity.
    + intros Hl. destruct (length (B "u3vput" :: rest) =? 3)%nat eqn:E3.
      { apply Nat.eqb_eq in E3. cbn [length] in E3. lia. }
      reflexivity.
Qed.

(** C5, amended.  [runOnce] splits its command into tokens.  With [u3vget]
    or [u3vput] first and three tokens in all, it runs the download or the
    upload and returns what that returns.  With one of the two words first
    and any other number of tokens, it prints the usage line, sends nothing
    and returns success.  In every other case the command is sent and the
    output drained once. *)
Theorem runOnce_dispatch :
  forall (fuel : nat) (command : bstring) (s : State),
    (forall a b,
       splitTokens command = [B "u3vget"; a; b] ->
       runOnce fuel command s = performFileDownload fuel a b s) /\
    (forall a b,
       splitTokens command = [B "u3vput"; a; b] ->
       runOnce fuel command s = performFileUpload fuel a b s) /\
    (forall op rest,
       splitTokens command = op :: rest ->
       is_transfer_word op -> length rest <> 2%nat ->
       exists s',
         runOnce fuel command s = Done true s' /\
         trace s' = trace s ++ [Cerr (if bytes_eqb op (B "u3vget")
                                      then UsageGet else UsagePut)] /\
         sent_by (runOnce fuel command) s = [] /\
         device_ s' = device_ s /\
         w_out (world s') = w_out (world s) /\
         w_in (world s') = w_in (world s)) /\
    ((splitTokens command = [] \/
      exists op rest, splitTokens command = op :: rest /\ ~ is_transfer_word op) ->
     runOnce fuel command s = send_then_drain_once fuel command s).
Proof.
  intros fuel command s.
  pose proof (handleFileTransferCommand_tokens fuel command) as H.
  split; [|split; [|split]].
  - intros a b E. rewrite E in H. destruct H as (_ & G & _).
    destruct (G eq_refl) as (D & _). apply runOnce_transfer. apply D. reflexivity.
  - intros a b E. rewrite E in H. destruct H as (_ & _ & P).
    destruct (P eq_refl) as (U & _). apply runOnce_transfer. apply U. reflexivity.
  - intros op rest E Hop Hl. rewrite E in H. destruct H as (_ & G & P).
    destruct Hop as [-> | ->].
    + change (bytes_eqb (B "u3vget") (B "u3vget")) with true. cbv iota.
      destruct (G eq_refl) as (_ & U). apply runOnce_usage. apply U. exact Hl.
    + change (bytes_eqb (B "u3vput") (B "u3vget")) with false. cbv iota.
      destruct (P eq_refl) as (_ & U). apply runOnce_usage. apply U. exact Hl.
  - intros [E | (op & rest & E & Hn)]; rewrite E in H.
    + apply runOnce_not_handled. exact H.
    + destruct H as (N & _). apply runOnce_not_handled. apply N. exact Hn.
Qed.

(** C5, as stated, fails: [u3vget] with a single argument is not sent to the
    device; the runner prints the usage line and reports success, where
    sending it would have started a transaction. *)
Lemma runOnce_usage_not_sent :
  let s := claimed_state (scripted_world 0 []) in
  splitTokens (B "u3vget /tmp/a.bin") = [B "u3vget"; B "/tmp/a.bin"] /\
  runOnce 10 (B "u3vget /tmp/a.bin") s
    = Done true (state_of (cerr UsageGet s)) /\
  sent_by (runOnce 10 (B "u3vget /tmp/a.bin")) s = [] /\
  sent_by (send_then_drain_once 10 (B "u3vget /tmp/a.bin")) s
    = [UVCPReadMemoryCmd 1 kTerminalBaseAddr 8] /\
  send_then_drain_once 10 (B "u3vget /tmp/a.bin") s
    = Done false (state_of (send_then_drain_once 10 (B "u3vget /tmp/a.bin") s)).
Proof.
  cbv zeta. split; [|split; [|split; [|split]]]; vm_compute; reflexivity.
Qed.

Lemma runOnce_dispatch_witness :
  let s := claimed_state (scripted_world 0 []) in
  runOnce 10 (B "u3vget /tmp/a.bin ./a.bin") s
    = performFileDownload 10 (B "/tmp/a.bin") (B "./a.bin") s /\
  (exists s',
     runOnce 10 (B "u3vput ./b.bin") s = Done true s' /\
     trace s' = trace s ++ [Cerr (if bytes_eqb (B "u3vput") (B "u3vget")
                                  then UsageGet else UsagePut)] /\
     sent_by (runOnce 10 (B "u3vput ./b.bin")) s = [] /\
     device_ s' = device_ s /\
     w_out (world s') = w_out (world s) /\
     w_in (world s') = w_in (world s)) /\
  runOnce 10 (B "uptime") s = send_then_drain_once 10 (B "uptime") s.
Proof.
  cbv zeta. split; [|split].
  - destruct (runOnce_dispatch 10 (B "u3vget /tmp/a.bin ./a.bin")
                (claimed_state (scripted_world 0 []))) as (D & _).
    apply D. vm_compute. reflexivity.
  - destruct (runOnce_dispatch 10 (B "u3vput ./b.bin")
                (claimed_state (scripted_world 0 []))) as (_ & _ & U & _).
    apply (U (B "u3vput") [B "./b.bin"]).
    + vm_compute. reflexivity.
    + right. reflexivity.
    + cbn. lia.
  - destruct (runOnce_dispatch 10 (B "uptime")
                (claimed_state (scripted_world 0 []))) as (_ & _ & _ & N).
    apply N. right. exists (B "uptime"), []. split.
    + vm_compute. reflexivity.
    + intros [H | H]; vm_compute in H; discriminate H.
Defined.

(** ** The [exit] interception of the V2 loop *)

Lemma interactiveLoopV2_byte_exit budget ch st :
  ch = carriage_return \/ ch = newline ->
  currentLine st = B "exit" ->
  interactiveLoopV2_byte budget ch st
    = bind (writeMemory kTerminalDataAddr (toSend st ++ four_backspaces)
              (uint16 (Z.of_nat (length (toSend st ++ four_backspaces)))))
           (fun _ => ret (mkLine [] [] true)).
Proof.
  intros Hch Hline. unfold interactiveLoopV2_byte. rewrite Hline.
  change (bytes_eqb (B "exit") (B "exit")) with true.
  destruct Hch as [-> | ->]; reflexivity.
Qed.

Lemma exitRequested_sticky_byte budget ch st s st' s' :
  interactiveLoopV2_byte budget ch st s = Done st' s' ->
  exitRequested st = true -> exitRequested st' = true.
Proof.
  unfold interactiveLoopV2_byte. intros H Hx.
  destruct (Byte.eqb ch kExitKey).
  { unfold ret in H. inversion H. reflexivity. }
  destruct (Byte.eqb ch carriage_return || Byte.eqb ch newline).
  { destruct (bytes_eqb (currentLine st) (B "exit")).
    { apply bind_inv in H. destruct H as (? & ? & _ & H).
      unfold ret in H. inversion H. reflexivity. }
    destruct (tryHandleFileTransferCommand (currentLine st)).
    { apply bind_inv in H. destruct H as (? & ? & _ & H).
      apply bind_inv in H. destruct H as (? & ? & _ & H).
      apply bind_inv in H. destruct H as (? & ? & _ & H).
      unfold ret in H. inversion H. exact Hx. }
    unfold ret in H. inversion H. exact Hx. }
  destruct (Byte.eqb ch delete_key || Byte.eqb ch backspace).
  { unfold ret in H. inversion H. exact Hx. }
  destruct (isprint ch); unfold ret in H; inversion H; exact Hx.
Qed.

Lemma exitRequested_sticky budget inBuf : forall st s st' s',
  interactiveLoopV2_bytes budget inBuf st s = Done st' s' ->
  exitRequested st = true -> exitRequested st' = true.
Proof.
  induction inBuf as [|ch rest IH]; intros st s st' s' H Hx;
    cbn [interactiveLoopV2_bytes] in H.
  - unfold ret in H. inversion H. subst. exact Hx.
  - apply bind_inv in H. destruct H as (st1 & s1 & E & H).
    eapply IH; [exact H|]. eapply exitRequested_sticky_byte; eauto.
Qed.

Lemma interactiveLoopV2_bytes_app budget pre : forall post st s,
  interactiveLoopV2_bytes budget (pre ++ post) st s
    = bind (interactiveLoopV2_bytes budget pre st)
           (fun st1 => interactiveLoopV2_bytes budget post st1) s.
Proof.
  induction pre as [|ch pre IH]; intros post st s; [reflexivity|].
  cbn [app interactiveLoopV2_bytes]. unfold bind at 1 2 3.
  destruct (interactiveLoopV2_byte budget ch st s) as [st1 s1|s1|s1];
    try reflexivity.
  rewrite IH. reflexivity.
Qed.

Lemma interactiveLoopV2_input_cons budget c l line :
  interactiveLoopV2_input budget (c :: l) line
    = (st <- interactiveLoopV2_bytes budget (c :: l) (mkLine line [] false) ;;
       sent <- match toSend st with
               | [] => ret true
               | out => writeMemory kTerminalDataAddr out
                                    (uint16 (Z.of_nat (length out)))
               end ;;
       if negb sent then ret (Some false, currentLine st)
       else if exitRequested st then ret (Some true, currentLine st)
       else ret (None, currentLine st)).
Proof. reflexivity. Qed.

(** C4, as stated, fails: whether [exit] is typed key by key or arrives in
    one piece, the typed word does reach the TTY Data register, and what
    follows it is four backspaces without a newline. *)
Lemma exit_sends_no_newline :
  (interactiveLoopV2_loop 10 10 0 [] typing_exit_state
     = Done true (state_of (interactiveLoopV2_loop 10 10 0 [] typing_exit_state)) /\
   tty_writes (events_of (interactiveLoopV2_loop 10 10 0 []) typing_exit_state)
     = [B "e"; B "x"; B "i"; B "t"; four_backspaces]) /\
  (interactiveLoopV2_loop 10 10 0 [] pasted_exit_state
     = Done true (state_of (interactiveLoopV2_loop 10 10 0 [] pasted_exit_state)) /\
   tty_writes (events_of (interactiveLoopV2_loop 10 10 0 []) pasted_exit_state)
     = [B "exit" ++ four_backspaces]).
Proof.
  split; (split; vm_compute; reflexivity).
Qed.

(** ** What a file transfer sends *)

Lemma session_in_transfer pw (m : M bool) :
  sends (has_password pw) (session_frames pw) m ->
  sends (has_password pw) (transfer_frames pw) m.
Proof.
  apply sends_weaken. intros f. apply requests_mono. intros a d H. left. exact H.
Qed.

Lemma sends_ensureSession_transfer pw fuel :
  sends (has_password pw) (transfer_frames pw) (ensureSession fuel).
Proof. apply session_in_transfer, sends_ensureSession. Qed.

Lemma sends_sendFileCommand pw cmd :
  sends (has_password pw) (transfer_frames pw) (sendFileCommand cmd).
Proof.
  unfold sendFileCommand. apply sends_writeRegister. right; left. reflexivity.
Qed.

#[export] Hint Resolve sends_ensureSession_transfer sends_sendFileCommand : sends.

Lemma sends_readFileStatus I W : sends I (frames (requests W)) readFileStatus.
Proof. unfold readFileStatus. sends_walk. Qed.

Lemma sends_readFileDataAvail I W :
  sends I (frames (requests W)) readFileDataAvail.
Proof. unfold readFileDataAvail. sends_walk. Qed.

#[export] Hint Resolve sends_readFileStatus sends_readFileDataAvail : sends.

Lemma sends_readFileResult I W : sends I (frames (requests W)) readFileResult.
Proof. unfold readFileResult. sends_walk. Qed.

Lemma sends_readFileSize I W : sends I (frames (requests W)) readFileSize.
Proof. unfold readFileSize. sends_walk. Qed.

#[export] Hint Resolve sends_readFileResult sends_readFileSize : sends.

Lemma sends_checkFileError I W context :
  sends I (frames (requests W)) (checkFileError context).
Proof. unfold checkFileError. sends_walk. Qed.

#[export] Hint Resolve sends_checkFileError : sends.

Lemma sends_closeFileChannel pw :
  sends (has_password pw) (transfer_frames pw) closeFileChannel.
Proof. unfold closeFileChannel, transfer_frames. sends_walk. Qed.

Lemma sends_prepareFilePath pw remotePath :
  sends (has_password pw) (transfer_frames pw) (prepareFilePath remotePath).
Proof.
  unfold prepareFilePath, transfer_frames. sends_walk.
  apply sends_write. right; right; left. reflexivity.
Qed.

Lemma sends_waitForFileOpen_loop I W fuel : forall modeBit deadline,
  sends I (frames (requests W)) (waitForFileOpen_loop fuel modeBit deadline).
Proof. induction fuel; intros; cbn [waitForFileOpen_loop]; sends_walk. Qed.

#[export] Hint Resolve sends_closeFileChannel sends_prepareFilePath
  sends_waitForFileOpen_loop : sends.

Lemma sends_waitForFileOpen I W fuel modeBit timeout :
  sends I (frames (requests W)) (waitForFileOpen fuel modeBit timeout).
Proof. unfold waitForFileOpen. sends_walk. Qed.

#[export] Hint Resolve sends_waitForFileOpen : sends.

Lemma sends_ifstream_open I G localPath : sends I G (ifstream_open localPath).
Proof. apply sends_get. Qed.

Lemma sends_ofstream_open I G localPath : sends I G (ofstream_open localPath).
Proof.
  apply sends_silent. intros s. unfold ofstream_open.
  destruct (existsb _ _); cbn; auto.
Qed.

Lemma sends_ofstream_write I G localPath data :
  sends I G (ofstream_write localPath data).
Proof.
  apply sends_silent. intros s. unfold ofstream_write.
  destruct (_ >? _); cbn; auto.
Qed.

#[export] Hint Resolve sends_ifstream_open sends_ofstream_open
  sends_ofstream_write : sends.

Lemma slice_fits (rest buffer : bstring) :
  let slice := firstn (Z.to_nat kTerminalFileDataWindow) rest in
  Z.of_nat (length (firstn (Z.to_nat (uint16 (Z.of_nat (length slice))))
                           (overwrite buffer slice)))
    <= kTerminalFileDataWindow.
Proof.
  cbv zeta. rewrite length_firstn.
  assert (H : (length (firstn (Z.to_nat kTerminalFileDataWindow) rest) <= 64)%nat).
  { rewrite length_firstn. change (Z.to_nat kTerminalFileDataWindow) with 64%nat. lia. }
  unfold uint16, kTerminalFileDataWindow in *.
  rewrite Z.mod_small by lia. lia.
Qed.

Lemma sends_upload_loop pw fuel : forall rest buffer totalBytes bytesSent printed,
  sends (has_password pw) (transfer_frames pw)
        (upload_loop fuel rest buffer totalBytes bytesSent printed).
Proof.
  unfold transfer_frames.
  induction fuel; intros; cbn [upload_loop]; sends_walk.
  apply sends_write. right; right; right. split; [reflexivity|].
  apply slice_fits.
Qed.

#[export] Hint Resolve sends_upload_loop : sends.

Lemma sends_performFileUpload pw fuel localPath remotePath :
  sends (has_password pw) (transfer_frames pw)
        (performFileUpload fuel localPath remotePath).
Proof. unfold performFileUpload. unfold transfer_frames at 1. sends_walk. Qed.

Lemma sends_download_loop I W fuel :
  forall localPath remoteSize bytesReceived printed,
    sends I (frames (requests W))
          (download_loop fuel localPath remoteSize bytesReceived printed).
Proof. induction fuel; intros; cbn [download_loop]; sends_walk. Qed.

#[export] Hint Resolve sends_download_loop : sends.

Lemma sends_performFileDownload pw fuel remotePath localPath :
  sends (has_password pw) (transfer_frames pw)
        (performFileDownload fuel remotePath localPath).
Proof. unfold performFileDownload. unfold transfer_frames at 1. sends_walk. Qed.

(** The first event a computation adds to the trace. *)
Lemma first_event_bind {A B} G (m : M A) (k : A -> M B) e s :
  (exists evs, trace (state_of (m s)) = trace s ++ e :: evs) ->
  (forall a, sends (fun _ => True) G (k a)) ->
  exists evs, trace (state_of (bind m k s)) = trace s ++ e :: evs.
Proof.
  intros (evs & T) Hk. unfold bind.
  destruct (m s) as [a s1|s1|s1]; cbn in *; eauto.
  destruct (Hk a s1 Logic.I) as (_ & evs2 & T2 & _).
  exists (evs ++ evs2). rewrite T2, T, <- app_assoc. reflexivity.
Qed.

Lemma first_event_bulkSend data s :
  exists evs, trace (state_of (bulkSend data s)) = trace s ++ BulkOut data :: evs.
Proof.
  unfold bulkSend.
  apply (first_event_bind (frames (fun _ => True))).
  - exists []. reflexivity.
  - intros []. sends_walk.
Qed.

Lemma first_event_readMemory address bytes s :
  claimed_ (device_ s) = true -> bytes <> 0 ->
  exists evs,
    trace (state_of (readMemory address bytes s))
      = trace s ++ BulkOut (UVCPReadMemoryCmd
                              (uint16 (requestId_ (device_ s) + 1)) address bytes)
                :: evs.
Proof.
  intros Hc Hb. unfold readMemory. unfold bind at 1. unfold get. rewrite Hc.
  cbn [negb]. destruct (bytes =? 0) eqn:E; [lia|].
  unfold bind at 1. unfold nextRequestId.
  change (trace s) with
    (trace (set_requestId (uint16 (requestId_ (device_ s) + 1)) s)).
  apply (first_event_bind (frames (fun _ => True))).
  - apply first_event_bulkSend.
  - intros ok. sends_walk.
Qed.

(** What a frame of a file transfer looks like to the device when it is a
    write to the FileData window. *)
Lemma transfer_frame_window pw f :
  requests (transfer_writes pw) f ->
  is_write_to kTerminalFileDataAddr f = true ->
  Z.of_nat (length (frame_payload f)) <= kTerminalFileDataWindow.
Proof.
  intros HR Hw. unfold is_write_to in Hw. apply andb_prop in Hw.
  destruct Hw as (Hc & Ha). apply Z.eqb_eq in Hc, Ha.
  destruct HR as [(id & a & n & ->) | (id & a & d & n & -> & Hw)].
  - rewrite frame_command_read in Hc. discriminate.
  - rewrite frame_address_write in Ha. rewrite frame_payload_write.
    destruct Hw as [[(-> & _) | [(_ & ->) | (_ & -> & _)]] | [-> | [-> | (_ & H)]]];
      try discriminate Ha.
    exact H.
Qed.

(** C7, amended.  Every write of an upload to the FileData window carries
    at most 0x40 bytes.  A download does not bound its reads: after
    FileDataAvail has reported [avail] bytes (more than none, fewer than
    65536), the next request of the download loop is a read of exactly
    [avail] bytes from the FileData window. *)
Theorem file_data_window :
  (forall (fuel : nat) (localPath remotePath : bstring) (s : State) (f : bstring),
     In f (sent_by (performFileUpload fuel localPath remotePath) s) ->
     is_write_to kTerminalFileDataAddr f = true ->
     Z.of_nat (length (frame_payload f)) <= kTerminalFileDataWindow) /\
  (forall (fuel : nat) (localPath : bstring) (remoteSize bytesReceived : Z)
          (printed : bool) (s s1 : State) (avail : Z),
     readFileDataAvail s = Done (Some avail) s1 ->
     0 < avail < 65536 ->
     claimed_ (device_ s1) = true ->
     exists id evs,
       trace (state_of (download_loop (S fuel) localPath remoteSize
                                      bytesReceived printed s))
         = trace s1 ++ BulkOut (UVCPReadMemoryCmd id kTerminalFileDataAddr avail)
                    :: evs /\
       frame_read_size (UVCPReadMemoryCmd id kTerminalFileDataAddr avail) = avail).
Proof.
  split.
  - intros fuel localPath remotePath s f Hin Hw.
    apply (transfer_frame_window (password_ (terminal s))); [|exact Hw].
    eapply sent_by_sends;
      [apply sends_performFileUpload | reflexivity | exact Hin].
  - intros fuel localPath remoteSize bytesReceived printed s s1 avail E Hr Hc.
    exists (uint16 (requestId_ (device_ s1) + 1)).
    assert (Hu : uint16 avail = avail) by (unfold uint16; apply Z.mod_small; lia).
    cbn [download_loop]. rewrite (bind_Done _ _ _ _ _ E).
    destruct (avail =? 0) eqn:E0; [lia|]. rewrite Hu.
    destruct (first_event_bind (frames (requests (fun _ _ => True)))
                (readMemory kTerminalFileDataAddr avail)
                (fun r =>
                   match r with
                   | None => ret (false, printed)
                   | Some buffer =>
                       if Z.of_nat (length buffer) <? avail then undefined
                       else
                         ok <- ofstream_write localPath
                                 (firstn (Z.to_nat avail) buffer) ;;
                         if negb ok then
                           cerr (LocalWriteFailed localPath) ;;
                           ret (false, printed)
                         else
                           cout (DownloadProgress (bytesReceived + avail)
                                                  remoteSize) ;;
                           download_loop fuel localPath remoteSize
                                         (bytesReceived + avail) true
                   end)
                (BulkOut (UVCPReadMemoryCmd
                            (uint16 (requestId_ (device_ s1) + 1))
                            kTerminalFileDataAddr avail)) s1) as (evs & T).
    + apply first_event_readMemory; [exact Hc | lia].
    + intros r. sends_walk.
    + exists evs. split; [exact T|].
      rewrite frame_read_size_read. apply Z.mod_small. lia.
Qed.

Lemma file_data_window_witness :
  Z.of_nat (length (frame_payload
     (UVCPWriteMemoryCmd 12 kTerminalFileDataAddr (repeat "y"%byte 64) 36)))
    <= kTerminalFileDataWindow /\
  (exists id evs,
     trace (state_of (download_loop 1 (B "./a.bin") 0 0 false
                        (claimed_state (scripted_world 1 [register_ack 1 0x20]))))
       = trace (state_of (readFileDataAvail
                  (claimed_state (scripted_world 1 [register_ack 1 0x20]))))
           ++ BulkOut (UVCPReadMemoryCmd id kTerminalFileDataAddr 0x20) :: evs /\
     frame_read_size (UVCPReadMemoryCmd id kTerminalFileDataAddr 0x20) = 0x20).
Proof.
  destruct file_data_window as (U & D). split.
  - apply (U 10%nat (B "./b.bin") (B "/tmp/b.bin") upload_state).
    + vm_compute. repeat (first [left; reflexivity | right]).
    + vm_compute. reflexivity.
  - apply (D 0%nat (B "./a.bin") 0 0 false
             (claimed_state (scripted_world 1 [register_ack 1 0x20]))).
    + vm_compute. reflexivity.
    + lia.
    + vm_compute. reflexivity.
Defined.

(** C7, as stated, fails for downloads: when FileDataAvail reports 0x80,
    the host asks for 0x80 bytes of the FileData window in one read. *)
Lemma download_reads_what_is_available :
  performFileDownload 10 (B "/tmp/a.bin") (B "./a.bin") wide_download_state
    = Done true (state_of (performFileDownload 10 (B "/tmp/a.bin") (B "./a.bin")
                             wide_download_state)) /\
  map frame_read_size
      (filter (is_read_of kTerminalFileDataAddr)
         (sent_by (performFileDownload 10 (B "/tmp/a.bin") (B "./a.bin"))
                  wide_download_state))
    = [0x80] /\
  kTerminalFileDataWindow < 0x80.
Proof.
  split; [|split]; vm_compute; reflexivity.
Qed.

(** ** Locking the device on exit *)

(** C3.  The early return of [main] after a failed [reset] skips [lock].
    Started with [-r -p pw] on a device that accepts the password but never
    reports READY, the program authenticates (it writes 1 to AuthCmd), times
    out in [reset], releases the device and exits with a failure, and it
    has not written 0 to AuthCmd.  Without [-r] the same device makes the
    interactive loop fail in the same way, and there the last frame sent is
    the write of 0 to AuthCmd. *)
Theorem reset_failure_skips_lock :
  let with_reset := main 100 reset_options
                      (initial_state (never_ready_world [accepts 4])) in
  let without := main 100 plain_options
                      (initial_state (never_ready_world [])) in
  (with_reset = Done EXIT_FAILURE (state_of with_reset) /\
   In (Cerr SessionTimeout) (trace (state_of with_reset)) /\
   last (trace (state_of with_reset)) (Cerr NotClaimed) = Shutdown /\
   existsb (writes_register kTerminalAuthCmdAddr 1)
           (frames_of_run 100 reset_options (never_ready_world [accepts 4]))
     = true /\
   existsb (writes_register kTerminalAuthCmdAddr 0)
           (frames_of_run 100 reset_options (never_ready_world [accepts 4]))
     = false) /\
  (without = Done EXIT_FAILURE (state_of without) /\
   In (Cerr SessionTimeout) (trace (state_of without)) /\
   writes_register kTerminalAuthCmdAddr 0
     (last (frames_of_run 100 plain_options (never_ready_world [])) [])
     = true).
Proof.
  cbv zeta. split.
  - split; [vm_compute; reflexivity|].
    split; [vm_compute; repeat (first [left; reflexivity | right])|].
    split; [vm_compute; reflexivity|].
    split; vm_compute; reflexivity.
  - split; [vm_compute; reflexivity|].
    split; [vm_compute; repeat (first [left; reflexivity | right])|].
    vm_compute; reflexivity.
Qed.

(** * Further properties of the code *)

(** ** The cost of a transaction *)

Lemma sent_frames_app a b : sent_frames (a ++ b) = sent_frames a ++ sent_frames b.
Proof. unfold sent_frames. apply flat_map_app. Qed.

Lemma sleeps_app a b : sleeps (a ++ b) = sleeps a ++ sleeps b.
Proof. unfold sleeps. apply flat_map_app. Qed.

Lemma total_app a b : total (a ++ b) = total a + total b.
Proof. unfold total. induction a; cbn in *; lia. Qed.

Lemma sent_frames_out f evs : sent_frames (BulkOut f :: evs) = f :: sent_frames evs.
Proof. reflexivity. Qed.

Lemma sleeps_out f evs : sleeps (BulkOut f :: evs) = sleeps evs.
Proof. reflexivity. Qed.

Lemma bulkReceive_effect buffer s :
  exists r s1 evs,
    bulkReceive buffer s = Done r s1 /\
    w_in (world s1) = skipn 1 (w_in (world s)) /\
    w_out (world s1) = w_out (world s) /\
    trace s1 = trace s ++ evs /\
    sent_frames evs = [] /\ sleeps evs = [] /\
    w_latency (world s1) = w_latency (world s) /\
    w_now (world s1) = w_now (world s) + w_latency (world s) /\
    terminal s1 = terminal s /\ device_ s1 = device_ s.
Proof.
  unfold bulkReceive, bind, take_in, transfer_time, bind, get, elapse.
  assert (Htl : forall l : list InOutcome, tl l = skipn 1 l) by (intros []; reflexivity).
  rewrite Htl.
  destruct (hd InError (w_in (world s))) as [|d].
  - exists None. eexists. exists [Cerr BulkInFailed].
    split; [reflexivity|]. cbn. auto 12.
  - destruct (Z.of_nat (length d) >? TY_UVCP_MAX_MSG_LEN).
    { exists None. eexists. exists [Cerr BulkInFailed].
      split; [reflexivity|]. cbn. auto 12. }
    destruct (Z.of_nat (length d) <=? 0).
    { exists None. eexists. exists [Cerr BulkInEmpty].
      split; [reflexivity|]. cbn. auto 12. }
    eexists. eexists. exists [].
    split; [reflexivity|]. cbn. rewrite app_nil_r. auto 12.
Qed.

Lemma bulkSend_effect data s :
  exists ok s1 evs,
    bulkSend data s = Done ok s1 /\
    w_in (world s1) = w_in (world s) /\
    w_out (world s1) = skipn 1 (w_out (world s)) /\
    trace s1 = trace s ++ BulkOut data :: evs /\
    sent_frames evs = [] /\ sleeps evs = [] /\
    w_latency (world s1) = w_latency (world s) /\
    w_now (world s1) = w_now (world s) + w_latency (world s) /\
    terminal s1 = terminal s /\ device_ s1 = device_ s.
Proof.
  unfold bulkSend, bind, emit, take_out, transfer_time, bind, get, elapse.
  destruct (w_out (world s)) as [|[|] rest] eqn:E; cbn; rewrite E; cbn.
  - exists false. eexists. exists [Cerr BulkOutFailed].
    split; [reflexivity|]. cbn. rewrite ?E, <- ?app_assoc. cbn. auto 12.
  - exists true. eexists. exists []. split; [reflexivity|]. cbn. rewrite ?E. auto 12.
  - exists false. eexists. exists [Cerr BulkOutFailed].
    split; [reflexivity|]. cbn. rewrite ?E, <- ?app_assoc. cbn. auto 12.
Qed.

(** A loop that stops after its first receive, having logged [more]. *)
Lemma receive_steps_stop left s s1 evs (more : list Event) s2 :
  w_in (world s1) = skipn 1 (w_in (world s)) ->
  w_out (world s1) = w_out (world s) ->
  trace s1 = trace s ++ evs ->
  sent_frames evs = [] -> sleeps evs = [] ->
  w_latency (world s1) = w_latency (world s) ->
  w_now (world s1) = w_now (world s) + w_latency (world s) ->
  terminal s1 = terminal s -> device_ s1 = device_ s ->
  trace s2 = trace s1 ++ more -> sent_frames more = [] -> sleeps more = [] ->
  world s2 = with_trace (trace s2) (world s1) ->
  terminal s2 = terminal s1 -> device_ s2 = device_ s1 ->
  receive_steps left s s2.
Proof.
  intros I O T F Sl La No Te D T2 F2 S2 W2 Te2 D2.
  exists 1%nat, (evs ++ more).
  rewrite W2. cbn -[Z.mul Z.add Z.of_nat].
  rewrite I, O, T2, T, <- app_assoc, sent_frames_app, sleeps_app,
    F, F2, Sl, S2, Te2, Te, D2, D, La, No. cbn -[Z.mul Z.add Z.of_nat].
  repeat split; auto; lia.
Qed.

Lemma receive_steps_cerr left s s1 evs d :
  w_in (world s1) = skipn 1 (w_in (world s)) ->
  w_out (world s1) = w_out (world s) ->
  trace s1 = trace s ++ evs ->
  sent_frames evs = [] -> sleeps evs = [] ->
  w_latency (world s1) = w_latency (world s) ->
  w_now (world s1) = w_now (world s) + w_latency (world s) ->
  terminal s1 = terminal s -> device_ s1 = device_ s ->
  receive_steps left s (state_of (cerr d s1)).
Proof.
  intros. eapply receive_steps_stop with (more := [Cerr d]); eauto.
Qed.

Lemma receive_steps_here left s s1 evs :
  w_in (world s1) = skipn 1 (w_in (world s)) ->
  w_out (world s1) = w_out (world s) ->
  trace s1 = trace s ++ evs ->
  sent_frames evs = [] -> sleeps evs = [] ->
  w_latency (world s1) = w_latency (world s) ->
  w_now (world s1) = w_now (world s) + w_latency (world s) ->
  terminal s1 = terminal s -> device_ s1 = device_ s ->
  receive_steps left s s1.
Proof.
  intros. eapply receive_steps_stop with (more := []); eauto.
  - rewrite app_nil_r; reflexivity.
  - destruct s1 as [d t [ ]]; reflexivity.
Qed.

Lemma sleep_for_effect ms s :
  exists s1, sleep_for ms s = Done tt s1 /\
    trace s1 = trace s ++ [Sleep ms] /\ w_in (world s1) = w_in (world s) /\
    w_out (world s1) = w_out (world s) /\
    w_latency (world s1) = w_latency (world s) /\
    w_now (world s1) = w_now (world s) + ms /\
    device_ s1 = device_ s /\ terminal s1 = terminal s.
Proof. eexists; split; [reflexivity|]. cbn. auto 10. Qed.

Lemma receive_steps_sleep left s s1 evs ms s3 :
  w_in (world s1) = skipn 1 (w_in (world s)) ->
  w_out (world s1) = w_out (world s) ->
  trace s1 = trace s ++ evs ->
  sent_frames evs = [] -> sleeps evs = [] ->
  w_latency (world s1) = w_latency (world s) ->
  w_now (world s1) = w_now (world s) + w_latency (world s) ->
  terminal s1 = terminal s -> device_ s1 = device_ s ->
  1 <= ms ->
  receive_steps left (state_of (sleep_for ms s1)) s3 ->
  receive_steps (S left) s s3.
Proof.
  intros I O T F Sl La No Te D Hms
    (ins & evs' & Hi & I' & O' & T' & F' & L' & L2 & A' & La' & No' & Te' & D').
  destruct (sleep_for_effect ms s1) as (s2 & E2 & T2 & I2 & O2 & La2 & No2 & D2 & Te2).
  rewrite E2 in *. cbn [state_of] in *.
  exists (S ins), (evs ++ Sleep ms :: evs').
  rewrite I', O', T', Te', D', La', No', I2, O2, T2, Te2, D2, La2, No2,
    I, O, T, Te, D, La, No.
  rewrite <- !app_assoc, sent_frames_app, sleeps_app, F, Sl.
  cbn -[Z.mul Z.add Z.of_nat].
  change (flat_map _ evs') with (sent_frames evs') at 1.
  change (flat_map _ evs') with (sleeps evs').
  change (fold_right Z.add 0 (sleeps evs')) with (total (sleeps evs')).
  rewrite F'.
  repeat split; auto; try lia.
  destruct (w_in (world s)); [destruct ins|]; reflexivity.
Qed.

Lemma pending_wait_positive buffer :
  1 <= (if peek buffer off_timeout_ms 2 =? 0 then 1 else peek buffer off_timeout_ms 2).
Proof.
  pose proof (peek_nonneg buffer off_timeout_ms 2).
  destruct (peek buffer off_timeout_ms 2 =? 0) eqn:E; lia.
Qed.

Ltac never :=
  unfold not; intros;
  first [ discriminate
        | match goal with
          | H : _ = OutOfFuel _ |- _ =>
              unfold bind, cerr, cout, emit, ret, undefined, out_of_fuel in H;
              discriminate H
          | H : _ = Undefined _ |- _ =>
              unfold bind, cerr, cout, emit, ret, undefined, out_of_fuel in H;
              discriminate H
          end ].

Lemma readMemory_loop_cost left id bytes buffer s :
  receive_steps left s (state_of (readMemory_loop left id bytes buffer s)) /\
  (forall s', readMemory_loop left id bytes buffer s <> OutOfFuel s') /\
  (Z.of_nat sizeof_UVCPHeader + bytes <= TY_UVCP_MAX_MSG_LEN ->
   forall s', readMemory_loop left id bytes buffer s <> Undefined s').
Proof.
  revert buffer s. induction left as [|left IH]; intros buffer s;
    destruct (bulkReceive_effect buffer s)
      as (r & s1 & evs & E & I & O & T & F & Sl & La & No & Te & D);
    cbn [readMemory_loop]; rewrite (bind_Done _ _ _ _ _ E);
    (destruct r as [b|];
     [|split; [eapply receive_steps_here; eauto | split; never]]);
    repeat match goal with
    | |- context [if ?c then _ else _] =>
        lazymatch c with
        | context [if _ then _ else _] => fail
        | context [off_timeout_ms] => fail
        | _ => destruct c eqn:?
        end;
        try (split; [eapply receive_steps_cerr; eauto | split; never])
    end.
  - split; [eapply receive_steps_here; eauto | split; [never|]].
    intros; lia.
  - split; [eapply receive_steps_here; eauto | split; never].
  - destruct (IH b (state_of (sleep_for
       (if peek b off_timeout_ms 2 =? 0 then 1 else peek b off_timeout_ms 2) s1)))
      as (R1 & R2 & R3).
    destruct (sleep_for_run
       (if peek b off_timeout_ms 2 =? 0 then 1 else peek b off_timeout_ms 2) s1)
      as (s2 & E2 & _).
    rewrite (bind_Done _ _ _ _ _ E2).
    rewrite E2 in *. cbn [state_of] in R1.
    split; [|split; auto].
    eapply receive_steps_sleep with
      (ms := if peek b off_timeout_ms 2 =? 0 then 1 else peek b off_timeout_ms 2);
      eauto using pending_wait_positive.
    rewrite E2. exact R1.
  - split; [eapply receive_steps_here; eauto | split; [never|]].
    intros; lia.
  - split; [eapply receive_steps_here; eauto | split; never].
Qed.

Lemma writeMemory_loop_cost left id bytes buffer s :
  receive_steps left s (state_of (writeMemory_loop left id bytes buffer s)) /\
  exists ok s', writeMemory_loop left id bytes buffer s = Done ok s'.
Proof.
  revert buffer s. induction left as [|left IH]; intros buffer s;
    destruct (bulkReceive_effect buffer s)
      as (r & s1 & evs & E & I & O & T & F & Sl & La & No & Te & D);
    cbn [writeMemory_loop]; rewrite (bind_Done _ _ _ _ _ E);
    (destruct r as [b|];
     [|split; [eapply receive_steps_here; eauto | do 2 eexists; reflexivity]]);
    repeat match goal with
    | |- context [if ?c then _ else _] =>
        lazymatch c with
        | context [if _ then _ else _] => fail
        | context [off_timeout_ms] => fail
        | _ => destruct c eqn:?
        end;
        try (split; [eapply receive_steps_cerr; eauto | do 2 eexists; reflexivity])
    end.
  - split; [eapply receive_steps_here; eauto | do 2 eexists; reflexivity].
  - destruct (IH b (state_of (sleep_for
       (if peek b off_timeout_ms 2 =? 0 then 1 else peek b off_timeout_ms 2) s1)))
      as (R1 & R2).
    destruct (sleep_for_run
       (if peek b off_timeout_ms 2 =? 0 then 1 else peek b off_timeout_ms 2) s1)
      as (s2 & E2 & _).
    rewrite (bind_Done _ _ _ _ _ E2).
    rewrite E2 in *. cbn [state_of] in R1.
    split; [|auto].
    eapply receive_steps_sleep with
      (ms := if peek b off_timeout_ms 2 =? 0 then 1 else peek b off_timeout_ms 2);
      eauto using pending_wait_positive.
    rewrite E2. exact R1.
  - split; [eapply receive_steps_here; eauto | do 2 eexists; reflexivity].
Qed.

Lemma frame_id_read id address bytes :
  frame_id (UVCPReadMemoryCmd id address bytes) = uint16 id.
Proof.
  change (frame_id (UVCPReadMemoryCmd id address bytes)) with (unle (le 2 id)).
  apply unle_le.
Qed.

Lemma frame_id_write id address data bytes :
  frame_id (UVCPWriteMemoryCmd id address data bytes) = uint16 id.
Proof.
  change (frame_id (UVCPWriteMemoryCmd id address data bytes)) with (unle (le 2 id)).
  apply unle_le.
Qed.

Lemma uint16_idem x : uint16 (uint16 x) = uint16 x.
Proof. unfold uint16. apply Z.mod_mod. lia. Qed.

(** A transaction whose frame went out and whose answer was awaited. *)
Lemma one_transaction_sent s frame a s1 s2 :
  frame_id frame = uint16 (requestId_ (device_ s) + 1) ->
  bulkSend frame (set_requestId (uint16 (requestId_ (device_ s) + 1)) s) = Done a s1 ->
  s2 = s1 \/ receive_steps kMaxPendingLoops s1 s2 ->
  one_transaction s s2.
Proof.
  intros Hid Hsend Hrest.
  destruct (bulkSend_effect frame
              (set_requestId (uint16 (requestId_ (device_ s) + 1)) s))
    as (ok & s1' & evs1 & E & I & O & T & F & Sl & La & No & Te & D).
  rewrite Hsend in E. injection E as <- <-.
  cbn in I, O, T, Te, La, No.
  destruct Hrest as [->|(ins & evs2 & Hi & I2 & O2 & T2 & F2 & L2 & L3 & A2
                          & La2 & No2 & Te2 & D2)].
  - exists 1%nat, 0%nat, (BulkOut frame :: evs1).
    rewrite I, O, Te, D, La, No, sent_frames_out, sleeps_out, F, Sl.
    unfold trace in *. rewrite T. cbn -[Z.mul Z.add Z.of_nat].
    repeat split; auto; try lia.
  - exists 1%nat, ins, (BulkOut frame :: evs1 ++ evs2).
    rewrite I2, O2, Te2, D2, La2, No2, I, O, Te, D, La, No, sent_frames_out,
      sleeps_out, sent_frames_app, sleeps_app, F, F2, Sl.
    unfold trace in *. rewrite T2, T, <- app_assoc.
    unfold kMaxPendingLoops in *. cbn [app length Nat.eqb skipn device_ set_requestId
      set_device requestId_ claimed_ handle_].
    repeat split; auto; try lia.
Qed.

Lemma one_transaction_none s s' (evs : list Event) :
  trace s' = trace s ++ evs -> sent_frames evs = [] -> sleeps evs = [] ->
  world s' = with_trace (trace s') (world s) ->
  terminal s' = terminal s -> device_ s' = device_ s ->
  one_transaction s s'.
Proof.
  intros T F Sl W Te D. exists 0%nat, 0%nat, evs.
  rewrite W, Te, D, T, F, Sl. cbn -[Z.mul Z.add Z.of_nat]. repeat split; auto; lia.
Qed.

Lemma readMemory_cost address bytes s :
  one_transaction s (state_of (readMemory address bytes s)) /\
  (forall s', readMemory address bytes s <> OutOfFuel s') /\
  (Z.of_nat sizeof_UVCPHeader + bytes <= TY_UVCP_MAX_MSG_LEN ->
   forall s', readMemory address bytes s <> Undefined s').
Proof.
  unfold readMemory.
  rewrite (bind_Done (get _) _ s _ s eq_refl).
  destruct (negb (claimed_ (device_ s))).
  { split; [|split; never].
    apply one_transaction_none with (evs := [Cerr NotClaimed]); reflexivity. }
  destruct (bytes =? 0).
  { split; [|split; never].
    apply one_transaction_none with (evs := []); try reflexivity.
    - cbn. rewrite app_nil_r. reflexivity.
    - destruct s as [d t []]; reflexivity. }
  set (id := uint16 (requestId_ (device_ s) + 1)).
  rewrite (bind_Done nextRequestId _ s id (set_requestId id s) eq_refl).
  destruct (bulkSend_effect (UVCPReadMemoryCmd id address bytes) (set_requestId id s))
    as (ok & s1 & evs1 & E & _).
  rewrite (bind_Done _ _ _ _ _ E).
  assert (Hid : frame_id (UVCPReadMemoryCmd id address bytes) = id).
  { rewrite frame_id_read. apply uint16_idem. }
  destruct ok; cbn [negb].
  - destruct (readMemory_loop_cost kMaxPendingLoops id bytes [] s1) as (R1 & R2 & R3).
    split; [|split; auto].
    eapply one_transaction_sent; eauto.
  - split; [|split; never].
    eapply one_transaction_sent; eauto.
Qed.

Lemma writeMemory_cost address data bytes s :
  bytes <= Z.of_nat (length data) ->
  one_transaction s (state_of (writeMemory address data bytes s)) /\
  exists ok s', writeMemory address data bytes s = Done ok s'.
Proof.
  intros Hfit. unfold writeMemory.
  rewrite (bind_Done (get _) _ s _ s eq_refl).
  destruct (negb (claimed_ (device_ s))).
  { split; [|do 2 eexists; reflexivity].
    apply one_transaction_none with (evs := [Cerr NotClaimed]); reflexivity. }
  destruct (bytes =? 0).
  { split; [|do 2 eexists; reflexivity].
    apply one_transaction_none with (evs := []); try reflexivity.
    - cbn. rewrite app_nil_r. reflexivity.
    - destruct s as [d t []]; reflexivity. }
  set (id := uint16 (requestId_ (device_ s) + 1)).
  rewrite (bind_Done nextRequestId _ s id (set_requestId id s) eq_refl).
  destruct (Z.of_nat (length data) <? bytes) eqn:El; [lia|].
  destruct (bulkSend_effect (UVCPWriteMemoryCmd id address data bytes)
              (set_requestId id s)) as (ok & s1 & evs1 & E & _).
  rewrite (bind_Done _ _ _ _ _ E).
  assert (Hid : frame_id (UVCPWriteMemoryCmd id address data bytes) = id).
  { rewrite frame_id_write. apply uint16_idem. }
  destruct ok; cbn [negb].
  - destruct (writeMemory_loop_cost kMaxPendingLoops id bytes [] s1) as (R1 & R2).
    split; [|auto].
    eapply one_transaction_sent; eauto.
  - split; [|do 2 eexists; reflexivity].
    eapply one_transaction_sent; eauto.
Qed.

(** ** Runs of transactions *)

Lemma uint16_small x : 0 <= x < 65536 -> uint16 x = x.
Proof. intros. unfold uint16. apply Z.mod_small. lia. Qed.

Lemma uint16_range x : 0 <= uint16 x < 65536.
Proof. unfold uint16. apply Z.mod_pos_bound. lia. Qed.

Lemma uint16_le x : 0 <= x -> uint16 x <= x.
Proof. intros. unfold uint16. apply Z.mod_le; lia. Qed.

Lemma uint16_add_l a b : uint16 (uint16 a + b) = uint16 (a + b).
Proof. unfold uint16. apply Zplus_mod_idemp_l. Qed.

Lemma map_seq_from {A} (f : nat -> A) n m :
  map f (seq n m) = map (fun i => f (n + i)%nat) (seq 0 m).
Proof.
  revert f. induction n as [|n IH]; intros f; [reflexivity|].
  rewrite <- seq_shift, map_map, IH. reflexivity.
Qed.

Lemma request_ids_app r n m :
  request_ids r (n + m)
    = request_ids r n ++ request_ids (uint16 (r + Z.of_nat n)) m.
Proof.
  unfold request_ids. rewrite seq_app, map_app. f_equal.
  cbn [Nat.add]. rewrite map_seq_from.
  apply map_ext. intros i. cbv beta.
  replace (uint16 (r + Z.of_nat n) + 1 + Z.of_nat i)
    with (uint16 (r + Z.of_nat n) + (1 + Z.of_nat i)) by lia.
  rewrite uint16_add_l. f_equal. lia.
Qed.

Lemma transacts_trans s1 s2 s3 :
  transacts s1 s2 -> transacts s2 s3 -> transacts s1 s3.
Proof.
  intros (i1 & e1 & T1 & O1 & I1 & B1 & Q1 & R1 & L1 & N1)
         (i2 & e2 & T2 & O2 & I2 & B2 & Q2 & R2 & L2 & N2).
  exists (i1 + i2)%nat, (e1 ++ e2).
  rewrite sent_frames_app, length_app, map_app, request_ids_app.
  rewrite T2, T1, O2, O1, I2, I1, Q1, Q2, R2, R1, L2, L1, !skipn_skipn.
  rewrite <- app_assoc, uint16_add_l, Nat2Z.inj_add, Z.add_assoc.
  rewrite (Nat.add_comm (length (sent_frames e2))), (Nat.add_comm i2).
  rewrite L1 in N2. unfold kMaxPendingLoops in *.
  repeat split; auto; lia.
Qed.

(** Steps that send nothing and leave the endpoints alone. *)
Lemma transacts_quiet s s' (evs : list Event) :
  0 <= requestId_ (device_ s) < 65536 ->
  trace s' = trace s ++ evs -> sent_frames evs = [] ->
  w_out (world s') = w_out (world s) -> w_in (world s') = w_in (world s) ->
  requestId_ (device_ s') = requestId_ (device_ s) ->
  w_latency (world s') = w_latency (world s) ->
  w_now (world s) <= w_now (world s') ->
  transacts s s'.
Proof.
  intros Hr T F O I R L N. exists 0%nat, evs.
  rewrite F, T, O, I, R, L. cbn. rewrite Z.add_0_r, uint16_small by lia.
  repeat split; auto; lia.
Qed.

Lemma transacts_refl s : 0 <= requestId_ (device_ s) < 65536 -> transacts s s.
Proof.
  intros. apply transacts_quiet with (evs := []); auto; try lia.
  rewrite app_nil_r; reflexivity.
Qed.

Lemma total_sleeps_nonneg l : Forall (fun ms => 1 <= ms) l -> 0 <= total l.
Proof. unfold total. induction 1; cbn; lia. Qed.

Lemma one_transaction_transacts s s' :
  well_typed s -> one_transaction s s' ->
  well_typed s' /\ transacts s s' /\ claimed_ (device_ s') = claimed_ (device_ s).
Proof.
  intros (Hr & Hc) (outs & ins & evs & Ho & Hi & Hz & O & I & T & F & Ls & Pos
                    & Ids & La & No & Te & Cl & Ha & R).
  pose proof (total_sleeps_nonneg _ Pos) as Hs.
  split.
  - split; [|rewrite Te; exact Hc].
    rewrite R. destruct (outs =? 0)%nat; [exact Hr | apply uint16_range].
  - split; [|exact Cl].
    exists ins, evs. rewrite T, O, I, La, No. unfold kMaxPendingLoops in *.
    destruct outs as [|[|]]; try lia.
    + cbn [Nat.eqb] in R. rewrite R.
      destruct (sent_frames evs); [|discriminate].
      cbn. rewrite Z.add_0_r, uint16_small by lia. repeat split; auto; try lia.
    + cbn [Nat.eqb] in R. rewrite R.
      destruct (sent_frames evs) as [|f [|]]; try discriminate.
      inversion Ids as [|? ? Hf _]; subst.
      cbn -[Z.add Z.mul Z.of_nat]. rewrite Hf, R, Z.add_0_r.
      repeat split; auto; try lia.
Qed.

(** ** What every operation keeps *)

Lemma runs_ret {A} (P : A -> Prop) (a : A) : P a -> runs P (ret a).
Proof.
  intros Ha s (Hr & Hc). cbn. split; [split; auto|].
  split; [apply transacts_refl; exact Hr|].
  intros a' s' E. unfold ret in E. inversion E; subst. exact Ha.
Qed.

Lemma runs_bind {A B} (P : A -> Prop) (Q : B -> Prop) (m : M A) (k : A -> M B) :
  runs P m -> (forall a, P a -> runs Q (k a)) -> runs Q (bind m k).
Proof.
  intros Hm Hk s H. destruct (Hm s H) as (W1 & T1 & P1). unfold bind.
  destruct (m s) as [a s1|s1|s1]; cbn in *;
    try (split; [exact W1|]; split; [exact T1|]; intros; discriminate).
  destruct (Hk a (P1 a s1 eq_refl) s1 W1) as (W2 & T2 & P2).
  split; [exact W2|]. split; [eapply transacts_trans; eauto | exact P2].
Qed.

Lemma keeps_runs {A} (P : A -> Prop) (m : M A) : keeps P m -> runs P m.
Proof. intros H s Hs. apply (H s Hs). Qed.

Lemma keeps_ret {A} (P : A -> Prop) (a : A) : P a -> keeps P (ret a).
Proof.
  intros Ha s Hs. split; [apply runs_ret; assumption | reflexivity].
Qed.

Lemma keeps_bind {A B} (P : A -> Prop) (Q : B -> Prop) (m : M A) (k : A -> M B) :
  keeps P m -> (forall a, P a -> keeps Q (k a)) -> keeps Q (bind m k).
Proof.
  intros Hm Hk s H. split.
  - apply (runs_bind P); [apply keeps_runs; exact Hm | | exact H].
    intros a Ha. apply keeps_runs, Hk, Ha.
  - destruct (Hm s H) as ((W1 & T1 & P1) & C1). unfold bind.
    destruct (m s) as [a s1|s1|s1]; cbn in *; try exact C1.
    destruct (Hk a (P1 a s1 eq_refl) s1 W1) as (_ & C2). congruence.
Qed.

Lemma keeps_weaken {A} (P Q : A -> Prop) (m : M A) :
  keeps P m -> (forall a, P a -> Q a) -> keeps Q m.
Proof.
  intros Hm H s Hs. destruct (Hm s Hs) as ((W1 & T1 & P1) & C1).
  split; [|exact C1].
  split; [exact W1|]. split; [exact T1|]. intros a s' E. eauto.
Qed.

Lemma keeps_any {A} (P : A -> Prop) (m : M A) : keeps P m -> keeps any m.
Proof. intros H. apply (keeps_weaken P); [exact H|]. intros; exact I. Qed.

Lemma keeps_undefined {A} (P : A -> Prop) : keeps P (@undefined A).
Proof.
  intros s (Hr & Hc). cbn. split; [|reflexivity]. split; [split; auto|].
  split; [apply transacts_refl; exact Hr|]. intros; discriminate.
Qed.

Lemma keeps_out_of_fuel {A} (P : A -> Prop) : keeps P (@out_of_fuel A).
Proof.
  intros s (Hr & Hc). cbn. split; [|reflexivity]. split; [split; auto|].
  split; [apply transacts_refl; exact Hr|]. intros; discriminate.
Qed.

(** A step that returns [a] and changes neither the device object, nor the
    chunk hint, nor the endpoints, and logs no frame. *)
Lemma keeps_quiet {A} (P : A -> Prop) (m : M A) :
  (forall s, exists a s' evs,
      m s = Done a s' /\ P a /\
      trace s' = trace s ++ evs /\ sent_frames evs = [] /\
      w_out (world s') = w_out (world s) /\ w_in (world s') = w_in (world s) /\
      device_ s' = device_ s /\
      chunkHint_ (terminal s') = chunkHint_ (terminal s) /\
      w_latency (world s') = w_latency (world s) /\
      w_now (world s) <= w_now (world s')) ->
  keeps P m.
Proof.
  intros H s (Hr & Hc).
  destruct (H s) as (a & s' & evs & E & Pa & T & F & O & I & D & C & L & N).
  rewrite E. cbn. split; [|rewrite D; reflexivity].
  split; [split; [rewrite D; exact Hr | rewrite C; exact Hc]|].
  split.
  - eapply transacts_quiet; eauto; rewrite D; reflexivity.
  - intros a' s'' E'. inversion E'; subst. exact Pa.
Qed.

Ltac quiet evs :=
  apply keeps_quiet; intros s; do 2 eexists; exists evs;
  (split; [reflexivity|]); cbn; rewrite ?app_nil_r;
  repeat split; auto; try lia.

Lemma keeps_get {A} (f : State -> A) : keeps any (get f).
Proof. quiet (@nil Event). Qed.

Lemma keeps_emit e :
  (forall f, e <> BulkOut f) -> keeps any (emit e).
Proof.
  intros He. quiet [e]. destruct e; try reflexivity. destruct (He _ eq_refl).
Qed.

Lemma keeps_cerr d : keeps any (cerr d).
Proof. apply keeps_emit. discriminate. Qed.

Lemma keeps_cout o : keeps any (cout o).
Proof. apply keeps_emit. discriminate. Qed.

Lemma keeps_now : keeps any now.
Proof. apply keeps_get. Qed.

Lemma keeps_elapse ms : 0 <= ms -> keeps any (elapse ms).
Proof. intros. quiet (@nil Event). Qed.

Lemma keeps_sleep_for ms : 0 <= ms -> keeps any (sleep_for ms).
Proof. intros. quiet [Sleep ms]. Qed.

Lemma keeps_set_version v : keeps any (set_version v).
Proof. quiet (@nil Event). Qed.

Lemma keeps_set_initialized b : keeps any (set_initialized b).
Proof. quiet (@nil Event). Qed.

Lemma keeps_setPassword pw : keeps any (setPassword pw).
Proof. quiet (@nil Event). Qed.

Lemma keeps_setEchoEnabled b : keeps any (setEchoEnabled b).
Proof. quiet (@nil Event). Qed.

Lemma keeps_getVersion : keeps any getVersion.
Proof. apply keeps_get. Qed.

Lemma keeps_set_chunkHint v : 0 <= v -> keeps any (set_chunkHint v).
Proof.
  intros Hv s (Hr & Hc). cbn. split; [|reflexivity]. split; [split; auto|].
  split; [|intros; exact I].
  apply transacts_quiet with (evs := []); auto; try lia;
    cbn; rewrite ?app_nil_r; try reflexivity; try lia.
Qed.

(** The chunk hint, as the code reads it. *)
Lemma keeps_bind_chunkHint {B} (Q : B -> Prop) (k : Z -> M B) :
  (forall hint, 0 <= hint -> keeps Q (k hint)) ->
  keeps Q (bind (get (fun s => chunkHint_ (terminal s))) k).
Proof.
  intros H s Hs. unfold bind, get. apply H; [apply Hs | exact Hs].
Qed.

Lemma keeps_getline : keeps any getline.
Proof.
  apply keeps_quiet; intros s. unfold getline.
  destruct (w_stdin_lines (world s)); do 2 eexists; exists (@nil Event);
    (split; [reflexivity|]); cbn; rewrite ?app_nil_r;
    repeat split; auto; try lia.
Qed.

Lemma keeps_select_read : keeps any select_read.
Proof.
  apply keeps_quiet; intros s. unfold select_read.
  destruct (w_stdin_polls (world s)) as [|[d|] rest]; do 2 eexists;
    exists (@nil Event); (split; [reflexivity|]); cbn; rewrite ?app_nil_r;
    repeat split; auto; try lia.
Qed.

Lemma keeps_ifstream_open p : keeps any (ifstream_open p).
Proof. apply keeps_get. Qed.

Lemma keeps_ofstream_open p : keeps any (ofstream_open p).
Proof.
  apply keeps_quiet; intros s. unfold ofstream_open. cbv zeta.
  destruct (existsb _ _); do 2 eexists; exists (@nil Event);
    (split; [reflexivity|]); cbn; rewrite ?app_nil_r;
    repeat split; auto; try lia.
Qed.

Lemma keeps_ofstream_write p d : keeps any (ofstream_write p d).
Proof.
  apply keeps_quiet; intros s. unfold ofstream_write. cbv zeta.
  destruct (_ >? _); do 2 eexists; exists (@nil Event);
    (split; [reflexivity|]); cbn; rewrite ?app_nil_r;
    repeat split; auto; try lia.
Qed.

Lemma keeps_setStdinRaw : keeps any setStdinRaw.
Proof.
  apply keeps_quiet; intros s. unfold setStdinRaw, bind, get.
  destruct (w_tty_ok (world s)); do 2 eexists;
    [exists [TtyRaw] | exists [Cerr TtyFailed]];
    (split; [reflexivity|]); cbn; repeat split; auto; try lia.
Qed.

Lemma keeps_restoreStdin : keeps any restoreStdin.
Proof. apply keeps_emit. discriminate. Qed.

Lemma keeps_readMemory address bytes : keeps any (readMemory address bytes).
Proof.
  intros s Hs. destruct (readMemory_cost address bytes s) as (H & _).
  destruct (one_transaction_transacts _ _ Hs H) as (W & T & C).
  split; [|exact C]. split; [assumption|]. split; [assumption | intros; exact I].
Qed.

Lemma keeps_writeMemory address data bytes :
  bytes <= Z.of_nat (length data) -> keeps any (writeMemory address data bytes).
Proof.
  intros Hb s Hs. destruct (writeMemory_cost address data bytes s Hb) as (H & _).
  destruct (one_transaction_transacts _ _ Hs H) as (W & T & C).
  split; [|exact C]. split; [assumption|]. split; [assumption | intros; exact I].
Qed.

Lemma keeps_write_all address data :
  keeps any (writeMemory address data (uint16 (Z.of_nat (length data)))).
Proof. apply keeps_writeMemory, uint16_le. lia. Qed.

Create HintDb keeps.
#[export] Hint Resolve keeps_get keeps_cerr keeps_cout keeps_now keeps_undefined
  keeps_out_of_fuel keeps_set_version keeps_set_initialized keeps_setPassword
  keeps_setEchoEnabled keeps_getVersion keeps_getline keeps_select_read
  keeps_ifstream_open keeps_ofstream_open keeps_ofstream_write keeps_setStdinRaw
  keeps_restoreStdin keeps_readMemory keeps_write_all : keeps.
#[export] Hint Extern 1 (keeps _ (sleep_for _)) =>
  apply keeps_sleep_for; lia : keeps.
#[export] Hint Extern 1 (any _) => exact I : keeps.

(** Walks through a computation written with [bind], [if] and [match]. *)
Ltac keeps_walk :=
  repeat first
    [ progress cbv zeta
    | apply keeps_ret; solve [ exact I | eauto with keeps ]
    | solve [ eauto with keeps ]
    | solve [ eapply keeps_any; eauto with keeps ]
    | match goal with
      | |- keeps _ (bind (get (fun s => chunkHint_ (terminal s))) _) =>
          apply keeps_bind_chunkHint; intros
      | |- keeps _ (if ?c then _ else _) => destruct c eqn:?
      | |- keeps _ (match ?x with _ => _ end) => destruct x eqn:?
      | |- keeps _ (bind _ _) =>
          eapply keeps_bind; [ solve [ eauto with keeps ] | intros ]
      | |- keeps _ (bind _ _) => eapply (keeps_bind any); [ | intros ]
      end ].

Lemma words_of_nonneg raw n i : 0 <= nth i (words_of raw n) 0.
Proof.
  unfold words_of.
  destruct (Nat.lt_ge_cases i (length (seq 0 (Z.to_nat n)))) as [Hi|Hi].
  - rewrite (nth_indep _ 0 (unle (firstn 4 (skipn (0 * 4) raw))))
      by (rewrite length_map; exact Hi).
    rewrite (map_nth (fun i => unle (firstn 4 (skipn (i * 4) raw)))).
    apply unle_nonneg.
  - rewrite nth_overflow by (rewrite length_map; exact Hi). lia.
Qed.

Lemma keeps_readRegisters address registerCount :
  keeps register_values (readRegisters address registerCount).
Proof.
  unfold readRegisters. destruct (registerCount =? 0).
  - apply keeps_ret. intros vals i E. inversion E. destruct i; cbn; lia.
  - cbv zeta. eapply keeps_bind; [apply keeps_readMemory|]. intros [raw|] _.
    + destruct (_ <? _); [apply keeps_undefined|].
      apply keeps_ret. intros vals i E. inversion E. apply words_of_nonneg.
    + apply keeps_ret. intros vals i E. discriminate.
Qed.

Lemma keeps_readRegister addr : keeps register_value (readRegister addr).
Proof.
  unfold readRegister. eapply keeps_bind; [apply keeps_readRegisters|].
  intros [vals|] Hv; apply keeps_ret; intros v E; inversion E.
  apply (Hv vals 0%nat eq_refl).
Qed.

Lemma keeps_readRegisterOr addr fallback :
  0 <= fallback -> keeps (fun v => 0 <= v) (readRegisterOr addr fallback).
Proof.
  intros Hf. unfold readRegisterOr. eapply keeps_bind; [apply keeps_readRegister|].
  intros [v|] Hv; apply keeps_ret; [apply Hv; reflexivity | exact Hf].
Qed.

Lemma keeps_writeRegisters address values :
  keeps any (writeRegisters address values).
Proof. unfold writeRegisters. destruct values; keeps_walk. Qed.

Lemma keeps_U3VDevice_writeRegister address value :
  keeps any (U3VDevice_writeRegister address value).
Proof. apply keeps_writeRegisters. Qed.

Lemma keeps_writeRegister address value : keeps any (writeRegister address value).
Proof. apply keeps_writeRegisters. Qed.

#[export] Hint Resolve keeps_readRegisters keeps_readRegister
  keeps_writeRegisters keeps_U3VDevice_writeRegister keeps_writeRegister : keeps.

#[export] Hint Extern 1 (keeps _ (readRegisterOr _ _)) =>
  apply keeps_readRegisterOr; assumption : keeps.
#[export] Hint Extern 1 (keeps _ (set_chunkHint _)) =>
  apply keeps_set_chunkHint; first [ assumption | lia ] : keeps.

Lemma keeps_initialize : keeps any initialize.
Proof. unfold initialize. keeps_walk. Qed.

Lemma keeps_ensureAuth : keeps any ensureAuth.
Proof. unfold ensureAuth. keeps_walk. Qed.

#[export] Hint Resolve keeps_initialize keeps_ensureAuth : keeps.

Lemma keeps_ensureSession_poll fuel : forall deadline,
  keeps any (ensureSession_poll fuel deadline).
Proof. induction fuel; intros; cbn [ensureSession_poll]; keeps_walk. Qed.

#[export] Hint Resolve keeps_ensureSession_poll : keeps.

Lemma keeps_ensureSession fuel : keeps any (ensureSession fuel).
Proof. unfold ensureSession. keeps_walk. Qed.

#[export] Hint Resolve keeps_ensureSession : keeps.

Lemma keeps_reset fuel : keeps any (reset fuel).
Proof. unfold reset. keeps_walk. Qed.

Lemma keeps_lock : keeps any lock.
Proof. unfold lock. keeps_walk. Qed.

Lemma keeps_sendCommand_loop fuel payload : forall offset,
  0 <= offset -> keeps any (sendCommand_loop fuel payload offset).
Proof.
  induction fuel as [|fuel IH]; intros offset Ho; cbn [sendCommand_loop];
    keeps_walk.
  - apply keeps_writeMemory. rewrite length_skipn.
    etransitivity; [apply uint16_le; lia|]. lia.
  - apply IH. lia.
Qed.

Lemma keeps_sendCommand fuel command : keeps any (sendCommand fuel command).
Proof.
  unfold sendCommand. keeps_walk; apply keeps_sendCommand_loop; lia.
Qed.

Lemma keeps_drainOutput_loop fuel :
  forall out lastData deadline idleTimeout warnedOverflow,
    keeps any (drainOutput_loop fuel out lastData deadline idleTimeout
                                warnedOverflow).
Proof. induction fuel; intros; cbn [drainOutput_loop]; keeps_walk. Qed.

#[export] Hint Resolve keeps_reset keeps_lock keeps_sendCommand
  keeps_drainOutput_loop : keeps.

Lemma keeps_drainOutput fuel out idleTimeout maxWait :
  keeps any (drainOutput fuel out idleTimeout maxWait).
Proof. unfold drainOutput. keeps_walk. Qed.

Lemma keeps_print_output output : keeps any (print_output output).
Proof. unfold print_output. keeps_walk. Qed.

#[export] Hint Resolve keeps_drainOutput keeps_print_output : keeps.

Lemma keeps_sendFileCommand cmd : keeps any (sendFileCommand cmd).
Proof. apply keeps_writeRegister. Qed.

Lemma keeps_readFileStatus : keeps register_value readFileStatus.
Proof. apply keeps_readRegister. Qed.

Lemma keeps_readFileDataAvail : keeps register_value readFileDataAvail.
Proof. apply keeps_readRegister. Qed.

Lemma keeps_readFileResult : keeps any readFileResult.
Proof. unfold readFileResult. keeps_walk. Qed.

Lemma keeps_readFileSize : keeps any readFileSize.
Proof. unfold readFileSize. keeps_walk. Qed.

#[export] Hint Resolve keeps_sendFileCommand keeps_readFileStatus
  keeps_readFileDataAvail keeps_readFileResult keeps_readFileSize : keeps.

Lemma keeps_checkFileError context : keeps any (checkFileError context).
Proof. unfold checkFileError. keeps_walk. Qed.

#[export] Hint Resolve keeps_checkFileError : keeps.

Lemma keeps_closeFileChannel : keeps any closeFileChannel.
Proof. unfold closeFileChannel. keeps_walk. Qed.

Lemma keeps_prepareFilePath remotePath : keeps any (prepareFilePath remotePath).
Proof. unfold prepareFilePath. keeps_walk. Qed.

Lemma keeps_waitForFileOpen_loop fuel : forall modeBit deadline,
  keeps any (waitForFileOpen_loop fuel modeBit deadline).
Proof. induction fuel; intros; cbn [waitForFileOpen_loop]; keeps_walk. Qed.

#[export] Hint Resolve keeps_closeFileChannel keeps_prepareFilePath
  keeps_waitForFileOpen_loop : keeps.

Lemma keeps_waitForFileOpen fuel modeBit timeout :
  keeps any (waitForFileOpen fuel modeBit timeout).
Proof. unfold waitForFileOpen. keeps_walk. Qed.

Lemma keeps_download_loop fuel :
  forall localPath remoteSize bytesReceived printed,
    keeps any (download_loop fuel localPath remoteSize bytesReceived printed).
Proof. induction fuel; intros; cbn [download_loop]; keeps_walk. Qed.

Lemma length_overwrite buffer d : (length d <= length (overwrite buffer d))%nat.
Proof. unfold overwrite. rewrite length_app. lia. Qed.

Lemma keeps_upload_loop fuel :
  forall rest buffer totalBytes bytesSent printed,
    keeps any (upload_loop fuel rest buffer totalBytes bytesSent printed).
Proof.
  induction fuel; intros; cbn [upload_loop]; keeps_walk.
  apply keeps_writeMemory.
  pose proof (length_overwrite buffer (firstn (Z.to_nat kTerminalFileDataWindow) rest)).
  etransitivity; [apply uint16_le; lia|]. lia.
Qed.

#[export] Hint Resolve keeps_waitForFileOpen keeps_download_loop
  keeps_upload_loop : keeps.

Lemma keeps_performFileDownload fuel remotePath localPath :
  keeps any (performFileDownload fuel remotePath localPath).
Proof. unfold performFileDownload. keeps_walk. Qed.

Lemma keeps_performFileUpload fuel localPath remotePath :
  keeps any (performFileUpload fuel localPath remotePath).
Proof. unfold performFileUpload. keeps_walk. Qed.

#[export] Hint Resolve keeps_performFileDownload keeps_performFileUpload : keeps.

Lemma keeps_handleFileTransferCommand fuel line :
  keeps any (handleFileTransferCommand fuel line).
Proof. unfold handleFileTransferCommand. keeps_walk. Qed.

#[export] Hint Resolve keeps_handleFileTransferCommand : keeps.

Lemma keeps_runOnce fuel command : keeps any (runOnce fuel command).
Proof. unfold runOnce. keeps_walk. Qed.

Lemma keeps_interactiveLoopV1_loop budget fuel :
  keeps any (interactiveLoopV1_loop budget fuel).
Proof. induction fuel; cbn [interactiveLoopV1_loop]; keeps_walk. Qed.

Lemma keeps_interactive_prologue fuel : keeps any (interactive_prologue fuel).
Proof. unfold interactive_prologue. keeps_walk. Qed.

#[export] Hint Resolve keeps_runOnce keeps_interactiveLoopV1_loop
  keeps_interactive_prologue : keeps.

Lemma keeps_interactiveLoopV1 fuel : keeps any (interactiveLoopV1 fuel).
Proof. unfold interactiveLoopV1. keeps_walk. Qed.

Lemma keeps_interactiveLoopV2_byte fuel ch st :
  keeps any (interactiveLoopV2_byte fuel ch st).
Proof. unfold interactiveLoopV2_byte. keeps_walk. Qed.

#[export] Hint Resolve keeps_interactiveLoopV2_byte : keeps.

Lemma keeps_interactiveLoopV2_bytes fuel inBuf : forall st,
  keeps any (interactiveLoopV2_bytes fuel inBuf st).
Proof. induction inBuf; intros; cbn [interactiveLoopV2_bytes]; keeps_walk. Qed.

#[export] Hint Resolve keeps_interactiveLoopV2_bytes : keeps.

Lemma keeps_interactiveLoopV2_input fuel inBuf line :
  keeps any (interactiveLoopV2_input fuel inBuf line).
Proof. unfold interactiveLoopV2_input. keeps_walk. Qed.

#[export] Hint Resolve keeps_interactiveLoopV2_input : keeps.

Lemma keeps_interactiveLoopV2_loop budget fuel : forall lastPoll line,
  keeps any (interactiveLoopV2_loop budget fuel lastPoll line).
Proof. induction fuel; intros; cbn [interactiveLoopV2_loop]; keeps_walk. Qed.

#[export] Hint Resolve keeps_interactiveLoopV2_loop : keeps.

Lemma keeps_interactiveLoopV2 fuel : keeps any (interactiveLoopV2 fuel).
Proof. unfold interactiveLoopV2. keeps_walk. Qed.

#[export] Hint Resolve keeps_interactiveLoopV1 keeps_interactiveLoopV2 : keeps.

(** ** A whole run of [main] *)

Lemma runs_quiet {A} (P : A -> Prop) (m : M A) :
  (forall s, exists a s' evs,
      m s = Done a s' /\ P a /\
      trace s' = trace s ++ evs /\ sent_frames evs = [] /\
      w_out (world s') = w_out (world s) /\ w_in (world s') = w_in (world s) /\
      requestId_ (device_ s') = requestId_ (device_ s) /\
      chunkHint_ (terminal s') = chunkHint_ (terminal s) /\
      w_latency (world s') = w_latency (world s) /\
      w_now (world s) <= w_now (world s')) ->
  runs P m.
Proof.
  intros H s (Hr & Hc).
  destruct (H s) as (a & s' & evs & E & Pa & T & F & O & I & D & C & L & N).
  rewrite E. cbn.
  split; [split; [rewrite D; exact Hr | rewrite C; exact Hc]|].
  split.
  - eapply transacts_quiet; eauto.
  - intros a' s'' E'. inversion E'; subst. exact Pa.
Qed.

Lemma runs_open : runs any open.
Proof.
  apply runs_quiet; intros s. unfold open, bind, get.
  destruct (w_open_ok (world s)); do 2 eexists; exists (@nil Event);
    (split; [reflexivity|]); cbn; rewrite ?app_nil_r;
    repeat split; auto; try lia.
Qed.

Lemma runs_findU3VControlInterface : runs any findU3VControlInterface.
Proof.
  apply runs_quiet; intros s. unfold findU3VControlInterface, bind, get.
  destruct (negb (handle_ (device_ s))); do 2 eexists; exists (@nil Event);
    (split; [reflexivity|]); cbn; rewrite ?app_nil_r;
    repeat split; auto; try lia.
Qed.

Lemma runs_claimInterface : runs any claimInterface.
Proof.
  apply runs_quiet; intros s. unfold claimInterface, bind, get.
  destruct (negb (handle_ (device_ s))); [|destruct (w_claim_ok (world s))];
    do 2 eexists; exists (@nil Event);
    (split; [reflexivity|]); cbn; rewrite ?app_nil_r;
    repeat split; auto; try lia.
Qed.

Lemma runs_shutdown : runs any shutdown.
Proof.
  apply runs_quiet; intros s. unfold shutdown, bind, get.
  destruct (handle_ (device_ s)); do 2 eexists;
    [exists [Shutdown] | exists (@nil Event)];
    (split; [reflexivity|]); cbn; rewrite ?app_nil_r;
    repeat split; auto; try lia.
Qed.

#[export] Hint Resolve runs_open runs_findU3VControlInterface runs_claimInterface
  runs_shutdown : keeps.
#[export] Hint Resolve keeps_runs | 10 : keeps.

Ltac runs_walk :=
  repeat first
    [ progress cbv zeta
    | apply runs_ret; solve [ exact I | eauto with keeps ]
    | solve [ eauto with keeps ]
    | solve [ eapply keeps_runs, keeps_any; eauto with keeps ]
    | match goal with
      | |- runs _ (if ?c then _ else _) => destruct c eqn:?
      | |- runs _ (match ?x with _ => _ end) => destruct x eqn:?
      | |- runs _ (bind _ _) => eapply (runs_bind any); [ | intros ]
      end ].

Lemma runs_main_body fuel o : runs any (main_body fuel o).
Proof. unfold main_body. runs_walk. Qed.

Lemma runs_main fuel o : runs any (main fuel o).
Proof.
  unfold main. eapply (runs_bind any); [apply runs_main_body|]. intros.
  runs_walk.
Qed.

Lemma well_typed_initial_state w : well_typed (initial_state w).
Proof. cbn. unfold well_typed. cbn. lia. Qed.

(** ** The frame of a transaction *)

Lemma transaction_frames s0 frame a s1 s2 :
  bulkSend frame s0 = Done a s1 ->
  s2 = s1 \/ receive_steps kMaxPendingLoops s1 s2 ->
  exists evs, trace s2 = trace s0 ++ BulkOut frame :: evs /\ sent_frames evs = [] /\
              terminal s2 = terminal s0.
Proof.
  intros Hsend Hrest.
  destruct (bulkSend_effect frame s0)
    as (ok & s1' & evs1 & E & I & O & T & F & Sl & La & No & Te & D).
  rewrite Hsend in E. injection E as <- <-.
  destruct Hrest as [->|(ins & evs2 & Hi & I2 & O2 & T2 & F2 & L2 & L3 & A2
                          & La2 & No2 & Te2 & D2)].
  - exists evs1. auto.
  - exists (evs1 ++ evs2). rewrite T2, T, <- app_assoc, sent_frames_app, F, F2, Te2.
    auto.
Qed.

Lemma events_of_app {A} (m : M A) s evs :
  trace (state_of (m s)) = trace s ++ evs -> events_of m s = evs.
Proof.
  intros T. unfold events_of. rewrite T, skipn_app, skipn_all, Nat.sub_diag.
  reflexivity.
Qed.

(** What [writeMemory] sends: nothing on an unclaimed interface or for no
    bytes, otherwise one WRITE_MEMORY_CMD frame with the next request id. *)
Lemma writeMemory_frames address data bytes s :
  bytes <= Z.of_nat (length data) ->
  let id := uint16 (requestId_ (device_ s) + 1) in
  terminal (state_of (writeMemory address data bytes s)) = terminal s /\
  ((sent_by (writeMemory address data bytes) s = [] /\
    (claimed_ (device_ s) = false \/ bytes = 0)) \/
   (sent_by (writeMemory address data bytes) s
      = [UVCPWriteMemoryCmd id address data bytes] /\
    claimed_ (device_ s) = true /\ bytes <> 0)).
Proof.
  intros Hfit id. unfold sent_by.
  assert (H : exists evs,
             trace (state_of (writeMemory address data bytes s)) = trace s ++ evs /\
             terminal (state_of (writeMemory address data bytes s)) = terminal s /\
             ((sent_frames evs = [] /\ (claimed_ (device_ s) = false \/ bytes = 0)) \/
              (sent_frames evs = [UVCPWriteMemoryCmd id address data bytes] /\
               claimed_ (device_ s) = true /\ bytes <> 0))).
  { unfold writeMemory.
    rewrite (bind_Done (get _) _ s _ s eq_refl).
    destruct (claimed_ (device_ s)) eqn:Ec; cbn [negb].
    2: { exists [Cerr NotClaimed]. split; [reflexivity|]. split; [reflexivity|].
         left. split; [reflexivity|]. left. reflexivity. }
    destruct (bytes =? 0) eqn:Eb.
    { exists []. cbn. rewrite app_nil_r. split; [reflexivity|]. split; [reflexivity|].
      left. split; [reflexivity|]. right. lia. }
    rewrite (bind_Done nextRequestId _ s id (set_requestId id s) eq_refl).
    destruct (Z.of_nat (length data) <? bytes) eqn:El; [lia|].
    destruct (bulkSend_effect (UVCPWriteMemoryCmd id address data bytes)
                (set_requestId id s)) as (ok & s1 & evs1 & E & _).
    rewrite (bind_Done _ _ _ _ _ E).
    assert (R : state_of ((if negb ok then ret false
                           else writeMemory_loop kMaxPendingLoops id bytes []) s1) = s1
                \/ receive_steps kMaxPendingLoops s1
                     (state_of ((if negb ok then ret false
                           else writeMemory_loop kMaxPendingLoops id bytes []) s1))).
    { destruct ok; cbn [negb]; [right|left; reflexivity].
      apply writeMemory_loop_cost. }
    destruct (transaction_frames _ _ _ _ _ E R) as (evs & T & F & Te).
    exists (BulkOut (UVCPWriteMemoryCmd id address data bytes) :: evs).
    split; [exact T|]. split; [exact Te|]. right.
    rewrite sent_frames_out, F. split; [reflexivity|]. split; [reflexivity|lia]. }
  destruct H as (evs & T & Te & H). rewrite (events_of_app _ _ _ T). auto.
Qed.

Lemma readMemory_frames address bytes s :
  let id := uint16 (requestId_ (device_ s) + 1) in
  terminal (state_of (readMemory address bytes s)) = terminal s /\
  ((sent_by (readMemory address bytes) s = [] /\
    (claimed_ (device_ s) = false \/ bytes = 0)) \/
   (sent_by (readMemory address bytes) s = [UVCPReadMemoryCmd id address bytes] /\
    claimed_ (device_ s) = true /\ bytes <> 0)).
Proof.
  intros id. unfold sent_by.
  assert (H : exists evs,
             trace (state_of (readMemory address bytes s)) = trace s ++ evs /\
             terminal (state_of (readMemory address bytes s)) = terminal s /\
             ((sent_frames evs = [] /\ (claimed_ (device_ s) = false \/ bytes = 0)) \/
              (sent_frames evs = [UVCPReadMemoryCmd id address bytes] /\
               claimed_ (device_ s) = true /\ bytes <> 0))).
  { unfold readMemory.
    rewrite (bind_Done (get _) _ s _ s eq_refl).
    destruct (claimed_ (device_ s)) eqn:Ec; cbn [negb].
    2: { exists [Cerr NotClaimed]. split; [reflexivity|]. split; [reflexivity|].
         left. split; [reflexivity|]. left. reflexivity. }
    destruct (bytes =? 0) eqn:Eb.
    { exists []. cbn. rewrite app_nil_r. split; [reflexivity|]. split; [reflexivity|].
      left. split; [reflexivity|]. right. lia. }
    rewrite (bind_Done nextRequestId _ s id (set_requestId id s) eq_refl).
    destruct (bulkSend_effect (UVCPReadMemoryCmd id address bytes)
                (set_requestId id s)) as (ok & s1 & evs1 & E & _).
    rewrite (bind_Done _ _ _ _ _ E).
    assert (R : state_of ((if negb ok then ret None
                           else readMemory_loop kMaxPendingLoops id bytes []) s1) = s1
                \/ receive_steps kMaxPendingLoops s1
                     (state_of ((if negb ok then ret None
                           else readMemory_loop kMaxPendingLoops id bytes []) s1))).
    { destruct ok; cbn [negb]; [right|left; reflexivity].
      apply readMemory_loop_cost. }
    destruct (transaction_frames _ _ _ _ _ E R) as (evs & T & F & Te).
    exists (BulkOut (UVCPReadMemoryCmd id address bytes) :: evs).
    split; [exact T|]. split; [exact Te|]. right.
    rewrite sent_frames_out, F. split; [reflexivity|]. split; [reflexivity|lia]. }
  destruct H as (evs & T & Te & H). rewrite (events_of_app _ _ _ T). auto.
Qed.

(** ** The size of a write *)

Lemma writeMemory_loop_success left : forall id bytes buffer s s',
  writeMemory_loop left id bytes buffer s = Done true s' ->
  exists received f stale,
    w_in (world s) = received ++ InData f :: w_in (world s') /\
    (length received <= left)%nat /\
    let final := overwrite stale f in
    peek final off_magic 4 = MAGIC /\
    peek final off_id 2 = id /\
    peek final off_command 2 = COMMAND_WRITE_MEMORY_ACK /\
    peek final off_bytes_written 2 = bytes.
Proof.
  induction left as [|left IH]; intros id bytes buffer s s' H;
    cbn [writeMemory_loop] in H;
    destruct (bulkReceive_inv buffer s) as (r & s1 & E & [-> | (d & -> & Hin)]);
    rewrite (bind_Done _ _ _ _ _ E) in H; try discriminate;
    destruct (peek (overwrite buffer d) off_magic 4 =? MAGIC) eqn:Em;
      cbn [negb] in H; try (run_in H; discriminate);
    destruct (peek (overwrite buffer d) off_id 2 =? id) eqn:Ei;
      cbn [negb] in H; try (run_in H; discriminate);
    destruct (peek (overwrite buffer d) off_command 2 =? COMMAND_PENDING_ACK) eqn:Ep.
  1: run_in H; discriminate.
  2: { (* one more pending frame *)
    destruct (sleep_for_run
                (if peek (overwrite buffer d) off_timeout_ms 2 =? 0 then 1
                 else peek (overwrite buffer d) off_timeout_ms 2) s1)
      as (s2 & E2 & T2 & I2 & _).
    rewrite (bind_Done _ _ _ _ _ E2) in H.
    destruct (IH _ _ _ _ _ H) as (received & f & stale & Hin2 & Hlen & Hfinal).
    exists (InData d :: received), f, stale. split.
    - rewrite Hin, <- I2, Hin2. reflexivity.
    - split; [cbn [length]; lia | exact Hfinal]. }
  all: destruct (peek (overwrite buffer d) off_command 2 =? COMMAND_WRITE_MEMORY_ACK) eqn:Ec;
      cbn [negb] in H; try (run_in H; discriminate);
    destruct (peek (overwrite buffer d) off_bytes_written 2 =? bytes) eqn:Es;
      cbn [negb] in H; try (run_in H; discriminate);
    unfold ret in H; inversion H; subst;
    exists [], d, buffer; (split; [exact Hin|]); (split; [cbn; lia|]);
    cbv zeta; repeat split; lia.
Qed.

Lemma writeMemory_loop_size_mismatch left id bytes buffer f rest s :
  w_in (world s) = InData f :: rest ->
  header_ok id COMMAND_WRITE_MEMORY_ACK f -> (16 <= length f)%nat ->
  peek f off_bytes_written 2 <> bytes ->
  exists s1,
    writeMemory_loop left id bytes buffer s = Done false s1 /\
    trace s1 = trace s
                 ++ [Cerr (WriteSizeMismatch (peek f off_bytes_written 2) bytes)] /\
    w_in (world s1) = rest.
Proof.
  intros Hin Hh H16 Hsz.
  destruct (header_peeks id _ buffer f Hh) as (Pm & Pi & Pc & Ps).
  destruct Hh as (Hlen & Hmax & _).
  destruct (bulkReceive_data buffer f rest s Hin) as (s1 & E & T1 & I1 & O1 & D1 & C1);
    [offsets; lia | exact Hmax |].
  destruct (cerr_run (WriteSizeMismatch (peek f off_bytes_written 2) bytes) s1)
    as (s2 & E2 & T2 & I2 & _).
  exists s2. split; [|rewrite T2, T1, I2, I1; auto].
  destruct left; cbn [writeMemory_loop]; rewrite (bind_Done _ _ _ _ _ E);
    rewrite Pm, Pi, Pc, !Z.eqb_refl; cbn [negb];
    change (COMMAND_WRITE_MEMORY_ACK =? COMMAND_PENDING_ACK) with false; cbv iota;
    rewrite (peek_overwrite buffer f off_bytes_written 2) by (offsets; lia);
    (destruct (peek f off_bytes_written 2 =? bytes) eqn:G; [lia|]); cbn [negb];
    rewrite (bind_Done _ _ _ _ _ E2); reflexivity.
Qed.

(** X3.  A [writeMemory] of [bytes > 0] bytes that succeeds has sent one frame
    and found, in its receive buffer, a WRITE_MEMORY_ACK with its own
    request id whose [bytes_written] field is [bytes].  A WRITE_MEMORY_ACK
    (right magic and id) that reports another count fails the write with
    "Write bytes mismatch", also when the device wrote more. *)
Theorem write_size_contract :
  forall (s : State) (address bytes : Z) (data : bstring),
    0 < bytes ->
    (forall s',
       writeMemory address data bytes s = Done true s' ->
       let id := uint16 (requestId_ (device_ s) + 1) in
       exists received f stale,
         w_in (world s) = received ++ InData f :: w_in (world s') /\
         (length received <= kMaxPendingLoops)%nat /\
         let final := overwrite stale f in
         peek final off_magic 4 = MAGIC /\
         peek final off_id 2 = id /\
         peek final off_command 2 = COMMAND_WRITE_MEMORY_ACK /\
         peek final off_bytes_written 2 = bytes) /\
    (forall pend last rest,
       claimed_ (device_ s) = true ->
       hd false (w_out (world s)) = true ->
       bytes <= Z.of_nat (length data) ->
       let id := uint16 (requestId_ (device_ s) + 1) in
       Forall (is_pending id) pend -> (length pend <= 5)%nat ->
       w_in (world s) = map InData pend ++ InData last :: rest ->
       header_ok id COMMAND_WRITE_MEMORY_ACK last -> (16 <= length last)%nat ->
       peek last off_bytes_written 2 <> bytes ->
       exists s',
         writeMemory address data bytes s = Done false s' /\
         trace s' = trace s ++ BulkOut (UVCPWriteMemoryCmd id address data bytes)
                            :: map pending_sleep pend
                            ++ [Cerr (WriteSizeMismatch
                                        (peek last off_bytes_written 2) bytes)]).
Proof.
  intros s address bytes data Hb. split.
  - intros s' H. cbv zeta.
    unfold writeMemory in H. unfold bind at 1 in H. unfold get in H.
    destruct (claimed_ (device_ s)); cbn [negb] in H; [|run_in H; discriminate].
    destruct (bytes =? 0) eqn:Eb; [lia|].
    unfold bind at 1 in H. unfold nextRequestId in H.
    set (id := uint16 (requestId_ (device_ s) + 1)) in *.
    destruct (Z.of_nat (length data) <? bytes); [discriminate|].
    destruct (bulkSend_inv (UVCPWriteMemoryCmd id address data bytes)
                (set_requestId id s)) as (ok & s1 & E & I).
    rewrite (bind_Done _ _ _ _ _ E) in H.
    destruct ok; cbn [negb] in H; [|discriminate].
    apply writeMemory_loop_success in H.
    rewrite I in H. exact H.
  - intros pend last rest Hc Ho Hd id HF Hlen Hin Hh H16 Hsz.
    destruct (writeMemory_start address data bytes s Hc ltac:(lia) Hd Ho)
      as (w0 & Ew & Tw & Iw & _).
    fold id in Ew, Tw. rewrite Hin in Iw.
    destruct (writeMemory_loop_pendings pend kMaxPendingLoops id bytes [] _ w0
                HF Hlen Iw) as (w1 & wb & Ew1 & Tw1 & Iw1 & _).
    destruct (writeMemory_loop_size_mismatch (kMaxPendingLoops - length pend) id
                bytes wb last rest w1 Iw1 Hh H16 Hsz) as (w2 & Ew2 & Tw2 & _).
    exists w2. rewrite Ew, Ew1, Ew2, Tw2, Tw1, Tw, <- !app_assoc. auto.
Qed.

Lemma write_size_contract_witness :
  (exists s',
     writeMemory kTerminalDataAddr (B "ls") 2 slow_write_state = Done true s' /\
     exists received f stale,
       w_in (world slow_write_state) = received ++ InData f :: w_in (world s') /\
       (length received <= kMaxPendingLoops)%nat /\
       peek (overwrite stale f) off_magic 4 = MAGIC /\
       peek (overwrite stale f) off_id 2 = 1 /\
       peek (overwrite stale f) off_command 2 = COMMAND_WRITE_MEMORY_ACK /\
       peek (overwrite stale f) off_bytes_written 2 = 2) /\
  (exists s',
     writeMemory kTerminalDataAddr (B "pwd") 3 slow_write_state = Done false s' /\
     trace s' = BulkOut (UVCPWriteMemoryCmd 1 kTerminalDataAddr (B "pwd") 3)
                  :: [Sleep 1; Sleep 3; Sleep 1; Sleep 7; Sleep 1;
                      Cerr (WriteSizeMismatch 2 3)]).
Proof.
  split.
  - eexists. split; [vm_compute; reflexivity|].
    eapply (write_size_contract slow_write_state kTerminalDataAddr 2 (B "ls"));
      [lia|].
    vm_compute. reflexivity.
  - destruct (write_size_contract slow_write_state kTerminalDataAddr 3 (B "pwd"))
      as (_ & R); [lia|].
    apply (R five_pending (UVCPWriteMemoryAck 1 2) []); concrete_frames.
Defined.

(** ** Properties of the transport *)

(** X1.  What one call of [readMemory] costs, whatever the device answers:
    at most one bulk OUT transfer and, only after it, at most six bulk IN
    transfers, with fewer sleeps than bulk IN transfers, each of 1 ms at
    least; the clock has advanced by the transfers and the sleeps; the frame
    carries the new value of the request counter, which moves by one when a
    frame is sent and not at all otherwise.  The call never loops for ever,
    and it reads past the receive buffer only when more than 65524 bytes are
    asked for. *)
Theorem read_transaction_bounded :
  forall (address bytes : Z) (s : State),
    one_transaction s (state_of (readMemory address bytes s)) /\
    (forall s', readMemory address bytes s <> OutOfFuel s') /\
    (forall s', readMemory address bytes s = Undefined s' -> 65524 < bytes).
Proof.
  intros address bytes s.
  destruct (readMemory_cost address bytes s) as (H1 & H2 & H3).
  split; [exact H1|]. split; [exact H2|].
  intros s' E. destruct (Z.le_gt_cases bytes 65524) as [Hle|Hgt]; [|lia].
  exfalso. apply (H3 ltac:(offsets; unfold TY_UVCP_MAX_MSG_LEN; lia) s' E).
Qed.

(** X2.  The same for [writeMemory], which always returns when the caller's
    array holds the [bytes] bytes it is asked to send. *)
Theorem write_transaction_bounded :
  forall (address bytes : Z) (data : bstring) (s : State),
    bytes <= Z.of_nat (length data) ->
    one_transaction s (state_of (writeMemory address data bytes s)) /\
    exists ok s', writeMemory address data bytes s = Done ok s'.
Proof. intros. apply writeMemory_cost. assumption. Qed.

Lemma write_transaction_bounded_witness :
  one_transaction stuck_write_state
    (state_of (writeMemory kTerminalDataAddr (B "ls") 2 stuck_write_state)) /\
  exists ok s', writeMemory kTerminalDataAddr (B "ls") 2 stuck_write_state = Done ok s'.
Proof.
  apply (write_transaction_bounded kTerminalDataAddr 2 (B "ls") stuck_write_state).
  cbn. lia.
Defined.

(** ** Stale bytes in the receive buffer *)

Lemma overwrite_prefix buffer (p q : bstring) :
  overwrite (overwrite buffer (p ++ q)) p = overwrite buffer (p ++ q).
Proof.
  unfold overwrite. rewrite <- app_assoc.
  rewrite skipn_app, skipn_all, Nat.sub_diag. cbn [app skipn].
  reflexivity.
Qed.

Lemma readMemory_loop_truncated left id bytes buffer f (p q : bstring) rest s :
  w_in (world s) = InData p :: rest -> is_pending id f ->
  f = p ++ q -> p <> [] ->
  exists s1,
    readMemory_loop (S left) id bytes (overwrite buffer f) s
      = readMemory_loop left id bytes (overwrite buffer f) s1 /\
    trace s1 = trace s ++ [pending_sleep f] /\ w_in (world s1) = rest /\
    w_out (world s1) = w_out (world s) /\
    device_ s1 = device_ s /\ terminal s1 = terminal s.
Proof.
  intros Hin (Hh & H16) Hf Hp.
  destruct (header_peeks id _ buffer f Hh) as (Pm & Pi & Pc & _).
  destruct Hh as (Hlen & Hmax & _).
  assert (Hlp : (length p <= length f)%nat) by (rewrite Hf, length_app; lia).
  destruct (bulkReceive_data (overwrite buffer f) p rest s Hin)
    as (s1 & E & T1 & I1 & O1 & D1 & C1).
  { destruct p; [congruence | cbn; lia]. }
  { lia. }
  assert (Hb : overwrite (overwrite buffer f) p = overwrite buffer f).
  { rewrite Hf. apply overwrite_prefix. }
  rewrite Hb in E.
  destruct (sleep_for_run (Z.max (peek f off_timeout_ms 2) 1) s1)
    as (s2 & E2 & T2 & I2 & O2 & D2 & C2).
  exists s2. split.
  - cbn [readMemory_loop]. rewrite (bind_Done _ _ _ _ _ E).
    rewrite Pm, Pi, Pc, !Z.eqb_refl. cbn [negb].
    rewrite wait_is_max by apply peek_nonneg.
    rewrite (peek_overwrite buffer f off_timeout_ms 2) by (offsets; lia).
    rewrite (bind_Done _ _ _ _ _ E2). reflexivity.
  - unfold pending_sleep. rewrite T2, T1, I2, I1, O2, O1, D2, D1, C2, C1.
    repeat split; auto.
Qed.

(** X4.  The acknowledgement loop never compares the length of a transfer
    with the frame it reads out of the buffer, and the buffer is not cleared
    between transfers.  So after a PENDING_ACK, an answer that is cut short
    (down to a single byte of the same frame) is completed by the bytes the
    PENDING_ACK left behind: it counts as a second PENDING_ACK with the same
    timeout, and the transaction goes on. *)
Theorem truncated_answer_repeats_pending :
  forall (s : State) (address bytes : Z) (f p q ack : bstring)
         (rest : list InOutcome),
    claimed_ (device_ s) = true ->
    hd false (w_out (world s)) = true ->
    0 < bytes <= 65524 ->
    let id := uint16 (requestId_ (device_ s) + 1) in
    is_pending id f -> f = p ++ q -> p <> [] ->
    is_read_ack id bytes ack ->
    w_in (world s) = InData f :: InData p :: InData ack :: rest ->
    exists out s',
      readMemory address bytes s = Done (Some out) s' /\
      trace s' = trace s ++ BulkOut (UVCPReadMemoryCmd id address bytes)
                         :: [pending_sleep f; pending_sleep f] /\
      w_in (world s') = rest.
Proof.
  intros s address bytes f p q ack rest Hc Ho Hb id Hf Hpq Hp Hack Hin.
  destruct (readMemory_start address bytes s Hc ltac:(lia) Ho)
    as (r0 & Er & Tr & Ir & _).
  fold id in Er, Tr. rewrite Hin in Ir.
  destruct (readMemory_loop_pending 4 id bytes [] f _ r0 Ir Hf)
    as (r1 & E1 & T1 & I1 & _).
  destruct (readMemory_loop_truncated 3 id bytes [] f p q _ r1 I1 Hf Hpq Hp)
    as (r2 & E2 & T2 & I2 & _).
  destruct (readMemory_loop_ack 3 id bytes (overwrite [] f) ack rest r2 I2 Hack)
    as (r3 & E3 & T3 & I3 & _).
  { offsets. unfold TY_UVCP_MAX_MSG_LEN. lia. }
  do 2 eexists. rewrite Er. unfold kMaxPendingLoops. rewrite E1, E2, E3.
  split; [reflexivity|]. rewrite T3, T2, T1, Tr, <- !app_assoc. auto.
Qed.

Lemma truncated_answer_repeats_pending_witness :
  exists out s',
    readMemory kTerminalBaseAddr 4 truncated_answer_state = Done (Some out) s' /\
    trace s' = BulkOut (UVCPReadMemoryCmd 1 kTerminalBaseAddr 4)
                 :: [Sleep 7; Sleep 7] /\
    w_in (world s') = [].
Proof.
  apply (truncated_answer_repeats_pending truncated_answer_state kTerminalBaseAddr 4
           (UVCPPendingAck 1 7) (firstn 1 (UVCPPendingAck 1 7))
           (skipn 1 (UVCPPendingAck 1 7)) (UVCPReadMemoryAck 1 (B "abcd")) []);
    try concrete_frames.
Defined.

(** ** Registers on the wire *)

Lemma words_of_cons v raw n :
  words_of (le 4 v ++ raw) (Z.of_nat (S n))
    = v mod 2 ^ 32 :: words_of raw (Z.of_nat n).
Proof.
  unfold words_of. rewrite !Nat2Z.id. cbn [seq map]. f_equal.
  - cbn [Nat.mul skipn]. rewrite firstn_app, length_le, Nat.sub_diag, firstn_O.
    rewrite app_nil_r, firstn_all2 by (rewrite length_le; lia).
    rewrite unle_le. reflexivity.
  - rewrite <- seq_shift, map_map. apply map_ext. intros i.
    replace (S i * 4)%nat with (length (le 4 v) + i * 4)%nat
      by (rewrite length_le; lia).
    rewrite skipn_app, Nat.add_comm, Nat.add_sub.
    rewrite skipn_all2 by lia. reflexivity.
Qed.

Lemma words_of_encode values :
  words_of (concat (map (le 4) values)) (Z.of_nat (length values))
    = map (fun v => v mod 2 ^ 32) values.
Proof.
  induction values as [|v values IH]; [reflexivity|].
  cbn [map concat length]. rewrite words_of_cons, IH. reflexivity.
Qed.

Lemma length_encode values :
  length (concat (map (le 4) values)) = (4 * length values)%nat.
Proof.
  induction values as [|v values IH]; [reflexivity|].
  cbn [map concat length]. rewrite length_app, length_le, IH. lia.
Qed.

Lemma read_ack_of_data id (data : bstring) :
  0 <= id < 65536 -> Z.of_nat (length data) <= 65524 ->
  is_read_ack id (Z.of_nat (length data)) (UVCPReadMemoryAck id data).
Proof.
  intros Hid Hlen. unfold is_read_ack, header_ok.
  assert (L : length (UVCPReadMemoryAck id data) = (12 + length data)%nat).
  { unfold UVCPReadMemoryAck, ack_header. rewrite !length_app, !length_le. lia. }
  rewrite L. offsets. unfold TY_UVCP_MAX_MSG_LEN.
  split; [split; [lia|]; split; [lia|]; split; [|split]|].
  - reflexivity.
  - change (peek (UVCPReadMemoryAck id data) 10 2) with (unle (le 2 id)).
    rewrite unle_le. apply Z.mod_small. lia.
  - reflexivity.
  - change (peek (UVCPReadMemoryAck id data) 8 2)
      with (unle (le 2 (Z.of_nat (length data)))).
    rewrite unle_le. apply Z.mod_small. lia.
Qed.

Lemma ack_data_of_data buffer id (data : bstring) :
  ack_data (overwrite buffer (UVCPReadMemoryAck id data)) (Z.of_nat (length data))
    = data.
Proof.
  rewrite ack_data_overwrite.
  - change (skipn sizeof_UVCPHeader (UVCPReadMemoryAck id data)) with data.
    rewrite Nat2Z.id. apply firstn_all.
  - unfold UVCPReadMemoryAck, ack_header. rewrite !length_app, !length_le.
    offsets. lia.
Qed.

(** X5.  Registers survive the wire.  [writeRegisters] sends one frame whose
    payload is the values, four little-endian bytes each; and when a device
    answers a [readRegisters] of as many registers with those very bytes,
    the host gets the values back (as the 32-bit numbers they are). *)
Theorem register_round_trip :
  forall (s : State) (address : Z) (values : list Z) (rest : list InOutcome),
    claimed_ (device_ s) = true ->
    hd false (w_out (world s)) = true ->
    values <> [] -> Z.of_nat (length values) <= 16381 ->
    let id := uint16 (requestId_ (device_ s) + 1) in
    let raw := concat (map (le 4) values) in
    (exists frame,
       sent_by (writeRegisters address values) s = [frame] /\
       frame_command frame = COMMAND_WRITE_MEMORY_CMD /\
       frame_address frame = address mod 2 ^ 64 /\
       frame_payload frame = raw) /\
    (w_in (world s) = InData (UVCPReadMemoryAck id raw) :: rest ->
     exists s',
       readRegisters address (Z.of_nat (length values)) s
         = Done (Some (map (fun v => v mod 2 ^ 32) values)) s').
Proof.
  intros s address values rest Hc Ho Hv Hn id raw.
  assert (Hraw : length raw = (4 * length values)%nat) by apply length_encode.
  assert (Hpos : (0 < length values)%nat) by (destruct values; [congruence | cbn; lia]).
  assert (H16 : uint16 (Z.of_nat (length raw)) = Z.of_nat (length raw)).
  { apply uint16_small. lia. }
  split.
  - exists (UVCPWriteMemoryCmd id address raw (Z.of_nat (length raw))).
    split; [|split; [reflexivity|split; [apply frame_address_write|]]].
    + unfold writeRegisters. destruct values as [|v values]; [congruence|].
      fold raw. cbv zeta. rewrite H16.
      destruct (writeMemory_frames address raw (Z.of_nat (length raw)) s ltac:(lia))
        as (_ & [(_ & [H|H])|(H & _)]); [congruence | lia | exact H].
    + rewrite frame_payload_write, Nat2Z.id. apply firstn_all.
  - intros Hin. unfold readRegisters.
    destruct (Z.of_nat (length values) =? 0) eqn:E0; [lia|]. cbv zeta.
    replace (Z.of_nat (length values) * 4) with (Z.of_nat (length raw)) by lia.
    rewrite H16.
    destruct (readMemory_start address (Z.of_nat (length raw)) s Hc ltac:(lia) Ho)
      as (r0 & Er & Tr & Ir & _ & Rr & _).
    fold id in Er, Tr, Rr. rewrite Hin in Ir.
    destruct (readMemory_loop_ack kMaxPendingLoops id (Z.of_nat (length raw)) []
                (UVCPReadMemoryAck id raw) rest r0 Ir) as (r1 & E1 & _).
    { apply read_ack_of_data; [apply uint16_range | lia]. }
    { offsets. unfold TY_UVCP_MAX_MSG_LEN. lia. }
    rewrite (bind_Done _ _ _ _ _ (eq_trans Er E1)).
    rewrite ack_data_of_data.
    destruct (Z.of_nat (length raw) <? Z.of_nat (length raw)) eqn:El; [lia|].
    exists r1. unfold ret, raw. rewrite words_of_encode. reflexivity.
Qed.

Lemma register_round_trip_witness :
  (exists frame,
     sent_by (writeRegisters kTerminalBaseAddr [kTerminalMagic; kMinV2Version])
             two_registers_state = [frame] /\
     frame_command frame = COMMAND_WRITE_MEMORY_CMD /\
     frame_address frame = kTerminalBaseAddr mod 2 ^ 64 /\
     frame_payload frame = le 4 kTerminalMagic ++ le 4 kMinV2Version) /\
  exists s',
    readRegisters kTerminalBaseAddr 2 two_registers_state
      = Done (Some [kTerminalMagic mod 2 ^ 32; kMinV2Version mod 2 ^ 32]) s'.
Proof.
  destruct (register_round_trip two_registers_state kTerminalBaseAddr
              [kTerminalMagic; kMinV2Version] []) as (W & R);
    [reflexivity | reflexivity | discriminate | cbn; lia |].
  split; [exact W | apply R; reflexivity].
Defined.

(** X6.  [readRegisters] computes its byte count in 16 bits: asked for 16384
    registers or more, it requests fewer bytes than it then copies out of
    the answer, so it never succeeds (it fails, or reads past the end of the
    bytes it received). *)
Theorem readRegisters_count_limit :
  forall (s : State) (address registerCount : Z),
    16384 <= registerCount ->
    match readRegisters address registerCount s with
    | Done (Some _) _ => False
    | _ => True
    end.
Proof.
  intros s address registerCount Hn.
  destruct (readRegisters address registerCount s) as [[vals|] s'|s'|s'] eqn:H;
    try exact I.
  unfold readRegisters in H.
  destruct (registerCount =? 0) eqn:E0; [lia|]. cbv zeta in H.
  apply bind_inv in H. destruct H as (r & s1 & E & H).
  destruct r as [raw|]; [|discriminate].
  assert (Hlen : Z.of_nat (length raw) = uint16 (registerCount * 4)).
  { destruct (Z.eq_dec (uint16 (registerCount * 4)) 0) as [Hz|Hz].
    - rewrite Hz in *. unfold readMemory in E.
      rewrite (bind_Done (get _) _ s _ s eq_refl) in E.
      destruct (negb (claimed_ (device_ s))); [run_in E; discriminate|].
      cbn in E. unfold ret in E. inversion E. reflexivity.
    - pose proof (uint16_range (registerCount * 4)).
      destruct (readMemory_success address (uint16 (registerCount * 4)) s raw s1
                  ltac:(lia) E)
        as (_ & _ & _ & _ & _ & _ & _ & _ & _ & _ & L). exact L. }
  destruct (Z.of_nat (length raw) <? registerCount * 4) eqn:El; [discriminate|].
  pose proof (uint16_range (registerCount * 4)). lia.
Qed.

Lemma readRegisters_count_limit_witness :
  match readRegisters kTerminalBaseAddr 16384 two_registers_state with
  | Done (Some _) _ => False
  | _ => True
  end.
Proof.
  apply (readRegisters_count_limit two_registers_state kTerminalBaseAddr 16384).
  lia.
Defined.

(** ** The layout of the requests *)

(** X7.  The two requests decode to what was put into them.  A read request
    is 24 bytes: magic, the REQUEST_ACK flag, READ_MEMORY_CMD, a size field
    of 12, the id, the address as 64 bits and the byte count.  A write
    request of [bytes] bytes is [20 + bytes] bytes long and carries the
    first [bytes] bytes of the data; its 16-bit size field is [8 + bytes]
    only up to 65527 bytes, and wraps around above. *)
Theorem request_frame_layout :
  forall (id address bytes : Z) (data : bstring),
    0 <= bytes <= Z.of_nat (length data) ->
    (let f := UVCPReadMemoryCmd id address bytes in
     length f = 24%nat /\
     frame_magic f = MAGIC /\ frame_flags f = FLAGS_REQUEST_ACK /\
     frame_command f = COMMAND_READ_MEMORY_CMD /\
     frame_size f = 12 /\ frame_id f = id mod 2 ^ 16 /\
     frame_address f = address mod 2 ^ 64 /\
     frame_read_size f = bytes mod 2 ^ 16) /\
    (let f := UVCPWriteMemoryCmd id address data bytes in
     Z.of_nat (length f) = 20 + bytes /\
     frame_magic f = MAGIC /\ frame_flags f = FLAGS_REQUEST_ACK /\
     frame_command f = COMMAND_WRITE_MEMORY_CMD /\
     frame_size f = (8 + bytes) mod 2 ^ 16 /\ frame_id f = id mod 2 ^ 16 /\
     frame_address f = address mod 2 ^ 64 /\
     frame_payload f = firstn (Z.to_nat bytes) data /\
     (bytes <= 65527 -> frame_size f = 8 + bytes) /\
     (65528 <= bytes < 131064 -> frame_size f = bytes - 65528)).
Proof.
  intros id address bytes data Hb. split; cbv zeta.
  - split; [reflexivity|]. split; [reflexivity|]. split; [reflexivity|].
    split; [reflexivity|]. split; [reflexivity|].
    split; [apply frame_id_read|].
    split; [apply frame_address_read | apply frame_read_size_read].
  - assert (Hs : frame_size (UVCPWriteMemoryCmd id address data bytes)
                 = (8 + bytes) mod 2 ^ 16).
    { change (frame_size (UVCPWriteMemoryCmd id address data bytes))
        with (unle (le 2 (uint16 (8 + bytes)))).
      rewrite unle_le. unfold uint16. change (256 ^ Z.of_nat 2) with 65536.
      change (2 ^ 16) with 65536. apply Z.mod_mod. lia. }
    split.
    { unfold UVCPWriteMemoryCmd, UVCPHeader.
      rewrite !length_app, !length_le, length_firstn. lia. }
    split; [reflexivity|]. split; [reflexivity|]. split; [reflexivity|].
    split; [exact Hs|]. split; [apply frame_id_write|].
    split; [apply frame_address_write|]. split; [reflexivity|].
    rewrite Hs. change (2 ^ 16) with 65536. split; intros H.
    + apply Z.mod_small. lia.
    + replace (8 + bytes) with (bytes - 65528 + 1 * 65536) by lia.
      rewrite Z.mod_add by lia. apply Z.mod_small. lia.
Qed.

Lemma request_frame_layout_witness :
  (let f := UVCPReadMemoryCmd 7 kTerminalDataAddr 2 in
   length f = 24%nat /\
   frame_magic f = MAGIC /\ frame_flags f = FLAGS_REQUEST_ACK /\
   frame_command f = COMMAND_READ_MEMORY_CMD /\
   frame_size f = 12 /\ frame_id f = 7 mod 2 ^ 16 /\
   frame_address f = kTerminalDataAddr mod 2 ^ 64 /\
   frame_read_size f = 2 mod 2 ^ 16) /\
  (let f := UVCPWriteMemoryCmd 7 kTerminalDataAddr (B "ls") 2 in
   Z.of_nat (length f) = 20 + 2 /\
   frame_magic f = MAGIC /\ frame_flags f = FLAGS_REQUEST_ACK /\
   frame_command f = COMMAND_WRITE_MEMORY_CMD /\
   frame_size f = (8 + 2) mod 2 ^ 16 /\ frame_id f = 7 mod 2 ^ 16 /\
   frame_address f = kTerminalDataAddr mod 2 ^ 64 /\
   frame_payload f = firstn (Z.to_nat 2) (B "ls") /\
   (2 <= 65527 -> frame_size f = 8 + 2) /\
   (65528 <= 2 < 131064 -> frame_size f = 2 - 65528)).
Proof.
  apply (request_frame_layout 7 kTerminalDataAddr 2 (B "ls")). cbn. lia.
Defined.

(** ** Whole runs *)

Lemma runs_trace {A} (P : A -> Prop) (m : M A) s :
  runs P m -> well_typed s ->
  well_typed (state_of (m s)) /\
  exists evs, trace (state_of (m s)) = trace s ++ evs.
Proof.
  intros R W. destruct (R s W) as (W1 & (ins & evs & T & _) & _).
  split; [exact W1 | eauto].
Qed.

Lemma main_transacts fuel o w :
  exists ins evs,
    events_of (main fuel o) (initial_state w) = evs /\
    let s' := state_of (main fuel o (initial_state w)) in
    w_out (world s') = skipn (length (sent_frames evs)) (w_out w) /\
    w_in (world s') = skipn ins (w_in w) /\
    (ins <= (kMaxPendingLoops + 1) * length (sent_frames evs))%nat /\
    map frame_id (sent_frames evs) = request_ids 0 (length (sent_frames evs)) /\
    (0 <= w_latency w -> w_now w <= w_now (world s')).
Proof.
  destruct (runs_main fuel o (initial_state w) (well_typed_initial_state w))
    as (_ & (ins & evs & T & O & I & B & Q & _ & _ & N) & _).
  exists ins, evs. split; [apply events_of_app; exact T|].
  cbv zeta. auto.
Qed.

(** X8.  Request ids are handed out in order over a whole run of the
    program: whatever the arguments, the device and the user do, the
    [i]-th frame the program sends (counting from 0) carries the request id
    [i + 1], modulo 65536. *)
Theorem request_ids_consecutive :
  forall (fuel : nat) (o : Options) (w : World) (i : nat) (f : bstring),
    nth_error (sent_by (main fuel o) (initial_state w)) i = Some f ->
    frame_id f = (Z.of_nat i + 1) mod 65536.
Proof.
  intros fuel o w i f H.
  destruct (main_transacts fuel o w) as (ins & evs & E & _ & _ & _ & Q & _).
  unfold sent_by in H. rewrite E in H.
  apply (map_nth_error frame_id) in H. rewrite Q in H.
  unfold request_ids in H.
  assert (Hi : (i < length (sent_frames evs))%nat).
  { assert (Hi : (i < length (map (fun i => uint16 (0 + 1 + Z.of_nat i))
                               (seq 0 (length (sent_frames evs)))))%nat)
      by (apply nth_error_Some; congruence).
    rewrite length_map, length_seq in Hi. exact Hi. }
  rewrite nth_error_map in H.
  rewrite (nth_error_nth' _ 0%nat) in H by (rewrite length_seq; exact Hi).
  rewrite seq_nth in H by exact Hi.
  cbn [option_map] in H.
  assert (Hf : frame_id f = uint16 (0 + 1 + Z.of_nat (0 + i))) by congruence.
  rewrite Hf. unfold uint16. f_equal. lia.
Qed.

Lemma request_ids_consecutive_witness :
  frame_id (UVCPReadMemoryCmd 1 kTerminalBaseAddr 8) = (Z.of_nat 0 + 1) mod 65536.
Proof.
  apply (request_ids_consecutive 10 usage_options quiet_device_world 0).
  vm_compute. reflexivity.
Defined.

(** X9.  The program is the master of the bus: in a whole run, every frame
    sent has used up one answer of the OUT endpoint, in order, and the
    answers taken from the IN endpoint are the first ones, at most six per
    frame sent; with none sent, none is taken. *)
Theorem answers_follow_requests :
  forall (fuel : nat) (o : Options) (w : World),
    let s' := state_of (main fuel o (initial_state w)) in
    let n := length (sent_by (main fuel o) (initial_state w)) in
    w_out (world s') = skipn n (w_out w) /\
    exists ins, (ins <= 6 * n)%nat /\ w_in (world s') = skipn ins (w_in w).
Proof.
  intros fuel o w. cbv zeta.
  destruct (main_transacts fuel o w) as (ins & evs & E & O & I & B & _).
  unfold sent_by. rewrite E. split; [exact O|].
  exists ins. split; [exact B | exact I].
Qed.

Lemma writeMemory_unclaimed address data bytes s :
  claimed_ (device_ s) = false ->
  exists s', writeMemory address data bytes s = Done false s'.
Proof.
  intros Hc. unfold writeMemory. rewrite (bind_Done (get _) _ s _ s eq_refl).
  rewrite Hc. cbn [negb]. eexists. reflexivity.
Qed.

Lemma lock_state s :
  state_of (lock s)
    = state_of (writeMemory kTerminalAuthCmdAddr (le 4 0) 4 s).
Proof.
  unfold lock, U3VDevice_writeRegister, writeRegisters, bind.
  change (concat (map (le 4) [0])) with (le 4 0).
  change (uint16 (Z.of_nat (length (le 4 0)))) with 4.
  destruct (writeMemory kTerminalAuthCmdAddr (le 4 0) 4 s) as [[|] s1|s1|s1];
    reflexivity.
Qed.

Lemma lock_true_frame s s' :
  lock s = Done true s' ->
  exists f, sent_by lock s = [f] /\
            writes_register kTerminalAuthCmdAddr 0 f = true.
Proof.
  intros H.
  assert (Hw : exists s1, writeMemory kTerminalAuthCmdAddr (le 4 0) 4 s = Done true s1).
  { unfold lock, U3VDevice_writeRegister, writeRegisters, bind in H.
    change (concat (map (le 4) [0])) with (le 4 0) in H.
    change (uint16 (Z.of_nat (length (le 4 0)))) with 4 in H.
    destruct (writeMemory kTerminalAuthCmdAddr (le 4 0) 4 s) as [[|] s1|s1|s1];
      try discriminate. eauto. }
  destruct Hw as (s1 & Hw).
  assert (Hs : sent_by lock s = sent_by (writeMemory kTerminalAuthCmdAddr (le 4 0) 4) s).
  { unfold sent_by, events_of. rewrite lock_state. reflexivity. }
  rewrite Hs.
  destruct (writeMemory_frames kTerminalAuthCmdAddr (le 4 0) 4 s ltac:(cbn; lia))
    as (_ & [(_ & [Hc|Hb])|(Hf & _)]).
  - destruct (writeMemory_unclaimed kTerminalAuthCmdAddr (le 4 0) 4 s Hc) as (s2 & E).
    congruence.
  - discriminate.
  - eexists. split; [exact Hf|].
    unfold writes_register, is_write_to.
    rewrite frame_command_write, frame_address_write, frame_payload_write.
    reflexivity.
Qed.

Ltac run_step H :=
  let a := fresh "a" in
  let s1 := fresh "s" in
  let E := fresh "E" in
  apply bind_inv in H; destruct H as (a & s1 & E & H);
  match type of E with
  | ?m ?s = _ =>
      let R := fresh "R" in
      assert (R : runs any m) by runs_walk;
      match goal with
      | W : well_typed s |- _ =>
          let W' := fresh "W" in
          let T := fresh "T" in
          destruct (runs_trace _ _ _ R W) as (W' & (? & T));
          rewrite E in W', T; cbn [state_of] in W', T; clear R
      end
  end.

(** X10.  Exit status 0 means the terminal has been locked: in every run of
    the program that returns [EXIT_SUCCESS], the last frame sent is the
    write of 0 to the AuthCmd register. *)
Theorem exit_success_means_locked :
  forall (fuel : nat) (o : Options) (w : World) (s' : State),
    main fuel o (initial_state w) = Done EXIT_SUCCESS s' ->
    writes_register kTerminalAuthCmdAddr 0
      (last (sent_by (main fuel o) (initial_state w)) []) = true.
Proof.
  intros fuel o w s' H.
  pose proof (well_typed_initial_state w) as W0.
  assert (Hs : sent_by (main fuel o) (initial_state w)
               = sent_frames (skipn (length (trace (initial_state w))) (trace s'))).
  { unfold sent_by, events_of. rewrite H. reflexivity. }
  rewrite Hs. clear Hs.
  unfold main in H. apply bind_inv in H. destruct H as (code & sb & Hb & H).
  assert (code = EXIT_SUCCESS) as ->.
  { apply bind_inv in H. destruct H as (? & ? & _ & H). inversion H. reflexivity. }
  assert (Hshut : exists evs, trace s' = trace sb ++ evs /\ sent_frames evs = []).
  { unfold shutdown, bind, get, emit, ret in H.
    destruct (handle_ (device_ sb)); inversion H; cbn.
    - exists [Shutdown]. auto.
    - exists []. rewrite app_nil_r. auto. }
  clear H. unfold main_body in Hb.
  run_step Hb. destruct a; cbn [negb] in Hb; [|discriminate].
  run_step Hb. destruct a; cbn [negb] in Hb; [|discriminate].
  run_step Hb. destruct a; cbn [negb] in Hb; [|discriminate].
  run_step Hb. destruct a; cbn [negb] in Hb; [|discriminate].
  run_step Hb. run_step Hb. run_step Hb. run_step Hb.
  run_step Hb. destruct a3; cbn [negb] in Hb; [|discriminate].
  run_step Hb.
  apply bind_inv in Hb. destruct Hb as (locked & sl & El & Hb).
  destruct locked; cbn [negb] in Hb; [|discriminate].
  destruct (lock_true_frame _ _ El) as (f & Hf & Hw).
  assert (Tl : trace sl = trace s8 ++ events_of lock s8).
  { unfold events_of. rewrite El. cbn [state_of].
    destruct (keeps_lock s8 ltac:(assumption)) as ((_ & (? & evs & Tk & _) & _) & _).
    rewrite El in Tk. cbn [state_of] in Tk. rewrite Tk.
    rewrite skipn_app, skipn_all, Nat.sub_diag. reflexivity. }
  assert (Hpost : exists evs, trace sb = trace sl ++ evs /\ sent_frames evs = []).
  { unfold shutdown, bind, get, emit, ret in Hb.
    destruct (handle_ (device_ sl)); inversion Hb; cbn.
    - exists [Shutdown]. auto.
    - exists []. rewrite app_nil_r. auto. }
  destruct Hshut as (e2 & Ts2 & F2). destruct Hpost as (e1 & Ts1 & F1).
  rewrite Ts2, Ts1, Tl. clear Ts2 Ts1 Tl.
  repeat match goal with T : trace _ = trace _ ++ _ |- _ => rewrite T; clear T end.
  rewrite <- !app_assoc, skipn_app, skipn_all, Nat.sub_diag. cbn [skipn app].
  rewrite !sent_frames_app. unfold sent_by in Hf. rewrite Hf, F1, F2.
  rewrite !app_nil_r, !app_assoc, last_last. exact Hw.
Qed.

Lemma exit_success_means_locked_witness :
  writes_register kTerminalAuthCmdAddr 0
    (last (sent_by (main 10 usage_options) (initial_state quiet_device_world)) [])
    = true.
Proof.
  apply (exit_success_means_locked 10 usage_options quiet_device_world
           (state_of (main 10 usage_options (initial_state quiet_device_world)))).
  vm_compute. reflexivity.
Defined.

(** ** The polling loops *)

Lemma readRegister_state addr s :
  state_of (readRegister addr s) = state_of (readMemory addr 4 s) /\
  forall s', readRegister addr s <> OutOfFuel s'.
Proof.
  unfold readRegister, readRegisters. change (1 =? 0) with false. cbv iota zeta.
  change (uint16 (1 * 4)) with 4. unfold bind.
  destruct (readMemory_cost addr 4 s) as (_ & Hf & _).
  destruct (readMemory addr 4 s) as [[raw|] s1|s1|s1]; cbn.
  - destruct (Z.of_nat (length raw) <? 4); cbn; split; auto; discriminate.
  - split; auto; discriminate.
  - split; auto; discriminate.
  - destruct (Hf s1 eq_refl).
Qed.

(** One register read: at most one frame, and the clock does not go back. *)
Lemma readRegister_step addr s :
  exists evs,
    trace (state_of (readRegister addr s)) = trace s ++ evs /\
    (length (sent_frames evs) <= 1)%nat /\
    w_latency (world (state_of (readRegister addr s))) = w_latency (world s) /\
    (0 <= w_latency (world s) ->
     w_now (world s) <= w_now (world (state_of (readRegister addr s)))) /\
    forall s', readRegister addr s <> OutOfFuel s'.
Proof.
  destruct (readRegister_state addr s) as (-> & Hf).
  destruct (readMemory_cost addr 4 s)
    as ((outs & ins & evs & Ho & _ & _ & _ & _ & T & F & _ & Pos & _ & La & No & _) & _).
  exists evs. rewrite La, No, F. pose proof (total_sleeps_nonneg _ Pos).
  repeat split; auto. intros. nia.
Qed.

Lemma bind_Undefined {A B} (m : M A) (k : A -> M B) s s1 :
  m s = Undefined s1 -> bind m k s = Undefined s1.
Proof. unfold bind. intros ->. reflexivity. Qed.

Lemma ensureSession_poll_bound (n : nat) : forall fuel deadline s,
  0 <= w_latency (world s) ->
  deadline <= w_now (world s) + 50 * Z.of_nat n ->
  (exists evs,
     trace (state_of (ensureSession_poll fuel deadline s)) = trace s ++ evs /\
     (length (sent_frames evs) <= n)%nat) /\
  ((n <= fuel)%nat ->
   forall s', ensureSession_poll fuel deadline s <> OutOfFuel s').
Proof.
  induction n as [|n IH]; intros fuel deadline s Hl Hd.
  - assert (E : ensureSession_poll fuel deadline s
                = (cerr SessionTimeout ;; ret false) s).
    { destruct fuel; cbn [ensureSession_poll]; unfold bind at 1, now, get;
        (destruct (w_now (world s) <? deadline) eqn:Et; [lia|]); reflexivity. }
    rewrite E. split; [|never].
    exists [Cerr SessionTimeout]. split; [reflexivity | cbn; lia].
  - destruct fuel as [|fuel]; cbn [ensureSession_poll];
      rewrite (bind_Done now _ s (w_now (world s)) s eq_refl);
      (destruct (w_now (world s) <? deadline) eqn:Et; cbn [negb];
       [|split; [exists [Cerr SessionTimeout]; split; [reflexivity | cbn; lia]
               | never]]).
    + split; [|lia]. exists []. rewrite app_nil_r. split; [reflexivity|cbn; lia].
    + destruct (readRegister_step kTerminalStatusAddr s)
        as (evs & T & F & La & No & Hf).
      destruct (readRegister kTerminalStatusAddr s) as [[status|] s1|s1|s1] eqn:Er;
        cbn [state_of] in *;
        [rewrite (bind_Done _ _ _ _ _ Er) | rewrite (bind_Done _ _ _ _ _ Er)
        |rewrite (bind_Undefined _ _ _ _ Er) | destruct (Hf s1 eq_refl)];
        cbn [state_of].
      * destruct (has_bit status kStatusReady).
        { split; [exists evs; split; [exact T | lia] | never]. }
        destruct (sleep_for_effect 50 s1) as (s2 & E2 & T2 & _ & _ & La2 & No2 & _).
        rewrite (bind_Done _ _ _ _ _ E2).
        destruct (IH fuel deadline s2) as ((evs' & T' & F') & Hfuel);
          [rewrite La2, La; exact Hl | rewrite No2; specialize (No Hl); lia |].
        split.
        -- exists (evs ++ Sleep 50 :: evs'). rewrite T', T2, T, <- !app_assoc.
           split; [reflexivity|]. rewrite sent_frames_app, length_app.
           change (sent_frames (Sleep 50 :: evs')) with (sent_frames evs'). lia.
        -- intros Hn. apply Hfuel. lia.
      * split; [exists evs; split; [exact T | lia] | never].
      * split; [exists evs; split; [exact T | lia] | never].
Qed.

Lemma bind_assoc_register {B C} (m : M (option Z)) (f : option Z -> M B)
    (k : B -> M C) s :
  bind (bind m f) k s = bind m (fun r => bind (f r) k) s.
Proof. unfold bind. destruct (m s); reflexivity. Qed.

Lemma checkFileError_step context s :
  (exists evs,
     trace (state_of (checkFileError context s)) = trace s ++ evs /\
     (length (sent_frames evs) <= 2)%nat) /\
  forall s', checkFileError context s <> OutOfFuel s'.
Proof.
  unfold checkFileError, readFileStatus, readFileResult.
  destruct (readRegister_step kTerminalFileStatusAddr s) as (evs & T & F & _ & _ & Hf).
  destruct (readRegister kTerminalFileStatusAddr s) as [[status|] s1|s1|s1] eqn:Er;
    cbn [state_of] in *;
    [rewrite (bind_Done _ _ _ _ _ Er) | rewrite (bind_Done _ _ _ _ _ Er)
    |rewrite (bind_Undefined _ _ _ _ Er) | destruct (Hf s1 eq_refl)];
    cbn [state_of].
  2,3: split; [exists evs; split; [exact T | lia] | never].
  destruct (Z.land status kFileStatusError =? 0).
  { split; [exists evs; split; [exact T | lia] | never]. }
  destruct (readRegister_step kTerminalFileResultAddr s1)
    as (evs1 & T1 & F1 & _ & _ & Hf1).
  rewrite bind_assoc_register.
  destruct (readRegister kTerminalFileResultAddr s1) as [[v|] s2|s2|s2] eqn:Er1;
    cbn [state_of] in *;
    [rewrite (bind_Done _ _ _ _ _ Er1) | rewrite (bind_Done _ _ _ _ _ Er1)
    |rewrite (bind_Undefined _ _ _ _ Er1) | destruct (Hf1 s2 eq_refl)];
    cbn [state_of].
  - split; [|never].
    exists (evs ++ evs1 ++ [Cerr (FileError context (int_of_uint32 v))]).
    unfold bind, ret, cerr, emit. cbn [state_of]. unfold trace in *. cbn.
    rewrite T1, T, <- !app_assoc. split; [reflexivity|].
    rewrite !sent_frames_app, !length_app. cbn. lia.
  - split; [|never]. exists (evs ++ evs1).
    unfold bind, ret. cbn [state_of]. rewrite T1, T, <- !app_assoc.
    split; [reflexivity|]. rewrite !sent_frames_app, !length_app. lia.
  - split; [|never]. exists (evs ++ evs1). rewrite T1, T, <- !app_assoc.
    split; [reflexivity|]. rewrite !sent_frames_app, !length_app. lia.
Qed.

Lemma waitForFileOpen_loop_bound (n : nat) : forall fuel modeBit deadline s,
  0 <= w_latency (world s) ->
  deadline <= w_now (world s) + 10 * Z.of_nat n ->
  (exists evs,
     trace (state_of (waitForFileOpen_loop fuel modeBit deadline s)) = trace s ++ evs /\
     (length (sent_frames evs) <= n + 2)%nat) /\
  ((n <= fuel)%nat ->
   forall s', waitForFileOpen_loop fuel modeBit deadline s <> OutOfFuel s').
Proof.
  induction n as [|n IH]; intros fuel modeBit deadline s Hl Hd.
  - assert (E : waitForFileOpen_loop fuel modeBit deadline s
                = (cerr FileOpenTimeout ;; ret false) s).
    { destruct fuel; cbn [waitForFileOpen_loop]; unfold bind at 1, now, get;
        (destruct (w_now (world s) <? deadline) eqn:Et; [lia|]); reflexivity. }
    rewrite E. split; [|never].
    exists [Cerr FileOpenTimeout]. split; [reflexivity | cbn; lia].
  - destruct fuel as [|fuel]; cbn [waitForFileOpen_loop];
      rewrite (bind_Done now _ s (w_now (world s)) s eq_refl);
      (destruct (w_now (world s) <? deadline) eqn:Et; cbn [negb];
       [|split; [exists [Cerr FileOpenTimeout]; split; [reflexivity | cbn; lia]
               | never]]).
    + split; [|lia]. exists []. rewrite app_nil_r. split; [reflexivity|cbn; lia].
    + unfold readFileStatus.
      destruct (readRegister_step kTerminalFileStatusAddr s)
        as (evs & T & F & La & No & Hf).
      destruct (readRegister kTerminalFileStatusAddr s) as [[status|] s1|s1|s1] eqn:Er;
        cbn [state_of] in *;
        [rewrite (bind_Done _ _ _ _ _ Er) | rewrite (bind_Done _ _ _ _ _ Er)
        |rewrite (bind_Undefined _ _ _ _ Er) | destruct (Hf s1 eq_refl)];
        cbn [state_of].
      * destruct (has_bit status modeBit).
        { split; [exists evs; split; [exact T | lia] | never]. }
        destruct (has_bit status kFileStatusError).
        { destruct (checkFileError_step (B "open file") s1) as ((evs1 & T1 & F1) & Hc).
          split; [|intros _; exact Hc].
          exists (evs ++ evs1). rewrite T1, T, <- app_assoc. split; [reflexivity|].
          rewrite sent_frames_app, length_app. lia. }
        destruct (sleep_for_effect 10 s1) as (s2 & E2 & T2 & _ & _ & La2 & No2 & _).
        rewrite (bind_Done _ _ _ _ _ E2).
        destruct (IH fuel modeBit deadline s2) as ((evs' & T' & F') & Hfuel);
          [rewrite La2, La; exact Hl | rewrite No2; specialize (No Hl); lia |].
        split.
        -- exists (evs ++ Sleep 10 :: evs'). rewrite T', T2, T, <- !app_assoc.
           split; [reflexivity|]. rewrite sent_frames_app, length_app.
           change (sent_frames (Sleep 10 :: evs')) with (sent_frames evs'). lia.
        -- intros Hn. apply Hfuel. lia.
      * split; [exists evs; split; [exact T | lia] | never].
      * split; [exists evs; split; [exact T | lia] | never].
Qed.

(** X11.  The two polling loops give up.  With a bus on which transfers
    take no negative time, the loop of [ensureSession] that waits up to 2 s
    for READY reads the Status register at most 40 times, and the loop of
    [waitForFileOpen] that waits up to 500 ms reads FileStatus at most 50
    times (two more reads report a file error); neither loop goes round
    more often than that. *)
Theorem polling_gives_up :
  forall (fuel : nat) (modeBit : Z) (s : State),
    0 <= w_latency (world s) ->
    let deadline := w_now (world s) + 2000 in
    ((length (sent_by (ensureSession_poll fuel deadline) s) <= 40)%nat /\
     ((40 <= fuel)%nat ->
      forall s', ensureSession_poll fuel deadline s <> OutOfFuel s')) /\
    ((length (sent_by (waitForFileOpen fuel modeBit 500) s) <= 52)%nat /\
     ((50 <= fuel)%nat ->
      forall s', waitForFileOpen fuel modeBit 500 s <> OutOfFuel s')).
Proof.
  intros fuel modeBit s Hl deadline. split.
  - destruct (ensureSession_poll_bound 40 fuel deadline s Hl ltac:(unfold deadline; lia))
      as ((evs & T & F) & Hf).
    unfold sent_by. rewrite (events_of_app _ _ _ T). auto.
  - unfold waitForFileOpen, sent_by, events_of.
    rewrite (bind_Done now _ s (w_now (world s)) s eq_refl).
    destruct (waitForFileOpen_loop_bound 50 fuel modeBit (w_now (world s) + 500) s Hl
                ltac:(lia)) as ((evs & T & F) & Hf).
    rewrite T, skipn_app, skipn_all, Nat.sub_diag. cbn [skipn app]. auto.
Qed.

Lemma polling_gives_up_witness :
  0 <= w_latency (world polling_state) /\
  (ensureSession_poll 50 (0 + 2000) polling_state
     = Done false (state_of (ensureSession_poll 50 (0 + 2000) polling_state)) /\
   length (sent_by (ensureSession_poll 50 (0 + 2000)) polling_state) = 40%nat /\
   last (trace (state_of (ensureSession_poll 50 (0 + 2000) polling_state)))
        (Cerr NotClaimed) = Cerr SessionTimeout) /\
  (waitForFileOpen 50 kFileStatusReading 500 polling_state
     = Done false (state_of (waitForFileOpen 50 kFileStatusReading 500 polling_state)) /\
   length (sent_by (waitForFileOpen 50 kFileStatusReading 500) polling_state) = 50%nat /\
   last (trace (state_of (waitForFileOpen 50 kFileStatusReading 500 polling_state)))
        (Cerr NotClaimed) = Cerr FileOpenTimeout) /\
  ((length (sent_by (ensureSession_poll 50 (0 + 2000)) polling_state) <= 40)%nat /\
   ((40 <= 50)%nat ->
    forall s', ensureSession_poll 50 (0 + 2000) polling_state <> OutOfFuel s')) /\
  ((length (sent_by (waitForFileOpen 50 kFileStatusReading 500) polling_state)
    <= 52)%nat /\
   ((50 <= 50)%nat ->
    forall s', waitForFileOpen 50 kFileStatusReading 500 polling_state
               <> OutOfFuel s')).
Proof.
  split; [cbn; lia|].
  split; [split; [|split]; vm_compute; reflexivity|].
  split; [split; [|split]; vm_compute; reflexivity|].
  apply (polling_gives_up 50 kFileStatusReading polling_state).
  cbn. lia.
Defined.

(** ** What reaches the TTY Data register *)

Lemma tty_writes_app a b : tty_writes (a ++ b) = tty_writes a ++ tty_writes b.
Proof.
  unfold tty_writes. rewrite sent_frames_app, filter_app, map_app. reflexivity.
Qed.

Lemma tty_writes_none evs : sent_frames evs = [] -> tty_writes evs = [].
Proof. unfold tty_writes. intros ->. reflexivity. Qed.

Lemma tty_writes_one evs id data bytes :
  sent_frames evs = [UVCPWriteMemoryCmd id kTerminalDataAddr data bytes] ->
  tty_writes evs = [firstn (Z.to_nat bytes) data].
Proof.
  unfold tty_writes. intros ->. cbn [filter].
  unfold is_write_to. rewrite frame_command_write, frame_address_write.
  reflexivity.
Qed.

Lemma writeMemory_trace address data bytes s :
  bytes <= Z.of_nat (length data) ->
  trace (state_of (writeMemory address data bytes s))
    = trace s ++ events_of (writeMemory address data bytes) s.
Proof.
  intros Hb.
  destruct (writeMemory_cost address data bytes s Hb)
    as ((outs & ins & evs & _ & _ & _ & _ & _ & T & _) & _).
  rewrite (events_of_app _ _ _ T). exact T.
Qed.

Lemma firstn_firstn_skipn {A} (a b : nat) (l : list A) :
  firstn a l ++ firstn b (skipn a l) = firstn (a + b) l.
Proof.
  revert l. induction a as [|a IH]; intros l; [reflexivity|].
  destruct l as [|x l]; cbn [firstn skipn Nat.add app].
  - rewrite firstn_nil. reflexivity.
  - rewrite IH. reflexivity.
Qed.

Lemma sendCommand_loop_delivers fuel payload : forall offset s,
  0 <= offset -> Z.of_nat (length payload) < 65536 ->
  0 <= chunkHint_ (terminal s) ->
  exists evs,
    trace (state_of (sendCommand_loop fuel payload offset s)) = trace s ++ evs /\
    (exists k, concat (tty_writes evs) = firstn k (skipn (Z.to_nat offset) payload)) /\
    (forall s', sendCommand_loop fuel payload offset s = Done true s' ->
                concat (tty_writes evs) = skipn (Z.to_nat offset) payload) /\
    terminal (state_of (sendCommand_loop fuel payload offset s)) = terminal s /\
    Forall (fun w => Z.of_nat (length w) <= chunkHint_ (terminal s)) (tty_writes evs).
Proof.
  induction fuel as [|fuel IH]; intros offset s Ho Hlen Hh;
    cbn [sendCommand_loop];
    (destruct (offset <? Z.of_nat (length payload)) eqn:El; cbn [negb];
     [|exists []; rewrite app_nil_r; split; [reflexivity|];
       split; [exists 0%nat; reflexivity|];
       split; [intros _ _; rewrite skipn_all2 by lia; reflexivity|];
       split; [reflexivity | constructor]]).
  - exists []. rewrite app_nil_r. split; [reflexivity|].
    split; [exists 0%nat; reflexivity|]. split; [never|].
    split; [reflexivity | constructor].
  - rewrite (bind_Done (get _) _ s _ s eq_refl). cbv zeta.
    set (chunk := Z.min (chunkHint_ (terminal s)) (Z.of_nat (length payload) - offset)).
    set (data := skipn (Z.to_nat offset) payload).
    assert (Hc : 0 <= chunk <= Z.of_nat (length payload) - offset) by (unfold chunk; lia).
    assert (Hd : Z.of_nat (length data) = Z.of_nat (length payload) - offset).
    { unfold data. rewrite length_skipn. lia. }
    rewrite (uint16_small chunk) by lia.
    pose proof (writeMemory_trace kTerminalDataAddr data chunk s ltac:(lia)) as Tw.
    destruct (writeMemory_frames kTerminalDataAddr data chunk s ltac:(lia))
      as (Te & Hfr).
    set (evs := events_of (writeMemory kTerminalDataAddr data chunk) s) in *.
    unfold sent_by in Hfr. fold evs in Hfr.
    assert (Hw : tty_writes evs = [] \/ tty_writes evs = [firstn (Z.to_nat chunk) data]).
    { destruct Hfr as [(F & _)|(F & _)];
        [left; apply tty_writes_none; exact F
        |right; eapply tty_writes_one; exact F]. }
    assert (Hp : exists k, concat (tty_writes evs) = firstn k data).
    { destruct Hw as [->| ->]; [exists 0%nat; reflexivity|].
      exists (Z.to_nat chunk). cbn. apply app_nil_r. }
    assert (Hsz : Forall (fun w => Z.of_nat (length w) <= chunkHint_ (terminal s))
                         (tty_writes evs)).
    { destruct Hw as [->| ->]; constructor; [|constructor].
      rewrite length_firstn. unfold chunk. lia. }
    destruct (writeMemory kTerminalDataAddr data chunk s) as [[|] s1|s1|s1] eqn:Ew;
      cbn [state_of] in *;
      [rewrite (bind_Done _ _ _ _ _ Ew) | rewrite (bind_Done _ _ _ _ _ Ew)
      |rewrite (bind_Undefined _ _ _ _ Ew) | ]; cbn [negb state_of].
    + destruct (IH (offset + chunk) s1 ltac:(lia) Hlen ltac:(rewrite Te; exact Hh))
        as (evs' & T' & (k' & P') & S' & Te' & Sz').
      rewrite Te in Sz'.
      assert (Hsk : skipn (Z.to_nat (offset + chunk)) payload
                    = skipn (Z.to_nat chunk) data).
      { unfold data. rewrite skipn_skipn. f_equal. lia. }
      rewrite Hsk in P', S'.
      assert (Hw' : concat (tty_writes evs) = firstn (Z.to_nat chunk) data).
      { destruct Hw as [Hw|Hw]; rewrite Hw; [|cbn; apply app_nil_r].
        destruct Hfr as [(_ & [Hcl|Hz])|(F & _)].
        - destruct (writeMemory_unclaimed kTerminalDataAddr data chunk s Hcl).
          congruence.
        - rewrite Hz. reflexivity.
        - rewrite (tty_writes_one _ _ _ _ F) in Hw. discriminate. }
      exists (evs ++ evs'). rewrite T', Tw, <- app_assoc. split; [reflexivity|].
      rewrite tty_writes_app, concat_app, Hw'. split; [|split; [|split]].
      * exists (Z.to_nat chunk + k')%nat. rewrite P'. apply firstn_firstn_skipn.
      * intros s' E. rewrite (S' s' E). apply firstn_skipn.
      * rewrite Te', Te. reflexivity.
      * apply Forall_app. split; assumption.
    + exists evs. split; [exact Tw|]. split; [exact Hp|]. split; [never|].
      split; [exact Te | exact Hsz].
    + exists evs. split; [exact Tw|]. split; [exact Hp|]. split; [never|].
      split; [exact Te | exact Hsz].
    + destruct (writeMemory_cost kTerminalDataAddr data chunk s ltac:(lia))
        as (_ & ok & s2 & E2). congruence.
Qed.

Lemma session_frame_not_tty pw f :
  requests (session_writes pw) f -> is_write_to kTerminalDataAddr f = false.
Proof.
  intros H. unfold is_write_to.
  destruct (session_frame_fields pw f H) as [-> | (-> & [(-> & _) | [(_ & ->) | (_ & -> & _)]])];
    reflexivity.
Qed.

Lemma session_no_tty pw evs :
  Forall (session_frames pw) evs -> tty_writes evs = [].
Proof.
  unfold tty_writes. induction 1 as [|e evs He _ IH]; [reflexivity|].
  destruct e; try exact IH.
  change (sent_frames (BulkOut frame :: evs)) with (frame :: sent_frames evs).
  cbn [filter]. rewrite (session_frame_not_tty pw frame He). exact IH.
Qed.

Lemma sendCommand_events fuel command s :
  well_typed s ->
  Z.of_nat (length command) < 65535 ->
  let payload :=
    if needs_newline command then command ++ [newline] else command in
  exists evs,
    trace (state_of (sendCommand fuel command s)) = trace s ++ evs /\
    (exists k, concat (tty_writes evs) = firstn k payload) /\
    (forall s', sendCommand fuel command s = Done true s' ->
                concat (tty_writes evs) = payload) /\
    Forall (fun w => Z.of_nat (length w)
                     <= chunkHint_ (terminal (state_of (sendCommand fuel command s))))
           (tty_writes evs).
Proof.
  intros W Hlen payload.
  assert (Hpl : Z.of_nat (length payload) < 65536).
  { unfold payload. destruct (needs_newline command);
      [rewrite length_app; cbn [length]|]; lia. }
  destruct (sends_ensureSession (password_ (terminal s)) fuel s eq_refl)
    as (_ & evs1 & T1 & F1).
  destruct (keeps_ensureSession fuel s W) as (((_ & Hh) & _) & _).
  pose proof (session_no_tty _ _ F1) as N1.
  unfold sendCommand.
  destruct (ensureSession fuel s) as [[|] s1|s1|s1] eqn:Ee; cbn [state_of] in *;
    [rewrite (bind_Done _ _ _ _ _ Ee) | rewrite (bind_Done _ _ _ _ _ Ee)
    |rewrite (bind_Undefined _ _ _ _ Ee) | unfold bind; rewrite Ee];
    cbn [negb state_of].
  - cbv zeta. fold payload.
    destruct (sendCommand_loop_delivers fuel payload 0 s1 ltac:(lia) Hpl Hh)
      as (evs & T & P & S & Te & Sz).
    exists (evs1 ++ evs). rewrite T, T1, <- app_assoc. split; [reflexivity|].
    rewrite tty_writes_app, N1, Te. cbn [app]. auto.
  - exists evs1. split; [exact T1|]. rewrite N1.
    split; [exists 0%nat; reflexivity|]. split; [never | constructor].
  - exists evs1. split; [exact T1|]. rewrite N1.
    split; [exists 0%nat; reflexivity|]. split; [never | constructor].
  - exists evs1. split; [exact T1|]. rewrite N1.
    split; [exists 0%nat; reflexivity|]. split; [never | constructor].
Qed.

(** X12.  What [sendCommand] puts into the TTY Data register, write after
    write, is the command (and the newline it adds when the command does
    not end in one) from its first byte on, with nothing left out, repeated
    or reordered: always a prefix of it, and all of it when [sendCommand]
    returns [true]. *)
Theorem sendCommand_delivers :
  forall (fuel : nat) (command : bstring) (s : State),
    well_typed s ->
    Z.of_nat (length command) < 65535 ->
    let payload :=
      if needs_newline command then command ++ [newline] else command in
    let written := concat (tty_writes (events_of (sendCommand fuel command) s)) in
    (exists k, written = firstn k payload) /\
    (forall s', sendCommand fuel command s = Done true s' -> written = payload).
Proof.
  intros fuel command s W Hlen payload written.
  destruct (sendCommand_events fuel command s W Hlen) as (evs & T & P & S & _).
  unfold written. rewrite (events_of_app _ _ _ T). exact (conj P S).
Qed.

Lemma sendCommand_delivers_witness :
  sendCommand 10 (B "ls") ready_shell_state
    = Done true (state_of (sendCommand 10 (B "ls") ready_shell_state)) /\
  concat (tty_writes (events_of (sendCommand 10 (B "ls")) ready_shell_state))
    = B "ls" ++ [newline].
Proof.
  split; [vm_compute; reflexivity|].
  destruct (sendCommand_delivers 10 (B "ls") ready_shell_state) as (_ & S).
  - split; cbn; lia.
  - cbn; lia.
  - apply (S (state_of (sendCommand 10 (B "ls") ready_shell_state))).
    vm_compute. reflexivity.
Defined.

(** X19.  [sendCommand] cuts the command into writes of at most
    [chunkHint_] bytes, the hint being the one the session has once
    [ensureSession] is through (the device's, 512 for a device that reports
    0, 4096 when the register could not be read). *)
Theorem sendCommand_chunks :
  forall (fuel : nat) (command : bstring) (s : State),
    well_typed s ->
    Z.of_nat (length command) < 65535 ->
    Forall (fun w => Z.of_nat (length w)
                     <= chunkHint_ (terminal (state_of (sendCommand fuel command s))))
           (tty_writes (events_of (sendCommand fuel command) s)).
Proof.
  intros fuel command s W Hlen.
  destruct (sendCommand_events fuel command s W Hlen) as (evs & T & _ & _ & Sz).
  rewrite (events_of_app _ _ _ T). exact Sz.
Qed.

Lemma sendCommand_chunks_witness :
  Forall (fun w => Z.of_nat (length w)
                   <= chunkHint_ (terminal (state_of
                        (sendCommand 10 (B "ls") ready_shell_state))))
         (tty_writes (events_of (sendCommand 10 (B "ls")) ready_shell_state)).
Proof.
  apply (sendCommand_chunks 10 (B "ls") ready_shell_state).
  - split; cbn; lia.
  - cbn; lia.
Defined.

(** ** Tokens and arguments *)

Lemma splitTokens_from_spec line : forall token,
  forallb (fun c => negb (isspace c)) token = true ->
  Forall is_word (splitTokens_from token line) /\
  concat (splitTokens_from token line)
    = token ++ filter (fun c => negb (isspace c)) line.
Proof.
  induction line as [|c line IH]; intros token Ht; cbn [splitTokens_from filter].
  - destruct token as [|t token].
    + split; [constructor | reflexivity].
    + split; [repeat constructor; [discriminate | exact Ht] | cbn; rewrite !app_nil_r; reflexivity].
  - destruct (isspace c) eqn:Ec; cbn [negb].
    + destruct (IH [] eq_refl) as (F & C). destruct token as [|t token].
      * split; [exact F | exact C].
      * split; [constructor; [split; [discriminate | exact Ht] | exact F]|].
        cbn [concat]. rewrite C. reflexivity.
    + destruct (IH (token ++ [c])) as (F & C).
      { rewrite forallb_app, Ht. cbn. rewrite Ec. reflexivity. }
      split; [exact F|]. rewrite C, <- app_assoc. reflexivity.
Qed.

Lemma splitTokens_from_word (w : bstring) : forall token rest,
  forallb (fun c => negb (isspace c)) w = true ->
  splitTokens_from token (w ++ rest) = splitTokens_from (token ++ w) rest.
Proof.
  induction w as [|c w IH]; intros token rest Hw; cbn [app].
  - rewrite app_nil_r. reflexivity.
  - cbn [forallb] in Hw. apply andb_prop in Hw. destruct Hw as (Hc & Hw).
    cbn [splitTokens_from]. destruct (isspace c); [discriminate|].
    rewrite IH by exact Hw. rewrite <- app_assoc. reflexivity.
Qed.

Lemma splitTokens_from_app (a : bstring) : forall token b,
  splitTokens_from token (a ++ space :: b)
    = splitTokens_from token a ++ splitTokens b.
Proof.
  induction a as [|c a IH]; intros token b; cbn [app splitTokens_from].
  - change (isspace space) with true. cbv iota.
    destruct token; reflexivity.
  - destruct (isspace c).
    + destruct token; rewrite IH; reflexivity.
    + apply IH.
Qed.

Lemma splitTokens_word w : is_word w -> splitTokens w = [w].
Proof.
  intros (Hn & Hw). unfold splitTokens.
  rewrite <- (app_nil_r w) at 1. rewrite splitTokens_from_word by exact Hw.
  cbn. destruct w; [congruence | reflexivity].
Qed.

Lemma splitTokens_space c line :
  isspace c = true -> splitTokens (c :: line) = splitTokens line.
Proof. intros Hc. unfold splitTokens. cbn [splitTokens_from]. rewrite Hc. reflexivity. Qed.

Lemma splitTokens_cut w c line :
  is_word w -> isspace c = true ->
  splitTokens (w ++ c :: line) = w :: splitTokens line.
Proof.
  intros (Hn & Hw) Hc. unfold splitTokens.
  rewrite splitTokens_from_word by exact Hw.
  cbn [app splitTokens_from]. rewrite Hc.
  destruct w; [congruence | reflexivity].
Qed.

(** A line starts with a run of characters that are not white space, which
    the end of the line or a white-space character follows. *)
Lemma leading_word (line : bstring) :
  exists w rest,
    line = w ++ rest /\
    forallb (fun c => negb (isspace c)) w = true /\
    (rest = [] \/ exists c rest', rest = c :: rest' /\ isspace c = true).
Proof.
  induction line as [|c line (w & rest & E & Hw & Hr)].
  - exists [], []. auto.
  - destruct (isspace c) eqn:Ec.
    + exists [], (c :: line). split; [reflexivity|]. split; [reflexivity|].
      right. eauto.
    + exists (c :: w), rest. rewrite E. split; [reflexivity|].
      split; [cbn; rewrite Ec; exact Hw | exact Hr].
Qed.

Lemma splitTokens_unique (f : bstring -> list bstring) :
  f [] = [] ->
  (forall c line, isspace c = true -> f (c :: line) = f line) ->
  (forall w, is_word w -> f w = [w]) ->
  (forall w c line, is_word w -> isspace c = true ->
     f (w ++ c :: line) = w :: f line) ->
  forall line, f line = splitTokens line.
Proof.
  intros Hnil Hspace Hword Hcut line.
  remember (length line) as n eqn:Hn.
  assert (Hle : (length line <= n)%nat) by lia. clear Hn.
  revert line Hle. induction n as [|n IH]; intros line Hle.
  - destruct line; [rewrite Hnil; reflexivity | cbn in Hle; lia].
  - destruct line as [|c line]; [rewrite Hnil; reflexivity|].
    cbn [length] in Hle. destruct (isspace c) eqn:Ec.
    + rewrite (Hspace c line Ec), (splitTokens_space c line Ec).
      apply IH. lia.
    + destruct (leading_word line) as (w & rest & E & Hw & Hr).
      assert (W : is_word (c :: w)).
      { split; [discriminate|]. cbn. rewrite Ec. exact Hw. }
      rewrite E. change (c :: w ++ rest) with ((c :: w) ++ rest).
      destruct Hr as [-> | (c' & rest' & -> & Hc')].
      * rewrite app_nil_r, (Hword _ W), (splitTokens_word _ W). reflexivity.
      * rewrite (Hcut _ _ _ W Hc'), (splitTokens_cut _ _ _ W Hc').
        f_equal. apply IH.
        rewrite E, length_app in Hle. cbn [length] in Hle. lia.
Qed.

(** X13.  [splitTokens] cuts a line at white space and nowhere else.  White
    space at the start is skipped; a word (not empty, no white space in it)
    that a white-space character follows is one token, and the rest of the
    line gives the other tokens; a word alone is one token; an empty line
    has none.  No other function does all this.  So every token is a word,
    and the tokens put end to end are the line with its white space taken
    out: no other character is lost, added or moved. *)
Theorem splitTokens_words :
  (splitTokens [] = [] /\
   (forall c line, isspace c = true -> splitTokens (c :: line) = splitTokens line) /\
   (forall w, is_word w -> splitTokens w = [w]) /\
   (forall w c line, is_word w -> isspace c = true ->
      splitTokens (w ++ c :: line) = w :: splitTokens line)) /\
  (forall f : bstring -> list bstring,
     f [] = [] ->
     (forall c line, isspace c = true -> f (c :: line) = f line) ->
     (forall w, is_word w -> f w = [w]) ->
     (forall w c line, is_word w -> isspace c = true ->
        f (w ++ c :: line) = w :: f line) ->
     forall line, f line = splitTokens line) /\
  (forall line : bstring,
     Forall is_word (splitTokens line) /\
     concat (splitTokens line) = filter (fun c => negb (isspace c)) line).
Proof.
  split; [|split].
  - split; [reflexivity|]. split; [exact splitTokens_space|].
    split; [exact splitTokens_word | exact splitTokens_cut].
  - exact splitTokens_unique.
  - intros line. apply (splitTokens_from_spec line []). reflexivity.
Qed.

Lemma splitTokens_joinArguments_loop args : forall first,
  splitTokens (joinArguments_loop first args) = flat_map splitTokens args.
Proof.
  induction args as [|a args IH]; intros first; [reflexivity|].
  cbn [joinArguments_loop flat_map].
  assert (H : splitTokens (a ++ joinArguments_loop false args)
              = splitTokens a ++ flat_map splitTokens args).
  { destruct args as [|b args]; [cbn; rewrite !app_nil_r; reflexivity|].
    cbn [joinArguments_loop]. cbn [app].
    unfold splitTokens at 1. rewrite splitTokens_from_app.
    change (b ++ joinArguments_loop false args)
      with ([] ++ b ++ joinArguments_loop false args).
    rewrite <- (IH true). reflexivity. }
  destruct first; [exact H|].
  cbn [app]. unfold splitTokens at 1. cbn [splitTokens_from].
  change (isspace space) with true. cbv iota. exact H.
Qed.

(** X14.  The free arguments of the command line are glued together with
    single spaces by [joinArguments] and cut again by [splitTokens], so the
    boundaries the shell had drawn are lost: what comes out is each
    argument split at its own white space, and empty arguments are gone.
    Arguments that are words come out as they went in. *)
Theorem arguments_rejoined :
  forall (argv : list bstring) (startIndex : nat),
    splitTokens (joinArguments argv startIndex)
      = flat_map splitTokens (skipn startIndex argv) /\
    (Forall is_word (skipn startIndex argv) ->
     splitTokens (joinArguments argv startIndex) = skipn startIndex argv).
Proof.
  intros argv startIndex. unfold joinArguments.
  rewrite splitTokens_joinArguments_loop. split; [reflexivity|].
  induction 1 as [|a args Ha _ IH]; [reflexivity|].
  cbn [flat_map]. rewrite IH, (splitTokens_word a Ha). reflexivity.
Qed.

(** ** The arguments of [main] *)

Section Argument_loop_properties.
Variable stoul : bstring -> option Z.

Lemma splitTokens_transfer_command (op a b : bstring) :
  is_word op ->
  splitTokens (op ++ space :: a ++ space :: b)
    = op :: splitTokens a ++ splitTokens b.
Proof.
  intros Hop. unfold splitTokens at 1.
  rewrite splitTokens_from_app. fold (splitTokens op).
  rewrite (splitTokens_word op Hop). unfold splitTokens at 1.
  rewrite splitTokens_from_app. reflexivity.
Qed.

(** X15.  The first argument that is not an option ends the options: it and
    everything after it, options included, become the one-shot command,
    joined with single spaces, and the program will not be interactive.  So
    [u3vdb ls -r] sends [ls -r] and does not reset the session. *)
Theorem free_argument_ends_options :
  forall (a : Arguments_) (arg : bstring) (rest : list bstring),
    is_option arg = false ->
    parse_arguments stoul a (arg :: rest)
      = Proceed (mkArguments false (arg_interactiveMode a) (arg_resetSession a)
                   (joinArguments (arg :: rest) 0)
                   (arg_password a) (arg_serialFilter a) (arg_vendorId a)
                   (arg_productId a)) /\
    splitTokens (joinArguments (arg :: rest) 0) = flat_map splitTokens (arg :: rest).
Proof.
  intros a arg rest H. split.
  - unfold is_option in H. cbn [existsb map] in H.
    repeat (apply orb_false_elim in H; destruct H as (? & H)).
    cbn [parse_arguments]. unfold is_arg.
    repeat match goal with E : bytes_eqb arg _ = false |- _ => rewrite E; clear E end.
    reflexivity.
  - apply (arguments_rejoined (arg :: rest) 0).
Qed.

(** X16.  [-get remote local] is the one-shot command [u3vget remote
    local], which [runOnce] cuts into tokens again.  When both paths are
    words, the run is the download of [remote] to [local].  When the two
    paths do not make exactly two tokens (a space in a path, an empty
    path), nothing is transferred: the run prints the usage line of
    [u3vget] and succeeds. *)
Theorem get_option_runs_download :
  forall (a : Arguments_) (remote local : bstring) (rest : list bstring)
         (fuel : nat) (s : State),
    let a' := mkArguments false (arg_interactiveMode a) (arg_resetSession a)
                (B "u3vget " ++ remote ++ B " " ++ local)
                (arg_password a) (arg_serialFilter a) (arg_vendorId a)
                (arg_productId a) in
    parse_arguments stoul a (B "-get" :: remote :: local :: rest)
      = parse_arguments stoul a' rest /\
    splitTokens (arg_singleCommand a')
      = B "u3vget" :: splitTokens remote ++ splitTokens local /\
    (is_word remote -> is_word local ->
     runOnce fuel (arg_singleCommand a') s = performFileDownload fuel remote local s) /\
    (length (splitTokens remote ++ splitTokens local) <> 2%nat ->
     exists s',
       runOnce fuel (arg_singleCommand a') s = Done true s' /\
       trace s' = trace s ++ [Cerr UsageGet] /\
       sent_by (runOnce fuel (arg_singleCommand a')) s = []).
Proof.
  intros a remote local rest fuel s a'.
  assert (Ht : splitTokens (arg_singleCommand a')
               = B "u3vget" :: splitTokens remote ++ splitTokens local).
  { apply (splitTokens_transfer_command (B "u3vget") remote local).
    split; [discriminate | reflexivity]. }
  split; [reflexivity|]. split; [exact Ht|].
  pose proof (handleFileTransferCommand_tokens fuel (arg_singleCommand a')) as H.
  rewrite Ht in H. destruct H as (_ & Hget & _).
  destruct (Hget eq_refl) as (Hrun & Husage). split.
  - intros Hr Hl. apply runOnce_transfer. apply Hrun.
    rewrite (splitTokens_word _ Hr), (splitTokens_word _ Hl). reflexivity.
  - intros Hn. destruct (runOnce_usage fuel (arg_singleCommand a') s UsageGet
                           (Husage Hn)) as (s' & E & T & F & _).
    exists s'. auto.
Qed.
End Argument_loop_properties.

Lemma free_argument_ends_options_witness :
  parse_arguments (fun _ => None) no_arguments [B "ls"; B "-r"]
    = Proceed (mkArguments false 2 false (B "ls -r") [] [] kVendorId kProductId) /\
  splitTokens (B "ls -r") = [B "ls"; B "-r"].
Proof.
  apply (free_argument_ends_options (fun _ => None) no_arguments (B "ls") [B "-r"]).
  reflexivity.
Defined.


(** ** The search for the control interface *)

Lemma search_altsettings_first alts :
  match Descriptors.search_altsettings alts with
  | Some found =>
      exists before idesc after,
        alts = before ++ idesc :: after /\
        Forall (fun d => Descriptors.control_interface d = None) before /\
        Descriptors.control_interface idesc = Some found
  | None => Forall (fun d => Descriptors.control_interface d = None) alts
  end.
Proof.
  induction alts as [|d alts IH]; cbn [Descriptors.search_altsettings].
  - constructor.
  - destruct (Descriptors.control_interface d) as [found|] eqn:E.
    + exists [], d, alts. auto.
    + destruct (Descriptors.search_altsettings alts) as [found|].
      * destruct IH as (before & idesc & after & -> & F & C).
        exists (d :: before), idesc, after. auto.
      * constructor; assumption.
Qed.

Lemma search_interfaces_first intfs :
  match Descriptors.search_interfaces intfs with
  | Some found =>
      exists before idesc after,
        flat_map Descriptors.altsetting intfs = before ++ idesc :: after /\
        Forall (fun d => Descriptors.control_interface d = None) before /\
        Descriptors.control_interface idesc = Some found
  | None =>
      Forall (fun d => Descriptors.control_interface d = None)
             (flat_map Descriptors.altsetting intfs)
  end.
Proof.
  induction intfs as [|i intfs IH];
    cbn [Descriptors.search_interfaces flat_map].
  - constructor.
  - pose proof (search_altsettings_first (Descriptors.altsetting i)) as H.
    destruct (Descriptors.search_altsettings (Descriptors.altsetting i))
      as [found|].
    + destruct H as (before & idesc & after & E & F & C).
      exists before, idesc, (after ++ flat_map Descriptors.altsetting intfs).
      rewrite E, <- app_assoc. auto.
    + destruct (Descriptors.search_interfaces intfs) as [found|].
      * destruct IH as (before & idesc & after & E & F & C).
        exists (Descriptors.altsetting i ++ before), idesc, after.
        rewrite E, <- app_assoc. split; [reflexivity|].
        split; [apply Forall_app; auto | exact C].
      * apply Forall_app. auto.
Qed.

Lemma last_endpoint_snoc p eps ep :
  Descriptors.last_endpoint p (eps ++ [ep])
    = if p ep then Some ep else Descriptors.last_endpoint p eps.
Proof.
  unfold Descriptors.last_endpoint. rewrite rev_app_distr. reflexivity.
Qed.

Lemma last_endpoint_in p eps ep :
  Descriptors.last_endpoint p eps = Some ep -> In ep eps /\ p ep = true.
Proof.
  unfold Descriptors.last_endpoint. intros H. apply find_some in H.
  destruct H as (Hin & Hp). split; [apply in_rev; exact Hin | exact Hp].
Qed.

Lemma last_endpoint_none p eps :
  Descriptors.last_endpoint p eps = None <-> forall ep, In ep eps -> p ep = false.
Proof.
  unfold Descriptors.last_endpoint. split.
  - intros H ep Hin. apply (find_none _ _ H). apply in_rev in Hin. exact Hin.
  - intros H. destruct (find p (rev eps)) as [ep|] eqn:E; [|reflexivity].
    apply find_some in E. destruct E as (Hin & Hp).
    apply in_rev in Hin. rewrite (H ep Hin) in Hp. discriminate.
Qed.

(** The loop over the endpoints ends with the addresses of the last bulk IN
    and the last bulk OUT endpoint, where there is one. *)
Lemma scan_endpoints_last eps : forall epIn epOut,
  fold_left Descriptors.scan_endpoint eps (epIn, epOut)
    = (match Descriptors.last_endpoint Descriptors.bulk_in eps with
       | Some ep => Descriptors.bEndpointAddress ep
       | None => epIn
       end,
       match Descriptors.last_endpoint Descriptors.bulk_out eps with
       | Some ep => Descriptors.bEndpointAddress ep
       | None => epOut
       end).
Proof.
  induction eps as [|ep eps IH] using rev_ind; intros epIn epOut; [reflexivity|].
  rewrite fold_left_app, IH, !last_endpoint_snoc. cbn [fold_left].
  unfold Descriptors.scan_endpoint, Descriptors.bulk_in, Descriptors.bulk_out.
  cbv zeta. cbn [fst snd].
  destruct (Z.land (Descriptors.bmAttributes ep) 3
            =? Descriptors.LIBUSB_TRANSFER_TYPE_BULK); cbn [andb]; [|reflexivity].
  destruct (Z.land (Descriptors.bEndpointAddress ep) 128 =? 0); reflexivity.
Qed.

Lemma bulk_in_address ep :
  Descriptors.bulk_in ep = true ->
  Descriptors.is_bulk ep /\ Z.land (Descriptors.bEndpointAddress ep) 0x80 <> 0 /\
  Descriptors.bEndpointAddress ep <> 0.
Proof.
  unfold Descriptors.bulk_in, Descriptors.is_bulk. intros H.
  apply andb_prop in H. destruct H as (Hb & Hd).
  apply Z.eqb_eq in Hb. apply negb_true_iff, Z.eqb_neq in Hd.
  split; [exact Hb|]. split; [exact Hd|]. intros E. rewrite E in Hd.
  apply Hd. reflexivity.
Qed.

Lemma bulk_out_address ep :
  Descriptors.bulk_out ep = true ->
  Descriptors.is_bulk ep /\ Z.land (Descriptors.bEndpointAddress ep) 0x80 = 0.
Proof.
  unfold Descriptors.bulk_out, Descriptors.is_bulk. intros H.
  apply andb_prop in H. destruct H as (Hb & Hd).
  apply Z.eqb_eq in Hb. apply Z.eqb_eq in Hd. auto.
Qed.

(** The body of the loops accepts the settings that qualify, and returns
    their number and the addresses of their last bulk endpoints. *)
Lemma control_interface_qualifies idesc :
  Descriptors.control_interface idesc
    = if Descriptors.qualifies idesc then
        match Descriptors.last_endpoint Descriptors.bulk_in
                (Descriptors.endpoint idesc),
              Descriptors.last_endpoint Descriptors.bulk_out
                (Descriptors.endpoint idesc) with
        | Some eIn, Some eOut =>
            Some (Descriptors.bInterfaceNumber idesc,
                  Descriptors.bEndpointAddress eOut,
                  Descriptors.bEndpointAddress eIn)
        | _, _ => None
        end
      else None.
Proof.
  unfold Descriptors.control_interface, Descriptors.qualifies.
  destruct ((Descriptors.bInterfaceClass idesc =? 239)
            && (Descriptors.bInterfaceSubClass idesc =? 5)
            && (Descriptors.bInterfaceProtocol idesc =? 0)); cbn [andb];
    [|reflexivity].
  cbv zeta. rewrite scan_endpoints_last. cbn [fst snd].
  destruct (Descriptors.last_endpoint Descriptors.bulk_in
              (Descriptors.endpoint idesc)) as [eIn|] eqn:Ei.
  - destruct (last_endpoint_in _ _ _ Ei) as (_ & Hi).
    destruct (bulk_in_address _ Hi) as (_ & _ & Hn).
    apply Z.eqb_neq in Hn. rewrite Hn. cbn [negb andb].
    destruct (Descriptors.last_endpoint Descriptors.bulk_out
                (Descriptors.endpoint idesc)) as [eOut|]; [|reflexivity].
    destruct (Descriptors.bEndpointAddress eOut =? 0); reflexivity.
  - reflexivity.
Qed.

Lemma control_interface_none idesc :
  Descriptors.control_interface idesc = None <-> Descriptors.qualifies idesc = false.
Proof.
  rewrite control_interface_qualifies.
  destruct (Descriptors.qualifies idesc) eqn:Q; [|tauto].
  unfold Descriptors.qualifies in Q.
  destruct (Descriptors.last_endpoint Descriptors.bulk_in
              (Descriptors.endpoint idesc));
    [|rewrite andb_false_r in Q; discriminate].
  destruct (Descriptors.last_endpoint Descriptors.bulk_out
              (Descriptors.endpoint idesc));
    [|rewrite andb_false_r in Q; discriminate].
  split; discriminate.
Qed.

(** X17.  [findU3VControlInterface] returns the first alternate setting, in
    the order interfaces and their alternate settings are listed, that
    qualifies: class 0xEF, subclass 5, protocol 0, a bulk IN endpoint, and a
    last bulk OUT endpoint whose address is not 0.  It returns the number of
    that setting and the addresses of its last bulk IN and its last bulk OUT
    endpoint.  It fails exactly when no alternate setting qualifies. *)
Theorem control_interface_is_first_match :
  forall (cfg : Descriptors.libusb_config_descriptor),
    (forall d,
       Descriptors.qualifies d = true <->
       Descriptors.bInterfaceClass d = 0xEF /\
       Descriptors.bInterfaceSubClass d = 0x05 /\
       Descriptors.bInterfaceProtocol d = 0x00 /\
       (exists ep, In ep (Descriptors.endpoint d) /\
                   Descriptors.is_bulk ep /\
                   Z.land (Descriptors.bEndpointAddress ep) 0x80 <> 0) /\
       (exists ep, Descriptors.last_endpoint Descriptors.bulk_out
                     (Descriptors.endpoint d) = Some ep /\
                   Descriptors.bEndpointAddress ep <> 0)) /\
    match Descriptors.findU3VControlInterface cfg with
    | Some (number, epOut, epIn) =>
        exists before idesc after eIn eOut,
          Descriptors.settings cfg = before ++ idesc :: after /\
          Forall (fun d => Descriptors.qualifies d = false) before /\
          Descriptors.qualifies idesc = true /\
          number = Descriptors.bInterfaceNumber idesc /\
          Descriptors.last_endpoint Descriptors.bulk_in
            (Descriptors.endpoint idesc) = Some eIn /\
          epIn = Descriptors.bEndpointAddress eIn /\
          Descriptors.last_endpoint Descriptors.bulk_out
            (Descriptors.endpoint idesc) = Some eOut /\
          epOut = Descriptors.bEndpointAddress eOut /\
          In eIn (Descriptors.endpoint idesc) /\ Descriptors.is_bulk eIn /\
          Z.land epIn 0x80 <> 0 /\
          In eOut (Descriptors.endpoint idesc) /\ Descriptors.is_bulk eOut /\
          Z.land epOut 0x80 = 0 /\ epOut <> 0
    | None =>
        Forall (fun d => Descriptors.qualifies d = false)
               (Descriptors.settings cfg)
    end.
Proof.
  intros cfg. split.
  - intros d. unfold Descriptors.qualifies. split.
    + intros Q.
      apply andb_prop in Q. destruct Q as (Q & E).
      apply andb_prop in Q. destruct Q as (Q & P).
      apply andb_prop in Q. destruct Q as (C & S).
      apply Z.eqb_eq in C, S, P.
      destruct (Descriptors.last_endpoint Descriptors.bulk_in
                  (Descriptors.endpoint d)) as [eIn|] eqn:Ei; [|discriminate].
      destruct (Descriptors.last_endpoint Descriptors.bulk_out
                  (Descriptors.endpoint d)) as [eOut|] eqn:Eo; [|discriminate].
      apply negb_true_iff, Z.eqb_neq in E.
      destruct (last_endpoint_in _ _ _ Ei) as (Hin & Hi).
      destruct (bulk_in_address _ Hi) as (Hb & Hd & _).
      repeat (split; [assumption|]). split; eauto.
    + intros (C & S & P & (ep & Hin & Hb & Hd) & (eOut & Eo & Hn)).
      apply Z.eqb_eq in C, S, P. rewrite C, S, P, Eo. cbn [andb].
      destruct (Descriptors.last_endpoint Descriptors.bulk_in
                  (Descriptors.endpoint d)) as [eIn|] eqn:Ei.
      * apply negb_true_iff, Z.eqb_neq. exact Hn.
      * exfalso. rewrite last_endpoint_none in Ei. specialize (Ei ep Hin).
        unfold Descriptors.bulk_in, Descriptors.is_bulk in *.
        apply Z.eqb_eq in Hb. apply Z.eqb_neq in Hd.
        rewrite Hb, Hd in Ei. discriminate.
  - unfold Descriptors.findU3VControlInterface, Descriptors.settings.
    pose proof (search_interfaces_first (Descriptors.interface cfg)) as H.
    destruct (Descriptors.search_interfaces (Descriptors.interface cfg))
      as [[[number epOut] epIn]|].
    2:{ eapply Forall_impl; [|exact H]. intros d. apply control_interface_none. }
    destruct H as (before & idesc & after & E & F & C).
    rewrite control_interface_qualifies in C.
    destruct (Descriptors.qualifies idesc) eqn:Q; [|discriminate].
    destruct (Descriptors.last_endpoint Descriptors.bulk_in
                (Descriptors.endpoint idesc)) as [eIn|] eqn:Ei; [|discriminate].
    destruct (Descriptors.last_endpoint Descriptors.bulk_out
                (Descriptors.endpoint idesc)) as [eOut|] eqn:Eo; [|discriminate].
    injection C as <- <- <-.
    destruct (last_endpoint_in _ _ _ Ei) as (Hin & Hi).
    destruct (last_endpoint_in _ _ _ Eo) as (Hon & Ho).
    destruct (bulk_in_address _ Hi) as (Hbi & Hdi & _).
    destruct (bulk_out_address _ Ho) as (Hbo & Hdo).
    assert (Hnz : Descriptors.bEndpointAddress eOut <> 0).
    { unfold Descriptors.qualifies in Q. rewrite Ei, Eo in Q.
      apply andb_prop in Q. destruct Q as (_ & Q).
      apply negb_true_iff, Z.eqb_neq in Q. exact Q. }
    exists before, idesc, after, eIn, eOut.
    split; [exact E|]. split.
    { eapply Forall_impl; [|exact F]. intros d. apply control_interface_none. }
    repeat (split; [first [assumption | reflexivity]|]). exact Hnz.
Qed.

Lemma control_interface_is_first_match_witness :
  Descriptors.findU3VControlInterface Descriptors.camera_config
    = Some (1, 0x04, 0x84) /\
  map Descriptors.qualifies (Descriptors.settings Descriptors.camera_config)
    = [false; false; true; true] /\
  exists before idesc after eIn eOut,
    Descriptors.settings Descriptors.camera_config = before ++ idesc :: after /\
    Forall (fun d => Descriptors.qualifies d = false) before /\
    Descriptors.qualifies idesc = true /\
    1 = Descriptors.bInterfaceNumber idesc /\
    Descriptors.last_endpoint Descriptors.bulk_in
      (Descriptors.endpoint idesc) = Some eIn /\
    0x84 = Descriptors.bEndpointAddress eIn /\
    Descriptors.last_endpoint Descriptors.bulk_out
      (Descriptors.endpoint idesc) = Some eOut /\
    0x04 = Descriptors.bEndpointAddress eOut /\
    In eIn (Descriptors.endpoint idesc) /\ Descriptors.is_bulk eIn /\
    Z.land 0x84 0x80 <> 0 /\
    In eOut (Descriptors.endpoint idesc) /\ Descriptors.is_bulk eOut /\
    Z.land 0x04 0x80 = 0 /\ 0x04 <> 0.
Proof.
  split; [reflexivity|]. split; [reflexivity|].
  exact (proj2 (control_interface_is_first_match Descriptors.camera_config)).
Defined.

(** ** Plain typing *)

Lemma interactiveLoopV2_byte_plain fuel ch st s :
  plain_key (currentLine st) ch = true ->
  interactiveLoopV2_byte fuel ch st s
    = Done (mkLine (edit_key (currentLine st) ch) (toSend st ++ [ch])
                   (exitRequested st)) s.
Proof.
  unfold plain_key, interactiveLoopV2_byte, edit_key. intros H.
  apply andb_prop in H. destruct H as (Hx & H).
  destruct (Byte.eqb ch kExitKey); [discriminate|].
  destruct (Byte.eqb ch carriage_return || Byte.eqb ch newline).
  - apply andb_prop in H. destruct H as (He & Ht).
    destruct (bytes_eqb (currentLine st) (B "exit")); [discriminate|].
    destruct (tryHandleFileTransferCommand (currentLine st)); [discriminate|].
    reflexivity.
  - destruct (Byte.eqb ch delete_key || Byte.eqb ch backspace); [reflexivity|].
    destruct (isprint ch); reflexivity.
Qed.

Lemma interactiveLoopV2_bytes_plain fuel inBuf : forall st s,
  plain_typing (currentLine st) inBuf = true ->
  interactiveLoopV2_bytes fuel inBuf st s
    = Done (mkLine (fold_left edit_key inBuf (currentLine st))
                   (toSend st ++ inBuf) (exitRequested st)) s.
Proof.
  induction inBuf as [|ch inBuf IH]; intros st s H;
    cbn [interactiveLoopV2_bytes fold_left plain_typing] in *.
  - rewrite app_nil_r. destruct st; reflexivity.
  - apply andb_prop in H. destruct H as (Hk & H).
    rewrite (bind_Done _ _ _ _ _ (interactiveLoopV2_byte_plain fuel ch st s Hk)).
    rewrite IH by exact H. cbn [currentLine toSend exitRequested].
    rewrite <- app_assoc. reflexivity.
Qed.

(** X18.  Plain typing goes to the device byte for byte.  A batch of keys
    read from the keyboard that holds no Ctrl+] and ends no line reading
    [exit] or starting with [u3vget] or [u3vput] is written to the TTY Data
    register in one request, unchanged (Return, backspace and control
    characters included); the host only keeps its copy of the line up to
    date, and the loop goes on unless the write fails. *)
Theorem plain_typing_forwarded :
  forall (fuel : nat) (inBuf line : bstring) (s : State),
    inBuf <> [] -> (length inBuf <= 256)%nat ->
    plain_typing line inBuf = true ->
    claimed_ (device_ s) = true ->
    let id := uint16 (requestId_ (device_ s) + 1) in
    sent_by (interactiveLoopV2_input fuel inBuf line) s
      = [UVCPWriteMemoryCmd id kTerminalDataAddr inBuf (Z.of_nat (length inBuf))] /\
    tty_writes (events_of (interactiveLoopV2_input fuel inBuf line) s) = [inBuf] /\
    exists (sent : bool) s',
      interactiveLoopV2_input fuel inBuf line s
        = Done (if sent then @None bool else Some false, fold_left edit_key inBuf line) s'.
Proof.
  intros fuel inBuf line s Hne Hlen Hp Hc id.
  assert (H16 : uint16 (Z.of_nat (length inBuf)) = Z.of_nat (length inBuf))
    by (apply uint16_small; lia).
  assert (Hpos : Z.of_nat (length inBuf) <> 0)
    by (destruct inBuf; [congruence | cbn; lia]).
  assert (E : interactiveLoopV2_input fuel inBuf line s
              = bind (writeMemory kTerminalDataAddr inBuf (Z.of_nat (length inBuf)))
                  (fun sent => ret (if sent then @None bool else Some false,
                                    fold_left edit_key inBuf line)) s).
  { unfold interactiveLoopV2_input. destruct inBuf as [|c inBuf]; [congruence|].
    rewrite (bind_Done _ _ _ _ _
               (interactiveLoopV2_bytes_plain fuel (c :: inBuf) (mkLine line [] false) s Hp)).
    cbn [toSend currentLine exitRequested app]. rewrite H16.
    unfold bind. destruct (writeMemory _ _ _ s) as [[|] s1|s1|s1]; reflexivity. }
  destruct (writeMemory_cost kTerminalDataAddr inBuf (Z.of_nat (length inBuf)) s
              ltac:(lia)) as (_ & sent & s1 & Ew).
  assert (Hs : state_of (interactiveLoopV2_input fuel inBuf line s)
               = state_of (writeMemory kTerminalDataAddr inBuf
                             (Z.of_nat (length inBuf)) s)).
  { rewrite E, (bind_Done _ _ _ _ _ Ew), Ew. reflexivity. }
  assert (Hf : sent_by (interactiveLoopV2_input fuel inBuf line) s
               = [UVCPWriteMemoryCmd id kTerminalDataAddr inBuf
                    (Z.of_nat (length inBuf))]).
  { unfold sent_by, events_of. rewrite Hs.
    destruct (writeMemory_frames kTerminalDataAddr inBuf (Z.of_nat (length inBuf)) s
                ltac:(lia)) as (_ & [(_ & [H|H])|(H & _)]);
      [congruence | congruence | exact H]. }
  split; [exact Hf|]. split.
  - unfold sent_by in Hf. rewrite (tty_writes_one _ _ _ _ Hf), Nat2Z.id.
    rewrite firstn_all. reflexivity.
  - exists sent, s1. rewrite E, (bind_Done _ _ _ _ _ Ew). reflexivity.
Qed.

Lemma plain_typing_forwarded_witness :
  sent_by (interactiveLoopV2_input 10 (B "ls" ++ [carriage_return]) [])
          typing_ls_state
    = [UVCPWriteMemoryCmd 1 kTerminalDataAddr (B "ls" ++ [carriage_return]) 3] /\
  tty_writes (events_of (interactiveLoopV2_input 10 (B "ls" ++ [carriage_return]) [])
                        typing_ls_state)
    = [B "ls" ++ [carriage_return]] /\
  exists (sent : bool) s',
    interactiveLoopV2_input 10 (B "ls" ++ [carriage_return]) [] typing_ls_state
      = Done (if sent then @None bool else Some false,
              fold_left edit_key (B "ls" ++ [carriage_return]) []) s'.
Proof.
  apply (plain_typing_forwarded 10 (B "ls" ++ [carriage_return]) [] typing_ls_state);
    [discriminate | cbn; lia | reflexivity | reflexivity].
Defined.

(** ** The [exit] interception, frame by frame *)

(** A chunk of plain keys goes out in one write, as it was typed. *)
Lemma interactiveLoopV2_input_plain fuel inBuf line s :
  inBuf <> [] -> (length inBuf <= 256)%nat ->
  plain_typing line inBuf = true ->
  claimed_ (device_ s) = true ->
  tty_writes (events_of (interactiveLoopV2_input fuel inBuf line) s) = [inBuf] /\
  exists (sent : bool) s',
    interactiveLoopV2_input fuel inBuf line s
      = Done (if sent then @None bool else Some false, fold_left edit_key inBuf line) s'.
Proof.
  intros Hne Hlen Hp Hc.
  assert (H16 : uint16 (Z.of_nat (length inBuf)) = Z.of_nat (length inBuf))
    by (apply uint16_small; lia).
  assert (Hpos : Z.of_nat (length inBuf) <> 0)
    by (destruct inBuf; [congruence | cbn; lia]).
  assert (E : interactiveLoopV2_input fuel inBuf line s
              = bind (writeMemory kTerminalDataAddr inBuf (Z.of_nat (length inBuf)))
                  (fun sent => ret (if sent then @None bool else Some false,
                                    fold_left edit_key inBuf line)) s).
  { unfold interactiveLoopV2_input. destruct inBuf as [|c inBuf]; [congruence|].
    rewrite (bind_Done _ _ _ _ _
               (interactiveLoopV2_bytes_plain fuel (c :: inBuf) (mkLine line [] false) s Hp)).
    cbn [toSend currentLine exitRequested app]. rewrite H16.
    unfold bind. destruct (writeMemory _ _ _ s) as [[|] s1|s1|s1]; reflexivity. }
  destruct (writeMemory_cost kTerminalDataAddr inBuf (Z.of_nat (length inBuf)) s
              ltac:(lia)) as (_ & sent & s1 & Ew).
  split.
  - assert (Hs : events_of (interactiveLoopV2_input fuel inBuf line) s
                 = events_of (writeMemory kTerminalDataAddr inBuf
                                (Z.of_nat (length inBuf))) s).
    { unfold events_of. rewrite E, (bind_Done _ _ _ _ _ Ew), Ew. reflexivity. }
    rewrite Hs.
    destruct (writeMemory_frames kTerminalDataAddr inBuf (Z.of_nat (length inBuf)) s
                ltac:(lia)) as (_ & [(_ & [H|H])|(H & _)]);
      [congruence | congruence |].
    unfold sent_by in H. rewrite (tty_writes_one _ _ _ _ H), Nat2Z.id.
    rewrite firstn_all. reflexivity.
  - exists sent, s1. rewrite E, (bind_Done _ _ _ _ _ Ew). reflexivity.
Qed.

(** C4, amended.  When CR or LF arrives while the line buffer reads [exit],
    the host appends four backspaces to the bytes of this input chunk that
    are still waiting to be sent and writes them to the TTY Data register in
    one request, which is the only frame it sends: neither a newline nor the
    CR or LF itself goes out.  The line and the pending bytes are cleared,
    the exit flag is raised, and the loop returns once the rest of the chunk
    has been processed, without polling the device again; when the CR or LF
    ends the chunk it returns [true] right after the write.  The typed word
    is not held back: after plain keys the bytes that wait are those very
    keys, so the keys of this chunk precede the backspaces in the same
    write, and a chunk of plain keys goes out as it was typed. *)
Theorem exit_interception :
  forall (budget : nat) (ch : byte),
    ch = carriage_return \/ ch = newline ->
    (forall (st : LineState) (s : State),
       currentLine st = B "exit" ->
       claimed_ (device_ s) = true ->
       (length (toSend st) <= 256)%nat ->
       let out := toSend st ++ four_backspaces in
       let step := interactiveLoopV2_byte budget ch st in
       sent_by step s
         = [UVCPWriteMemoryCmd (uint16 (requestId_ (device_ s) + 1))
              kTerminalDataAddr out (Z.of_nat (length out))] /\
       tty_writes (events_of step s) = [out] /\
       step s = Done (mkLine [] [] true) (state_of (step s))) /\
    (forall (fuel : nat) (lastPoll : Z) (line pre post : bstring)
            (st : LineState) (s0 s1 s : State),
       select_read s0 = Done (pre ++ ch :: post) s1 ->
       interactiveLoopV2_bytes budget pre (mkLine line [] false) s1 = Done st s ->
       currentLine st = B "exit" ->
       (forall r s',
          interactiveLoopV2_input budget (pre ++ ch :: post) line s1 = Done r s' ->
          exists b,
            fst r = Some b /\
            interactiveLoopV2_loop budget (S fuel) lastPoll line s0 = Done b s') /\
       (post = [] ->
        claimed_ (device_ s) = true ->
        (length (toSend st) <= 256)%nat ->
        interactiveLoopV2_loop budget (S fuel) lastPoll line s0
          = Done true (state_of (interactiveLoopV2_byte budget ch st s)))) /\
    (forall (line pre : bstring) (s : State),
       plain_typing line pre = true ->
       fold_left edit_key pre line = B "exit" ->
       interactiveLoopV2_bytes budget pre (mkLine line [] false) s
         = Done (mkLine (B "exit") pre false) s) /\
    (forall (keys line : bstring) (s : State),
       keys <> [] -> (length keys <= 256)%nat ->
       plain_typing line keys = true ->
       claimed_ (device_ s) = true ->
       tty_writes (events_of (interactiveLoopV2_input budget keys line) s) = [keys] /\
       exists (sent : bool) s',
         interactiveLoopV2_input budget keys line s
           = Done (if sent then @None bool else Some false,
                   fold_left edit_key keys line) s').
Proof.
  intros budget ch Hch.
  assert (Hstep : forall (st : LineState) (s : State),
             currentLine st = B "exit" ->
             claimed_ (device_ s) = true ->
             (length (toSend st) <= 256)%nat ->
             sent_by (interactiveLoopV2_byte budget ch st) s
               = [UVCPWriteMemoryCmd (uint16 (requestId_ (device_ s) + 1))
                    kTerminalDataAddr (toSend st ++ four_backspaces)
                    (Z.of_nat (length (toSend st ++ four_backspaces)))] /\
             interactiveLoopV2_byte budget ch st s
               = Done (mkLine [] [] true)
                      (state_of (interactiveLoopV2_byte budget ch st s))).
  { intros st s Hline Hc Hlen.
    set (out := toSend st ++ four_backspaces).
    assert (Hl : Z.of_nat (length out) = Z.of_nat (length (toSend st)) + 4).
    { unfold out. rewrite length_app. unfold four_backspaces. cbn [length]. lia. }
    assert (E : interactiveLoopV2_byte budget ch st s
                = bind (writeMemory kTerminalDataAddr out (Z.of_nat (length out)))
                       (fun _ => ret (mkLine [] [] true)) s).
    { rewrite (interactiveLoopV2_byte_exit budget ch st Hch Hline).
      fold out. rewrite uint16_small by lia. reflexivity. }
    destruct (writeMemory_cost kTerminalDataAddr out (Z.of_nat (length out)) s
                ltac:(lia)) as (_ & ok & s2 & Ew).
    assert (Eu : interactiveLoopV2_byte budget ch st s = Done (mkLine [] [] true) s2).
    { rewrite E, (bind_Done _ _ _ _ _ Ew). reflexivity. }
    split; [|rewrite Eu; reflexivity].
    unfold sent_by, events_of. rewrite Eu. cbn [state_of].
    destruct (writeMemory_frames kTerminalDataAddr out (Z.of_nat (length out)) s
                ltac:(lia)) as (_ & [(_ & [H|H])|(H & _)]); [congruence | lia |].
    unfold sent_by, events_of in H. rewrite Ew in H. cbn [state_of] in H.
    exact H. }
  split; [|split; [|split]].
  - intros st s Hline Hc Hlen out step.
    destruct (Hstep st s Hline Hc Hlen) as (Hf & Hd).
    split; [exact Hf|]. split; [|exact Hd].
    unfold sent_by in Hf. fold step out in Hf.
    rewrite (tty_writes_one _ _ _ _ Hf), Nat2Z.id, firstn_all. reflexivity.
  - intros fuel lastPoll line pre post st s0 s1 s Hsel Hpre Hline.
    assert (Hloop : forall r s',
               interactiveLoopV2_input budget (pre ++ ch :: post) line s1 = Done r s' ->
               exists b,
                 fst r = Some b /\
                 interactiveLoopV2_loop budget (S fuel) lastPoll line s0 = Done b s').
    { intros r s' Hin.
      assert (Hr : exists b, fst r = Some b).
      { assert (Eq : exists c0 l0, pre ++ ch :: post = c0 :: l0).
        { destruct pre; cbn; eauto. }
        destruct Eq as (c0 & l0 & Eq). pose proof Hin as Hin'.
        rewrite Eq, interactiveLoopV2_input_cons, <- Eq in Hin'. clear Eq c0 l0.
        apply bind_inv in Hin'. destruct Hin' as (stf & sf & Ebytes & Hin').
        rewrite interactiveLoopV2_bytes_app in Ebytes.
        rewrite (bind_Done _ _ _ _ _ Hpre) in Ebytes.
        cbn [interactiveLoopV2_bytes] in Ebytes.
        apply bind_inv in Ebytes. destruct Ebytes as (st1 & s2 & E1 & Ebytes).
        rewrite (interactiveLoopV2_byte_exit budget ch st Hch Hline) in E1.
        apply bind_inv in E1. destruct E1 as (? & ? & _ & E1).
        unfold ret in E1. inversion E1; subst st1.
        assert (Hx : exitRequested stf = true).
        { eapply exitRequested_sticky; [exact Ebytes | reflexivity]. }
        apply bind_inv in Hin'. destruct Hin' as (sent & s3 & _ & Hin').
        destruct sent; cbn [negb] in Hin'.
        - rewrite Hx in Hin'. unfold ret in Hin'. inversion Hin'. cbn. eauto.
        - unfold ret in Hin'. inversion Hin'. cbn. eauto. }
      destruct Hr as (b & Hb). exists b. split; [exact Hb|].
      cbn [interactiveLoopV2_loop]. rewrite (bind_Done _ _ _ _ _ Hsel).
      rewrite (bind_Done _ _ _ _ _ Hin). destruct r as (leave & line').
      cbn [fst] in Hb. rewrite Hb. reflexivity. }
    split; [exact Hloop|].
    intros -> Hc Hlen. destruct (Hstep st s Hline Hc Hlen) as (_ & Hd).
    assert (Hin : interactiveLoopV2_input budget (pre ++ [ch]) line s1
                  = Done (Some true, [])
                         (state_of (interactiveLoopV2_byte budget ch st s))).
    { assert (Eq : exists c0 l0, pre ++ [ch] = c0 :: l0) by (destruct pre; cbn; eauto).
      destruct Eq as (c0 & l0 & Eq).
      rewrite Eq, interactiveLoopV2_input_cons, <- Eq.
      assert (Eb : interactiveLoopV2_bytes budget (pre ++ [ch]) (mkLine line [] false) s1
                   = Done (mkLine [] [] true)
                          (state_of (interactiveLoopV2_byte budget ch st s))).
      { rewrite interactiveLoopV2_bytes_app, (bind_Done _ _ _ _ _ Hpre).
        cbn [interactiveLoopV2_bytes].
        rewrite (bind_Done _ _ _ _ _ Hd). reflexivity. }
      rewrite (bind_Done _ _ _ _ _ Eb). reflexivity. }
    destruct (Hloop _ _ Hin) as (b & Hb & Hl). cbn [fst] in Hb.
    injection Hb as <-. exact Hl.
  - intros line pre s Hp Hline.
    rewrite (interactiveLoopV2_bytes_plain budget pre (mkLine line [] false) s Hp).
    cbn [currentLine toSend exitRequested app]. rewrite Hline. reflexivity.
  - intros keys line s. apply interactiveLoopV2_input_plain.
Qed.

Lemma exit_interception_witness :
  let s1 := state_of (select_read pasted_exit_state) in
  let st := mkLine (B "exit") (B "exit") false in
  let out := B "exit" ++ four_backspaces in
  let step := interactiveLoopV2_byte 10 carriage_return st in
  select_read pasted_exit_state = Done (B "exit" ++ carriage_return :: []) s1 /\
  interactiveLoopV2_bytes 10 (B "exit") (mkLine [] [] false) s1 = Done st s1 /\
  sent_by step s1 = [UVCPWriteMemoryCmd 1 kTerminalDataAddr out 8] /\
  tty_writes (events_of step s1) = [out] /\
  step s1 = Done (mkLine [] [] true) (state_of (step s1)) /\
  interactiveLoopV2_loop 10 10 0 [] pasted_exit_state
    = Done true (state_of (step s1)).
Proof.
  cbv zeta.
  assert (Hsel : select_read pasted_exit_state
                 = Done (B "exit" ++ carriage_return :: [])
                        (state_of (select_read pasted_exit_state)))
    by (vm_compute; reflexivity).
  destruct (exit_interception 10 carriage_return (or_introl eq_refl))
    as (A & L & P & _).
  pose proof (P [] (B "exit") (state_of (select_read pasted_exit_state))
                eq_refl eq_refl) as Hpre.
  destruct (A (mkLine (B "exit") (B "exit") false)
              (state_of (select_read pasted_exit_state))
              eq_refl eq_refl ltac:(cbn; lia)) as (F & W & U).
  destruct (L 9%nat 0 [] (B "exit") []
              (mkLine (B "exit") (B "exit") false)
              pasted_exit_state (state_of (select_read pasted_exit_state))
              (state_of (select_read pasted_exit_state))
              Hsel Hpre eq_refl) as (_ & T).
  split; [exact Hsel|]. split; [exact Hpre|].
  split; [exact F|]. split; [exact W|]. split; [exact U|].
  apply T; [reflexivity | reflexivity | cbn; lia].
Defined.

(** ** What reaches the FileData window *)

Lemma file_data_writes_app a b :
  file_data_writes (a ++ b) = file_data_writes a ++ file_data_writes b.
Proof.
  unfold file_data_writes. rewrite sent_frames_app, filter_app, map_app.
  reflexivity.
Qed.

Lemma channel_frame_not_data pw f :
  requests (channel_writes pw) f -> is_write_to kTerminalFileDataAddr f = false.
Proof.
  intros [(id & a & n & ->) | (id & a & d & n & -> & Hw)]; unfold is_write_to.
  - rewrite frame_command_read. reflexivity.
  - rewrite frame_command_write, frame_address_write.
    destruct Hw as [[(-> & _) | [(_ & ->) | (_ & -> & _)]] | [-> | ->]];
      reflexivity.
Qed.

Lemma channel_no_data pw evs :
  Forall (channel_frames pw) evs -> file_data_writes evs = [].
Proof.
  unfold file_data_writes. induction 1 as [|e evs He _ IH]; [reflexivity|].
  destruct e; try exact IH.
  change (sent_frames (BulkOut frame :: evs)) with (frame :: sent_frames evs).
  cbn [filter]. rewrite (channel_frame_not_data pw frame He). exact IH.
Qed.

(** Steps that write nothing to the window. *)
Lemma uploads_channel pw content {A} (m : M A) :
  sends (has_password pw) (channel_frames pw) m -> uploads pw content m.
Proof.
  intros H s Hs. destruct (H s Hs) as (Hi & evs & T & F).
  split; [exact Hi|]. exists evs, 0%nat. split; [exact T|].
  rewrite (channel_no_data pw evs F). reflexivity.
Qed.

Lemma uploads_after pw content {A B} (m : M A) (k : A -> M B) :
  sends (has_password pw) (channel_frames pw) m ->
  (forall a, uploads pw content (k a)) ->
  uploads pw content (bind m k).
Proof.
  intros Hm Hk s Hs. destruct (Hm s Hs) as (Hi & evs & T & F). unfold bind.
  pose proof (channel_no_data pw evs F) as N.
  destruct (m s) as [a s1|s1|s1]; cbn [state_of] in *;
    try (split; [exact Hi|]; exists evs, 0%nat; split; [exact T|];
         rewrite N; reflexivity).
  destruct (Hk a s1 Hi) as (Hi2 & evs2 & n & T2 & P).
  split; [exact Hi2|]. exists (evs ++ evs2), n.
  rewrite T2, T, <- app_assoc, file_data_writes_app, N. auto.
Qed.

Lemma uploads_before pw content {A B} (m : M A) (k : A -> M B) :
  uploads pw content m ->
  (forall a, sends (has_password pw) (channel_frames pw) (k a)) ->
  uploads pw content (bind m k).
Proof.
  intros Hm Hk s Hs. destruct (Hm s Hs) as (Hi & evs & n & T & P). unfold bind.
  destruct (m s) as [a s1|s1|s1]; cbn [state_of] in *;
    try (split; [exact Hi|]; exists evs, n; auto).
  destruct (Hk a s1 Hi) as (Hi2 & evs2 & T2 & F).
  split; [exact Hi2|]. exists (evs ++ evs2), n.
  rewrite T2, T, <- app_assoc, file_data_writes_app, (channel_no_data pw evs2 F).
  rewrite app_nil_r. auto.
Qed.

Lemma session_in_channel pw {A} (m : M A) :
  sends (has_password pw) (session_frames pw) m ->
  sends (has_password pw) (channel_frames pw) m.
Proof.
  apply sends_weaken. intros f. apply requests_mono. intros a d H. left. exact H.
Qed.

Lemma channel_ensureSession pw fuel :
  sends (has_password pw) (channel_frames pw) (ensureSession fuel).
Proof. apply session_in_channel, sends_ensureSession. Qed.

Lemma channel_sendFileCommand pw cmd :
  sends (has_password pw) (channel_frames pw) (sendFileCommand cmd).
Proof.
  unfold sendFileCommand. apply sends_writeRegister. right; left. reflexivity.
Qed.

Lemma channel_closeFileChannel pw :
  sends (has_password pw) (channel_frames pw) closeFileChannel.
Proof.
  unfold closeFileChannel, channel_frames.
  apply sends_bind; [apply channel_sendFileCommand|]. intros. sends_walk.
Qed.

Lemma channel_prepareFilePath pw remotePath :
  sends (has_password pw) (channel_frames pw) (prepareFilePath remotePath).
Proof.
  unfold prepareFilePath, channel_frames. destruct remotePath; [sends_walk|].
  apply sends_bind; [apply channel_sendFileCommand|]. intros. sends_walk.
  apply sends_write. right; right. reflexivity.
Qed.

Lemma file_data_writes_none evs : sent_frames evs = [] -> file_data_writes evs = [].
Proof. unfold file_data_writes. intros ->. reflexivity. Qed.

Lemma file_data_writes_one evs id data bytes :
  sent_frames evs = [UVCPWriteMemoryCmd id kTerminalFileDataAddr data bytes] ->
  file_data_writes evs = [firstn (Z.to_nat bytes) data].
Proof.
  unfold file_data_writes. intros ->. cbn [filter].
  unfold is_write_to. rewrite frame_command_write, frame_address_write.
  reflexivity.
Qed.

Lemma firstn_overwrite buffer (slice : bstring) :
  firstn (length slice) (overwrite buffer slice) = slice.
Proof.
  unfold overwrite. rewrite firstn_app, Nat.sub_diag, firstn_O, app_nil_r.
  apply firstn_all.
Qed.

Lemma uploads_ret pw content {A} (a : A) : uploads pw content (ret a).
Proof.
  intros s Hs. split; [exact Hs|]. exists [], 0%nat.
  cbn. rewrite app_nil_r. auto.
Qed.

Lemma uploads_upload_loop pw fuel :
  forall rest buffer totalBytes bytesSent printed,
    uploads pw rest (upload_loop fuel rest buffer totalBytes bytesSent printed).
Proof.
  induction fuel as [|fuel IH]; intros rest buffer totalBytes bytesSent printed;
    cbn [upload_loop].
  { apply uploads_channel. sends_walk. }
  cbv zeta.
  set (slice := firstn (Z.to_nat kTerminalFileDataWindow) rest).
  set (got := Z.of_nat (length slice)).
  destruct (got <=? 0) eqn:Eg; [apply uploads_ret|].
  assert (Hgot : 0 < got <= 64).
  { unfold got, slice. rewrite length_firstn.
    change (Z.to_nat kTerminalFileDataWindow) with 64%nat.
    unfold got, slice in Eg. rewrite length_firstn in Eg.
    change (Z.to_nat kTerminalFileDataWindow) with 64%nat in Eg. lia. }
  rewrite (uint16_small got) by lia.
  set (data := overwrite buffer slice).
  assert (Hfit : got <= Z.of_nat (length data)).
  { pose proof (length_overwrite buffer slice). unfold got, data. lia. }
  assert (Hk : forall ok,
             (ok = false -> forall s, exists a,
                 (if negb ok then ret (false, printed)
                  else
                    r <- readFileStatus ;;
                    match r with
                    | None => ret (false, printed)
                    | Some status =>
                        if has_bit status kFileStatusError then
                          ok <- checkFileError (B "u3vput") ;; ret (ok, printed)
                        else
                          cout (UploadProgress (bytesSent + got) totalBytes) ;;
                          if got <? kTerminalFileDataWindow then ret (true, true)
                          else upload_loop fuel
                                 (skipn (Z.to_nat kTerminalFileDataWindow) rest)
                                 data totalBytes (bytesSent + got) true
                    end) s = Done a s) /\
             uploads pw (skipn (Z.to_nat kTerminalFileDataWindow) rest)
               (if negb ok then ret (false, printed)
                else
                  r <- readFileStatus ;;
                  match r with
                  | None => ret (false, printed)
                  | Some status =>
                      if has_bit status kFileStatusError then
                        ok <- checkFileError (B "u3vput") ;; ret (ok, printed)
                      else
                        cout (UploadProgress (bytesSent + got) totalBytes) ;;
                        if got <? kTerminalFileDataWindow then ret (true, true)
                        else upload_loop fuel
                               (skipn (Z.to_nat kTerminalFileDataWindow) rest)
                               data totalBytes (bytesSent + got) true
                  end)).
  { intros ok. split.
    - intros ->. cbn [negb]. intros s. eexists. reflexivity.
    - destruct ok; cbn [negb]; [|apply uploads_ret].
      apply uploads_after; [unfold channel_frames; sends_walk|].
      intros [status|]; [|apply uploads_ret].
      destruct (has_bit status kFileStatusError).
      { apply uploads_channel. unfold channel_frames. sends_walk. }
      apply uploads_after; [unfold channel_frames; sends_walk|]. intros _.
      destruct (got <? kTerminalFileDataWindow); [apply uploads_ret | apply IH]. }
  intros s Hs.
  pose proof (writeMemory_trace kTerminalFileDataAddr data got s Hfit) as Tw.
  destruct (writeMemory_frames kTerminalFileDataAddr data got s Hfit) as (Te & Hfr).
  set (evs := events_of (writeMemory kTerminalFileDataAddr data got) s) in *.
  unfold sent_by in Hfr. fold evs in Hfr.
  assert (Hslice : firstn (Z.to_nat got) data = slice).
  { unfold got, data. rewrite Nat2Z.id. apply firstn_overwrite. }
  destruct (writeMemory kTerminalFileDataAddr data got s) as [ok s1|s1|s1] eqn:Ew;
    cbn [state_of] in *;
    [rewrite (bind_Done _ _ _ _ _ Ew) | rewrite (bind_Undefined _ _ _ _ Ew)
    | destruct (writeMemory_cost kTerminalFileDataAddr data got s Hfit)
        as (_ & ok & s2 & E2); congruence ].
  - destruct (Hk ok) as (Hfalse & Hup).
    destruct (Hup s1 ltac:(unfold has_password in *; rewrite Te; exact Hs))
      as (Hi & evs2 & k & T2 & P2).
    split; [exact Hi|].
    destruct Hfr as [(F & [Hc|Hz])|(F & _)]; [| lia |].
    + destruct (writeMemory_unclaimed kTerminalFileDataAddr data got s Hc) as (s2 & E2).
      assert (ok = false) as -> by congruence.
      destruct (Hfalse eq_refl s1) as (a & Ea).
      exists evs, 0%nat. rewrite Ea. cbn [state_of]. split; [exact Tw|].
      rewrite (file_data_writes_none _ F). reflexivity.
    + exists (evs ++ evs2), (length slice + k)%nat.
      rewrite T2, Tw, <- app_assoc. split; [reflexivity|].
      rewrite file_data_writes_app, (file_data_writes_one _ _ _ _ F), Hslice.
      cbn [app concat]. rewrite P2.
      assert (Hlen : (length slice = 64)%nat \/ skipn 64 rest = []).
      { unfold slice. rewrite length_firstn.
        change (Z.to_nat kTerminalFileDataWindow) with 64%nat.
        destruct (Nat.le_gt_cases 64 (length rest)); [left; lia|].
        right. apply skipn_all2. lia. }
      change (Z.to_nat kTerminalFileDataWindow) with 64%nat.
      destruct Hlen as [Hl|Hl].
      * rewrite Hl. apply firstn_firstn_skipn.
      * assert (Hr : (length rest <= 64)%nat).
        { pose proof (length_skipn 64 rest) as L. rewrite Hl in L. cbn in L. lia. }
        rewrite Hl, firstn_nil, app_nil_r. unfold slice.
        change (Z.to_nat kTerminalFileDataWindow) with 64%nat.
        rewrite (firstn_all2 (n := 64)) by lia.
        symmetry. apply firstn_all2. lia.
  - cbn [state_of].
    split; [unfold has_password in *; rewrite Te; exact Hs|].
    destruct Hfr as [(F & _)|(F & _)].
    + exists evs, 0%nat. split; [exact Tw|].
      rewrite (file_data_writes_none _ F). reflexivity.
    + exists evs, (length slice). split; [exact Tw|].
      rewrite (file_data_writes_one _ _ _ _ F), Hslice. cbn [concat].
      rewrite app_nil_r. rewrite <- (firstn_all slice) at 1.
      unfold slice. rewrite firstn_firstn. f_equal.
      rewrite length_firstn. lia.
Qed.

Lemma uploads_performFileUpload pw fuel localPath remotePath content s :
  file_lookup localPath (w_files (world s)) = Some content ->
  has_password pw (terminal s) ->
  exists evs k,
    trace (state_of (performFileUpload fuel localPath remotePath s))
      = trace s ++ evs /\
    concat (file_data_writes evs) = firstn k content.
Proof.
  intros Hf Hs. unfold performFileUpload.
  rewrite (bind_Done (ifstream_open localPath) _ s (Some content) s)
    by (unfold ifstream_open, get; rewrite Hf; reflexivity).
  cbv zeta.
  match goal with
  | |- context [state_of (?m s)] =>
      enough (U : uploads pw content m) by exact (proj2 (U s Hs))
  end.
  apply uploads_after; [apply channel_ensureSession|].
  intros []; cbn [negb]; [|apply uploads_ret].
  apply uploads_after; [apply channel_prepareFilePath|].
  intros []; cbn [negb]; [|apply uploads_ret].
  apply uploads_after; [apply channel_sendFileCommand|].
  intros []; cbn [negb]; [|apply uploads_ret].
  apply uploads_after; [unfold channel_frames; apply sends_waitForFileOpen|].
  intros []; cbn [negb].
  2:{ apply uploads_channel. unfold channel_frames.
      apply sends_bind; [apply channel_closeFileChannel|]. intros. sends_walk. }
  apply uploads_before; [apply uploads_upload_loop|].
  intros [success printed]. unfold channel_frames.
  apply sends_bind; [apply channel_closeFileChannel|]. intros closed.
  destruct printed, (success && closed); sends_walk.
Qed.

(** X20 ([performFileUpload], [upload_loop]): an upload writes the local file
    to the FileData window in order and nothing else: the payloads of all the
    writes to [kTerminalFileDataAddr] that [performFileUpload] makes, taken
    one after the other, are a prefix of the content of the local file,
    whatever the device answers and whether the upload succeeds or not. *)
Theorem upload_sends_file_in_order fuel localPath remotePath content s :
  file_lookup localPath (w_files (world s)) = Some content ->
  exists k,
    concat (file_data_writes
              (events_of (performFileUpload fuel localPath remotePath) s))
      = firstn k content.
Proof.
  intros Hf.
  destruct (uploads_performFileUpload (password_ (terminal s)) fuel localPath
              remotePath content s Hf eq_refl) as (evs & k & T & P).
  exists k. rewrite (events_of_app _ _ _ T). exact P.
Qed.

Lemma upload_sends_file_in_order_witness :
  file_lookup (B "./b.bin") (w_files (world upload_state))
    = Some (repeat "y"%byte 100) /\
  concat (file_data_writes
            (events_of (performFileUpload 10 (B "./b.bin") (B "/tmp/b.bin"))
               upload_state))
    = repeat "y"%byte 100 /\
  exists k,
    concat (file_data_writes
              (events_of (performFileUpload 10 (B "./b.bin") (B "/tmp/b.bin"))
                 upload_state))
      = firstn k (repeat "y"%byte 100).
Proof.
  split; [vm_compute; reflexivity|].
  split; [vm_compute; reflexivity|].
  apply (upload_sends_file_in_order 10 (B "./b.bin") (B "/tmp/b.bin")
           (repeat "y"%byte 100) upload_state).
  vm_compute. reflexivity.
Defined.

(** ** The size of a download read *)

Lemma readMemory_length address bytes s out s' :
  0 <= bytes ->
  readMemory address bytes s = Done (Some out) s' ->
  Z.of_nat (length out) = bytes.
Proof.
  intros Hb H. destruct (Z.eq_dec bytes 0) as [->|Hn].
  - unfold readMemory in H. unfold bind at 1 in H. unfold get in H.
    destruct (claimed_ (device_ s)); cbn [negb] in H; [|run_in H; discriminate].
    change (0 =? 0) with true in H. cbv iota in H. unfold ret in H.
    injection H as <- _. reflexivity.
  - destruct (readMemory_success address bytes s out s' ltac:(lia) H)
      as (received & f & stale & _ & _ & _ & _ & _ & _ & _ & L).
    exact L.
Qed.

(** X21 ([performFileDownload], the loop): the count of a download read is
    cut to 16 bits, the count of the local write is not.  When the device
    announces 65536 bytes or more in FileDataAvail and answers the read of
    the truncated count, the host writes [avail] bytes out of a vector that
    holds fewer: it reads past the end of the vector. *)
Theorem download_overrun :
  forall (fuel : nat) (localPath : bstring) (remoteSize bytesReceived : Z)
         (progressPrinted : bool) (avail : Z) (buffer : bstring)
         (s s1 s2 : State),
    readFileDataAvail s = Done (Some avail) s1 ->
    65536 <= avail ->
    readMemory kTerminalFileDataAddr (uint16 avail) s1 = Done (Some buffer) s2 ->
    Z.of_nat (length buffer) < avail /\
    download_loop (S fuel) localPath remoteSize bytesReceived progressPrinted s
      = Undefined s2.
Proof.
  intros fuel localPath remoteSize bytesReceived progressPrinted avail buffer
         s s1 s2 Ha Hbig Hr.
  pose proof (uint16_range avail) as Hu.
  pose proof (readMemory_length _ _ _ _ _ (proj1 Hu) Hr) as L.
  split; [lia|].
  cbn [download_loop]. rewrite (bind_Done _ _ _ _ _ Ha).
  destruct (Z.eqb_spec avail 0) as [E0|E0]; [lia|].
  rewrite (bind_Done _ _ _ _ _ Hr).
  destruct (Z.ltb_spec (Z.of_nat (length buffer)) avail) as [El|El];
    [reflexivity | lia].
Qed.

Lemma download_overrun_witness :
  readFileDataAvail overrun_state
    = Done (Some 65600) (state_of (readFileDataAvail overrun_state)) /\
  65536 <= 65600 /\
  readMemory kTerminalFileDataAddr (uint16 65600)
      (state_of (readFileDataAvail overrun_state))
    = Done (Some (repeat x00 64))
        (state_of (readMemory kTerminalFileDataAddr (uint16 65600)
                     (state_of (readFileDataAvail overrun_state)))) /\
  Z.of_nat (length (repeat x00 64)) < 65600 /\
  download_loop 1 (B "./a.bin") 0 0 false overrun_state
    = Undefined
        (state_of (readMemory kTerminalFileDataAddr (uint16 65600)
                     (state_of (readFileDataAvail overrun_state)))).
Proof.
  assert (Ha : readFileDataAvail overrun_state
               = Done (Some 65600) (state_of (readFileDataAvail overrun_state)))
    by (vm_compute; reflexivity).
  assert (Hr : readMemory kTerminalFileDataAddr (uint16 65600)
                 (state_of (readFileDataAvail overrun_state))
               = Done (Some (repeat x00 64))
                   (state_of (readMemory kTerminalFileDataAddr (uint16 65600)
                                (state_of (readFileDataAvail overrun_state)))))
    by (vm_compute; reflexivity).
  split; [exact Ha|]. split; [lia|]. split; [exact Hr|].
  apply (download_overrun 0 (B "./a.bin") 0 0 false 65600 (repeat x00 64)
           overrun_state _ _ Ha ltac:(lia) Hr).
Defined.

(** ** The loop of [drainOutput] *)

(** A register read that delivers a value has taken a bulk OUT and a bulk IN
    transfer at least. *)
Lemma readRegister_takes addr s :
  0 <= w_latency (world s) ->
  exists evs,
    trace (state_of (readRegister addr s)) = trace s ++ evs /\
    (length (sent_frames evs) <= 1)%nat /\
    w_latency (world (state_of (readRegister addr s))) = w_latency (world s) /\
    w_now (world s) <= w_now (world (state_of (readRegister addr s))) /\
    (forall s', readRegister addr s <> OutOfFuel s') /\
    (forall v s1, readRegister addr s = Done (Some v) s1 ->
       w_now (world s) + 2 * w_latency (world s) <= w_now (world s1)).
Proof.
  intros Hl.
  destruct (readRegister_step addr s) as (evs & T & F & La & No & Hf).
  exists evs. repeat (split; [solve [auto]|]).
  intros v s1 E.
  assert (Hm : exists raw, readMemory addr 4 s = Done (Some raw) s1).
  { unfold readRegister, readRegisters in E. change (1 =? 0) with false in E.
    cbv iota zeta in E. change (uint16 (1 * 4)) with 4 in E. unfold bind in E.
    destruct (readMemory addr 4 s) as [[raw|] s2|s2|s2];
      [|unfold ret in E; discriminate E|discriminate E|discriminate E].
    destruct (Z.of_nat (length raw) <? 1 * 4);
      [unfold undefined in E; discriminate E|].
    unfold ret in E. injection E as _ <-. eauto. }
  destruct Hm as (raw & Hm).
  destruct (readMemory_success addr 4 s raw s1 ltac:(lia) Hm)
    as (received & f & stale & Hin & _).
  destruct (readMemory_cost addr 4 s)
    as ((outs & ins & evs' & _ & _ & Hz & _ & I & _ & _ & _ & Pos & _ & _ & N & _) & _).
  rewrite Hm in I, N. cbn [state_of] in I, N.
  pose proof (total_sleeps_nonneg _ Pos) as Hp.
  assert (Hi : (1 <= ins)%nat).
  { pose proof (f_equal (@length _) I) as L. rewrite length_skipn in L.
    pose proof (f_equal (@length _) Hin) as L2. rewrite length_app in L2.
    cbn [length] in L2. lia. }
  assert (Ho : (1 <= outs)%nat) by (destruct outs; [specialize (Hz eq_refl)|]; lia).
  rewrite N. nia.
Qed.

Lemma cerr_effect d s :
  exists s1, cerr d s = Done tt s1 /\
    trace s1 = trace s ++ [Cerr d] /\
    w_latency (world s1) = w_latency (world s) /\
    w_now (world s1) = w_now (world s).
Proof. eexists; split; [reflexivity|]. cbn. auto. Qed.

(** The two warnings of an iteration send nothing and take no time. *)
Lemma drainOutput_warnings {B} (c1 c2 warned : bool) (k : bool -> M B) s :
  exists w s1 evs,
    bind (if c1 then cerr OverflowWarning ;; ret true else ret warned)
         (fun w => bind (if c2 then cerr TerminalErrorBit else ret tt)
                        (fun _ => k w)) s = k w s1 /\
    trace s1 = trace s ++ evs /\ sent_frames evs = [] /\
    w_latency (world s1) = w_latency (world s) /\
    w_now (world s1) = w_now (world s).
Proof.
  destruct c1, c2; unfold bind, cerr, emit, ret; cbv beta iota;
    do 3 eexists; (split; [reflexivity|]); unfold trace; cbn.
  - split; [rewrite <- app_assoc; reflexivity|]. cbn. auto.
  - split; [reflexivity|]. cbn. auto.
  - split; [reflexivity|]. cbn. auto.
  - split; [symmetry; apply app_nil_r|]. cbn. auto.
Qed.

Lemma drainOutput_loop_bound (n : nat) :
  forall fuel out lastData deadline idleTimeout warned s,
    1 <= w_latency (world s) ->
    deadline <= w_now (world s) + 4 * w_latency (world s) * Z.of_nat n ->
    (exists evs,
       trace (state_of (drainOutput_loop fuel out lastData deadline idleTimeout
                          warned s)) = trace s ++ evs /\
       (length (sent_frames evs) <= 3 * n)%nat) /\
    ((n <= fuel)%nat ->
     forall s', drainOutput_loop fuel out lastData deadline idleTimeout warned s
                <> OutOfFuel s').
Proof.
  induction n as [|n IH]; intros fuel out lastData deadline idleTimeout warned s Hl Hd.
  - assert (E : drainOutput_loop fuel out lastData deadline idleTimeout warned s
                = Done (true, out) s).
    { destruct fuel; cbn [drainOutput_loop]; unfold bind at 1, now, get;
        (destruct (Z.ltb_spec (w_now (world s)) deadline); [lia|]); reflexivity. }
    rewrite E. split; [|never].
    exists []. rewrite app_nil_r. split; [reflexivity | cbn; lia].
  - destruct fuel as [|fuel]; cbn [drainOutput_loop];
      rewrite (bind_Done now _ s (w_now (world s)) s eq_refl);
      (destruct (w_now (world s) <? deadline) eqn:Et; cbn [negb];
       [|split; [exists []; rewrite app_nil_r; split; [reflexivity | cbn; lia]
               | never]]).
    + split; [|lia]. exists []. rewrite app_nil_r. split; [reflexivity|cbn; lia].
    + destruct (readRegister_takes kTerminalStatusAddr s ltac:(lia))
        as (evs & T & F & La & No & Hf & Hs).
      destruct (readRegister kTerminalStatusAddr s) as [[status|] s1|s1|s1] eqn:Er;
        cbn [state_of] in *;
        [rewrite (bind_Done _ _ _ _ _ Er) | rewrite (bind_Done _ _ _ _ _ Er)
        |rewrite (bind_Undefined _ _ _ _ Er) | destruct (Hf s1 eq_refl)];
        cbn [state_of].
      2,3: split; [exists evs; split; [exact T | lia] | never].
      specialize (Hs status s1 eq_refl).
      match goal with
      | |- context [bind _ (fun x => bind _ (fun _ => @?k x)) s1] =>
          destruct (drainOutput_warnings
                      (has_bit status kStatusOverflow && negb warned)
                      (has_bit status kStatusError) warned k s1)
            as (wo & s2 & evs2 & E2 & T2 & F2 & La2 & No2)
      end.
      cbv beta in E2. rewrite E2. clear E2.
      destruct (readRegister_takes kTerminalAvailAddr s2 ltac:(lia))
        as (evs3 & T3 & F3 & La3 & No3 & Hf3 & Hs3).
      destruct (readRegister kTerminalAvailAddr s2) as [[available|] s3|s3|s3] eqn:Er3;
        cbn [state_of] in *;
        [rewrite (bind_Done _ _ _ _ _ Er3) | rewrite (bind_Done _ _ _ _ _ Er3)
        |rewrite (bind_Undefined _ _ _ _ Er3) | destruct (Hf3 s3 eq_refl)];
        cbn [state_of].
      2,3: unfold ret; cbn [state_of]; split; [|never];
        exists (evs ++ evs2 ++ evs3); rewrite T3, T2, T, <- !app_assoc; (split; [reflexivity|]);
        rewrite !sent_frames_app, !length_app, F2; cbn; lia.
      specialize (Hs3 available s3 eq_refl).
      assert (Hnow : w_now (world s) + 4 * w_latency (world s) <= w_now (world s3))
        by lia.
      assert (Hlat : w_latency (world s3) = w_latency (world s)) by congruence.
      assert (Ttr : trace s3 = trace s ++ (evs ++ evs2 ++ evs3))
        by (rewrite T3, T2, T, <- !app_assoc; reflexivity).
      assert (Ffr : (length (sent_frames (evs ++ evs2 ++ evs3)) <= 2)%nat)
        by (rewrite !sent_frames_app, !length_app, F2; cbn; lia).
      clear T T2 T3 F F2 F3 La La2 La3 No No2 No3 Hs Hs3 Er Er3 Hf Hf3.
      generalize dependent (evs ++ evs2 ++ evs3). clear evs evs2 evs3.
      intros evs Ttr Ffr.
      destruct (available =? 0).
      * rewrite (bind_Done now _ s3 (w_now (world s3)) s3 eq_refl).
        destruct (w_now (world s3) - lastData >? idleTimeout).
        { split; [exists evs; split; [exact Ttr | lia] | never]. }
        destruct (sleep_for_effect 50 s3) as (s4 & E4 & T4 & _ & _ & La4 & No4 & _).
        rewrite (bind_Done _ _ _ _ _ E4).
        destruct (IH fuel out lastData deadline idleTimeout wo s4)
          as ((evs' & T' & F') & Hfuel); [lia | nia |].
        split.
        -- exists (evs ++ Sleep 50 :: evs'). rewrite T', T4, Ttr, <- !app_assoc.
           split; [reflexivity|]. rewrite sent_frames_app, length_app.
           change (sent_frames (Sleep 50 :: evs')) with (sent_frames evs'). lia.
        -- intros Hn. apply Hfuel. lia.
      * rewrite (bind_Done (get _) _ s3 _ s3 eq_refl).
        cbv zeta.
        set (toRead := uint16 (Z.min available (chunkHint_ (terminal s3)))).
        destruct (readMemory_cost kTerminalDataAddr toRead s3)
          as ((outs & ins & evs5 & Ho & _ & _ & _ & _ & T5 & F5 & _ & Pos & _
               & La5 & No5 & _) & Hf5 & _).
        pose proof (total_sleeps_nonneg _ Pos) as Hp.
        destruct (readMemory kTerminalDataAddr toRead s3) as [[buffer|] s5|s5|s5] eqn:Er5;
          cbn [state_of] in *;
          [rewrite (bind_Done _ _ _ _ _ Er5) | rewrite (bind_Done _ _ _ _ _ Er5)
          |rewrite (bind_Undefined _ _ _ _ Er5) | destruct (Hf5 s5 eq_refl)];
          cbn [state_of].
        2,3: unfold ret; cbn [state_of]; split; [|never]; exists (evs ++ evs5);
          rewrite T5, Ttr, <- !app_assoc; (split; [reflexivity|]);
          rewrite !sent_frames_app, !length_app; lia.
        rewrite (bind_Done now _ s5 (w_now (world s5)) s5 eq_refl).
        destruct (IH fuel (out ++ buffer) (w_now (world s5)) deadline idleTimeout wo s5)
          as ((evs' & T' & F') & Hfuel); [lia | nia |].
        split.
        -- exists (evs ++ evs5 ++ evs'). rewrite T', T5, Ttr, <- !app_assoc.
           split; [reflexivity|]. rewrite !sent_frames_app, !length_app. lia.
        -- intros Hn. apply Hfuel. lia.
Qed.

(** X22 ([drainOutput], the loop): the loop that collects the output of the
    terminal gives up, also when the device always has more output and the
    loop never sleeps.  On a bus whose transfers take [latency] >= 1 ms each,
    a round that goes on has taken four transfers at least, so the loop with
    [maxWait] ms to go makes at most [maxWait / (4 * latency) + 1] rounds
    and sends at most three frames in each. *)
Theorem drainOutput_gives_up :
  forall (fuel : nat) (out : bstring) (lastData idleTimeout maxWait : Z)
         (warnedOverflow : bool) (s : State),
    1 <= w_latency (world s) ->
    0 <= maxWait ->
    let deadline := w_now (world s) + maxWait in
    let rounds := Z.to_nat (maxWait / (4 * w_latency (world s)) + 1) in
    (length (sent_by (drainOutput_loop fuel out lastData deadline idleTimeout
                        warnedOverflow) s) <= 3 * rounds)%nat /\
    ((rounds <= fuel)%nat ->
     forall s', drainOutput_loop fuel out lastData deadline idleTimeout
                  warnedOverflow s <> OutOfFuel s').
Proof.
  intros fuel out lastData idleTimeout maxWait warnedOverflow s Hl Hm deadline rounds.
  assert (Hr : deadline <= w_now (world s)
                           + 4 * w_latency (world s) * Z.of_nat rounds).
  { unfold deadline, rounds.
    pose proof (Z.div_pos maxWait (4 * w_latency (world s)) Hm ltac:(lia)).
    pose proof (Z.mod_pos_bound maxWait (4 * w_latency (world s)) ltac:(lia)).
    pose proof (Z.div_mod maxWait (4 * w_latency (world s)) ltac:(lia)).
    rewrite Z2Nat.id by lia. nia. }
  destruct (drainOutput_loop_bound rounds fuel out lastData deadline idleTimeout
              warnedOverflow s Hl Hr) as ((evs & T & F) & Hf).
  unfold sent_by. rewrite (events_of_app _ _ _ T). auto.
Qed.

Lemma drainOutput_gives_up_witness :
  1 <= w_latency (world chatty_state) /\
  drainOutput_loop 3 [] 0 (0 + 5000) 200 false chatty_state
    = Done (true, B "ab")
        (state_of (drainOutput_loop 3 [] 0 (0 + 5000) 200 false chatty_state)) /\
  (length (sent_by (drainOutput_loop 3 [] 0 (0 + 5000) 200 false) chatty_state)
   <= 3 * 3)%nat /\
  ((3 <= 3)%nat ->
   forall s', drainOutput_loop 3 [] 0 (0 + 5000) 200 false chatty_state
              <> OutOfFuel s').
Proof.
  split; [cbn; lia|]. split; [vm_compute; reflexivity|].
  apply (drainOutput_gives_up 3 [] 0 200 5000 false chatty_state); cbn; lia.
Defined.

(** ** The probe of the terminal *)

(** X23 ([initialize]): probing the terminal is read-only.  Whatever the
    device answers, every frame that [initialize] sends is a READ_MEMORY_CMD,
    and a client that is initialized already sends nothing at all. *)
Theorem initialize_only_reads :
  forall s : State,
    Forall (fun f => frame_command f = COMMAND_READ_MEMORY_CMD)
           (sent_by initialize s) /\
    (initialized_ (terminal s) = true -> initialize s = Done true s).
Proof.
  intros s. split.
  - assert (H : sends (fun _ => True) (frames (requests (fun _ _ => False)))
                  initialize)
      by (unfold initialize; sends_walk).
    apply Forall_forall. intros f Hf.
    destruct (sent_by_sends _ _ _ s f H Logic.I Hf)
      as [(id & a & n & ->) | (id & a & d & n & _ & [])].
    apply frame_command_read.
  - intros Hi. unfold initialize, bind, get. rewrite Hi. reflexivity.
Qed.
